(** * SlabHash: a shallow embedding of the warp-cooperative slab hash table

    The development follows the index-addressed variant of the table
    (class [SlabHashContext] / [SlabHash]) and the built-in hash of the
    packed variant ([GpuSlabHashContext::computeBucket]).

    A warp is modelled in lockstep, as the SIMT code runs: every per-lane
    variable of the source is a vector with one entry per lane, the
    warp-uniform variables ([work_queue], [curr_slab_ptr]) are single values,
    and the warp intrinsics ([__ballot_sync], [__ffs], [__shfl_sync],
    [__popc]) are written out on 32-bit words.  Device memory is passed
    explicitly.  Other warps act on the memory through environment
    transitions placed between the memory accesses of one iteration. *)

From Stdlib Require Import ZArith Lia.
From Stdlib Require SpecFloat.
From stdpp Require Import base list gmap.

Local Open Scope Z_scope.

(** ** Constants *)

(** Modelled from the spec: the constants of the headers the sources include
    but that are not part of the sources at hand.  A slab has 32 words, one
    per lane; lanes 0..30 hold pair indices, lane 31 the next-slab index;
    both empty sentinels are the all-ones word; the head marker is a reserved
    index. *)
Definition WARP_WIDTH : Z := 32.
Definition BASE_UNIT_SIZE : Z := 32.
Definition EMPTY_PAIR_PTR : Z := 0xFFFFFFFF.
Definition EMPTY_SLAB_PTR : Z := 0xFFFFFFFF.
Definition HEAD_SLAB_PTR : Z := 0xFFFFFFFE.
Definition NULL_ITERATOR : Z := 0xFFFFFFFF.
Definition NEXT_SLAB_PTR_LANE : Z := 31.
Definition ACTIVE_LANES_MASK : Z := 0xFFFFFFFF.
Definition PAIR_PTR_LANES_MASK : Z := 0x7FFFFFFF.
Definition BLOCKSIZE_ : Z := 128.
Definition PRIME_DIVISOR_ : Z := 4294967291.

(** Unsigned 32-bit and 64-bit wrap-around, and the reading of a 32-bit
    pattern as a signed [int]. *)
Definition wrap32 (x : Z) : Z := x mod 2 ^ 32.
Definition wrap64 (x : Z) : Z := x mod 2 ^ 64.
Definition to_int32 (x : Z) : Z :=
  let u := wrap32 x in if u <? 2 ^ 31 then u else u - 2 ^ 32.

(** The C++ [double]: IEEE 754 binary64, 53 bits of precision.  The
    conversion of an integer rounds to the nearest double, ties to even, and
    so does the division; a zero divisor gives an infinity, or NaN when the
    dividend is zero too. *)
Definition double : Type := SpecFloat.spec_float.

Definition double_of_Z (z : Z) : double := SpecFloat.binary_normalize 53 1024 z 0 false.

Definition double_div (x y : double) : double := SpecFloat.SFdiv 53 1024 x y.

(** ** Warp intrinsics *)

(** The word whose bit [i] is the [i]-th predicate. *)
Fixpoint bits_of (preds : list bool) : Z :=
  match preds with
  | [] => 0
  | p :: ps => (if p then 1 else 0) + 2 * bits_of ps
  end.

(** [__ballot_sync(mask, pred)]: the lanes of [mask] vote. *)
Definition __ballot_sync (mask : Z) (preds : list bool) : Z :=
  Z.land mask (bits_of preds).

Fixpoint ffs_from (n : nat) (i : Z) (w : Z) : Z :=
  match n with
  | O => 0
  | S n' => if Z.testbit w i then i + 1 else ffs_from n' (i + 1) w
  end.

(** [__ffs(w)]: one plus the position of the least significant set bit of a
    32-bit word, 0 when there is none. *)
Definition __ffs (w : Z) : Z := ffs_from 32 0 w.

Fixpoint popc_from (n : nat) (i : Z) (w : Z) : Z :=
  match n with
  | O => 0
  | S n' => (if Z.testbit w i then 1 else 0) + popc_from n' (i + 1) w
  end.

(** [__popc(w)]: number of set bits of a 32-bit word. *)
Definition __popc (w : Z) : Z := popc_from 32 0 w.

(** [__shfl_sync(mask, var, srcLane, width)]: every lane receives the value
    that lane [srcLane mod width] holds. *)
Definition __shfl_sync {A} `{Inhabited A} (var : list A) (srcLane : Z) (width : Z) : A :=
  var !!! Z.to_nat (srcLane mod width).

(** ** Device memory *)

(** Word arrays.  An access outside the array is undefined in the source;
    the model reads the all-ones word there and drops the write. *)
Definition rd (l : list Z) (a : Z) : Z :=
  if a <? 0 then 0xFFFFFFFF else default 0xFFFFFFFF (l !! Z.to_nat a).

Definition wr (l : list Z) (a v : Z) : list Z :=
  if a <? 0 then l else <[Z.to_nat a := v]> l.

(** The words of the slab pool, kept as a finite map from word index to
    word: a word that was never written reads all-ones, the pattern the pool
    is initialised with. *)
Definition rd_unit (u : gmap Z Z) (a : Z) : Z := default 0xFFFFFFFF (u !! a).

Definition wr_unit (u : gmap Z Z) (a v : Z) : gmap Z Z := <[a := v]> u.

(** Modelled from the spec: the slab allocator ([slab_alloc.h] is not among
    the sources).  Storage is a pool of 32-word slabs; every 32-bit bitmap
    word covers 32 slabs, a super-block has
    [NUM_MEM_BLOCKS_PER_SUPER_BLOCK_ * 32] bitmap words, and a set bit marks
    an allocated slab.  Allocation flips the first clear bit, free clears
    it again. *)
Record SlabAllocContext := {
  num_super_blocks_ : Z;
  NUM_MEM_BLOCKS_PER_SUPER_BLOCK_ : Z;
  bitmaps_ : list Z;
  units_ : gmap Z Z
}.

Definition get_ptr_for_bitmap (a : SlabAllocContext) (super_block tid : Z) : Z :=
  super_block * (NUM_MEM_BLOCKS_PER_SUPER_BLOCK_ a * 32) + tid.

Fixpoint find_bitmap (g : Z) (bs : list Z) : option (Z * Z) :=
  match bs with
  | [] => None
  | b :: bs' => if b =? 0xFFFFFFFF then find_bitmap (g + 1) bs' else Some (g, b)
  end.

Definition WarpAllocate (a : SlabAllocContext) : option (Z * SlabAllocContext) :=
  match find_bitmap 0 (bitmaps_ a) with
  | None => None
  | Some (g, b) =>
      let bit := __ffs (Z.lxor b 0xFFFFFFFF) - 1 in
      Some (g * 32 + bit,
            {| num_super_blocks_ := num_super_blocks_ a;
               NUM_MEM_BLOCKS_PER_SUPER_BLOCK_ := NUM_MEM_BLOCKS_PER_SUPER_BLOCK_ a;
               bitmaps_ := wr (bitmaps_ a) g (Z.lor b (Z.shiftl 1 bit));
               units_ := units_ a |})
  end.

Definition FreeUntouched (slab_ptr : Z) (a : SlabAllocContext) : SlabAllocContext :=
  let g := slab_ptr / 32 in
  let bit := slab_ptr mod 32 in
  {| num_super_blocks_ := num_super_blocks_ a;
     NUM_MEM_BLOCKS_PER_SUPER_BLOCK_ := NUM_MEM_BLOCKS_PER_SUPER_BLOCK_ a;
     bitmaps_ := wr (bitmaps_ a) g (Z.ldiff (rd (bitmaps_ a) g) (Z.shiftl 1 bit));
     units_ := units_ a |}.

(** A slab allocator with [nsb] super-blocks of [nmb] memory blocks, nothing
    allocated, every slab word all-ones. *)
Definition SlabAlloc (nsb nmb : Z) : SlabAllocContext :=
  {| num_super_blocks_ := nsb;
     NUM_MEM_BLOCKS_PER_SUPER_BLOCK_ := nmb;
     bitmaps_ := replicate (Z.to_nat (nsb * nmb * 32)) 0;
     units_ := ∅ |}.

Section Model.
Context {Key Value : Type} {Key_eq : EqDecision Key} {Key_inh : Inhabited Key}
        {Value_inh : Inhabited Value}.

(** Modelled from the spec: the pair allocator ([memory_alloc.h] is not among
    the sources).  An index-addressed pool of (key, value) records with a
    free list: [Allocate] takes the first free index and fails when the pool
    is exhausted, [Free] puts an index back, [extract] addresses a record. *)
Record MemoryAllocContext := {
  heap_ : list Z;
  data_ : gmap Z (Key * Value)
}.

Definition Allocate (c : MemoryAllocContext) : option (Z * MemoryAllocContext) :=
  match heap_ c with
  | [] => None
  | p :: h => Some (p, {| heap_ := h; data_ := data_ c |})
  end.

Definition Free (p : Z) (c : MemoryAllocContext) : MemoryAllocContext :=
  {| heap_ := p :: heap_ c; data_ := data_ c |}.

Definition extract (c : MemoryAllocContext) (p : Z) : option (Key * Value) :=
  data_ c !! p.

Definition store_pair (c : MemoryAllocContext) (p : Z) (kv : Key * Value) : MemoryAllocContext :=
  {| heap_ := heap_ c; data_ := <[p := kv]> (data_ c) |}.

Definition MemoryAlloc (max_capacity : Z) : MemoryAllocContext :=
  {| heap_ := seqZ 0 max_capacity; data_ := ∅ |}.

(** [SlabHashContext] together with the device memory its pointers reach. *)
Record SlabHashContext := {
  num_buckets_ : Z;
  hash_fn_ : Key → Z;
  bucket_list_head_ : list Z;
  slab_list_allocator_ctx_ : SlabAllocContext;
  pair_allocator_ctx_ : MemoryAllocContext
}.

Definition set_bucket_list_head (m : SlabHashContext) (h : list Z) : SlabHashContext :=
  {| num_buckets_ := num_buckets_ m; hash_fn_ := hash_fn_ m;
     bucket_list_head_ := h;
     slab_list_allocator_ctx_ := slab_list_allocator_ctx_ m;
     pair_allocator_ctx_ := pair_allocator_ctx_ m |}.

Definition set_slab_alloc (m : SlabHashContext) (a : SlabAllocContext) : SlabHashContext :=
  {| num_buckets_ := num_buckets_ m; hash_fn_ := hash_fn_ m;
     bucket_list_head_ := bucket_list_head_ m;
     slab_list_allocator_ctx_ := a;
     pair_allocator_ctx_ := pair_allocator_ctx_ m |}.

Definition set_pair_alloc (m : SlabHashContext) (c : MemoryAllocContext) : SlabHashContext :=
  {| num_buckets_ := num_buckets_ m; hash_fn_ := hash_fn_ m;
     bucket_list_head_ := bucket_list_head_ m;
     slab_list_allocator_ctx_ := slab_list_allocator_ctx_ m;
     pair_allocator_ctx_ := c |}.

(** [SlabHashContext::ComputeBucket]. *)
Definition ComputeBucket (m : SlabHashContext) (key : Key) : Z :=
  hash_fn_ m key mod num_buckets_ m.

(** The word a lane addresses: in the array of head slabs or in the pool. *)
Inductive unit_ptr :=
| HeadUnit (i : Z)
| NodeUnit (i : Z).

Global Instance unit_ptr_eq_dec : EqDecision unit_ptr.
Proof. solve_decision. Defined.

Definition get_unit_ptr_from_list_head (bucket_id lane_id : Z) : unit_ptr :=
  HeadUnit (wrap32 (bucket_id * BASE_UNIT_SIZE) + lane_id).

(** Modelled from the spec: [get_unit_ptr_from_slab] of the slab allocator,
    the word of lane [lane_id] in slab [slab_ptr]. *)
Definition get_unit_ptr_from_list_nodes (slab_ptr lane_id : Z) : unit_ptr :=
  NodeUnit (slab_ptr * 32 + lane_id).

(** The conditional that every access of the three operations evaluates. *)
Definition unit_ptr_of (curr_slab_ptr src_bucket lane : Z) : unit_ptr :=
  if curr_slab_ptr =? HEAD_SLAB_PTR
  then get_unit_ptr_from_list_head src_bucket lane
  else get_unit_ptr_from_list_nodes curr_slab_ptr lane.

Definition deref (m : SlabHashContext) (p : unit_ptr) : Z :=
  match p with
  | HeadUnit i => rd (bucket_list_head_ m) i
  | NodeUnit i => rd_unit (units_ (slab_list_allocator_ctx_ m)) i
  end.

Definition store (m : SlabHashContext) (p : unit_ptr) (v : Z) : SlabHashContext :=
  match p with
  | HeadUnit i => set_bucket_list_head m (wr (bucket_list_head_ m) i v)
  | NodeUnit i =>
      let a := slab_list_allocator_ctx_ m in
      set_slab_alloc m
        {| num_super_blocks_ := num_super_blocks_ a;
           NUM_MEM_BLOCKS_PER_SUPER_BLOCK_ := NUM_MEM_BLOCKS_PER_SUPER_BLOCK_ a;
           bitmaps_ := bitmaps_ a;
           units_ := wr_unit (units_ a) i v |}
  end.

(** [atomicCAS(address, compare, val)]: returns the old word, and writes
    [val] when the old word equals [compare]. *)
Definition atomicCAS (m : SlabHashContext) (p : unit_ptr) (compare val : Z)
  : Z * SlabHashContext :=
  let old := deref m p in
  (old, if old =? compare then store m p val else m).

(** ** Registers of a warp *)

(** One entry per lane for the per-lane variables of the three operations;
    [prev_work_queue] and [curr_slab_ptr] hold the same value in all lanes. *)
Record Warp := {
  lane_active : list bool;
  bucket_id : list Z;
  key : list Key;
  value : list Value;
  prealloc_pair_internal_ptr : list Z;
  iterator : list Z;
  mask : list bool;
  prev_work_queue : Z;
  curr_slab_ptr : Z
}.

(** The lanes' reads of one slab, lane [i] reading word [i]. *)
Definition read_slab (m : SlabHashContext) (curr_slab_ptr src_bucket : Z) : list Z :=
  (λ lane_id, deref m (unit_ptr_of curr_slab_ptr src_bucket lane_id)) <$> seqZ 0 WARP_WIDTH.

(** [pair_allocator_ctx_.extract(ptr).first == key]; an index whose record
    was never written matches no key. *)
Definition key_matches (m : SlabHashContext) (ptr : Z) (k : Key) : bool :=
  match extract (pair_allocator_ctx_ m) ptr with
  | Some kv => bool_decide (kv.1 = k)
  | None => false
  end.

(** [SlabHashContext::WarpFindKey]. *)
Definition is_lane_found (m : SlabHashContext) (src_key : Key) (lane_id : nat) (ptr : Z) : bool :=
  negb (Z.land (Z.shiftl 1 (Z.of_nat lane_id)) PAIR_PTR_LANES_MASK =? 0)
  && negb (ptr =? EMPTY_PAIR_PTR)
  && key_matches m ptr src_key.

Definition WarpFindKey (m : SlabHashContext) (src_key : Key) (unit_data : list Z) : Z :=
  __ffs (__ballot_sync PAIR_PTR_LANES_MASK (imap (is_lane_found m src_key) unit_data)) - 1.

(** [SlabHashContext::WarpFindEmpty]. *)
Definition WarpFindEmpty (unit_data : list Z) : Z :=
  __ffs (__ballot_sync PAIR_PTR_LANES_MASK ((λ ptr, ptr =? EMPTY_PAIR_PTR) <$> unit_data)) - 1.

(** [SlabHashContext::WarpSyncKey], for keys made of whole [int]s: the key of
    lane [lane_id] reaches every lane. *)
Definition WarpSyncKey (key : list Key) (lane_id : Z) : Key :=
  __shfl_sync key lane_id WARP_WIDTH.

(** A per-lane variable as lane [lane_id] sees it. *)
Definition own_reg {A} `{Inhabited A} (var : list A) (lane_id : Z) : A :=
  var !!! Z.to_nat lane_id.

(** [if (lane_id == src_lane) var = x]. *)
Definition upd {A} (var : list A) (src_lane : Z) (x : A) : list A :=
  <[Z.to_nat src_lane := x]> var.

(** ** The work-sharing skeleton *)

(** Step 0 and the cooperative read, which the three loops contain word for
    word: restart from the head when the work queue changed, pick the source
    lane, broadcast its bucket and key, let every lane read one word. *)
Record Scan := {
  s_curr_slab_ptr : Z;
  s_src_lane : Z;
  s_src_bucket : Z;
  s_src_key : Key;
  s_unit_data : list Z
}.

Definition warp_scan (m : SlabHashContext) (work_queue : Z) (w : Warp) : Scan :=
  let curr_slab_ptr :=
    if negb (prev_work_queue w =? work_queue) then HEAD_SLAB_PTR else curr_slab_ptr w in
  let src_lane := __ffs work_queue - 1 in
  let src_bucket := __shfl_sync (bucket_id w) src_lane WARP_WIDTH in
  let src_key := WarpSyncKey (key w) src_lane in
  {| s_curr_slab_ptr := curr_slab_ptr;
     s_src_lane := src_lane;
     s_src_bucket := src_bucket;
     s_src_key := src_key;
     s_unit_data := read_slab m curr_slab_ptr src_bucket |}.

(** The registers after an iteration: the named per-lane variables changed,
    [prev_work_queue := work_queue]. *)
Definition next_regs (w : Warp) (active : list bool) (it : list Z) (mk : list bool)
    (work_queue curr : Z) : Warp :=
  {| lane_active := active;
     bucket_id := bucket_id w;
     key := key w;
     value := value w;
     prealloc_pair_internal_ptr := prealloc_pair_internal_ptr w;
     iterator := it;
     mask := mk;
     prev_work_queue := work_queue;
     curr_slab_ptr := curr |}.

(** ** Search *)

(** One iteration of the loop of [SlabHashContext::Search]. *)
Definition Search_iter (m : SlabHashContext) (work_queue : Z) (w : Warp) : Warp :=
  let s := warp_scan m work_queue w in
  let lane_found := WarpFindKey m (s_src_key s) (s_unit_data s) in
  if 0 <=? lane_found then
    let found_pair_internal_ptr := __shfl_sync (s_unit_data s) lane_found WARP_WIDTH in
    next_regs w (upd (lane_active w) (s_src_lane s) false)
                (upd (iterator w) (s_src_lane s) found_pair_internal_ptr)
                (upd (mask w) (s_src_lane s) true)
                work_queue (s_curr_slab_ptr s)
  else
    let next_slab_ptr := __shfl_sync (s_unit_data s) NEXT_SLAB_PTR_LANE WARP_WIDTH in
    if next_slab_ptr =? EMPTY_SLAB_PTR then
      next_regs w (upd (lane_active w) (s_src_lane s) false) (iterator w) (mask w)
                work_queue (s_curr_slab_ptr s)
    else
      next_regs w (lane_active w) (iterator w) (mask w) work_queue next_slab_ptr.

Fixpoint Search_loop (fuel : nat) (m : SlabHashContext) (w : Warp) : option Warp :=
  let work_queue := __ballot_sync ACTIVE_LANES_MASK (lane_active w) in
  if work_queue =? 0 then Some w
  else match fuel with
       | O => None
       | S fuel' => Search_loop fuel' m (Search_iter m work_queue w)
       end.

(** The local variables of an operation at entry. *)
Definition entry_regs (active : list bool) (bucket_id : list Z) (key : list Key)
    (value : list Value) (prealloc : list Z) : Warp :=
  {| lane_active := active;
     bucket_id := bucket_id;
     key := key;
     value := value;
     prealloc_pair_internal_ptr := prealloc;
     iterator := replicate 32 NULL_ITERATOR;
     mask := replicate 32 false;
     prev_work_queue := 0;
     curr_slab_ptr := HEAD_SLAB_PTR |}.

(** [SlabHashContext::Search] for a whole warp: the final registers hold
    [to_search], and [(iterator, mask)] is the pair each lane returns. *)
Definition Search (fuel : nat) (m : SlabHashContext) (to_search : list bool)
    (bucket_id : list Z) (query_key : list Key) : option Warp :=
  Search_loop fuel m
    (entry_regs to_search bucket_id query_key (replicate 32 inhabitant)
                (replicate 32 EMPTY_PAIR_PTR)).

(** ** Insert *)

(** The pre-loop allocation of [SlabHashContext::Insert], lane after lane. *)
Fixpoint prealloc_lanes (c : MemoryAllocContext) (lanes : list (bool * (Key * Value)))
  : option (list Z * MemoryAllocContext) :=
  match lanes with
  | [] => Some ([], c)
  | (to_be_inserted, kv) :: rest =>
      if to_be_inserted then
        match Allocate c with
        | None => None
        | Some (p, c1) =>
            match prealloc_lanes (store_pair c1 p kv) rest with
            | None => None
            | Some (ps, c2) => Some (p :: ps, c2)
            end
        end
      else
        match prealloc_lanes c rest with
        | None => None
        | Some (ps, c2) => Some (EMPTY_PAIR_PTR :: ps, c2)
        end
  end.

(** One iteration of the loop of [SlabHashContext::Insert].  [env] is what
    other warps do to the memory between this warp's read of the slab and
    its compare-and-swap.  The result is [None] when the slab pool is
    exhausted. *)
Definition Insert_iter (env : SlabHashContext → SlabHashContext)
    (m : SlabHashContext) (work_queue : Z) (w : Warp) : option (Warp * SlabHashContext) :=
  let s := warp_scan m work_queue w in
  let lane_found := WarpFindKey m (s_src_key s) (s_unit_data s) in
  let lane_empty := WarpFindEmpty (s_unit_data s) in
  let m1 := env m in
  let prealloc := own_reg (prealloc_pair_internal_ptr w) (s_src_lane s) in
  if 0 <=? lane_found then
    Some (next_regs w (upd (lane_active w) (s_src_lane s) false) (iterator w) (mask w)
                    work_queue (s_curr_slab_ptr s),
          set_pair_alloc m1 (Free prealloc (pair_allocator_ctx_ m1)))
  else if 0 <=? lane_empty then
    let unit_data_ptr := unit_ptr_of (s_curr_slab_ptr s) (s_src_bucket s) lane_empty in
    let '(old_pair_internal_ptr, m2) := atomicCAS m1 unit_data_ptr EMPTY_PAIR_PTR prealloc in
    if old_pair_internal_ptr =? EMPTY_PAIR_PTR then
      Some (next_regs w (upd (lane_active w) (s_src_lane s) false)
                      (upd (iterator w) (s_src_lane s) prealloc)
                      (upd (mask w) (s_src_lane s) true)
                      work_queue (s_curr_slab_ptr s),
            m2)
    else
      Some (next_regs w (lane_active w) (iterator w) (mask w) work_queue (s_curr_slab_ptr s),
            m2)
  else
    let next_slab_ptr := __shfl_sync (s_unit_data s) NEXT_SLAB_PTR_LANE WARP_WIDTH in
    if negb (next_slab_ptr =? EMPTY_SLAB_PTR) then
      Some (next_regs w (lane_active w) (iterator w) (mask w) work_queue next_slab_ptr, m1)
    else
      match WarpAllocate (slab_list_allocator_ctx_ m1) with
      | None => None
      | Some (new_next_slab_ptr, a) =>
          let m2 := set_slab_alloc m1 a in
          let unit_data_ptr :=
            unit_ptr_of (s_curr_slab_ptr s) (s_src_bucket s) NEXT_SLAB_PTR_LANE in
          let '(old_next_slab_ptr, m3) :=
            atomicCAS m2 unit_data_ptr EMPTY_SLAB_PTR new_next_slab_ptr in
          let m4 :=
            if negb (old_next_slab_ptr =? EMPTY_SLAB_PTR)
            then set_slab_alloc m3 (FreeUntouched new_next_slab_ptr (slab_list_allocator_ctx_ m3))
            else m3 in
          Some (next_regs w (lane_active w) (iterator w) (mask w) work_queue
                          (s_curr_slab_ptr s),
                m4)
      end.

(** The loop of Insert; iteration [i] runs against the [i]-th interference
    of [envs], and undisturbed once [envs] is used up. *)
Fixpoint Insert_loop (fuel : nat) (envs : list (SlabHashContext → SlabHashContext))
    (m : SlabHashContext) (w : Warp) : option (Warp * SlabHashContext) :=
  let work_queue := __ballot_sync ACTIVE_LANES_MASK (lane_active w) in
  if work_queue =? 0 then Some (w, m)
  else match fuel with
       | O => None
       | S fuel' =>
           match Insert_iter (hd id envs) m work_queue w with
           | None => None
           | Some (w', m') => Insert_loop fuel' (tl envs) m' w'
           end
       end.

(** [SlabHashContext::Insert] for a whole warp.  [None] stands for an
    exhausted pool (which the source does not check) or for lack of fuel. *)
Definition Insert (fuel : nat) (envs : list (SlabHashContext → SlabHashContext))
    (m : SlabHashContext) (to_be_inserted : list bool) (bucket_id : list Z)
    (key : list Key) (value : list Value) : option (Warp * SlabHashContext) :=
  match prealloc_lanes (pair_allocator_ctx_ m) (zip to_be_inserted (zip key value)) with
  | None => None
  | Some (prealloc, c) =>
      Insert_loop fuel envs (set_pair_alloc m c)
        (entry_regs to_be_inserted bucket_id key value prealloc)
  end.

(** ** Remove *)

(** One iteration of the loop of [SlabHashContext::Remove].  [env1] acts
    between the warp's read of the slab and the source lane's second read of
    the slot, [env2] between that read and the compare-and-swap. *)
Definition Remove_iter (env1 env2 : SlabHashContext → SlabHashContext)
    (m : SlabHashContext) (work_queue : Z) (w : Warp) : Warp * SlabHashContext :=
  let s := warp_scan m work_queue w in
  let lane_found := WarpFindKey m (s_src_key s) (s_unit_data s) in
  if 0 <=? lane_found then
    let src_pair_internal_ptr := __shfl_sync (s_unit_data s) lane_found WARP_WIDTH in
    let m1 := env1 m in
    let unit_data_ptr := unit_ptr_of (s_curr_slab_ptr s) (s_src_bucket s) lane_found in
    let pair_to_delete := deref m1 unit_data_ptr in
    let m2 := env2 m1 in
    let '(old_key_value_pair, m3) :=
      atomicCAS m2 unit_data_ptr pair_to_delete EMPTY_PAIR_PTR in
    if old_key_value_pair =? pair_to_delete then
      (next_regs w (upd (lane_active w) (s_src_lane s) false) (iterator w)
                 (upd (mask w) (s_src_lane s) true) work_queue (s_curr_slab_ptr s),
       set_pair_alloc m3 (Free src_pair_internal_ptr (pair_allocator_ctx_ m3)))
    else
      (next_regs w (upd (lane_active w) (s_src_lane s) false) (iterator w) (mask w)
                 work_queue (s_curr_slab_ptr s),
       m3)
  else
    let next_slab_ptr := __shfl_sync (s_unit_data s) NEXT_SLAB_PTR_LANE WARP_WIDTH in
    if next_slab_ptr =? EMPTY_SLAB_PTR then
      (* [to_be_deleted = false] is executed by every lane *)
      (next_regs w ((λ _, false) <$> lane_active w) (iterator w) (mask w)
                 work_queue (s_curr_slab_ptr s),
       env2 (env1 m))
    else
      (next_regs w (lane_active w) (iterator w) (mask w) work_queue next_slab_ptr,
       env2 (env1 m)).

Definition Interference : Type :=
  (SlabHashContext → SlabHashContext) * (SlabHashContext → SlabHashContext).

Fixpoint Remove_loop (fuel : nat) (envs : list Interference)
    (m : SlabHashContext) (w : Warp) : option (Warp * SlabHashContext) :=
  let work_queue := __ballot_sync ACTIVE_LANES_MASK (lane_active w) in
  if work_queue =? 0 then Some (w, m)
  else match fuel with
       | O => None
       | S fuel' =>
           let e := hd (id, id) envs in
           let '(w', m') := Remove_iter e.1 e.2 m work_queue w in
           Remove_loop fuel' (tl envs) m' w'
       end.

(** [SlabHashContext::Remove] for a whole warp; [mask] of the final
    registers is the value each lane returns. *)
Definition Remove (fuel : nat) (envs : list Interference) (m : SlabHashContext)
    (to_be_deleted : list bool) (bucket_id : list Z) (key : list Key)
  : option (Warp * SlabHashContext) :=
  Remove_loop fuel envs m
    (entry_regs to_be_deleted bucket_id key (replicate 32 inhabitant)
                (replicate 32 EMPTY_PAIR_PTR)).

(** ** Kernels and the host facade *)

(** The lanes of warp [wid] of a bulk kernel over [num] inputs: thread [tid]
    is active and holds [keys[tid]] and its bucket when [tid < num]; the
    other lanes keep [bucket_id = 0] and an unset key.  The kernels' call of
    the slab allocator's [Init(tid, lane_id)], which picks where a warp
    starts to look for a free slab, has no counterpart: the allocator of the
    model looks from the first bitmap word on. *)
Definition kernel_tids (wid : Z) : list Z := (λ lane_id, wid * 32 + lane_id) <$> seqZ 0 32.

Definition kernel_active (num wid : Z) : list bool :=
  (λ tid, tid <? num) <$> kernel_tids wid.

Definition kernel_keys (keys : list Key) (num wid : Z) : list Key :=
  (λ tid, if tid <? num then keys !!! Z.to_nat tid else inhabitant) <$> kernel_tids wid.

Definition kernel_values (values : list Value) (num wid : Z) : list Value :=
  (λ tid, if tid <? num then values !!! Z.to_nat tid else inhabitant) <$> kernel_tids wid.

Definition kernel_buckets (m : SlabHashContext) (keys : list Key) (num wid : Z) : list Z :=
  (λ tid, if tid <? num then ComputeBucket m (keys !!! Z.to_nat tid) else 0) <$> kernel_tids wid.

(** The warps of a launch of [(num + BLOCKSIZE_ - 1) / BLOCKSIZE_] blocks. *)
Definition launched_warps (num : Z) : list Z :=
  seqZ 0 (wrap32 (num + BLOCKSIZE_ - 1) / BLOCKSIZE_ * (BLOCKSIZE_ / 32)).

(** Write-back of one lane of [SearchKernel]. *)
Definition search_write_back (m : SlabHashContext) (zero : Value) (num : Z) (w : Warp)
    (out : list Value * list Z) (tid_lane : Z * nat) : list Value * list Z :=
  let '(tid, lane) := tid_lane in
  if tid <? num then
    let found : bool := mask w !!! lane in
    let v : Value := if found
             then match extract (pair_allocator_ctx_ m) ((iterator w !!! lane) : Z) with
                  | Some kv => kv.2
                  | None => inhabitant
                  end
             else zero in
    (<[Z.to_nat tid := v]> out.1, <[Z.to_nat tid := if found then 1 else 0]> out.2)
  else out.

(** One warp of [SearchKernel]; [zero] is [_Value(0)]. *)
Definition SearchKernel_warp (fuel : nat) (m : SlabHashContext) (zero : Value)
    (keys : list Key) (num_queries : Z) (out : list Value * list Z) (wid : Z)
  : option (list Value * list Z) :=
  if num_queries <=? wid * 32 then Some out
  else
    match Search fuel m (kernel_active num_queries wid)
                 (kernel_buckets m keys num_queries wid)
                 (kernel_keys keys num_queries wid) with
    | None => None
    | Some w =>
        Some (foldl (search_write_back m zero num_queries w) out
                    (zip (kernel_tids wid) (seq 0 32)))
    end.

Fixpoint SearchKernel_warps (fuel : nat) (m : SlabHashContext) (zero : Value)
    (keys : list Key) (num_queries : Z) (out : list Value * list Z) (wids : list Z)
  : option (list Value * list Z) :=
  match wids with
  | [] => Some out
  | wid :: rest =>
      match SearchKernel_warp fuel m zero keys num_queries out wid with
      | None => None
      | Some out' => SearchKernel_warps fuel m zero keys num_queries out' rest
      end
  end.

(** [SlabHash::Search]: launches [SearchKernel]; the result is the arrays
    [values] and [founds] after the launch.  The table is only read, so
    the warps can be taken one after the other. *)
Definition SlabHash_Search (fuel : nat) (m : SlabHashContext) (zero : Value)
    (keys : list Key) (values : list Value) (founds : list Z) (num_queries : Z)
  : option (list Value * list Z) :=
  SearchKernel_warps fuel m zero keys num_queries (values, founds)
                     (launched_warps num_queries).

(** One warp of [InsertKernel]: the pair that the device [Insert] returns is
    dropped, only the memory goes on. *)
Definition InsertKernel_warp (fuel : nat) (keys : list Key) (values : list Value)
    (num_keys : Z) (m : SlabHashContext) (wid : Z) : option SlabHashContext :=
  if num_keys <=? wid * 32 then Some m
  else
    match Insert fuel [] m (kernel_active num_keys wid)
                 (kernel_buckets m keys num_keys wid)
                 (kernel_keys keys num_keys wid)
                 (kernel_values values num_keys wid) with
    | None => None
    | Some (_, m') => Some m'
    end.

Fixpoint run_warps (step : SlabHashContext → Z → option SlabHashContext)
    (m : SlabHashContext) (wids : list Z) : option SlabHashContext :=
  match wids with
  | [] => Some m
  | wid :: rest =>
      match step m wid with
      | None => None
      | Some m' => run_warps step m' rest
      end
  end.

(** [SlabHash::Insert]: launches [InsertKernel], the warps taken one after
    the other.  The result is the device memory and the two argument arrays
    as the launch leaves them; the function itself returns nothing. *)
Definition SlabHash_Insert (fuel : nat) (m : SlabHashContext)
    (keys : list Key) (values : list Value) (num_keys : Z)
  : option (SlabHashContext * (list Key * list Value)) :=
  match run_warps (InsertKernel_warp fuel keys values num_keys) m
                  (launched_warps num_keys) with
  | None => None
  | Some m' => Some (m', (keys, values))
  end.

(** One warp of [RemoveKernel]. *)
Definition RemoveKernel_warp (fuel : nat) (keys : list Key) (num_keys : Z)
    (m : SlabHashContext) (wid : Z) : option SlabHashContext :=
  if num_keys <=? wid * 32 then Some m
  else
    match Remove fuel [] m (kernel_active num_keys wid)
                 (kernel_buckets m keys num_keys wid)
                 (kernel_keys keys num_keys wid) with
    | None => None
    | Some (_, m') => Some m'
    end.

(** [SlabHash::Remove]. *)
Definition SlabHash_Remove (fuel : nat) (m : SlabHashContext)
    (keys : list Key) (num_keys : Z) : option SlabHashContext :=
  run_warps (RemoveKernel_warp fuel keys num_keys) m (launched_warps num_keys).

(** The constructor [SlabHash::SlabHash]: all head slabs and the pair pool
    fresh.  The geometry of the slab allocator is an argument. *)
Definition SlabHash_new (hash_fn : Key → Z) (max_bucket_count max_keyvalue_count : Z)
    (nsb nmb : Z) : SlabHashContext :=
  {| num_buckets_ := max_bucket_count;
     hash_fn_ := hash_fn;
     bucket_list_head_ := replicate (Z.to_nat (max_bucket_count * 32)) 0xFFFFFFFF;
     slab_list_allocator_ctx_ := SlabAlloc nsb nmb;
     pair_allocator_ctx_ := MemoryAlloc max_keyvalue_count |}.

(** ** Diagnostics *)

Definition occupied_ballot (unit_data : list Z) : Z :=
  __ballot_sync PAIR_PTR_LANES_MASK ((λ ptr, negb (ptr =? EMPTY_PAIR_PTR)) <$> unit_data).

(** The [while (next != EMPTY_SLAB_PTR)] loop of [bucket_count_kernel]. *)
Fixpoint bucket_count_loop (fuel : nat) (m : SlabHashContext) (next count : Z) : option Z :=
  if next =? EMPTY_SLAB_PTR then Some count
  else match fuel with
       | O => None
       | S fuel' =>
           let src_unit_data :=
             (λ lane_id, deref m (get_unit_ptr_from_list_nodes next lane_id))
               <$> seqZ 0 WARP_WIDTH in
           bucket_count_loop fuel' m
             (__shfl_sync src_unit_data 31 32)
             (wrap32 (count + __popc (occupied_ballot src_unit_data)))
       end.

(** The warp of [bucket_count_kernel] that serves bucket [wid]: the value it
    stores into [d_count_result[wid]]. *)
Definition bucket_count_kernel (fuel : nat) (m : SlabHashContext) (wid : Z) : option Z :=
  let src_unit_data :=
    (λ lane_id, deref m (get_unit_ptr_from_list_head wid lane_id)) <$> seqZ 0 WARP_WIDTH in
  bucket_count_loop fuel m (__shfl_sync src_unit_data 31 32)
                    (wrap32 (0 + __popc (occupied_ballot src_unit_data))).

(** [compute_stats_allocators]: the final [d_count_super_block[i]] after a
    launch of [num_cuda_blocks] blocks of 128 threads, the threads
    [tid < num_bitmaps] (an unsigned comparison) each adding the population
    count of one bitmap word. *)
Definition compute_stats_allocators (a : SlabAllocContext) (i : Z) : Z :=
  let num_mem_units := to_int32 (NUM_MEM_BLOCKS_PER_SUPER_BLOCK_ a * 32) in
  let num_cuda_blocks := wrap32 (num_mem_units + 128 - 1) / 128 in
  let num_bitmaps := to_int32 (NUM_MEM_BLOCKS_PER_SUPER_BLOCK_ a * 32) in
  foldl (λ acc tid, wrap32 (acc + __popc (rd (bitmaps_ a) (get_ptr_for_bitmap a i tid))))
        0 (seqZ 0 (Z.min (num_cuda_blocks * 128) (wrap32 num_bitmaps))).

(** The operands of the final division of [SlabHash::ComputeLoadFactor]:
    [total_elements_stored * (sizeof(_Key) + sizeof(_Value))] and
    [total_mem_units * WARP_WIDTH * sizeof(uint32_t)], with the C++ integer
    types written out: [int] accumulators over [uint32_t] counts, [size_t]
    sizes, and [WARP_WIDTH] an unsigned 32-bit constant, as [WARP_WIDTH_] is
    declared in [slab_hash.cuh], so that the first product is taken modulo
    2^32 and the second in 64 bits. *)
Definition load_factor_operands (sizeof_Key sizeof_Value : Z) (num_buckets : Z)
    (h_bucket_count h_count_super_blocks : list Z) : Z * Z :=
  let total_elements_stored :=
    foldl (λ acc c, to_int32 (acc + c)) 0 h_bucket_count in
  let total_mem_units :=
    foldl (λ acc c, to_int32 (acc + c)) (to_int32 num_buckets) h_count_super_blocks in
  (wrap64 (total_elements_stored * (sizeof_Key + sizeof_Value)),
   wrap64 (wrap32 (total_mem_units * WARP_WIDTH) * 4)).

(** [SlabHash::ComputeLoadFactor].  [d_bucket_count] starts zeroed and the
    launch of [num_blocks] blocks of 128 threads has four warps a block, so
    entry [wid] is written when warp [wid] is launched.  The two operands are
    converted to [double] and divided. *)
Definition ComputeLoadFactor (fuel : nat) (sizeof_Key sizeof_Value : Z)
    (m : SlabHashContext) : option double :=
  let num_blocks := wrap32 (wrap32 (num_buckets_ m * 32) + 128 - 1) / 128 in
  match mapM (λ wid, if wid <? num_blocks * 4 then bucket_count_kernel fuel m wid
                     else Some 0)
             (seqZ 0 (num_buckets_ m)) with
  | None => None
  | Some h_bucket_count =>
      let a := slab_list_allocator_ctx_ m in
      let h_count_super_blocks :=
        compute_stats_allocators a <$> seqZ 0 (num_super_blocks_ a) in
      let '(n, d) := load_factor_operands sizeof_Key sizeof_Value (num_buckets_ m)
                                          h_bucket_count h_count_super_blocks in
      Some (double_div (double_of_Z n) (double_of_Z d))
  end.

(** ** Notions of the specification *)

(** A pair slot answers a query for [k]: it is not empty and its record has
    key [k]. *)
Definition live_match (m : SlabHashContext) (k : Key) (ptr : Z) : Prop :=
  ptr ≠ EMPTY_PAIR_PTR ∧ key_matches m ptr k = true.

Global Instance live_match_dec m k ptr : Decision (live_match m k ptr).
Proof. unfold live_match. apply _. Defined.

(** The pair index in the lowest pair slot (lanes 0..30) of a slab that
    answers a query for [k]. *)
Definition slab_lookup (m : SlabHashContext) (k : Key) (unit_data : list Z) : option Z :=
  snd <$> list_find (live_match m k) (take 31 unit_data).

(** [chain m b c l]: starting at slab [c] of bucket [b], the next-slab words
    lead through the slabs [l] and end in the empty sentinel. *)
Inductive chain (m : SlabHashContext) (b : Z) : Z → list Z → Prop :=
| chain_end c :
    read_slab m c b !!! 31%nat = EMPTY_SLAB_PTR →
    chain m b c [c]
| chain_next c l :
    read_slab m c b !!! 31%nat ≠ EMPTY_SLAB_PTR →
    chain m b (read_slab m c b !!! 31%nat) l →
    chain m b c (c :: l).

(** The chain computed, with a bound on its length. *)
Fixpoint chain_of (fuel : nat) (m : SlabHashContext) (b c : Z) : option (list Z) :=
  match fuel with
  | O => None
  | S fuel' =>
      let next := read_slab m c b !!! 31%nat in
      if decide (next = EMPTY_SLAB_PTR) then Some [c]
      else match chain_of fuel' m b next with
           | Some l => Some (c :: l)
           | None => None
           end
  end.

(** The first match along a chain. *)
Fixpoint chain_lookup (m : SlabHashContext) (b : Z) (k : Key) (l : list Z) : option Z :=
  match l with
  | [] => None
  | c :: l' =>
      match slab_lookup m k (read_slab m c b) with
      | Some p => Some p
      | None => chain_lookup m b k l'
      end
  end.

(** The registers once the source lane of work queue [work_queue] has its
    answer [r] and leaves the queue. *)
Definition search_done (w : Warp) (work_queue curr : Z) (r : option Z) : Warp :=
  let src_lane := __ffs work_queue - 1 in
  match r with
  | Some p =>
      next_regs w (upd (lane_active w) src_lane false) (upd (iterator w) src_lane p)
                (upd (mask w) src_lane true) work_queue curr
  | None =>
      next_regs w (upd (lane_active w) src_lane false) (iterator w) (mask w)
                work_queue curr
  end.

(** An iteration that left alone every lane but [src_lane]: the requests of
    all lanes are as they were, and so are the active flag and the result
    of every other lane. *)
Definition serves_only (src_lane : Z) (w w' : Warp) : Prop :=
  bucket_id w' = bucket_id w ∧ key w' = key w ∧ value w' = value w
  ∧ prealloc_pair_internal_ptr w' = prealloc_pair_internal_ptr w
  ∧ ∀ j : nat, j ≠ Z.to_nat src_lane →
      lane_active w' !! j = lane_active w !! j
      ∧ iterator w' !! j = iterator w !! j
      ∧ mask w' !! j = mask w !! j.

(** What the loop of Search owes lane [i]: an active lane leaves the queue
    with the first match of its chain in [(iterator, mask)], or with these
    two as they were when there is no match; the lanes that were not active
    keep their registers. *)
Definition search_outcome (m : SlabHashContext) (w w' : Warp) (i : nat) : Prop :=
  match lane_active w !! i with
  | Some true =>
      lane_active w' !! i = Some false
      ∧ ∀ l, chain m (bucket_id w !!! i) HEAD_SLAB_PTR l →
             match chain_lookup m (bucket_id w !!! i) (key w !!! i) l with
             | Some p => iterator w' !! i = Some p ∧ mask w' !! i = Some true
             | None => iterator w' !! i = iterator w !! i ∧ mask w' !! i = mask w !! i
             end
  | _ =>
      lane_active w' !! i = lane_active w !! i
      ∧ iterator w' !! i = iterator w !! i
      ∧ mask w' !! i = mask w !! i
  end.

(** What the bulk search owes a query for [k]: flag 1 and the value stored
    with the first match of the chain of [k]'s bucket, or flag 0 and the
    zero value.  [v] and [f] are the two array entries of the query. *)
Definition search_answer (m : SlabHashContext) (zero : Value) (k : Key)
    (v : option Value) (f : option Z) : Prop :=
  ∀ l, chain m (ComputeBucket m k) HEAD_SLAB_PTR l →
       match chain_lookup m (ComputeBucket m k) k l with
       | Some p =>
           f = Some 1
           ∧ ∃ v0, extract (pair_allocator_ctx_ m) p = Some (k, v0) ∧ v = Some v0
       | None => f = Some 0 ∧ v = Some zero
       end.

(** The words that hold a next-slab index: word 31 of a slab. *)
Definition is_next_word (p : unit_ptr) : Prop :=
  match p with
  | HeadUnit i | NodeUnit i => 0 ≤ i ∧ i mod 32 = 31
  end.

(** A transition of other warps that leaves every set next-slab word as it
    is. *)
Definition keeps_next_words (env : SlabHashContext → SlabHashContext) : Prop :=
  ∀ m p, is_next_word p → deref m p ≠ EMPTY_SLAB_PTR → deref (env m) p = deref m p.

(** A transition of other warps that leaves the word [p] as it is. *)
Definition keeps_word (p : unit_ptr) (env : SlabHashContext → SlabHashContext) : Prop :=
  ∀ m, deref (env m) p = deref m p.

(** The words that exist in device memory. *)
Definition valid_unit (m : SlabHashContext) (p : unit_ptr) : Prop :=
  match p with
  | HeadUnit i => 0 ≤ i < Z.of_nat (length (bucket_list_head_ m))
  | NodeUnit i => True
  end.


Definition Zsum (l : list Z) : Z := foldr Z.add 0 l.





(** What a single-key search is to return. *)
Definition search_result (m : SlabHashContext) (b : Z) (k : Key) (l : list Z) : Z * bool :=
  match chain_lookup m b k l with
  | Some p => (p, true)
  | None => (NULL_ITERATOR, false)
  end.

(** ** Tables at rest *)

(** Slab [s] is marked allocated, or free, in its bitmap word. *)
Definition slab_allocated (a : SlabAllocContext) (s : Z) : Prop :=
  0 ≤ s ∧ ∃ x, bitmaps_ a !! Z.to_nat (s / 32) = Some x ∧ Z.testbit x (s mod 32) = true.

Definition slab_free (a : SlabAllocContext) (s : Z) : Prop :=
  0 ≤ s ∧ ∃ x, bitmaps_ a !! Z.to_nat (s / 32) = Some x ∧ Z.testbit x (s mod 32) = false.

(** The number of slabs the allocator can still hand out. *)
Definition free_slab_count (a : SlabAllocContext) : Z :=
  Zsum ((λ x, 32 - __popc x) <$> bitmaps_ a).

(** A table as the constructor and undisturbed insertions and removals
    leave it: the head-slab array has 32 words a bucket and its indices do
    not wrap; the bitmap words are 32-bit words and the slab indices stay
    below the head marker; the words of a free slab all read empty; a
    next-slab word that is set names an allocated slab; and the chain of
    every bucket ends. *)
Record table_wf (m : SlabHashContext) : Prop := {
  wf_buckets : 0 < num_buckets_ m;
  wf_no_wrap : num_buckets_ m * 32 ≤ 2 ^ 32;
  wf_heads : Z.of_nat (length (bucket_list_head_ m)) = num_buckets_ m * 32;
  wf_bitmaps : Forall (λ x, 0 ≤ x < 2 ^ 32) (bitmaps_ (slab_list_allocator_ctx_ m));
  wf_slab_range :
    Z.of_nat (length (bitmaps_ (slab_list_allocator_ctx_ m))) * 32 ≤ HEAD_SLAB_PTR;
  wf_fresh : ∀ s lane, slab_free (slab_list_allocator_ctx_ m) s → 0 ≤ lane < 32 →
               rd_unit (units_ (slab_list_allocator_ctx_ m)) (s * 32 + lane) = EMPTY_PAIR_PTR;
  wf_next : ∀ u, is_next_word u → deref m u ≠ EMPTY_SLAB_PTR →
              slab_allocated (slab_list_allocator_ctx_ m) (deref m u);
  wf_chains : ∀ b, 0 ≤ b < num_buckets_ m → ∃ l, chain m b HEAD_SLAB_PTR l
}.

(** The free list of the pair pool holds every index once, never the empty
    sentinel, and no pair slot of the table holds an index of the free
    list; and no two pair slots hold the same index. *)
Record pairs_wf (m : SlabHashContext) : Prop := {
  wf_heap_nodup : NoDup (heap_ (pair_allocator_ctx_ m));
  wf_heap_live : EMPTY_PAIR_PTR ∉ heap_ (pair_allocator_ctx_ m);
  wf_heap_unused : ∀ u, ¬ is_next_word u → deref m u ∉ heap_ (pair_allocator_ctx_ m);
  wf_slots : ∀ u1 u2, ¬ is_next_word u1 → ¬ is_next_word u2 →
                      deref m u1 = deref m u2 → deref m u1 ≠ EMPTY_PAIR_PTR → u1 = u2
}.

(** What the walk of Insert meets first on a chain: a pair slot that answers
    the key, or an empty pair slot (in slab [c], lane [lane]) in a slab
    without such a slot, or the end of the chain (last slab [c]) with every
    slab full. *)
Inductive Probe :=
| Found (p : Z)
| Vacant (c : Z) (lane : nat)
| Full (c : Z).

Fixpoint chain_probe (m : SlabHashContext) (b : Z) (k : Key) (l : list Z) : option Probe :=
  match l with
  | [] => None
  | c :: l' =>
      match slab_lookup m k (read_slab m c b) with
      | Some p => Some (Found p)
      | None =>
          match list_find (λ ptr, ptr = EMPTY_PAIR_PTR) (take 31 (read_slab m c b)) with
          | Some (lane, _) => Some (Vacant c lane)
          | None =>
              match l' with
              | [] => Some (Full c)
              | _ :: _ => chain_probe m b k l'
              end
          end
      end
  end.

(** The table answers a search for [k] with the value [v]; it answers that
    [k] is not there; and [k] is settled: the walk of Insert meets a slot
    that answers [k] before it meets an empty pair slot. *)
Definition holds (m : SlabHashContext) (k : Key) (v : Value) : Prop :=
  ∃ l p, chain m (ComputeBucket m k) HEAD_SLAB_PTR l
         ∧ chain_lookup m (ComputeBucket m k) k l = Some p
         ∧ extract (pair_allocator_ctx_ m) p = Some (k, v).

Definition lacks (m : SlabHashContext) (k : Key) : Prop :=
  ∃ l, chain m (ComputeBucket m k) HEAD_SLAB_PTR l
       ∧ chain_lookup m (ComputeBucket m k) k l = None.

Definition settled (m : SlabHashContext) (k : Key) : Prop :=
  ∃ l p, chain m (ComputeBucket m k) HEAD_SLAB_PTR l
         ∧ chain_probe m (ComputeBucket m k) k l = Some (Found p).

(** What serving one lane of Insert, undisturbed, does to the memory, by
    what its walk meets on the chain [l] of its bucket: the memory
    afterwards, and whether the lane stored its index [p]. *)
Definition insert_one (m : SlabHashContext) (b : Z) (k : Key) (p : Z) (l : list Z)
  : option (SlabHashContext * bool) :=
  match chain_probe m b k l with
  | None => None
  | Some (Found _) => Some (set_pair_alloc m (Free p (pair_allocator_ctx_ m)), false)
  | Some (Vacant c lane) => Some (store m (unit_ptr_of c b (Z.of_nat lane)) p, true)
  | Some (Full c) =>
      match WarpAllocate (slab_list_allocator_ctx_ m) with
      | None => None
      | Some (new, a) =>
          Some (store (store (set_slab_alloc m a) (unit_ptr_of c b NEXT_SLAB_PTR_LANE) new)
                      (unit_ptr_of new b (Z.of_nat 0)) p,
                true)
      end
  end.

(** The registers once the source lane of work queue [work_queue] has been
    served by Insert: it leaves the queue, with its index and [true] when it
    stored the index. *)
Definition insert_done (w : Warp) (work_queue curr : Z) (won : bool) (p : Z) : Warp :=
  let src_lane := __ffs work_queue - 1 in
  if won
  then next_regs w (upd (lane_active w) src_lane false) (upd (iterator w) src_lane p)
                 (upd (mask w) src_lane true) work_queue curr
  else next_regs w (upd (lane_active w) src_lane false) (iterator w) (mask w)
                 work_queue curr.

(** The requests of a warp that are still in its work queue, lowest lane
    first: key, value and pre-allocated pair index. *)
Definition pending (w : Warp) : list (Key * Value * Z) :=
  omap (λ i : nat, match lane_active w !! i with
                   | Some true =>
                       Some (key w !!! i, value w !!! i, prealloc_pair_internal_ptr w !!! i)
                   | _ => None
                   end)
       (seq 0 32).

(** The pairs that the active lanes of a warp ask to insert, lowest lane
    first. *)
Definition requests (active : list bool) (keys : list Key) (values : list Value)
  : list (Key * Value) :=
  omap (λ i : nat, match active !! i with
                   | Some true => Some (keys !!! i, values !!! i)
                   | _ => None
                   end)
       (seq 0 32).

(** [confined_in m b k u l]: in the slabs [l] of bucket [b], every pair slot
    that answers a query for [k] is the word [u]. *)
Definition confined_in (m : SlabHashContext) (b : Z) (k : Key) (u : unit_ptr)
    (l : list Z) : Prop :=
  Forall (λ c, ∀ i : nat, (i < 31)%nat →
                 live_match m k (deref m (unit_ptr_of c b (Z.of_nat i))) →
                 unit_ptr_of c b (Z.of_nat i) = u) l.

(** The key [k] sits in at most one pair slot of the chain of its bucket. *)
Definition single (m : SlabHashContext) (k : Key) : Prop :=
  ∃ l u, chain m (ComputeBucket m k) HEAD_SLAB_PTR l
         ∧ confined_in m (ComputeBucket m k) k u l.

(** The pairs [cnt] threads of a bulk operation read from its two argument
    arrays, from thread [from] on. *)
Definition batch (keys : list Key) (values : list Value) (from cnt : nat)
  : list (Key * Value) :=
  (λ t : nat, (keys !!! t, values !!! t)) <$> seq from cnt.

(** [m'] is [m] after the insertion of the pairs [kvs], in this order, each
    unless its key is found: a key that [m] lacks is found in [m'] with the
    value of its first pair in [kvs], and is lacking in [m'] when [kvs] has
    no pair for it; a settled key keeps its value and stays settled; a key
    without a pair in [kvs] keeps its value; and a key that sits in at most
    one slot does so afterwards, if it was lacking or settled or has no pair
    in [kvs]. *)
Definition inserted (kvs : list (Key * Value)) (m m' : SlabHashContext) : Prop :=
  (∀ k, lacks m k →
        match list_find (λ kv : Key * Value, kv.1 = k) kvs with
        | Some (_, kv) => holds m' k kv.2 ∧ settled m' k
        | None => lacks m' k
        end)
  ∧ (∀ k v, holds m k v → settled m k → holds m' k v ∧ settled m' k)
  ∧ (∀ k v, holds m k v → k ∉ kvs.*1 → holds m' k v)
  ∧ (∀ k, single m k → lacks m k ∨ settled m k ∨ k ∉ kvs.*1 → single m' k).

(** The first pair slot, along the slabs [l] of bucket [b], that answers a
    query for [k]: its slab, its lane and the pair index it holds. *)
Fixpoint chain_slot (m : SlabHashContext) (b : Z) (k : Key) (l : list Z)
  : option (Z * nat * Z) :=
  match l with
  | [] => None
  | c :: l' =>
      match list_find (live_match m k) (take 31 (read_slab m c b)) with
      | Some (i, p) => Some (c, i, p)
      | None => chain_slot m b k l'
      end
  end.

(** What the undisturbed Remove makes of the memory for one source lane with
    key [k], along the chain [l] of its bucket: the first slot that answers
    is emptied and the pair index it held goes to the free list; without
    such a slot nothing changes.  The flag tells which. *)
Definition remove_one (m : SlabHashContext) (b : Z) (k : Key) (l : list Z)
  : SlabHashContext * bool :=
  match chain_slot m b k l with
  | Some (c, i, p) =>
      (set_pair_alloc (store m (unit_ptr_of c b (Z.of_nat i)) EMPTY_PAIR_PTR)
                      (Free p (pair_allocator_ctx_ m)),
       true)
  | None => (m, false)
  end.

(** The registers once Remove is through with the source lane of
    [work_queue]: after a removal the lane leaves the queue with result
    [true]; after a miss every lane leaves it. *)
Definition remove_done (w : Warp) (work_queue curr : Z) (won : bool) : Warp :=
  if won
  then next_regs w (upd (lane_active w) (__ffs work_queue - 1) false) (iterator w)
                 (upd (mask w) (__ffs work_queue - 1) true) work_queue curr
  else next_regs w ((λ _, false) <$> lane_active w) (iterator w) (mask w)
                 work_queue curr.

(** The keys that the active lanes of a warp ask for, lowest lane first. *)
Definition asked (active : list bool) (keys : list Key) : list Key :=
  omap (λ i : nat, match active !! i with
                   | Some true => Some (keys !!! i)
                   | _ => None
                   end)
       (seq 0 32).

(** The keys [cnt] threads of a bulk operation read from its argument array,
    from thread [from] on. *)
Definition key_batch (keys : list Key) (from cnt : nat) : list Key :=
  (λ t : nat, keys !!! t) <$> seq from cnt.

(** [m'] is [m] after the removal of the keys [ks]: a key of [ks] that sat
    in at most one slot is lacking; a key outside [ks] keeps its value; no
    key appears; a key that sat in at most one slot still does; the pair
    pool stays well formed; and the bitmaps of the slab pool are as they
    were. *)
Definition removed (ks : list Key) (m m' : SlabHashContext) : Prop :=
  (∀ k, k ∈ ks → single m k → lacks m' k)
  ∧ (∀ k v, k ∉ ks → holds m k v → holds m' k v)
  ∧ (∀ k, lacks m k → lacks m' k)
  ∧ (∀ k, single m k → single m' k)
  ∧ (pairs_wf m → pairs_wf m')
  ∧ bitmaps_ (slab_list_allocator_ctx_ m') = bitmaps_ (slab_list_allocator_ctx_ m).

(** What a request of a warp needs of the memory to be served: a record of
    its own that holds its key and value, is in no pair slot and not on the
    free list, and a key that the table lacks or that is settled. *)
Definition req_ok (m : SlabHashContext) (k : Key) (v : Value) (p : Z) : Prop :=
  p ≠ EMPTY_PAIR_PTR
  ∧ extract (pair_allocator_ctx_ m) p = Some (k, v)
  ∧ (p ∉ heap_ (pair_allocator_ctx_ m))
  ∧ (∀ u, ¬ is_next_word u → deref m u ≠ p)
  ∧ (lacks m k ∨ settled m k).

(** What the requests [reqs] need to be served one after the other: a table
    at rest with a free slab for each of them, and records that differ. *)
Record pend_inv (m : SlabHashContext) (reqs : list (Key * Value * Z)) : Prop := {
  pi_table : table_wf m;
  pi_pairs : pairs_wf m;
  pi_slabs : Z.of_nat (length reqs) ≤ free_slab_count (slab_list_allocator_ctx_ m);
  pi_nodup : NoDup (reqs.*2);
  pi_reqs : ∀ k v p, (k, v, p) ∈ reqs → req_ok m k v p
}.

End Model.

(** [GpuSlabHashContext::computeBucket], the built-in hash on 32-bit keys. *)
Definition computeBucket (hash_x_ hash_y_ num_buckets_ key : Z) : Z :=
  (wrap32 (Z.lxor hash_x_ key + hash_y_) mod PRIME_DIVISOR_) mod num_buckets_.

(** ** Scenarios *)

(** A table of one bucket and 64 pair records over integer keys and values,
    hashed by the identity, with a slab pool of one super-block of one
    memory block. *)
Definition id_hash (k : Z) : Z := k.

Definition table0 : @SlabHashContext Z Z := SlabHash_new id_hash 1 64 1 1.

(** [table0] after the bulk insertion of (1,10), (2,20), (3,30). *)
Definition table3 : @SlabHashContext Z Z :=
  default table0 (fst <$> SlabHash_Insert 100 table0 [1; 2; 3] [10; 20; 30] 3).

(** [table0] after the bulk insertion of (5,99). *)
Definition table5 : @SlabHashContext Z Z :=
  default table0 (fst <$> SlabHash_Insert 100 table0 [5] [99] 1).

(** Thirty-two keys 100..131 with values 1000..1031 inserted into [table0]
    fill the 31 pair slots of the head slab and put key 131 into a second
    slab; the removal of key 100 then leaves pair slot 0 of the head slab
    empty. *)
Definition table32 : @SlabHashContext Z Z :=
  default table0 (fst <$> SlabHash_Insert 100 table0 (seqZ 100 32) (seqZ 1000 32) 32).

Definition table_hole : @SlabHashContext Z Z :=
  default table0 (SlabHash_Remove 100 table32 [100] 1).

(** [table0] after the bulk insertion of keys 100..130: the head slab is
    full and has no next slab. *)
Definition table31 : @SlabHashContext Z Z :=
  default table0 (fst <$> SlabHash_Insert 100 table0 (seqZ 100 31) (seqZ 1000 31) 31).

(** The registers of a warp whose lane 0 alone holds a request for key [k]. *)
Definition one_lane_active : list bool := kernel_active 1 0.
Definition one_lane_keys (k : Z) : list Z := kernel_keys [k] 1 0.
Definition one_lane_buckets (m : @SlabHashContext Z Z) (k : Z) : list Z :=
  kernel_buckets m [k] 1 0.

(** Another warp runs a whole Remove of key [k]. *)
Definition other_warp_removes (k : Z) (m : @SlabHashContext Z Z) : @SlabHashContext Z Z :=
  match Remove 100 [] m one_lane_active (one_lane_buckets m k) (one_lane_keys k) with
  | Some (_, m') => m'
  | None => m
  end.

(** A table of seven buckets. *)
Definition table7 : @SlabHashContext Z Z := SlabHash_new id_hash 7 64 1 1.

(** A warp about to insert (200, 7) from lane 0 into [table31], after its
    pre-allocation: the registers at loop entry and the memory. *)
Definition prealloc31 : list Z * @MemoryAllocContext Z Z :=
  default ([], pair_allocator_ctx_ table31)
          (prealloc_lanes (pair_allocator_ctx_ table31)
                          (zip one_lane_active (zip (one_lane_keys 200) (kernel_values [7] 1 0)))).

Definition mem31 : @SlabHashContext Z Z := set_pair_alloc table31 prealloc31.2.

Definition regs31 : @Warp Z Z :=
  entry_regs one_lane_active (one_lane_buckets table31 200) (one_lane_keys 200)
             (kernel_values [7] 1 0) prealloc31.1.

(** The first iteration of that warp: its scan, the next-slab word of the
    slab it reads, the registers when no lane leaves the queue, and the
    allocator after the allocation of a slab. *)
Definition scan31 : @Scan Z := warp_scan mem31 1 regs31.

Definition next_word31 : unit_ptr :=
  unit_ptr_of (s_curr_slab_ptr scan31) (s_src_bucket scan31) NEXT_SLAB_PTR_LANE.

Definition stay31 : @Warp Z Z :=
  next_regs regs31 (lane_active regs31) (iterator regs31) (mask regs31) 1
            (s_curr_slab_ptr scan31).

Definition alloc31 : SlabAllocContext :=
  default (slab_list_allocator_ctx_ mem31)
          (snd <$> WarpAllocate (slab_list_allocator_ctx_ mem31)).

(** Another warp publishes slab 5 as the next slab of bucket 0. *)
Definition publish5 (m : @SlabHashContext Z Z) : @SlabHashContext Z Z :=
  store m (HeadUnit 31) 5.

(** A warp about to remove key [k] from lane 0 of [table5]: the registers at
    loop entry. *)
Definition remove_regs5 (k : Z) : @Warp Z Z :=
  entry_regs one_lane_active (one_lane_buckets table5 k) (one_lane_keys k)
             (replicate 32 inhabitant) (replicate 32 EMPTY_PAIR_PTR).

(** The warp of the bulk Remove of the batch [7; 5] on [table5] at loop
    entry: lane 0 asks for key 7, which the table lacks, lane 1 for key 5,
    which it holds. *)
Definition remove_regs75 : @Warp Z Z :=
  entry_regs (kernel_active 2 0) (kernel_buckets table5 [7; 5] 2 0) (kernel_keys [7; 5] 2 0)
             (replicate 32 inhabitant) (replicate 32 EMPTY_PAIR_PTR).

(** A warp about to insert (5, 7) from lane 0 into [table5], which holds
    key 5, after its pre-allocation. *)
Definition prealloc5 : list Z * @MemoryAllocContext Z Z :=
  default ([], pair_allocator_ctx_ table5)
          (prealloc_lanes (pair_allocator_ctx_ table5)
                          (zip one_lane_active (zip (one_lane_keys 5) (kernel_values [7] 1 0)))).

Definition mem5 : @SlabHashContext Z Z := set_pair_alloc table5 prealloc5.2.

Definition regs5 : @Warp Z Z :=
  entry_regs one_lane_active (one_lane_buckets table5 5) (one_lane_keys 5)
             (kernel_values [7] 1 0) prealloc5.1.




(** A batch of three pairs that brings key 1 twice, and the result arrays
    of three queries. *)
Definition keys121 : list Z := [1; 2; 1].

Definition values121 : list Z := [10; 20; 30].

Definition out3 : list Z := [0; 0; 0].

(** The keys and values of [table3], other values for its keys, and two
    batches of its keys. *)
Definition keys123 : list Z := [1; 2; 3].

Definition values123 : list Z := [10; 20; 30].

Definition values456 : list Z := [40; 50; 60].

Definition keys12 : list Z := [1; 2].

Definition keys3 : list Z := [3].

(** A batch of two keys of which [table5] lacks the first and holds the
    second. *)
Definition keys65 : list Z := [6; 5].

(** Batches of one pair and the result arrays of one query. *)
Definition keys5 : list Z := [5].

Definition keys6 : list Z := [6].

Definition values7 : list Z := [7].

Definition out1 : list Z := [0].

(** * Properties *)

(** ** Words, ballots and first-set-bit *)

Lemma bits_of_testbit (preds : list bool) (i : Z) :
  0 ≤ i → Z.testbit (bits_of preds) i = default false (preds !! Z.to_nat i).
Proof.
  revert i. induction preds as [|p ps IH]; intros i Hi; simpl.
  - rewrite Z.testbit_0_l. by destruct (Z.to_nat i).
  - replace ((if p then 1 else 0) + 2 * bits_of ps)
      with (2 * bits_of ps + Z.b2z p) by (destruct p; simpl; lia).
    destruct (decide (i = 0)) as [->|Hne].
    + by rewrite Z.testbit_0_r.
    + replace i with (Z.succ (i - 1)) by lia.
      rewrite Z.testbit_succ_r by lia.
      rewrite IH by lia.
      replace (Z.to_nat (Z.succ (i - 1))) with (S (Z.to_nat (i - 1))) by lia.
      done.
Qed.

Lemma ballot_testbit (n : nat) (preds : list bool) (i : Z) :
  0 ≤ i →
  Z.testbit (__ballot_sync (Z.ones (Z.of_nat n)) preds) i
  = (i <? Z.of_nat n) && default false (preds !! Z.to_nat i).
Proof.
  intros Hi. unfold __ballot_sync.
  rewrite Z.land_spec, Z.testbit_ones by lia.
  rewrite bits_of_testbit by done.
  destruct (0 <=? i) eqn:E; [done | lia].
Qed.

Lemma ffs_from_spec (n : nat) (i w : Z) :
  0 ≤ i →
  (ffs_from n i w = 0 ∧ ∀ j, i ≤ j < i + Z.of_nat n → Z.testbit w j = false)
  ∨ (∃ j, ffs_from n i w = j + 1 ∧ i ≤ j < i + Z.of_nat n ∧ Z.testbit w j = true
          ∧ ∀ j', i ≤ j' < j → Z.testbit w j' = false).
Proof.
  revert i. induction n as [|n IH]; intros i Hi; simpl.
  - left. split; [done | intros; lia].
  - destruct (Z.testbit w i) eqn:E.
    + right. exists i. split_and!; try done; intros; lia.
    + destruct (IH (i + 1)) as [[H0 Hall] | (j & Hj & Hr & Hb & Hmin)]; [lia | |].
      * left. split; [done |]. intros j Hj.
        destruct (decide (j = i)) as [->|]; [done | apply Hall; lia].
      * right. exists j. split_and!; try done; try lia.
        intros j' Hj'. destruct (decide (j' = i)) as [->|]; [done | apply Hmin; lia].
Qed.

(** The source lane a ballot selects is the first lane whose predicate
    holds, among the lanes of the mask. *)
Lemma ffs_ballot_find {A} (P : A → Prop) `{!∀ x, Decision (P x)}
    (n : nat) (preds : list bool) (l : list A) :
  (n ≤ 32)%nat →
  (∀ i, (i < n)%nat → preds !! i = Some true ↔ ∃ x, l !! i = Some x ∧ P x) →
  __ffs (__ballot_sync (Z.ones (Z.of_nat n)) preds) - 1
  = match list_find P (take n l) with
    | Some (i, _) => Z.of_nat i
    | None => -1
    end.
Proof.
  intros Hn Hcor.
  set (w := __ballot_sync (Z.ones (Z.of_nat n)) preds).
  assert (Hbit : ∀ j : nat, Z.testbit w (Z.of_nat j) = true ↔
                            (j < n)%nat ∧ ∃ x, l !! j = Some x ∧ P x).
  { intros j. unfold w. rewrite ballot_testbit by lia.
    rewrite Nat2Z.id, andb_true_iff. split.
    - intros [Hlt Hp]. assert (j < n)%nat by lia. split; [done|].
      apply Hcor; [done|]. by destruct (preds !! j) as [[]|].
    - intros [Hlt Hx]. split; [lia|]. apply Hcor in Hx; [|done]. by rewrite Hx. }
  unfold __ffs.
  destruct (list_find P (take n l)) as [[i x]|] eqn:Hfind.
  - apply list_find_Some in Hfind as (Hi & HP & Hmin).
    apply lookup_take_Some in Hi as [Hi Hlt].
    assert (Hti : Z.testbit w (Z.of_nat i) = true) by (apply Hbit; eauto).
    destruct (ffs_from_spec 32 0 w) as [[_ Hall] | (j & -> & Hr & Hb & Hjmin)]; [lia | |].
    + rewrite Hall in Hti by lia. done.
    + destruct (Z.lt_trichotomy j (Z.of_nat i)) as [Hlt'|[->|Hgt]]; [ | lia | ].
      * replace j with (Z.of_nat (Z.to_nat j)) in Hb by lia.
        apply Hbit in Hb as [Hjn (y & Hy & HPy)].
        exfalso. apply (Hmin (Z.to_nat j) y); [ | lia | done].
        apply lookup_take_Some. split; [done | lia].
      * rewrite Hjmin in Hti by lia. done.
  - apply list_find_None in Hfind.
    destruct (ffs_from_spec 32 0 w) as [[-> _] | (j & _ & Hr & Hb & _)]; [lia | done |].
    replace j with (Z.of_nat (Z.to_nat j)) in Hb by lia.
    apply Hbit in Hb as [Hjn (y & Hy & HPy)].
    exfalso. eapply Forall_lookup_1 in Hfind; [by apply Hfind |].
    apply lookup_take_Some. split; [done | lia].
Qed.

Section Proofs.
Context {Key Value : Type} {Key_eq : EqDecision Key} {Key_inh : Inhabited Key}
        {Value_inh : Inhabited Value}.
Implicit Types (m : @SlabHashContext Key Value) (w : @Warp Key Value).

Arguments read_slab : simpl never.
Arguments warp_scan : simpl never.
Arguments __shfl_sync : simpl never.
Arguments __ballot_sync : simpl never.
Arguments __ffs : simpl never.
Arguments __popc : simpl never.
Arguments unit_ptr_of : simpl never.

Lemma shfl_lane {A} `{Inhabited A} (var : list A) (i : nat) :
  (i < 32)%nat → __shfl_sync var (Z.of_nat i) WARP_WIDTH = var !!! i.
Proof.
  intros Hi. unfold __shfl_sync, WARP_WIDTH.
  rewrite Z.mod_small by lia. by rewrite Nat2Z.id.
Qed.

Lemma shfl_next (var : list Z) :
  __shfl_sync var NEXT_SLAB_PTR_LANE WARP_WIDTH = var !!! 31%nat.
Proof. reflexivity. Qed.

Lemma read_slab_length m c b : length (read_slab m c b) = 32%nat.
Proof. unfold read_slab. by rewrite length_fmap, length_seqZ. Qed.

Lemma read_slab_lookup m c b (i : nat) :
  (i < 32)%nat → read_slab m c b !! i = Some (deref m (unit_ptr_of c b (Z.of_nat i))).
Proof.
  intros Hi. unfold read_slab. rewrite list_lookup_fmap.
  rewrite lookup_seqZ_lt by (unfold WARP_WIDTH; lia). done.
Qed.

(** [WarpFindKey] returns the lowest pair lane that answers the query, and
    -1 when there is none. *)
Lemma WarpFindKey_spec m (k : Key) (unit_data : list Z) :
  WarpFindKey m k unit_data
  = match list_find (live_match m k) (take 31 unit_data) with
    | Some (i, _) => Z.of_nat i
    | None => -1
    end.
Proof.
  unfold WarpFindKey. change PAIR_PTR_LANES_MASK with (Z.ones (Z.of_nat 31)).
  apply ffs_ballot_find; [lia |].
  intros i Hi. rewrite list_lookup_imap.
  destruct (unit_data !! i) as [x|] eqn:Hx; simpl;
    [| split; [done | by intros (? & ? & ?)]].
  unfold is_lane_found, live_match.
  change PAIR_PTR_LANES_MASK with (Z.ones 31).
  assert ((Z.land (Z.shiftl 1 (Z.of_nat i)) (Z.ones 31) =? 0) = false) as ->.
  { apply Z.eqb_neq. rewrite Z.land_ones, Z.shiftl_1_l by lia.
    rewrite Z.mod_small; [lia |].
    split; [lia |]. apply Z.pow_lt_mono_r; lia. }
  simpl. split.
  - intros [= Heq]. exists x. split; [done |].
    apply andb_true_iff in Heq as [Hne Hk].
    split; [| done]. apply negb_true_iff, Z.eqb_neq in Hne. done.
  - intros (y & [= <-] & Hne & Hk). f_equal. apply andb_true_iff. split; [| done].
    by apply negb_true_iff, Z.eqb_neq.
Qed.

(** [WarpFindEmpty] returns the lowest empty pair lane, and -1 when the
    31 pair slots are all taken. *)
Lemma WarpFindEmpty_spec (unit_data : list Z) :
  WarpFindEmpty unit_data
  = match list_find (λ ptr, ptr = EMPTY_PAIR_PTR) (take 31 unit_data) with
    | Some (i, _) => Z.of_nat i
    | None => -1
    end.
Proof.
  unfold WarpFindEmpty. change PAIR_PTR_LANES_MASK with (Z.ones (Z.of_nat 31)).
  apply ffs_ballot_find; [lia |].
  intros i Hi. rewrite list_lookup_fmap.
  destruct (unit_data !! i) as [x|] eqn:Hx; simpl;
    [| split; [done | by intros (? & ? & ?)]].
  split.
  - intros [= Heq%Z.eqb_eq]. eauto.
  - intros (y & [= <-] & ->). done.
Qed.

(** *** The work queue *)

Lemma active_src_lane (act : list bool) :
  __ffs (__ballot_sync ACTIVE_LANES_MASK act) - 1
  = match list_find (λ b, b = true) (take 32 act) with
    | Some (i, _) => Z.of_nat i
    | None => -1
    end.
Proof.
  change ACTIVE_LANES_MASK with (Z.ones (Z.of_nat 32)).
  apply ffs_ballot_find; [lia |].
  intros i Hi. split; [by eauto | by intros (x & ? & ->)].
Qed.

Lemma ballot_zero_iff (act : list bool) :
  __ballot_sync ACTIVE_LANES_MASK act = 0 ↔ ∀ i, (i < 32)%nat → act !! i ≠ Some true.
Proof.
  change ACTIVE_LANES_MASK with (Z.ones (Z.of_nat 32)). split.
  - intros H0 i Hi Hact.
    assert (Z.testbit (__ballot_sync (Z.ones (Z.of_nat 32)) act) (Z.of_nat i) = true) as Hb.
    { rewrite ballot_testbit by lia. rewrite Nat2Z.id, Hact. simpl.
      apply andb_true_iff. split; [apply Z.ltb_lt; lia | done]. }
    rewrite H0, Z.testbit_0_l in Hb. done.
  - intros Hall. apply Z.bits_inj_0. intros n.
    destruct (decide (n < 0)) as [Hn|Hn]; [by apply Z.testbit_neg_r |].
    rewrite ballot_testbit by lia.
    destruct (n <? Z.of_nat 32) eqn:E; [| done]. simpl. apply Z.ltb_lt in E.
    specialize (Hall (Z.to_nat n) ltac:(lia)).
    by destruct (act !! Z.to_nat n) as [[]|].
Qed.

(** A non-empty work queue selects the lowest active lane. *)
Lemma ballot_nonzero_src (act : list bool) :
  __ballot_sync ACTIVE_LANES_MASK act ≠ 0 →
  ∃ src : nat, (src < 32)%nat
    ∧ __ffs (__ballot_sync ACTIVE_LANES_MASK act) - 1 = Z.of_nat src
    ∧ act !! src = Some true
    ∧ ∀ j, (j < src)%nat → act !! j ≠ Some true.
Proof.
  intros Hne. rewrite active_src_lane.
  destruct (list_find _ (take 32 act)) as [[i x]|] eqn:Hfind.
  - apply list_find_Some in Hfind as (Hi & -> & Hmin).
    apply lookup_take_Some in Hi as [Hi Hlt].
    exists i. split_and!; [done .. |].
    intros j Hj Hact. apply (Hmin j true); [| done ..].
    apply lookup_take_Some. split; [done | lia].
  - exfalso. apply Hne, ballot_zero_iff. intros i Hi Hact.
    apply list_find_None in Hfind.
    eapply Forall_lookup_1 in Hfind; [by apply Hfind |].
    apply lookup_take_Some. split; [done | lia].
Qed.

(** A lane that leaves the queue changes the ballot. *)
Lemma ballot_retire (act : list bool) (src : nat) :
  (src < 32)%nat → act !! src = Some true →
  __ballot_sync ACTIVE_LANES_MASK (<[src := false]> act)
  ≠ __ballot_sync ACTIVE_LANES_MASK act.
Proof.
  intros Hsrc Hact Heq.
  apply (f_equal (λ x, Z.testbit x (Z.of_nat src))) in Heq.
  change ACTIVE_LANES_MASK with (Z.ones (Z.of_nat 32)) in Heq.
  rewrite !ballot_testbit in Heq by lia.
  rewrite Nat2Z.id, Hact in Heq.
  rewrite list_lookup_insert_eq in Heq by (by eapply lookup_lt_Some).
  simpl in Heq. destruct (Z.of_nat src <? Z.of_nat 32) eqn:E; [done |].
  apply Z.ltb_ge in E. lia.
Qed.

(** *** Search *)

Lemma Search_loop_step fuel m w :
  __ballot_sync ACTIVE_LANES_MASK (lane_active w) ≠ 0 →
  Search_loop (S fuel) m w
  = Search_loop fuel m (Search_iter m (__ballot_sync ACTIVE_LANES_MASK (lane_active w)) w).
Proof. intros Hne%Z.eqb_neq. cbn [Search_loop]. by rewrite Hne. Qed.

Lemma Search_loop_done fuel m w :
  __ballot_sync ACTIVE_LANES_MASK (lane_active w) = 0 →
  Search_loop fuel m w = Some w.
Proof. intros Heq%Z.eqb_eq. destruct fuel; cbn [Search_loop]; by rewrite Heq. Qed.

Lemma scan_unit_data m wq w :
  s_unit_data (warp_scan m wq w)
  = read_slab m (s_curr_slab_ptr (warp_scan m wq w)) (s_src_bucket (warp_scan m wq w)).
Proof. reflexivity. Qed.

(** One iteration of Search, by the three cases of the source. *)
Lemma Search_iter_cases m wq w :
  Search_iter m wq w
  = match slab_lookup m (s_src_key (warp_scan m wq w)) (s_unit_data (warp_scan m wq w)) with
    | Some p => search_done w wq (s_curr_slab_ptr (warp_scan m wq w)) (Some p)
    | None =>
        if decide (s_unit_data (warp_scan m wq w) !!! 31%nat = EMPTY_SLAB_PTR)
        then search_done w wq (s_curr_slab_ptr (warp_scan m wq w)) None
        else next_regs w (lane_active w) (iterator w) (mask w) wq
                       (s_unit_data (warp_scan m wq w) !!! 31%nat)
    end.
Proof.
  unfold Search_iter. set (s := warp_scan m wq w).
  rewrite WarpFindKey_spec. unfold slab_lookup.
  destruct (list_find _ (take 31 (s_unit_data s))) as [[i x]|] eqn:Hfind;
    cbn [fmap option_fmap option_map snd].
  - apply list_find_Some in Hfind as (Hi & _ & _).
    apply lookup_take_Some in Hi as [Hi Hlt].
    assert ((0 <=? Z.of_nat i) = true) as -> by (apply Z.leb_le; lia).
    rewrite shfl_lane by lia.
    by rewrite (list_lookup_total_correct _ _ _ Hi).
  - rewrite shfl_next. change (0 <=? -1) with false. cbv iota.
    case_decide as Hnext.
    + by rewrite Hnext.
    + apply Z.eqb_neq in Hnext. by rewrite Hnext.
Qed.

Lemma chain_functional m b c l1 l2 : chain m b c l1 → chain m b c l2 → l1 = l2.
Proof.
  intros Hc1. revert l2. induction Hc1 as [c Hc | c l Hc Hl IH]; intros l2 Hc2.
  - by inversion Hc2.
  - inversion Hc2 as [| ? l' ? Hl']; subst; [done |]. f_equal. by apply IH.
Qed.

(** The walk of one source lane along its chain: after at most one
    iteration per slab the lane leaves the queue with the first match of the
    chain, the other registers untouched. *)
Lemma Search_walk m b k c l :
  chain m b c l →
  ∀ w, let wq := __ballot_sync ACTIVE_LANES_MASK (lane_active w) in
  wq ≠ 0 →
  s_src_bucket (warp_scan m wq w) = b →
  s_src_key (warp_scan m wq w) = k →
  s_curr_slab_ptr (warp_scan m wq w) = c →
  ∃ (steps : nat) (c' : Z), ∀ fuel,
    Search_loop (steps + fuel) m w
    = Search_loop fuel m (search_done w wq c' (chain_lookup m b k l)).
Proof.
  induction 1 as [c Hend | c l Hnext Hl IH]; intros w wq Hwq Hb Hk Hc.
  - exists 1%nat, c. intros fuel. cbn [Nat.add]. rewrite Search_loop_step by done.
    fold wq. rewrite Search_iter_cases, scan_unit_data, Hk, Hc, Hb.
    cbn [chain_lookup].
    destruct (slab_lookup m k (read_slab m c b)); [done |].
    by rewrite decide_True.
  - destruct (slab_lookup m k (read_slab m c b)) as [p|] eqn:Hlook.
    + exists 1%nat, c. intros fuel. cbn [Nat.add]. rewrite Search_loop_step by done.
      fold wq. rewrite Search_iter_cases, scan_unit_data, Hk, Hc, Hb.
      cbn [chain_lookup]. by rewrite Hlook.
    + set (w1 := next_regs w (lane_active w) (iterator w) (mask w) wq
                           (read_slab m c b !!! 31%nat)).
      destruct (IH w1) as (steps & c' & Hrun).
      * done.
      * done.
      * done.
      * unfold warp_scan. cbn. by rewrite Z.eqb_refl.
      * exists (S steps), c'. intros fuel. cbn [Nat.add].
        rewrite Search_loop_step by done. fold wq.
        rewrite Search_iter_cases, scan_unit_data, Hk, Hc, Hb, Hlook.
        rewrite decide_False by done.
        fold w1. rewrite Hrun. cbn [chain_lookup]. rewrite Hlook. done.
Qed.

Lemma search_done_fields w wq c' r (src : nat) :
  __ffs wq - 1 = Z.of_nat src →
  lane_active (search_done w wq c' r) = <[src := false]> (lane_active w)
  ∧ bucket_id (search_done w wq c' r) = bucket_id w
  ∧ key (search_done w wq c' r) = key w
  ∧ prev_work_queue (search_done w wq c' r) = wq
  ∧ iterator (search_done w wq c' r)
    = match r with Some p => <[src := p]> (iterator w) | None => iterator w end
  ∧ mask (search_done w wq c' r)
    = match r with Some p => <[src := true]> (mask w) | None => mask w end.
Proof.
  intros Hsrc. unfold search_done, upd. rewrite Hsrc, Nat2Z.id.
  by destruct r.
Qed.

(** The loop of Search serves every active lane, the lowest first, and
    stops. *)
Lemma Search_drain m (d : nat) :
  ∀ w,
    length (iterator w) = 32%nat → length (mask w) = 32%nat →
    (∀ i, lane_active w !! i = Some true → (32 - d ≤ i)%nat) →
    (__ballot_sync ACTIVE_LANES_MASK (lane_active w) ≠ 0 →
     prev_work_queue w ≠ __ballot_sync ACTIVE_LANES_MASK (lane_active w)) →
    (∀ i, (i < 32)%nat → lane_active w !! i = Some true →
          ∃ l, chain m (bucket_id w !!! i) HEAD_SLAB_PTR l) →
    ∃ (steps : nat) w',
      (∀ fuel, Search_loop (steps + fuel) m w = Some w')
      ∧ ∀ i, (i < 32)%nat → search_outcome m w w' i.
Proof.
  induction d as [|d IH]; intros w Hit Hmk Hlow Hprev Hchains;
    destruct (decide (__ballot_sync ACTIVE_LANES_MASK (lane_active w) = 0)) as [Hz|Hnz].
  1,3: exists 0%nat, w; split; [intros fuel; by apply Search_loop_done |];
       intros i Hi; unfold search_outcome;
       pose proof (proj1 (ballot_zero_iff _) Hz i Hi) as Hna;
       by destruct (lane_active w !! i) as [[]|].
  - exfalso. apply Hnz, ballot_zero_iff. intros i Hi Hact. apply Hlow in Hact. lia.
  - set (wq := __ballot_sync ACTIVE_LANES_MASK (lane_active w)) in *.
    destruct (ballot_nonzero_src _ Hnz) as (src & Hsrc & Hffs & Hact & Hmin).
    fold wq in Hffs.
    destruct (Hchains src Hsrc Hact) as [l Hl].
    destruct (Search_walk m (bucket_id w !!! src) (key w !!! src) HEAD_SLAB_PTR l Hl w)
      as (steps & c' & Hrun).
    + done.
    + unfold warp_scan. cbn [s_src_bucket]. fold wq. rewrite Hffs. by apply shfl_lane.
    + unfold warp_scan, WarpSyncKey. cbn [s_src_key]. fold wq. rewrite Hffs.
      by apply shfl_lane.
    + unfold warp_scan. cbn [s_curr_slab_ptr]. fold wq.
      specialize (Hprev Hnz). apply Z.eqb_neq in Hprev. by rewrite Hprev.
    + fold wq in Hrun.
      set (r := chain_lookup m (bucket_id w !!! src) (key w !!! src) l) in *.
      set (w1 := search_done w wq c' r) in *.
      destruct (search_done_fields w wq c' r src Hffs)
        as (Ha1 & Hb1 & Hk1 & Hp1 & Hi1 & Hm1). fold w1 in Ha1, Hb1, Hk1, Hp1, Hi1, Hm1.
      destruct (IH w1) as (steps1 & w' & Hrun1 & Hout1).
      * rewrite Hi1. destruct r; [by rewrite length_insert | done].
      * rewrite Hm1. destruct r; [by rewrite length_insert | done].
      * intros i. rewrite Ha1. intros Hi.
        apply list_lookup_insert_Some in Hi as [(_ & ? & _) | (Hne & Hi)]; [done |].
        assert (¬ (i < src)%nat) by (intros ?; by eapply Hmin).
        pose proof (Hlow _ Hact). lia.
      * intros _. rewrite Hp1, Ha1. apply not_eq_sym. by apply ballot_retire.
      * intros i Hi. rewrite Ha1, Hb1. intros Hai.
        apply list_lookup_insert_Some in Hai as [(_ & ? & _) | (Hne & Hai)]; [done |].
        by apply Hchains.
      * exists (steps + steps1)%nat, w'. split.
        { intros fuel. rewrite <- Nat.add_assoc, Hrun. apply Hrun1. }
        intros i Hi. specialize (Hout1 i Hi). unfold search_outcome in *.
        rewrite Ha1, Hb1, Hk1, Hi1, Hm1 in Hout1.
        destruct (decide (i = src)) as [->|Hne].
        -- rewrite Hact.
           rewrite list_lookup_insert_eq in Hout1 by (by eapply lookup_lt_Some).
           destruct Hout1 as (Ha' & Hi' & Hm'). split; [done |].
           intros l' Hl'. rewrite (chain_functional _ _ _ _ _ Hl' Hl). fold r.
           rewrite Hi', Hm'. destruct r; [| done].
           rewrite !list_lookup_insert_eq by lia. done.
        -- rewrite list_lookup_insert_ne in Hout1 by done.
           assert (Hiti : (match r with Some p => <[src:=p]> (iterator w) | None => iterator w end)
                          !! i = iterator w !! i)
             by (destruct r; [by rewrite list_lookup_insert_ne | done]).
           assert (Hmki : (match r with Some p => <[src:=true]> (mask w) | None => mask w end)
                          !! i = mask w !! i)
             by (destruct r; [by rewrite list_lookup_insert_ne | done]).
           rewrite Hiti, Hmki in Hout1. exact Hout1.
Qed.

Lemma chain_of_sound fuel m b c l : chain_of fuel m b c = Some l → chain m b c l.
Proof.
  revert c l. induction fuel as [|fuel IH]; intros c l; cbn [chain_of]; [done |].
  case_decide as Hn.
  - intros [= <-]. by apply chain_end.
  - destruct (chain_of fuel m b _) as [l'|] eqn:Hl'; [| done].
    intros [= <-]. apply chain_next; [done | by apply IH].
Qed.

(** Search for a whole warp, in a table at rest: with fuel enough for the
    chains it returns, every lane that entered active has left the queue and
    returns the first match of its chain with [true], or the null iterator
    with [false]; the other lanes return the null iterator and [false]. *)
Lemma Search_warp m (to_search : list bool) (buckets : list Z) (keys : list Key) :
  (∀ i, (i < 32)%nat → to_search !! i = Some true →
        ∃ l, chain m (buckets !!! i) HEAD_SLAB_PTR l) →
  ∃ (steps : nat) w',
    (∀ fuel, Search (steps + fuel) m to_search buckets keys = Some w')
    ∧ ∀ i, (i < 32)%nat →
        match to_search !! i with
        | Some true =>
            lane_active w' !! i = Some false
            ∧ ∀ l, chain m (buckets !!! i) HEAD_SLAB_PTR l →
                   (iterator w' !!! i, mask w' !!! i)
                   = search_result m (buckets !!! i) (keys !!! i) l
        | _ =>
            lane_active w' !! i = to_search !! i
            ∧ (iterator w' !!! i, mask w' !!! i) = (NULL_ITERATOR, false)
        end.
Proof.
  intros Hchains. unfold Search.
  set (w0 := entry_regs to_search buckets keys _ _).
  destruct (Search_drain m 32 w0) as (steps & w' & Hrun & Hout).
  - done.
  - done.
  - intros; lia.
  - done.
  - done.
  - exists steps, w'. split; [done |]. intros i Hi.
    specialize (Hout i Hi). unfold search_outcome in Hout.
    change (lane_active w0) with to_search in Hout.
    change (bucket_id w0) with buckets in Hout.
    change (key w0) with keys in Hout.
    assert (Hit0 : iterator w0 !! i = Some NULL_ITERATOR)
      by (by apply lookup_replicate_2).
    assert (Hmk0 : mask w0 !! i = Some false) by (by apply lookup_replicate_2).
    destruct (to_search !! i) as [[]|].
    + destruct Hout as [Ha Hl]. split; [done |]. intros l Hc. specialize (Hl l Hc).
      unfold search_result. destruct (chain_lookup _ _ _ _) as [p|].
      * destruct Hl as [Hi' Hm'].
        by rewrite (list_lookup_total_correct _ _ _ Hi'), (list_lookup_total_correct _ _ _ Hm').
      * destruct Hl as [Hi' Hm']. rewrite Hit0 in Hi'. rewrite Hmk0 in Hm'.
        by rewrite (list_lookup_total_correct _ _ _ Hi'), (list_lookup_total_correct _ _ _ Hm').
    + destruct Hout as (Ha & Hi' & Hm'). split; [done |].
      rewrite Hit0 in Hi'. rewrite Hmk0 in Hm'.
      by rewrite (list_lookup_total_correct _ _ _ Hi'), (list_lookup_total_correct _ _ _ Hm').
    + destruct Hout as (Ha & Hi' & Hm'). split; [done |].
      rewrite Hit0 in Hi'. rewrite Hmk0 in Hm'.
      by rewrite (list_lookup_total_correct _ _ _ Hi'), (list_lookup_total_correct _ _ _ Hm').
Qed.

(** *** The bulk search *)

Lemma kernel_tids_lookup (wid : Z) (j : nat) :
  (j < 32)%nat → kernel_tids wid !! j = Some (wid * 32 + Z.of_nat j).
Proof.
  intros Hj. unfold kernel_tids. rewrite list_lookup_fmap.
  rewrite lookup_seqZ_lt by lia. simpl. f_equal; lia.
Qed.

Lemma kernel_lanes_lookup (wid : Z) (idx : nat) (tid : Z) (lane : nat) :
  zip (kernel_tids wid) (seq 0 32) !! idx = Some (tid, lane) →
  (idx < 32)%nat ∧ tid = wid * 32 + Z.of_nat idx ∧ lane = idx.
Proof.
  intros Hl. apply lookup_zip_with_Some in Hl as (x & y & [= <- <-] & Hx & Hy).
  apply lookup_seq in Hy as [-> Hlt]. simpl in *.
  rewrite kernel_tids_lookup in Hx by done. injection Hx as <-. done.
Qed.

Lemma chain_lookup_match m b k l p :
  chain_lookup m b k l = Some p → live_match m k p.
Proof.
  induction l as [|c l IH]; cbn [chain_lookup]; [done |].
  destruct (slab_lookup m k (read_slab m c b)) as [q|] eqn:Hs; [| done].
  intros [= <-]. unfold slab_lookup in Hs.
  destruct (list_find _ _) as [[i x]|] eqn:Hf; [| done].
  injection Hs as <-. by apply list_find_Some in Hf as (_ & ? & _).
Qed.

Lemma lookup_insert_fmap {A} (l : list A) (i : nat) (x : A) :
  <[i := x]> l !! i = (λ _, x) <$> l !! i.
Proof.
  destruct (l !! i) eqn:E; simpl.
  - apply list_lookup_insert_eq. by eapply lookup_lt_Some.
  - apply lookup_ge_None. rewrite length_insert. by apply lookup_ge_None.
Qed.

(** The write-back of the lanes [lanes] of one warp: an entry some lane
    owns receives that lane's flag and value, the others stay. *)
Lemma search_write_back_fold m (zero : Value) (n : Z) w (lanes : list (Z * nat))
    (out : list Value * list Z) (t : nat) :
  (∀ x, x ∈ lanes → 0 ≤ x.1) → NoDup (lanes.*1) →
  let out' := foldl (search_write_back m zero n w) out lanes in
  length out'.1 = length out.1 ∧ length out'.2 = length out.2
  ∧ match list_find (λ x, Z.to_nat x.1 = t ∧ x.1 < n) lanes with
    | Some (_, (_, lane)) =>
        out'.1 !! t
        = (λ _, if (mask w !!! lane : bool)
                then match extract (pair_allocator_ctx_ m) ((iterator w !!! lane) : Z) with
                     | Some kv => kv.2
                     | None => inhabitant
                     end
                else zero) <$> out.1 !! t
        ∧ out'.2 !! t = (λ _, if (mask w !!! lane : bool) then 1 else 0) <$> out.2 !! t
    | None => out'.1 !! t = out.1 !! t ∧ out'.2 !! t = out.2 !! t
    end.
Proof.
  revert out. induction lanes as [|[tid lane] lanes IH]; intros out Hpos Hnd; [done |].
  cbn [foldl]. apply NoDup_cons in Hnd as [Hnin Hnd].
  specialize (IH (search_write_back m zero n w out (tid, lane))
                 (λ x Hx, Hpos x (list_elem_of_further _ _ _ Hx)) Hnd).
  cbn zeta in IH. destruct IH as (Hl1 & Hl2 & IH).
  assert (Htid : 0 ≤ tid) by (apply (Hpos (tid, lane)); left).
  cbn [list_find].
  destruct (decide (Z.to_nat (tid, lane).1 = t ∧ (tid, lane).1 < n)) as [[Ht Hn]|Hnot];
    cbn [fst] in *.
  - assert (list_find (λ x, Z.to_nat x.1 = t ∧ x.1 < n) lanes = None) as Hnone.
    { apply list_find_None, Forall_forall. intros [tid' lane'] Hin [Ht' _]. cbn in Ht'.
      apply Hnin. pose proof (Hpos _ (list_elem_of_further _ _ _ Hin)) as Hp'. cbn in Hp'.
      replace tid with tid' by lia. apply list_elem_of_fmap. by exists (tid', lane'). }
    rewrite Hnone in IH. destruct IH as [IH1 IH2].
    apply Z.ltb_lt in Hn.
    rewrite Hl1, Hl2, IH1, IH2. unfold search_write_back. rewrite Hn.
    cbn [fst snd]. rewrite !length_insert, Ht, !lookup_insert_fmap. done.
  - assert (Hsame : (search_write_back m zero n w out (tid, lane)).1 !! t = out.1 !! t
                    ∧ (search_write_back m zero n w out (tid, lane)).2 !! t = out.2 !! t
                    ∧ length (search_write_back m zero n w out (tid, lane)).1 = length out.1
                    ∧ length (search_write_back m zero n w out (tid, lane)).2 = length out.2).
    { unfold search_write_back. destruct (tid <? n) eqn:E; [| done].
      apply Z.ltb_lt in E. cbn [fst snd]. rewrite !length_insert.
      rewrite !list_lookup_insert_ne by (intros ?; apply Hnot; done). done. }
    destruct Hsame as (Hs1 & Hs2 & Hs3 & Hs4).
    rewrite Hl1, Hl2, Hs3, Hs4. split_and!; [done | done |].
    destruct (list_find _ lanes) as [[idx [tid' lane']]|]; cbn [fmap option_fmap option_map];
      by rewrite <- Hs1, <- Hs2.
Qed.

Lemma kernel_lanes_facts (wid : Z) :
  0 ≤ wid →
  (∀ x, x ∈ zip (kernel_tids wid) (seq 0 32) → 0 ≤ x.1)
  ∧ NoDup ((zip (kernel_tids wid) (seq 0 32)).*1).
Proof.
  intros Hwid. split.
  - intros [tid lane] Hin. apply list_elem_of_lookup in Hin as [idx Hidx].
    apply kernel_lanes_lookup in Hidx as (? & -> & _). simpl. lia.
  - rewrite fst_zip by (unfold kernel_tids; rewrite length_fmap, length_seqZ, length_seq; lia).
    unfold kernel_tids. apply NoDup_fmap_2; [| apply NoDup_seqZ].
    intros x y Hxy. lia.
Qed.

(** One warp of the bulk search: the entries of its queries receive the
    answers, every other entry of the two arrays stays. *)
Lemma SearchKernel_warp_ok m (zero : Value) (keys : list Key) (n wid : Z) :
  0 ≤ wid →
  (∀ k, ∃ l, chain m (ComputeBucket m k) HEAD_SLAB_PTR l) →
  ∃ steps : nat, ∀ fuel, (steps ≤ fuel)%nat → ∀ out, ∃ out',
    SearchKernel_warp fuel m zero keys n out wid = Some out'
    ∧ length out'.1 = length out.1 ∧ length out'.2 = length out.2
    ∧ ∀ t : nat,
        (wid * 32 ≤ Z.of_nat t < wid * 32 + 32 → Z.of_nat t < n →
         (t < length out.1)%nat → (t < length out.2)%nat →
         search_answer m zero (keys !!! t) (out'.1 !! t) (out'.2 !! t))
        ∧ (¬ (wid * 32 ≤ Z.of_nat t < wid * 32 + 32 ∧ Z.of_nat t < n) →
           out'.1 !! t = out.1 !! t ∧ out'.2 !! t = out.2 !! t).
Proof.
  intros Hwid Hch. unfold SearchKernel_warp.
  destruct (n <=? wid * 32) eqn:Hidle.
  { apply Z.leb_le in Hidle. exists 0%nat. intros fuel _ out. exists out.
    split_and!; [done .. |]. intros t. split; [lia | done]. }
  apply Z.leb_gt in Hidle.
  destruct (Search_warp m (kernel_active n wid) (kernel_buckets m keys n wid)
                        (kernel_keys keys n wid)) as (steps & w' & Hrun & Hout).
  { intros i Hi Hact. unfold kernel_buckets.
    rewrite (list_lookup_total_correct _ i (if wid * 32 + Z.of_nat i <? n
               then ComputeBucket m (keys !!! Z.to_nat (wid * 32 + Z.of_nat i)) else 0)).
    - unfold kernel_active in Hact. rewrite list_lookup_fmap, kernel_tids_lookup in Hact by done.
      injection Hact as ->. apply Hch.
    - by rewrite list_lookup_fmap, kernel_tids_lookup. }
  exists steps. intros fuel Hfuel out.
  replace fuel with (steps + (fuel - steps))%nat by lia. rewrite Hrun.
  eexists. split; [reflexivity |].
  destruct (kernel_lanes_facts wid Hwid) as [Hpos Hnd].
  split_and!.
  - by destruct (search_write_back_fold m zero n w' _ out 0 Hpos Hnd) as (? & ? & _).
  - by destruct (search_write_back_fold m zero n w' _ out 0 Hpos Hnd) as (? & ? & _).
  - intros t.
    destruct (search_write_back_fold m zero n w' _ out t Hpos Hnd) as (_ & _ & Hwb).
    destruct (list_find _ _) as [[idx [tid lane]]|] eqn:Hfind.
    + apply list_find_Some in Hfind as (Hidx & [Ht Hn] & _). cbn [fst] in Ht, Hn.
      apply kernel_lanes_lookup in Hidx as (Hlt & -> & ->).
      split; [| intros Hnot; exfalso; apply Hnot; lia].
      intros _ _ Hlen1 Hlen2. destruct Hwb as [-> ->].
      destruct (lookup_lt_is_Some_2 _ _ Hlen1) as [v1 ->].
      destruct (lookup_lt_is_Some_2 _ _ Hlen2) as [f1 ->].
      cbn [fmap option_fmap option_map].
      specialize (Hout idx Hlt).
      unfold kernel_active in Hout at 1.
      rewrite list_lookup_fmap, kernel_tids_lookup in Hout by done.
      cbn [fmap option_fmap option_map] in Hout.
      apply Z.ltb_lt in Hn as Hn'. rewrite Hn' in Hout. destruct Hout as [_ Hres].
      assert (Hbk : kernel_buckets m keys n wid !!! idx = ComputeBucket m (keys !!! t)).
      { apply list_lookup_total_correct. unfold kernel_buckets.
        rewrite list_lookup_fmap, kernel_tids_lookup by done.
        cbn [fmap option_fmap option_map]. by rewrite Hn', Ht. }
      assert (Hky : kernel_keys keys n wid !!! idx = keys !!! t).
      { apply list_lookup_total_correct. unfold kernel_keys.
        rewrite list_lookup_fmap, kernel_tids_lookup by done.
        cbn [fmap option_fmap option_map]. by rewrite Hn', Ht. }
      rewrite Hbk, Hky in Hres.
      intros l Hl. specialize (Hres l Hl). unfold search_result in Hres.
      destruct (chain_lookup m _ _ l) as [p|] eqn:Hlook.
      * injection Hres as -> ->. split; [done |].
        apply chain_lookup_match in Hlook as [_ Hkm]. unfold key_matches in Hkm.
        destruct (extract _ p) as [[k' v']|]; [| done].
        apply bool_decide_eq_true in Hkm. cbn in Hkm. subst k'. by exists v'.
      * by injection Hres as -> ->.
    + split; [| done]. intros Hr Hn. exfalso.
      apply list_find_None in Hfind.
      assert (Hidx : zip (kernel_tids wid) (seq 0 32) !! (Z.to_nat (Z.of_nat t - wid * 32))
                     = Some (Z.of_nat t, Z.to_nat (Z.of_nat t - wid * 32))).
      { apply lookup_zip_with_Some. eexists _, _. split_and!; [reflexivity | |].
        - rewrite kernel_tids_lookup by lia. f_equal. lia.
        - apply lookup_seq. split; [done | lia]. }
      eapply Forall_lookup_1 in Hfind; [| exact Hidx].
      apply Hfind. cbn [fst]. split; [lia | done].
Qed.

Lemma SearchKernel_warps_ok m (zero : Value) (keys : list Key) (n : Z) (wids : list Z) :
  (∀ wid, wid ∈ wids → 0 ≤ wid) → NoDup wids →
  (∀ k, ∃ l, chain m (ComputeBucket m k) HEAD_SLAB_PTR l) →
  ∃ steps : nat, ∀ fuel, (steps ≤ fuel)%nat → ∀ out, ∃ out',
    SearchKernel_warps fuel m zero keys n out wids = Some out'
    ∧ length out'.1 = length out.1 ∧ length out'.2 = length out.2
    ∧ ∀ t : nat,
        (∀ wid, wid ∈ wids → wid * 32 ≤ Z.of_nat t < wid * 32 + 32 → Z.of_nat t < n →
         (t < length out.1)%nat → (t < length out.2)%nat →
         search_answer m zero (keys !!! t) (out'.1 !! t) (out'.2 !! t))
        ∧ ((∀ wid, wid ∈ wids → ¬ (wid * 32 ≤ Z.of_nat t < wid * 32 + 32 ∧ Z.of_nat t < n)) →
           out'.1 !! t = out.1 !! t ∧ out'.2 !! t = out.2 !! t).
Proof.
  intros Hpos Hnd Hch. induction wids as [|wid wids IH].
  { exists 0%nat. intros fuel _ out. exists out. split_and!; [done .. |].
    intros t. split; [intros ? Hin; by apply elem_of_nil in Hin | done]. }
  apply NoDup_cons in Hnd as [Hnin Hnd].
  destruct IH as (steps2 & IH); [intros; apply Hpos; by right | done |].
  destruct (SearchKernel_warp_ok m zero keys n wid) as (steps1 & Hwarp);
    [apply Hpos; by left | done |].
  exists (steps1 `max` steps2)%nat. intros fuel Hfuel out.
  destruct (Hwarp fuel ltac:(lia) out) as (out1 & Hrun1 & Hl1 & Hl2 & Hout1).
  destruct (IH fuel ltac:(lia) out1) as (out' & Hrun2 & Hl1' & Hl2' & Hout2).
  exists out'. cbn [SearchKernel_warps]. rewrite Hrun1.
  split_and!; [done | congruence | congruence |].
  intros t. destruct (Hout1 t) as [Hin1 Hframe1]. destruct (Hout2 t) as [Hin2 Hframe2].
  split.
  - intros wid' Hwid' Hr Hn Hlen1 Hlen2.
    apply elem_of_cons in Hwid' as [-> | Hwid'].
    + destruct Hframe2 as [-> ->]; [| by apply Hin1].
      intros wid2 Hwid2 [Hr2 _]. assert (wid2 = wid) as -> by lia. done.
    + apply (Hin2 wid'); [done .. | congruence | congruence].
  - intros Hnone.
    destruct Hframe2 as [-> ->]; [intros ? ?; apply Hnone; by right |].
    apply Hframe1, Hnone. by left.
Qed.

(** The launch covers every query. *)
Lemma launched_warps_cover (n t : Z) :
  0 ≤ t < n → n + 127 < 2 ^ 32 → t / 32 ∈ launched_warps n.
Proof.
  intros Ht Hn. unfold launched_warps, wrap32, BLOCKSIZE_.
  rewrite Z.mod_small by lia.
  apply elem_of_seqZ. change (128 / 32) with 4.
  pose proof (Z.div_mod (n + 128 - 1) 128 ltac:(lia)).
  pose proof (Z.mod_pos_bound (n + 128 - 1) 128 ltac:(lia)).
  pose proof (Z.div_mod t 32 ltac:(lia)).
  pose proof (Z.mod_pos_bound t 32 ltac:(lia)).
  lia.
Qed.

(** The bulk search, in a table at rest whose chains end: with enough fuel
    the launch returns, and every query finds its answer in the two
    arrays. *)
Lemma SlabHash_Search_ok m (zero : Value) (keys : list Key) (values : list Value)
    (founds : list Z) (n : Z) :
  0 ≤ n → n + 127 < 2 ^ 32 →
  n ≤ Z.of_nat (length values) → n ≤ Z.of_nat (length founds) →
  0 < num_buckets_ m →
  (∀ b, 0 ≤ b < num_buckets_ m → ∃ l, chain m b HEAD_SLAB_PTR l) →
  ∃ fuel0 : nat, ∀ fuel, (fuel0 ≤ fuel)%nat → ∃ values' founds',
    SlabHash_Search fuel m zero keys values founds n = Some (values', founds')
    ∧ ∀ tid : nat, Z.of_nat tid < n →
        search_answer m zero (keys !!! tid) (values' !! tid) (founds' !! tid).
Proof.
  intros Hn0 Hn Hlv Hlf Hnb Hch. unfold SlabHash_Search.
  destruct (SearchKernel_warps_ok m zero keys n (launched_warps n)) as (steps & Hrun).
  - intros wid Hwid. unfold launched_warps in Hwid. apply elem_of_seqZ in Hwid. lia.
  - apply NoDup_seqZ.
  - intros k. apply Hch. unfold ComputeBucket. apply Z.mod_pos_bound. lia.
  - exists steps. intros fuel Hfuel.
    destruct (Hrun fuel Hfuel (values, founds)) as ([values' founds'] & Hk & _ & _ & Hout).
    exists values', founds'. split; [done |]. intros tid Htid.
    destruct (Hout tid) as [Hin _]. cbn [fst snd] in Hin.
    apply (Hin (Z.of_nat tid / 32)).
    + apply launched_warps_cover; lia.
    + pose proof (Z.div_mod (Z.of_nat tid) 32 ltac:(lia)).
      pose proof (Z.mod_pos_bound (Z.of_nat tid) 32 ltac:(lia)). lia.
    + done.
    + lia.
    + lia.
Qed.

(** *** Device memory *)

Lemma rd_wr_ne (l : list Z) (a b v : Z) : a ≠ b → rd (wr l a v) b = rd l b.
Proof.
  intros Hne. unfold rd, wr.
  destruct (a <? 0) eqn:Ea; [done |]. destruct (b <? 0) eqn:Eb; [done |].
  apply Z.ltb_ge in Ea, Eb. rewrite list_lookup_insert_ne by lia. done.
Qed.

Lemma rd_wr_eq (l : list Z) (a v : Z) :
  0 ≤ a < Z.of_nat (length l) → rd (wr l a v) a = v.
Proof.
  intros Ha. unfold rd, wr.
  destruct (a <? 0) eqn:Ea; [apply Z.ltb_lt in Ea; lia |].
  rewrite list_lookup_insert_eq by lia. done.
Qed.

Lemma deref_store_ne m (p q : unit_ptr) (v : Z) : p ≠ q → deref (store m q v) p = deref m p.
Proof.
  intros Hne. destruct p as [i|i], q as [j|j]; cbn; try done.
  - apply rd_wr_ne; congruence.
  - unfold rd_unit, wr_unit. rewrite lookup_insert_ne by congruence. done.
Qed.

Lemma deref_store_eq m (p : unit_ptr) (v : Z) : valid_unit m p → deref (store m p v) p = v.
Proof.
  intros Hv. destruct p as [i|i]; cbn in *; [by apply rd_wr_eq |].
  unfold rd_unit, wr_unit. by rewrite lookup_insert_eq.
Qed.

Lemma pair_alloc_store m (q : unit_ptr) (v : Z) :
  pair_allocator_ctx_ (store m q v) = pair_allocator_ctx_ m.
Proof. by destruct q. Qed.

Lemma WarpAllocate_units (a a' : SlabAllocContext) (new : Z) :
  WarpAllocate a = Some (new, a') → units_ a' = units_ a.
Proof.
  unfold WarpAllocate. destruct (find_bitmap 0 (bitmaps_ a)) as [[g b]|]; [| done].
  by intros [= _ <-].
Qed.

Lemma deref_set_slab_alloc m (a : SlabAllocContext) (p : unit_ptr) :
  units_ a = units_ (slab_list_allocator_ctx_ m) →
  deref (set_slab_alloc m a) p = deref m p.
Proof. intros Hu. destruct p; cbn; [done | by rewrite Hu]. Qed.

(** A pair lane never addresses a next-slab word. *)
Lemma pair_lane_not_next (c b lane : Z) :
  0 ≤ lane < 31 → ¬ is_next_word (unit_ptr_of c b lane).
Proof.
  intros Hl. unfold unit_ptr_of, get_unit_ptr_from_list_head, get_unit_ptr_from_list_nodes,
    is_next_word, wrap32, BASE_UNIT_SIZE.
  destruct (c =? HEAD_SLAB_PTR); intros [_ Hmod].
  - change (2 ^ 32) with (2 ^ 27 * 32) in Hmod.
    rewrite Z.mul_mod_distr_r in Hmod by lia.
    rewrite Z.add_comm, Z_mod_plus_full, Z.mod_small in Hmod; lia.
  - rewrite Z.add_comm, Z_mod_plus_full, Z.mod_small in Hmod; lia.
Qed.

Lemma WarpFindEmpty_range (unit_data : list Z) :
  0 ≤ WarpFindEmpty unit_data → 0 ≤ WarpFindEmpty unit_data < 31.
Proof.
  rewrite WarpFindEmpty_spec.
  destruct (list_find _ _) as [[i x]|] eqn:Hf; [| lia].
  apply list_find_Some in Hf as (Hi%lookup_take_Some & _). lia.
Qed.

Lemma WarpFindKey_range m (k : Key) (unit_data : list Z) :
  0 ≤ WarpFindKey m k unit_data → 0 ≤ WarpFindKey m k unit_data < 31.
Proof.
  rewrite WarpFindKey_spec.
  destruct (list_find _ _) as [[i x]|] eqn:Hf; [| lia].
  apply list_find_Some in Hf as (Hi%lookup_take_Some & _). lia.
Qed.

(** *** Insert and Remove, one iteration *)

(** One iteration of Insert, by the branches of the source.  [m1] is the
    memory as the other warps left it when this warp writes. *)
Lemma Insert_iter_cases env m wq w :
  let s := warp_scan m wq w in
  let m1 := env m in
  let prealloc := own_reg (prealloc_pair_internal_ptr w) (s_src_lane s) in
  let stay := next_regs w (lane_active w) (iterator w) (mask w) wq (s_curr_slab_ptr s) in
  Insert_iter env m wq w
  = match slab_lookup m (s_src_key s) (s_unit_data s) with
    | Some _ =>
        (* Branch 1 *)
        Some (next_regs w (upd (lane_active w) (s_src_lane s) false) (iterator w) (mask w)
                        wq (s_curr_slab_ptr s),
              set_pair_alloc m1 (Free prealloc (pair_allocator_ctx_ m1)))
    | None =>
        match list_find (λ ptr, ptr = EMPTY_PAIR_PTR) (take 31 (s_unit_data s)) with
        | Some (lane_empty, _) =>
            (* Branch 2 *)
            let q := unit_ptr_of (s_curr_slab_ptr s) (s_src_bucket s) (Z.of_nat lane_empty) in
            if decide (deref m1 q = EMPTY_PAIR_PTR)
            then Some (next_regs w (upd (lane_active w) (s_src_lane s) false)
                                 (upd (iterator w) (s_src_lane s) prealloc)
                                 (upd (mask w) (s_src_lane s) true)
                                 wq (s_curr_slab_ptr s),
                       store m1 q prealloc)
            else Some (stay, m1)
        | None =>
            (* Branch 3 *)
            if decide (s_unit_data s !!! 31%nat = EMPTY_SLAB_PTR) then
              match WarpAllocate (slab_list_allocator_ctx_ m1) with
              | None => None
              | Some (new_slab, a) =>
                  let q := unit_ptr_of (s_curr_slab_ptr s) (s_src_bucket s)
                                       NEXT_SLAB_PTR_LANE in
                  if decide (deref m1 q = EMPTY_SLAB_PTR)
                  then Some (stay, store (set_slab_alloc m1 a) q new_slab)
                  else Some (stay, set_slab_alloc m1 (FreeUntouched new_slab a))
              end
            else
              Some (next_regs w (lane_active w) (iterator w) (mask w) wq
                              (s_unit_data s !!! 31%nat),
                    m1)
        end
    end.
Proof.
  intros s m1 prealloc stay. unfold Insert_iter. fold s m1 prealloc.
  rewrite WarpFindKey_spec, WarpFindEmpty_spec. unfold slab_lookup.
  destruct (list_find (live_match m (s_src_key s)) (take 31 (s_unit_data s)))
    as [[i x]|] eqn:Hfind; cbn [fmap option_fmap option_map snd].
  { assert ((0 <=? Z.of_nat i) = true) as -> by (apply Z.leb_le; lia). done. }
  change (0 <=? -1) with false. cbv iota.
  destruct (list_find (λ ptr, ptr = EMPTY_PAIR_PTR) (take 31 (s_unit_data s)))
    as [[j y]|] eqn:Hempty.
  { assert ((0 <=? Z.of_nat j) = true) as -> by (apply Z.leb_le; lia).
    unfold atomicCAS. case_decide as Hold.
    - rewrite Hold. by rewrite !Z.eqb_refl.
    - apply Z.eqb_neq in Hold. by rewrite Hold. }
  change (0 <=? -1) with false. cbv iota. rewrite shfl_next.
  case_decide as Hnext.
  - rewrite Hnext. change (negb (EMPTY_SLAB_PTR =? EMPTY_SLAB_PTR)) with false. cbv iota.
    destruct (WarpAllocate (slab_list_allocator_ctx_ m1)) as [[new_slab a]|] eqn:Halloc;
      [| done].
    unfold atomicCAS.
    rewrite (deref_set_slab_alloc m1 a) by (by eapply WarpAllocate_units).
    case_decide as Hold.
    + rewrite Hold. change (EMPTY_SLAB_PTR =? EMPTY_SLAB_PTR) with true. done.
    + apply Z.eqb_neq in Hold. rewrite Hold. done.
  - apply Z.eqb_neq in Hnext. by rewrite Hnext.
Qed.

(** One iteration of Remove, by the branches of the source.  [m1] is the
    memory at the source lane's second read of the slot, [m2] at its
    compare-and-swap. *)
Lemma Remove_iter_cases env1 env2 m wq w :
  let s := warp_scan m wq w in
  let m1 := env1 m in
  let m2 := env2 m1 in
  Remove_iter env1 env2 m wq w
  = match list_find (live_match m (s_src_key s)) (take 31 (s_unit_data s)) with
    | Some (lane_found, src_pair_internal_ptr) =>
        let q := unit_ptr_of (s_curr_slab_ptr s) (s_src_bucket s) (Z.of_nat lane_found) in
        if decide (deref m2 q = deref m1 q)
        then (next_regs w (upd (lane_active w) (s_src_lane s) false) (iterator w)
                        (upd (mask w) (s_src_lane s) true) wq (s_curr_slab_ptr s),
              set_pair_alloc (store m2 q EMPTY_PAIR_PTR)
                (Free src_pair_internal_ptr (pair_allocator_ctx_ m2)))
        else (next_regs w (upd (lane_active w) (s_src_lane s) false) (iterator w) (mask w)
                        wq (s_curr_slab_ptr s),
              m2)
    | None =>
        if decide (s_unit_data s !!! 31%nat = EMPTY_SLAB_PTR)
        then (next_regs w ((λ _, false) <$> lane_active w) (iterator w) (mask w)
                        wq (s_curr_slab_ptr s),
              m2)
        else (next_regs w (lane_active w) (iterator w) (mask w) wq
                        (s_unit_data s !!! 31%nat),
              m2)
    end.
Proof.
  intros s m1 m2. unfold Remove_iter. fold s m1 m2.
  rewrite WarpFindKey_spec.
  destruct (list_find (live_match m (s_src_key s)) (take 31 (s_unit_data s)))
    as [[i x]|] eqn:Hfind.
  - apply list_find_Some in Hfind as (Hi & _ & _).
    apply lookup_take_Some in Hi as [Hi Hlt].
    assert ((0 <=? Z.of_nat i) = true) as -> by (apply Z.leb_le; lia).
    rewrite shfl_lane by lia. rewrite (list_lookup_total_correct _ _ _ Hi).
    unfold atomicCAS. case_decide as Hold.
    + rewrite Hold, !Z.eqb_refl. by rewrite pair_alloc_store.
    + apply Z.eqb_neq in Hold. by rewrite Hold.
  - change (0 <=? -1) with false. cbv iota. rewrite shfl_next.
    case_decide as Hnext.
    + by rewrite Hnext.
    + apply Z.eqb_neq in Hnext. by rewrite Hnext.
Qed.

Lemma deref_set_pair_alloc m (c : MemoryAllocContext) (p : unit_ptr) :
  deref (set_pair_alloc m c) p = deref m p.
Proof. by destruct p. Qed.

Lemma read_slab_next m c b :
  read_slab m c b !!! 31%nat = deref m (unit_ptr_of c b NEXT_SLAB_PTR_LANE).
Proof. apply list_lookup_total_correct. by rewrite read_slab_lookup by lia. Qed.

(** Insert writes a next-slab word only by its compare-and-swap from the
    empty sentinel: a word that is set when the warp writes is left as it
    is. *)
Lemma Insert_write_once env m wq w w' m' (p : unit_ptr) :
  Insert_iter env m wq w = Some (w', m') →
  is_next_word p → deref (env m) p ≠ EMPTY_SLAB_PTR →
  deref m' p = deref (env m) p.
Proof.
  rewrite Insert_iter_cases. cbv zeta. intros Hiter Hp Hset.
  destruct (slab_lookup m _ _) as [?|].
  { injection Hiter as _ <-. apply deref_set_pair_alloc. }
  destruct (list_find _ _) as [[j y]|] eqn:Hempty.
  { apply list_find_Some in Hempty as (Hj%lookup_take_Some & _).
    case_decide; injection Hiter as _ <-; [| done].
    apply deref_store_ne. intros ->. eapply pair_lane_not_next; [| exact Hp]. lia. }
  case_decide; [| by injection Hiter as _ <-].
  destruct (WarpAllocate _) as [[new_slab a]|] eqn:Halloc; [| done].
  apply WarpAllocate_units in Halloc.
  case_decide as Hold; injection Hiter as _ <-.
  - rewrite deref_store_ne by (by intros ->). by apply deref_set_slab_alloc.
  - by apply deref_set_slab_alloc.
Qed.

(** Remove never writes a next-slab word. *)
Lemma Remove_write_once env1 env2 m wq w (p : unit_ptr) :
  is_next_word p →
  deref (Remove_iter env1 env2 m wq w).2 p = deref (env2 (env1 m)) p.
Proof.
  rewrite Remove_iter_cases. cbv zeta. intros Hp.
  destruct (list_find _ _) as [[i x]|] eqn:Hfind.
  - apply list_find_Some in Hfind as (Hi%lookup_take_Some & _).
    case_decide; cbn [snd]; [| done].
    rewrite deref_set_pair_alloc. apply deref_store_ne.
    intros ->. eapply pair_lane_not_next; [| exact Hp]. lia.
  - by case_decide.
Qed.

(** *** The slab allocator *)

Lemma find_bitmap_Some (g0 g b : Z) (bs : list Z) :
  find_bitmap g0 bs = Some (g, b) →
  g0 ≤ g ∧ bs !! Z.to_nat (g - g0) = Some b ∧ b ≠ 0xFFFFFFFF.
Proof.
  revert g0. induction bs as [|b0 bs IH]; intros g0; cbn [find_bitmap]; [done |].
  destruct (b0 =? 0xFFFFFFFF) eqn:E.
  - intros Hf. apply IH in Hf as (Hle & Hl & Hne). split_and!; [lia | | done].
    replace (Z.to_nat (g - g0)) with (S (Z.to_nat (g - (g0 + 1)))) by lia. done.
  - intros [= <- <-]. apply Z.eqb_neq in E. rewrite Z.sub_diag. done.
Qed.

(** The clear bit the allocation picks in a bitmap word that is not full. *)
Lemma free_bit_of_word (b : Z) :
  0 ≤ b < 2 ^ 32 → b ≠ 0xFFFFFFFF →
  0 ≤ __ffs (Z.lxor b 0xFFFFFFFF) - 1 < 32
  ∧ Z.testbit b (__ffs (Z.lxor b 0xFFFFFFFF) - 1) = false.
Proof.
  intros Hb Hne. unfold __ffs.
  assert (Hx : ∀ j, 0 ≤ j < 32 → Z.testbit (Z.lxor b 0xFFFFFFFF) j = negb (Z.testbit b j)).
  { intros j Hj. rewrite Z.lxor_spec. change 0xFFFFFFFF with (Z.ones 32).
    rewrite Z.ones_spec_low by lia. by destruct (Z.testbit b j). }
  destruct (ffs_from_spec 32 0 (Z.lxor b 0xFFFFFFFF)) as [[_ Hall] | (j & -> & Hr & Hbit & _)];
    [lia | |].
  - exfalso. apply Hne. apply Z.bits_inj'. intros n Hn.
    change 0xFFFFFFFF with (Z.ones 32). rewrite Z.testbit_ones by lia.
    destruct (n <? 32) eqn:E.
    + apply Z.ltb_lt in E. specialize (Hall n ltac:(lia)). rewrite Hx in Hall by lia.
      apply negb_false_iff in Hall. rewrite Hall.
      assert ((0 <=? n) = true) as -> by (by apply Z.leb_le). done.
    + apply Z.ltb_ge in E. rewrite andb_false_r.
      destruct (decide (b = 0)) as [->|]; [apply Z.testbit_0_l |].
      apply Z.bits_above_log2; [lia |].
      apply Z.lt_le_trans with 32; [| done]. apply Z.log2_lt_pow2; lia.
  - rewrite Hx in Hbit by lia. apply negb_true_iff in Hbit.
    replace (j + 1 - 1) with j by lia. split; [lia | done].
Qed.

Lemma ldiff_lor_bit (b j : Z) :
  0 ≤ j → Z.testbit b j = false → Z.ldiff (Z.lor b (Z.shiftl 1 j)) (Z.shiftl 1 j) = b.
Proof.
  intros Hj Hbit. apply Z.bits_inj'. intros n Hn.
  rewrite Z.ldiff_spec, Z.lor_spec, Z.shiftl_1_l, Z.pow2_bits_eqb by lia.
  destruct (j =? n) eqn:E.
  - apply Z.eqb_eq in E. subst n. rewrite Hbit. done.
  - by rewrite orb_false_r, andb_true_r.
Qed.

(** Freeing the slab that was just allocated gives back the allocator as it
    was. *)
Lemma FreeUntouched_WarpAllocate (a a' : SlabAllocContext) (new_slab : Z) :
  Forall (λ b, 0 ≤ b < 2 ^ 32) (bitmaps_ a) →
  WarpAllocate a = Some (new_slab, a') →
  FreeUntouched new_slab a' = a.
Proof.
  intros Hwf. unfold WarpAllocate.
  destruct (find_bitmap 0 (bitmaps_ a)) as [[g b]|] eqn:Hfind; [| done].
  apply find_bitmap_Some in Hfind as (Hg & Hl & Hne). rewrite Z.sub_0_r in Hl.
  pose proof (Forall_lookup_1 _ _ _ _ Hwf Hl) as Hb. cbn beta in Hb.
  destruct (free_bit_of_word b Hb Hne) as [Hbit Hclear].
  set (bit := __ffs (Z.lxor b 0xFFFFFFFF) - 1) in *.
  intros [= <- <-]. unfold FreeUntouched. cbn [bitmaps_ units_ num_super_blocks_
    NUM_MEM_BLOCKS_PER_SUPER_BLOCK_].
  assert ((g * 32 + bit) / 32 = g) as -> by (symmetry; apply (Z.div_unique _ _ _ bit); lia).
  assert ((g * 32 + bit) mod 32 = bit) as -> by (symmetry; apply (Z.mod_unique _ _ g); lia).
  pose proof (lookup_lt_Some _ _ _ Hl) as Hlen.
  rewrite rd_wr_eq by lia. rewrite ldiff_lor_bit by (done || lia).
  unfold wr. assert ((g <? 0) = false) as -> by (apply Z.ltb_ge; lia).
  rewrite list_insert_insert_eq, list_insert_id by done.
  by destruct a.
Qed.

Lemma FreeUntouched_units (a : SlabAllocContext) (slab_ptr : Z) :
  units_ (FreeUntouched slab_ptr a) = units_ a.
Proof. reflexivity. Qed.

Lemma set_slab_alloc_id m : set_slab_alloc m (slab_list_allocator_ctx_ m) = m.
Proof. by destruct m. Qed.

(** The scan of the iteration that follows one in which no lane left the
    queue and the slab pointer stayed: same source lane, same slab. *)
Lemma warp_scan_again m m' wq w (act : list bool) (it : list Z) (mk : list bool) :
  let s := warp_scan m wq w in
  warp_scan m' wq (next_regs w act it mk wq (s_curr_slab_ptr s))
  = {| s_curr_slab_ptr := s_curr_slab_ptr s;
       s_src_lane := s_src_lane s;
       s_src_bucket := s_src_bucket s;
       s_src_key := s_src_key s;
       s_unit_data := read_slab m' (s_curr_slab_ptr s) (s_src_bucket s) |}.
Proof. unfold warp_scan. cbn. by rewrite Z.eqb_refl. Qed.

(** Branch 3.2 of Insert: the slab has no match and no empty pair slot and
    its next-slab word reads empty.  The warp allocates a slab and lane 31
    tries to publish it.  If the word is still empty the new index is
    stored there.  If another warp was first, the new slab is freed again,
    no word changes, and the next iteration moves into the slab the other
    warp published. *)
Lemma Insert_extend env env2 m wq w (new_slab : Z) (a : SlabAllocContext) :
  let s := warp_scan m wq w in
  let m1 := env m in
  let q := unit_ptr_of (s_curr_slab_ptr s) (s_src_bucket s) NEXT_SLAB_PTR_LANE in
  let stay := next_regs w (lane_active w) (iterator w) (mask w) wq (s_curr_slab_ptr s) in
  slab_lookup m (s_src_key s) (s_unit_data s) = None →
  list_find (λ ptr, ptr = EMPTY_PAIR_PTR) (take 31 (s_unit_data s)) = None →
  s_unit_data s !!! 31%nat = EMPTY_SLAB_PTR →
  WarpAllocate (slab_list_allocator_ctx_ m1) = Some (new_slab, a) →
  (deref m1 q = EMPTY_SLAB_PTR →
     Insert_iter env m wq w = Some (stay, store (set_slab_alloc m1 a) q new_slab)
     ∧ (valid_unit m1 q → deref (store (set_slab_alloc m1 a) q new_slab) q = new_slab))
  ∧ (deref m1 q ≠ EMPTY_SLAB_PTR →
     let m' := set_slab_alloc m1 (FreeUntouched new_slab a) in
     Insert_iter env m wq w = Some (stay, m')
     ∧ (∀ p, deref m' p = deref m1 p)
     ∧ (Forall (λ b, 0 ≤ b < 2 ^ 32) (bitmaps_ (slab_list_allocator_ctx_ m1)) → m' = m1)
     ∧ (slab_lookup m' (s_src_key s) (read_slab m' (s_curr_slab_ptr s) (s_src_bucket s)) = None →
        list_find (λ ptr, ptr = EMPTY_PAIR_PTR)
                  (take 31 (read_slab m' (s_curr_slab_ptr s) (s_src_bucket s))) = None →
        Insert_iter env2 m' wq stay
        = Some (next_regs w (lane_active w) (iterator w) (mask w) wq (deref m1 q),
                env2 m'))).
Proof.
  intros s m1 q stay Hdup Hfull Hnext Halloc.
  pose proof (WarpAllocate_units _ _ _ Halloc) as Hunits.
  pose proof (Insert_iter_cases env m wq w) as Hcases. cbv zeta in Hcases.
  fold s m1 in Hcases. rewrite Hdup, Hfull in Hcases.
  rewrite decide_True in Hcases by done. rewrite Halloc in Hcases. fold q stay in Hcases.
  split.
  - intros Hwin. rewrite decide_True in Hcases by done. split; [done |].
    intros Hv. apply deref_store_eq. by destruct q.
  - intros Hlose m'. rewrite decide_False in Hcases by done.
    assert (Hsame : ∀ p, deref m' p = deref m1 p).
    { intros p. apply deref_set_slab_alloc. by rewrite FreeUntouched_units. }
    split_and!; [done | done | |].
    + intros Hwf. unfold m'. rewrite (FreeUntouched_WarpAllocate _ _ _ Hwf Halloc).
      apply set_slab_alloc_id.
    + intros Hdup' Hfull'.
      pose proof (Insert_iter_cases env2 m' wq stay) as Hcases'. cbv zeta in Hcases'.
      pose proof (warp_scan_again m m' wq w (lane_active w) (iterator w) (mask w)) as Hscan.
      cbv zeta in Hscan. fold s stay in Hscan. rewrite Hscan in Hcases'.
      cbn [s_curr_slab_ptr s_src_lane s_src_bucket s_src_key s_unit_data] in Hcases'.
      rewrite Hdup', Hfull' in Hcases'.
      rewrite read_slab_next in Hcases'. fold q in Hcases'. rewrite Hsame in Hcases'.
      rewrite decide_False in Hcases' by done. exact Hcases'.
Qed.

(** *** The pre-allocation of Insert *)

(** The pre-loop phase takes one index off the free list for every active
    lane, in lane order, and stores the lane's key and value in the record;
    the inactive lanes keep the empty sentinel. *)
Lemma prealloc_lanes_spec (lanes : list (bool * (Key * Value))) :
  ∀ (c c' : MemoryAllocContext) (ps : list Z),
    NoDup (heap_ c) →
    prealloc_lanes c lanes = Some (ps, c') →
    ∃ used : list Z,
      heap_ c = used ++ heap_ c'
      ∧ length ps = length lanes
      ∧ (∀ q, q ∉ used → data_ c' !! q = data_ c !! q)
      ∧ ∀ i act kv, lanes !! i = Some (act, kv) →
          if act : bool
          then ∃ p, ps !! i = Some p ∧ p ∈ used ∧ extract c' p = Some kv
          else ps !! i = Some EMPTY_PAIR_PTR.
Proof.
  induction lanes as [|[act kv] lanes IH]; intros c c' ps Hnd; cbn [prealloc_lanes].
  { intros [= <- <-]. exists []. split_and!; [done .. |]. intros i ? ? Hi. done. }
  destruct act.
  - unfold Allocate. destruct (heap_ c) as [|p h] eqn:Hheap; [done |].
    set (c1 := store_pair _ p kv).
    destruct (prealloc_lanes c1 lanes) as [[ps' c2]|] eqn:Hrec; [| done].
    intros [= <- <-]. apply NoDup_cons in Hnd as [Hp Hnd].
    destruct (IH c1 c2 ps' Hnd Hrec) as (used & Hused & Hlen & Hdata & Hl).
    cbn in Hused. exists (p :: used). split_and!.
    + cbn. by rewrite Hused.
    + cbn. by rewrite Hlen.
    + intros q Hq. apply not_elem_of_cons in Hq as [Hqp Hq].
      rewrite Hdata by done. cbn. by rewrite lookup_insert_ne.
    + intros [|i] act kv' Hi; cbn in Hi.
      * injection Hi as <- <-. exists p. split_and!; [done | by left |].
        unfold extract. rewrite Hdata; [cbn; by rewrite lookup_insert_eq |].
        intros Hin. apply Hp. rewrite Hused. apply elem_of_app. by left.
      * specialize (Hl i act kv' Hi). destruct act; [| done].
        destruct Hl as (p' & ? & ? & ?). exists p'. split_and!; [done | by right | done].
  - destruct (prealloc_lanes c lanes) as [[ps' c2]|] eqn:Hrec; [| done].
    intros [= <- <-].
    destruct (IH c c2 ps' Hnd Hrec) as (used & Hused & Hlen & Hdata & Hl).
    exists used. split_and!; [done | by cbn; rewrite Hlen | done |].
    intros [|i] act kv' Hi; cbn in Hi; [by injection Hi as <- <- | by apply Hl].
Qed.



(** *** Occupancy counts *)






















(** *** Whole operations and the next-slab words *)

Lemma keeps_next_words_hd (envs : list (SlabHashContext → SlabHashContext)) :
  Forall (@keeps_next_words Key Value) envs →
  keeps_next_words (hd id envs) ∧ Forall (@keeps_next_words Key Value) (tl envs).
Proof. intros [|env envs' Henv Henvs]; cbn [hd tl]; [by split | by split]. Qed.

(** The loop of Insert, run against interferences that keep the set
    next-slab words, keeps them. *)
Lemma Insert_loop_write_once fuel (envs : list (SlabHashContext → SlabHashContext))
    m w w' m' (p : unit_ptr) :
  Forall (@keeps_next_words Key Value) envs →
  Insert_loop fuel envs m w = Some (w', m') →
  is_next_word p → deref m p ≠ EMPTY_SLAB_PTR → deref m' p = deref m p.
Proof.
  intros Henvs Hloop Hp. revert envs m w Henvs Hloop.
  induction fuel as [|fuel IH]; intros envs m w Henvs; cbn [Insert_loop].
  - destruct (_ =? 0); [by intros [= _ <-] | done].
  - destruct (_ =? 0); [by intros [= _ <-] |].
    destruct (Insert_iter (hd id envs) m _ w) as [[w1 m1]|] eqn:Hit; [| done].
    intros Hloop Hset. destruct (keeps_next_words_hd envs Henvs) as [Hhd Htl].
    assert (deref m1 p = deref m p) as H1.
    { assert (deref (hd id envs m) p = deref m p) as Ha by (by apply Hhd).
      rewrite (Insert_write_once _ _ _ _ _ _ p Hit Hp); [done | by rewrite Ha]. }
    rewrite (IH _ _ _ Htl Hloop) by (by rewrite H1). done.
Qed.

(** The loop of Remove likewise. *)
Lemma Remove_loop_write_once fuel (envs : list Interference) m w w' m' (p : unit_ptr) :
  Forall (λ e : @Interference Key Value, keeps_next_words e.1 ∧ keeps_next_words e.2) envs →
  Remove_loop fuel envs m w = Some (w', m') →
  is_next_word p → deref m p ≠ EMPTY_SLAB_PTR → deref m' p = deref m p.
Proof.
  intros Henvs Hloop Hp. revert envs m w Henvs Hloop.
  induction fuel as [|fuel IH]; intros envs m w Henvs; cbn [Remove_loop].
  - destruct (_ =? 0); [by intros [= _ <-] | done].
  - destruct (_ =? 0); [by intros [= _ <-] |].
    assert (keeps_next_words (hd (id, id) envs).1 ∧ keeps_next_words (hd (id, id) envs).2
            ∧ Forall (λ e : @Interference Key Value, keeps_next_words e.1 ∧ keeps_next_words e.2)
                     (tl envs)) as (H1 & H2 & Htl).
    { destruct Henvs as [|e envs' [? ?] ?]; cbn [hd tl fst snd]; [by split_and! | done]. }
    pose proof (Remove_write_once (hd (id, id) envs).1 (hd (id, id) envs).2 m
                  (__ballot_sync ACTIVE_LANES_MASK (lane_active w)) w p Hp) as Hit.
    destruct (Remove_iter _ _ m _ w) as [w1 m1]. cbn [snd] in Hit.
    intros Hloop Hset.
    assert (deref m1 p = deref m p) as Hm1.
    { assert (deref ((hd (id, id) envs).1 m) p = deref m p) as Ha by (by apply H1).
      rewrite Hit, H2; [done | done | by rewrite Ha]. }
    rewrite (IH _ _ _ Htl Hloop) by (by rewrite Hm1). done.
Qed.

(** A whole Insert of a warp: the pre-allocation writes records only. *)
Lemma Insert_next_words fuel (envs : list (SlabHashContext → SlabHashContext))
    m act buckets (keys : list Key) (values : list Value) w' m' (p : unit_ptr) :
  Forall (@keeps_next_words Key Value) envs →
  Insert fuel envs m act buckets keys values = Some (w', m') →
  is_next_word p → deref m p ≠ EMPTY_SLAB_PTR → deref m' p = deref m p.
Proof.
  intros Henvs. unfold Insert.
  destruct (prealloc_lanes _ _) as [[ps c]|]; [| done]. intros Hloop Hp Hset.
  rewrite (Insert_loop_write_once _ _ _ _ _ _ p Henvs Hloop Hp)
    by (by rewrite deref_set_pair_alloc).
  apply deref_set_pair_alloc.
Qed.

Lemma run_warps_write_once (step : SlabHashContext → Z → option SlabHashContext)
    (wids : list Z) m m' (p : unit_ptr) :
  (∀ m0 m1 wid, step m0 wid = Some m1 →
     deref m0 p ≠ EMPTY_SLAB_PTR → deref m1 p = deref m0 p) →
  run_warps step m wids = Some m' →
  deref m p ≠ EMPTY_SLAB_PTR → deref m' p = deref m p.
Proof.
  intros Hstep. revert m. induction wids as [|wid wids IH]; intros m; cbn [run_warps].
  - by intros [= <-].
  - destruct (step m wid) as [m1|] eqn:Hs; [| done]. intros Hrun Hset.
    pose proof (Hstep _ _ _ Hs Hset) as H1.
    rewrite (IH _ Hrun) by (by rewrite H1). done.
Qed.

(** The registers after an iteration that changed the flag and the result
    of lane [src] at most. *)
Lemma serves_only_next_regs (src : Z) w (act : list bool) (it : list Z) (mk : list bool)
    (wq c : Z) :
  (act = lane_active w ∨ ∃ x, act = upd (lane_active w) src x) →
  (it = iterator w ∨ ∃ x, it = upd (iterator w) src x) →
  (mk = mask w ∨ ∃ x, mk = upd (mask w) src x) →
  serves_only src w (next_regs w act it mk wq c).
Proof.
  intros Hact Hit Hmk. unfold serves_only. cbn [next_regs bucket_id key value
    prealloc_pair_internal_ptr lane_active iterator mask].
  split_and!; [done .. |]. intros j Hj. unfold upd in *. split_and!.
  - destruct Hact as [-> | [x ->]]; [done | by apply list_lookup_insert_ne].
  - destruct Hit as [-> | [x ->]]; [done | by apply list_lookup_insert_ne].
  - destruct Hmk as [-> | [x ->]]; [done | by apply list_lookup_insert_ne].
Qed.

End Proofs.

(** * The claims *)

Section Claims.
Context {Key Value : Type} {Key_eq : EqDecision Key} {Key_inh : Inhabited Key}
        {Value_inh : Inhabited Value}.
Implicit Types (m : @SlabHashContext Key Value) (w : @Warp Key Value).

(** X25: the work queue of the three loops.  The loops stop exactly when
    the ballot of the active flags is zero; otherwise the lane served is
    the lowest active lane, the lowest set bit of the ballot; its bucket and
    its key reach all lanes; lane [i] reads word [i] of the current slab,
    which is the head slab exactly when the ballot differs from the one of
    the previous iteration and the slab the walk had reached otherwise; after
    an iteration the remembered ballot is this one and the slab pointer is
    the current slab or the next-slab word read from it.  An iteration of
    Search or Insert serves the source lane and no other: the requests of
    all lanes and the flag and result of every other lane are as they were,
    and the source lane leaves the queue with its answer (Search: the match
    of the slab read, or no match at the end of the chain; Insert: a
    duplicate in the slab read, or its record stored in the first empty
    pair slot) or stays while the walk goes on.  An iteration of Remove does
    the same when the slab read holds the key or has a next slab; at a
    miss at the end of the chain it clears the flag of every lane. *)
Theorem iteration_serves_source_lane m w (fuel : nat)
    (ienvs : list (SlabHashContext → SlabHashContext))
    (renvs : list (@Interference Key Value)) :
  let wq := __ballot_sync ACTIVE_LANES_MASK (lane_active w) in
  let s := warp_scan m wq w in
  (wq = 0 ↔ ∀ i, (i < 32)%nat → lane_active w !! i ≠ Some true)
  ∧ (wq = 0 →
       Search_loop fuel m w = Some w
       ∧ Insert_loop fuel ienvs m w = Some (w, m)
       ∧ Remove_loop fuel renvs m w = Some (w, m))
  ∧ (wq ≠ 0 →
       Search_loop (S fuel) m w = Search_loop fuel m (Search_iter m wq w)
       ∧ Insert_loop (S fuel) ienvs m w
         = match Insert_iter (hd id ienvs) m wq w with
           | None => None
           | Some (w', m') => Insert_loop fuel (tl ienvs) m' w'
           end
       ∧ Remove_loop (S fuel) renvs m w
         = (let '(w', m') := Remove_iter (hd (id, id) renvs).1 (hd (id, id) renvs).2 m wq w in
            Remove_loop fuel (tl renvs) m' w')
       ∧ ∃ src : nat,
           (src < 32)%nat
           ∧ s_src_lane s = Z.of_nat src
           ∧ lane_active w !! src = Some true
           ∧ (∀ j, (j < src)%nat → lane_active w !! j ≠ Some true)
           ∧ s_src_bucket s = bucket_id w !!! src
           ∧ s_src_key s = key w !!! src)
  ∧ s_curr_slab_ptr s
    = (if decide (prev_work_queue w = wq) then curr_slab_ptr w else HEAD_SLAB_PTR)
  ∧ (∀ lane : nat, (lane < 32)%nat →
       s_unit_data s !! lane
       = Some (deref m (unit_ptr_of (s_curr_slab_ptr s) (s_src_bucket s) (Z.of_nat lane))))
  ∧ (prev_work_queue (Search_iter m wq w) = wq
     ∧ (curr_slab_ptr (Search_iter m wq w) = s_curr_slab_ptr s
        ∨ curr_slab_ptr (Search_iter m wq w) = s_unit_data s !!! 31%nat))
  ∧ (∀ env w' m', Insert_iter env m wq w = Some (w', m') →
       prev_work_queue w' = wq
       ∧ (curr_slab_ptr w' = s_curr_slab_ptr s
          ∨ curr_slab_ptr w' = s_unit_data s !!! 31%nat))
  ∧ (∀ env1 env2,
       prev_work_queue (Remove_iter env1 env2 m wq w).1 = wq
       ∧ (curr_slab_ptr (Remove_iter env1 env2 m wq w).1 = s_curr_slab_ptr s
          ∨ curr_slab_ptr (Remove_iter env1 env2 m wq w).1 = s_unit_data s !!! 31%nat))
  ∧ (let w' := Search_iter m wq w in
     serves_only (s_src_lane s) w w'
     ∧ match slab_lookup m (s_src_key s) (s_unit_data s) with
       | Some p =>
           lane_active w' = upd (lane_active w) (s_src_lane s) false
           ∧ iterator w' = upd (iterator w) (s_src_lane s) p
           ∧ mask w' = upd (mask w) (s_src_lane s) true
       | None =>
           iterator w' = iterator w ∧ mask w' = mask w
           ∧ if decide (s_unit_data s !!! 31%nat = EMPTY_SLAB_PTR)
             then lane_active w' = upd (lane_active w) (s_src_lane s) false
             else lane_active w' = lane_active w
                  ∧ curr_slab_ptr w' = s_unit_data s !!! 31%nat
       end)
  ∧ (∀ env w' m', Insert_iter env m wq w = Some (w', m') →
       serves_only (s_src_lane s) w w'
       ∧ match slab_lookup m (s_src_key s) (s_unit_data s) with
         | Some _ =>
             lane_active w' = upd (lane_active w) (s_src_lane s) false
             ∧ iterator w' = iterator w ∧ mask w' = mask w
         | None =>
             match list_find (λ ptr, ptr = EMPTY_PAIR_PTR) (take 31 (s_unit_data s)) with
             | Some (lane_empty, _) =>
                 let q := unit_ptr_of (s_curr_slab_ptr s) (s_src_bucket s)
                                      (Z.of_nat lane_empty) in
                 let prealloc := own_reg (prealloc_pair_internal_ptr w) (s_src_lane s) in
                 if decide (deref (env m) q = EMPTY_PAIR_PTR)
                 then lane_active w' = upd (lane_active w) (s_src_lane s) false
                      ∧ iterator w' = upd (iterator w) (s_src_lane s) prealloc
                      ∧ mask w' = upd (mask w) (s_src_lane s) true
                      ∧ m' = store (env m) q prealloc
                 else lane_active w' = lane_active w ∧ iterator w' = iterator w
                      ∧ mask w' = mask w ∧ m' = env m
             | None =>
                 lane_active w' = lane_active w ∧ iterator w' = iterator w
                 ∧ mask w' = mask w
             end
         end)
  ∧ (∀ env1 env2,
       let w' := (Remove_iter env1 env2 m wq w).1 in
       iterator w' = iterator w
       ∧ match slab_lookup m (s_src_key s) (s_unit_data s) with
         | Some _ =>
             serves_only (s_src_lane s) w w'
             ∧ lane_active w' = upd (lane_active w) (s_src_lane s) false
         | None =>
             mask w' = mask w
             ∧ if decide (s_unit_data s !!! 31%nat = EMPTY_SLAB_PTR)
               then lane_active w' = (λ _, false) <$> lane_active w
               else serves_only (s_src_lane s) w w'
                    ∧ lane_active w' = lane_active w
                    ∧ curr_slab_ptr w' = s_unit_data s !!! 31%nat
         end).
Proof.
  intros wq s. split_and!.
  - apply ballot_zero_iff.
  - intros Hz. split_and!.
    + by apply Search_loop_done.
    + apply Z.eqb_eq in Hz. destruct fuel; cbn [Insert_loop]; fold wq; by rewrite Hz.
    + apply Z.eqb_eq in Hz. destruct fuel; cbn [Remove_loop]; fold wq; by rewrite Hz.
  - intros Hnz. split_and!.
    + by apply Search_loop_step.
    + apply Z.eqb_neq in Hnz. cbn [Insert_loop]. fold wq. by rewrite Hnz.
    + apply Z.eqb_neq in Hnz. cbn [Remove_loop]. fold wq. by rewrite Hnz.
    + destruct (ballot_nonzero_src _ Hnz) as (src & Hsrc & Hffs & Hact & Hmin).
      fold wq in Hffs. exists src. split_and!; [done | done | done | done | |].
      * unfold s, warp_scan. cbn [s_src_bucket]. rewrite Hffs. by apply shfl_lane.
      * unfold s, warp_scan, WarpSyncKey. cbn [s_src_key]. rewrite Hffs. by apply shfl_lane.
  - unfold s, warp_scan. cbn [s_curr_slab_ptr]. case_decide as Hp.
    + rewrite Hp, Z.eqb_refl. done.
    + apply Z.eqb_neq in Hp. by rewrite Hp.
  - intros lane Hlane. unfold s. rewrite scan_unit_data. by apply read_slab_lookup.
  - rewrite Search_iter_cases. fold s.
    destruct (slab_lookup m _ _) as [p|]; [done |]. by case_decide.
  - rewrite Search_iter_cases. fold s.
    destruct (slab_lookup m _ _) as [p|]; [by left |].
    case_decide; [by left | by right].
  - intros env w' m'. rewrite Insert_iter_cases. cbv zeta. fold s. intros Hiter.
    destruct (slab_lookup m _ _) as [p|]; [injection Hiter as <- <-; by split; [| left] |].
    destruct (list_find _ _) as [[j y]|].
    { case_decide; injection Hiter as <- <-; by split; [| left]. }
    case_decide; [| injection Hiter as <- <-; by split; [| right]].
    destruct (WarpAllocate _) as [[new_slab a]|]; [| done].
    case_decide; injection Hiter as <- <-; by split; [| left].
  - intros env1 env2. rewrite Remove_iter_cases. cbv zeta. fold s.
    destruct (list_find _ _) as [[j y]|].
    { case_decide; by split; [| left]. }
    case_decide; split; (done || (by left) || (by right)).
  - cbv zeta. rewrite Search_iter_cases. fold s. unfold search_done.
    change (__ffs wq - 1) with (s_src_lane s).
    destruct (slab_lookup m _ _) as [p|].
    + split; [apply serves_only_next_regs; right; by eexists | done].
    + case_decide.
      * split; [apply serves_only_next_regs; (by left) || (right; by eexists) | done].
      * split; [apply serves_only_next_regs; by left | done].
  - intros env w' m'. rewrite Insert_iter_cases. cbv zeta. fold s. intros Hiter.
    destruct (slab_lookup m _ _) as [p|].
    { injection Hiter as <- <-.
      split; [apply serves_only_next_regs; (by left) || (right; by eexists) | done]. }
    destruct (list_find _ _) as [[j y]|].
    { case_decide; injection Hiter as <- <-.
      - split; [apply serves_only_next_regs; right; by eexists | done].
      - split; [apply serves_only_next_regs; by left | done]. }
    case_decide.
    + destruct (WarpAllocate _) as [[new_slab a]|]; [| done].
      case_decide; injection Hiter as <- <-;
        (split; [apply serves_only_next_regs; by left | done]).
    + injection Hiter as <- <-. split; [apply serves_only_next_regs; by left | done].
  - intros env1 env2. cbv zeta. rewrite Remove_iter_cases. cbv zeta. fold s.
    unfold slab_lookup.
    destruct (list_find _ _) as [[j y]|]; cbn [fmap option_fmap option_map].
    { case_decide; cbn [fst]; (split; [done |]);
        (split; [apply serves_only_next_regs; (by left) || (right; by eexists) | done]). }
    case_decide; cbn [fst]; (split; [done |]); (split; [done |]); [done |].
    split; [apply serves_only_next_regs; by left | done].
Qed.

(** C9, as the code has it: the bucket index every bulk operation hands to
    its lanes is [hash(key) mod num_buckets], a function of the table and
    the key alone, hence equal for equal keys, and for a positive number of
    buckets it lies below that number; the built-in hash is
    [(((x XOR key) + y) mod 2^32) mod 4294967291], the sum wrapping as a
    32-bit unsigned integer before the reduction by the prime. *)
Theorem bucket_index_in_range m (k : Key) :
  0 < num_buckets_ m →
  ComputeBucket m k = hash_fn_ m k mod num_buckets_ m
  ∧ 0 ≤ ComputeBucket m k < num_buckets_ m
  ∧ (∀ k', k' = k → ComputeBucket m k' = ComputeBucket m k)
  ∧ (∀ (keys : list Key) (n wid : Z) (lane : nat),
       (lane < 32)%nat → wid * 32 + Z.of_nat lane < n →
       keys !!! Z.to_nat (wid * 32 + Z.of_nat lane) = k →
       kernel_buckets m keys n wid !! lane = Some (ComputeBucket m k))
  ∧ (∀ hash_x hash_y key : Z,
       computeBucket hash_x hash_y (num_buckets_ m) key
       = (((Z.lxor hash_x key + hash_y) mod 2 ^ 32) mod 4294967291) mod num_buckets_ m
       ∧ 0 ≤ computeBucket hash_x hash_y (num_buckets_ m) key < num_buckets_ m).
Proof.
  intros Hnb. split_and!.
  - done.
  - unfold ComputeBucket. apply Z.mod_pos_bound. lia.
  - unfold ComputeBucket. apply Z.mod_pos_bound. lia.
  - by intros k' ->.
  - intros keys n wid lane Hlane Hn Hk. unfold kernel_buckets.
    rewrite list_lookup_fmap, kernel_tids_lookup by done. cbn.
    apply Z.ltb_lt in Hn. by rewrite Hn, Hk.
  - intros hash_x hash_y key0. split; [done |].
    unfold computeBucket. apply Z.mod_pos_bound. lia.
Qed.

(** C3: in a table at rest whose chains end, Search returns for every lane
    that entered active: the pair index in the lowest matching pair slot
    (lanes 0..30, not empty, record key equal to the query key) of the
    first slab of the chain that has one, with [true]; and the null
    iterator with [false] when the chain ends without a match.  The lanes
    that entered inactive return the null iterator with [false].  The bulk
    search then leaves, for every query, flag 1 and the value stored with
    that match, or flag 0 and the zero value.  Fuel enough for the chains
    makes both return. *)
Theorem search_returns_first_match m (zero : Value) :
  0 < num_buckets_ m →
  (∀ b, 0 ≤ b < num_buckets_ m → ∃ l, chain m b HEAD_SLAB_PTR l) →
  (∀ (to_search : list bool) (buckets : list Z) (keys : list Key),
     (∀ i, (i < 32)%nat → to_search !! i = Some true →
           0 ≤ buckets !!! i < num_buckets_ m) →
     ∃ (steps : nat) w',
       (∀ fuel, Search (steps + fuel) m to_search buckets keys = Some w')
       ∧ ∀ i, (i < 32)%nat →
           match to_search !! i with
           | Some true =>
               lane_active w' !! i = Some false
               ∧ ∀ l, chain m (buckets !!! i) HEAD_SLAB_PTR l →
                      (iterator w' !!! i, mask w' !!! i)
                      = search_result m (buckets !!! i) (keys !!! i) l
           | _ =>
               lane_active w' !! i = to_search !! i
               ∧ (iterator w' !!! i, mask w' !!! i) = (NULL_ITERATOR, false)
           end)
  ∧ (∀ (keys : list Key) (values : list Value) (founds : list Z) (n : Z),
       0 ≤ n → n + 127 < 2 ^ 32 →
       n ≤ Z.of_nat (length values) → n ≤ Z.of_nat (length founds) →
       ∃ fuel0 : nat, ∀ fuel, (fuel0 ≤ fuel)%nat → ∃ values' founds',
         SlabHash_Search fuel m zero keys values founds n = Some (values', founds')
         ∧ ∀ tid : nat, Z.of_nat tid < n →
             search_answer m zero (keys !!! tid) (values' !! tid) (founds' !! tid)).
Proof.
  intros Hnb Hch. split.
  - intros to_search buckets keys Hrange. apply Search_warp.
    intros i Hi Hact. apply Hch. by apply Hrange.
  - intros keys values founds n Hn0 Hn Hlv Hlf. by apply SlabHash_Search_ok.
Qed.

(** C4: a next-slab word (word 31 of a slab) that is not empty when a warp
    writes is never changed by that warp: Insert writes such a word only by
    the compare-and-swap from the empty sentinel, Remove writes none, and
    Search writes nothing at all (it has the memory as an argument only).
    When Insert finds no match and no empty pair slot in a slab whose
    next-slab word reads empty, the warp allocates a slab and lane 31 tries
    to publish it: if the word is still empty it receives the new index; if
    another warp was first, the new slab is freed again (the allocator is as
    before), no word changes, and the next iteration moves into the slab
    the other warp published. *)
Theorem next_slab_word_written_once m (wq : Z) w
    (env env' env1 env2 : SlabHashContext → SlabHashContext) :
  let s := warp_scan m wq w in
  let m1 := env m in
  let q := unit_ptr_of (s_curr_slab_ptr s) (s_src_bucket s) NEXT_SLAB_PTR_LANE in
  let stay := next_regs w (lane_active w) (iterator w) (mask w) wq (s_curr_slab_ptr s) in
  (∀ w' m' p, Insert_iter env m wq w = Some (w', m') →
     is_next_word p → deref m1 p ≠ EMPTY_SLAB_PTR → deref m' p = deref m1 p)
  ∧ (∀ p, is_next_word p →
       deref (Remove_iter env1 env2 m wq w).2 p = deref (env2 (env1 m)) p)
  ∧ (∀ (new_slab : Z) (a : SlabAllocContext),
       slab_lookup m (s_src_key s) (s_unit_data s) = None →
       list_find (λ ptr, ptr = EMPTY_PAIR_PTR) (take 31 (s_unit_data s)) = None →
       s_unit_data s !!! 31%nat = EMPTY_SLAB_PTR →
       WarpAllocate (slab_list_allocator_ctx_ m1) = Some (new_slab, a) →
       (deref m1 q = EMPTY_SLAB_PTR →
          Insert_iter env m wq w = Some (stay, store (set_slab_alloc m1 a) q new_slab)
          ∧ (valid_unit m1 q → deref (store (set_slab_alloc m1 a) q new_slab) q = new_slab))
       ∧ (deref m1 q ≠ EMPTY_SLAB_PTR →
          let m' := set_slab_alloc m1 (FreeUntouched new_slab a) in
          Insert_iter env m wq w = Some (stay, m')
          ∧ (∀ p, deref m' p = deref m1 p)
          ∧ (Forall (λ b, 0 ≤ b < 2 ^ 32) (bitmaps_ (slab_list_allocator_ctx_ m1)) → m' = m1)
          ∧ (slab_lookup m' (s_src_key s) (read_slab m' (s_curr_slab_ptr s) (s_src_bucket s))
             = None →
             list_find (λ ptr, ptr = EMPTY_PAIR_PTR)
                       (take 31 (read_slab m' (s_curr_slab_ptr s) (s_src_bucket s))) = None →
             Insert_iter env' m' wq stay
             = Some (next_regs w (lane_active w) (iterator w) (mask w) wq (deref m1 q),
                     env' m')))).
Proof.
  intros s m1 q stay. split; [| split].
  - intros w' m' p. apply Insert_write_once.
  - intros p. apply Remove_write_once.
  - intros new_slab a. apply Insert_extend.
Qed.



(** X1: the found branch of Remove when the slot that matched still holds
    the pair index the warp read at the source lane's own read of it.  The
    compare-and-swap is then against the observed index: if the slot still
    holds it, the slot becomes empty, exactly the observed index goes back to
    the free list and the source lane returns [true]; if another warp
    changed the slot in between, the memory is as the other warps left it
    and the lane returns what it held ([false]).  The source lane leaves the
    queue either way, and no other lane does. *)
Theorem remove_cas_on_observed_index env1 env2 m (wq : Z) w (lane_found : nat) (x : Z) :
  let s := warp_scan m wq w in
  let q := unit_ptr_of (s_curr_slab_ptr s) (s_src_bucket s) (Z.of_nat lane_found) in
  let m2 := env2 (env1 m) in
  list_find (live_match m (s_src_key s)) (take 31 (s_unit_data s)) = Some (lane_found, x) →
  deref (env1 m) q = x →
  s_unit_data s !! lane_found = Some x
  ∧ lane_active (Remove_iter env1 env2 m wq w).1 = upd (lane_active w) (s_src_lane s) false
  ∧ (deref m2 q = x →
       (Remove_iter env1 env2 m wq w).2
       = set_pair_alloc (store m2 q EMPTY_PAIR_PTR) (Free x (pair_allocator_ctx_ m2))
       ∧ mask (Remove_iter env1 env2 m wq w).1 = upd (mask w) (s_src_lane s) true)
  ∧ (deref m2 q ≠ x →
       (Remove_iter env1 env2 m wq w).2 = m2
       ∧ mask (Remove_iter env1 env2 m wq w).1 = mask w).
Proof.
  intros s q m2 Hfind Hread. rewrite Remove_iter_cases. cbv zeta. fold s. rewrite Hfind.
  fold q m2. rewrite Hread.
  apply list_find_Some in Hfind as (Hx%lookup_take_Some & _).
  split; [by destruct Hx |].
  case_decide as Hcas; cbn [fst snd lane_active mask next_regs];
    (split; [done |]); split; intros Hq; done.
Qed.

(** X2: the no-match branch of Remove at the end of a chain.  The warp
    changes no word and frees nothing (the memory is as the other warps left
    it), no lane's result changes, and every lane of the warp, not the
    source lane alone, clears its active flag, so that the next ballot is
    zero and the loop ends. *)
Theorem remove_no_match_retires_warp env1 env2 m (wq : Z) w :
  let s := warp_scan m wq w in
  slab_lookup m (s_src_key s) (s_unit_data s) = None →
  s_unit_data s !!! 31%nat = EMPTY_SLAB_PTR →
  Remove_iter env1 env2 m wq w
  = (next_regs w ((λ _, false) <$> lane_active w) (iterator w) (mask w) wq
               (s_curr_slab_ptr s),
     env2 (env1 m))
  ∧ __ballot_sync ACTIVE_LANES_MASK ((λ _, false) <$> lane_active w) = 0.
Proof.
  intros s Hnone Hend. rewrite Remove_iter_cases. cbv zeta. fold s.
  unfold slab_lookup in Hnone.
  destruct (list_find _ _) as [[i x]|]; [done |].
  rewrite decide_True by done. split; [done |].
  apply ballot_zero_iff. intros i _. rewrite list_lookup_fmap.
  by destruct (lane_active w !! i).
Qed.

(** X3: the duplicate branch of Insert.  When the slab the warp reads holds
    a pair slot that answers the source lane's key, that lane gives its
    pre-allocated index back to the free list and leaves the queue with
    its result unchanged, and no word of the table is written: every word
    reads as the other warps left it. *)
Theorem insert_duplicate_in_slab env m (wq : Z) w (ptr : Z) :
  let s := warp_scan m wq w in
  let prealloc := own_reg (prealloc_pair_internal_ptr w) (s_src_lane s) in
  slab_lookup m (s_src_key s) (s_unit_data s) = Some ptr →
  Insert_iter env m wq w
  = Some (next_regs w (upd (lane_active w) (s_src_lane s) false) (iterator w) (mask w)
                    wq (s_curr_slab_ptr s),
          set_pair_alloc (env m) (Free prealloc (pair_allocator_ctx_ (env m))))
  ∧ (∀ p, deref (set_pair_alloc (env m) (Free prealloc (pair_allocator_ctx_ (env m)))) p
          = deref (env m) p)
  ∧ heap_ (pair_allocator_ctx_
             (set_pair_alloc (env m) (Free prealloc (pair_allocator_ctx_ (env m)))))
    = prealloc :: heap_ (pair_allocator_ctx_ (env m)).
Proof.
  intros s prealloc Hdup. rewrite Insert_iter_cases. cbv zeta. fold s. rewrite Hdup.
  split_and!; [done | | done]. intros p. apply deref_set_pair_alloc.
Qed.

(** X4: a next-slab word that is set stays as it is through a whole device
    Insert or Remove of a warp, run against other warps that keep the set
    next-slab words, and through a whole bulk Insert or Remove launch. *)
Theorem set_next_slab_word_is_final (fuel : nat) m (p : unit_ptr) :
  is_next_word p → deref m p ≠ EMPTY_SLAB_PTR →
  (∀ envs act buckets (keys : list Key) (values : list Value) w' m',
     Forall (@keeps_next_words Key Value) envs →
     Insert fuel envs m act buckets keys values = Some (w', m') →
     deref m' p = deref m p)
  ∧ (∀ envs act buckets (keys : list Key) w' m',
       Forall (λ e : @Interference Key Value, keeps_next_words e.1 ∧ keeps_next_words e.2) envs →
       Remove fuel envs m act buckets keys = Some (w', m') →
       deref m' p = deref m p)
  ∧ (∀ (keys : list Key) (values : list Value) n r,
       SlabHash_Insert fuel m keys values n = Some r → deref r.1 p = deref m p)
  ∧ (∀ (keys : list Key) n m',
       SlabHash_Remove fuel m keys n = Some m' → deref m' p = deref m p).
Proof.
  intros Hp Hset. split_and!.
  - intros envs act buckets keys values w' m' Henvs Hins.
    exact (Insert_next_words _ _ _ _ _ _ _ _ _ p Henvs Hins Hp Hset).
  - intros envs act buckets keys w' m' Henvs Hloop. unfold Remove in Hloop.
    exact (Remove_loop_write_once _ _ _ _ _ _ p Henvs Hloop Hp Hset).
  - intros keys values n r. unfold SlabHash_Insert.
    destruct (run_warps _ m _) as [m1|] eqn:Hrun; [| done]. intros [= <-]. cbn [fst].
    refine (run_warps_write_once _ _ _ _ p _ Hrun Hset).
    intros m0 m2 wid. unfold InsertKernel_warp.
    destruct (n <=? wid * 32); [by intros [= <-] |].
    destruct (Insert fuel [] m0 _ _ _ _) as [[w2 m3]|] eqn:Hins; [| done].
    intros [= <-] Hset0.
    exact (Insert_next_words _ _ _ _ _ _ _ _ _ p (Forall_nil_2 _) Hins Hp Hset0).
  - intros keys n m'. unfold SlabHash_Remove. intros Hrun.
    refine (run_warps_write_once _ _ _ _ p _ Hrun Hset).
    intros m0 m2 wid. unfold RemoveKernel_warp.
    destruct (n <=? wid * 32); [by intros [= <-] |].
    destruct (Remove fuel [] m0 _ _ _) as [[w2 m3]|] eqn:Hrem; [| done].
    intros [= <-] Hset0. unfold Remove in Hrem.
    exact (Remove_loop_write_once _ _ _ _ _ _ p (Forall_nil_2 _) Hrem Hp Hset0).
Qed.

End Claims.

(** C9, as stated: the built-in hash is not [((x XOR key) + y) mod
    4294967291] on the integers; with x = 1, y = 1 and key 0xFFFFFFFE the
    32-bit sum wraps to 0, and with 7 buckets the code yields bucket 0
    where the stated formula yields 5. *)
Lemma built_in_hash_wraps :
  computeBucket 1 1 7 0xFFFFFFFE = 0
  ∧ ((Z.lxor 1 0xFFFFFFFE + 1) mod 4294967291) mod 7 = 5.
Proof. split; reflexivity. Qed.

(** ** The claims on the scenarios *)

Lemma search_returns_first_match_witness :
  ∃ fuel0 : nat, ∀ fuel, (fuel0 ≤ fuel)%nat → ∃ values' founds',
    SlabHash_Search fuel table3 0 [1; 2; 3; 4] [0; 0; 0; 0] [0; 0; 0; 0] 4
    = Some (values', founds')
    ∧ ∀ tid : nat, Z.of_nat tid < 4 →
        search_answer table3 0 ([1; 2; 3; 4] !!! tid) (values' !! tid) (founds' !! tid).
Proof.
  assert (Hnb : num_buckets_ table3 = 1) by (vm_compute; reflexivity).
  apply (search_returns_first_match table3 0).
  - rewrite Hnb. reflexivity.
  - intros b Hb. assert (b = 0) as -> by (rewrite Hnb in Hb; lia).
    exists [HEAD_SLAB_PTR]. apply (chain_of_sound 1). vm_compute. reflexivity.
  - lia.
  - reflexivity.
  - simpl. lia.
  - simpl. lia.
Defined.

Lemma next_slab_word_written_once_witness :
  (Insert_iter id mem31 1 regs31
   = Some (stay31, store (set_slab_alloc (id mem31) alloc31) next_word31 0))
  ∧ (Insert_iter publish5 mem31 1 regs31
     = Some (stay31, set_slab_alloc (publish5 mem31) (FreeUntouched 0 alloc31)))
  ∧ set_slab_alloc (publish5 mem31) (FreeUntouched 0 alloc31) = publish5 mem31
  ∧ (Insert_iter id (set_slab_alloc (publish5 mem31) (FreeUntouched 0 alloc31)) 1 stay31
     = Some (next_regs regs31 (lane_active regs31) (iterator regs31) (mask regs31) 1
                       (deref (publish5 mem31) next_word31),
             id (set_slab_alloc (publish5 mem31) (FreeUntouched 0 alloc31))))
  ∧ next_word31 = HeadUnit 31
  ∧ deref (publish5 mem31) next_word31 = 5.
Proof.
  pose proof (next_slab_word_written_once mem31 1 regs31 id id id id) as Hwin.
  pose proof (next_slab_word_written_once mem31 1 regs31 publish5 id id id) as Hlose.
  cbv zeta in Hwin, Hlose.
  destruct Hwin as (_ & _ & Hwin). destruct Hlose as (_ & _ & Hlose).
  specialize (Hwin 0 alloc31). specialize (Hlose 0 alloc31).
  destruct Hwin as [Hwin _]; [vm_compute; reflexivity .. |].
  destruct Hlose as [_ Hlose]; [vm_compute; reflexivity .. |].
  destruct Hwin as [Hwin _]; [vm_compute; reflexivity |].
  destruct Hlose as (Hlose & _ & Hsame & Hnext); [vm_compute; discriminate |].
  split; [exact Hwin |]. split; [exact Hlose |]. split.
  { apply Hsame. refine (bool_decide_unpack _ _). vm_compute. exact I. }
  split; [apply Hnext; vm_compute; reflexivity |].
  split; vm_compute; reflexivity.
Defined.



(** The quotient is a [double]: 40 bytes of pairs in 112 bytes of slabs give
    the double nearest to 5/14, which is 6433713753386423 / 2^54
    (0.35714285714285715), and a table without buckets and without allocated
    slabs, where both byte counts are zero, gives NaN. *)
Lemma load_factor_is_double (fuel : nat) :
  double_div (double_of_Z 40) (double_of_Z 112)
  = SpecFloat.S754_finite false 6433713753386423 (-54)
  ∧ ComputeLoadFactor fuel 4 4 (@SlabHash_new Z Z id_hash 0 64 1 1)
    = Some SpecFloat.S754_nan.
Proof. split; vm_compute; reflexivity. Qed.

Lemma bucket_index_in_range_witness :
  0 ≤ ComputeBucket table7 12 < 7
  ∧ computeBucket 1 1 7 0xFFFFFFFE
    = (((Z.lxor 1 0xFFFFFFFE + 1) mod 2 ^ 32) mod 4294967291) mod 7.
Proof.
  destruct (bucket_index_in_range table7 12) as (_ & Hrange & _ & _ & Hbuiltin);
    [reflexivity |].
  split; [exact Hrange | exact (proj1 (Hbuiltin 1 1 0xFFFFFFFE))].
Defined.

(** What the device Insert returns to a lane depends on the table: for the
    pair (5, 7) lane 0 is returned its pair index with [true] on the empty
    table, and the null iterator with [false] on the table that holds
    key 5. *)
Lemma insert_outcomes_differ_on_device :
  (Insert 100 [] table0 one_lane_active (one_lane_buckets table0 5) (one_lane_keys 5)
          (kernel_values [7] 1 0)
   ≫= λ r, Some (iterator r.1 !! 0%nat, mask r.1 !! 0%nat)) = Some (Some 0, Some true)
  ∧ (Insert 100 [] table5 one_lane_active (one_lane_buckets table5 5) (one_lane_keys 5)
            (kernel_values [7] 1 0)
     ≫= λ r, Some (iterator r.1 !! 0%nat, mask r.1 !! 0%nat))
    = Some (Some NULL_ITERATOR, Some false).
Proof. split; vm_compute; reflexivity. Qed.

(** C1, on the code: an Insert of a key that is present does overwrite what
    a Search returns when an earlier slab of the chain has an empty pair
    slot.  In [table_hole] key 131 lives in the second slab with value 1031
    and pair slot 0 of the head slab is empty.  The Insert of (131, 7) finds
    no match in the head slab, takes the empty-slot branch there and wins
    its compare-and-swap: it returns its own pair index with [true], the
    slot changes from empty to that index, nothing goes back to the free
    list.  The chain then holds key 131 twice and a Search for it returns
    the new value 7. *)
Theorem insert_duplicates_after_hole :
  SlabHash_Search 100 table_hole 0 [131] [0] [0] 1 = Some ([1031], [1])
  ∧ chain table_hole 0 HEAD_SLAB_PTR [HEAD_SLAB_PTR; 0]
  ∧ chain_lookup table_hole 0 131 [HEAD_SLAB_PTR; 0] = Some 31
  ∧ rd (bucket_list_head_ table_hole) 0 = EMPTY_PAIR_PTR
  ∧ heap_ (pair_allocator_ctx_ table_hole) = 0 :: seqZ 32 32
  ∧ (Insert 100 [] table_hole one_lane_active (one_lane_buckets table_hole 131)
            (one_lane_keys 131) (kernel_values [7] 1 0)
     ≫= λ r, Some (iterator r.1 !! 0%nat, mask r.1 !! 0%nat,
                   rd (bucket_list_head_ r.2) 0, heap_ (pair_allocator_ctx_ r.2)))
    = Some (Some 0, Some true, 0, seqZ 32 32)
  ∧ (SlabHash_Insert 100 table_hole [131] [7] 1
     ≫= λ r, SlabHash_Search 100 r.1 0 [131] [0] [0] 1) = Some ([7], [1]).
Proof.
  split_and!; try (vm_compute; reflexivity).
  apply (chain_of_sound 5). vm_compute. reflexivity.
Qed.

(** C2, on the code: the source lane of Remove reads the slot a second time
    and compares-and-swaps against that second reading, while it frees the
    index the warp read first.  Two warps remove key 5 from [table5]; both
    read pair index 0 in slot 0; the other warp then completes its Remove
    (slot emptied, index 0 freed).  This warp reads the slot again, now
    empty; its compare-and-swap of empty against empty is taken as won; it
    frees index 0 a second time and returns [true]. *)
Theorem remove_frees_twice :
  rd (bucket_list_head_ table5) 0 = 0
  ∧ heap_ (pair_allocator_ctx_ table5) = seqZ 1 63
  ∧ rd (bucket_list_head_ (other_warp_removes 5 table5)) 0 = EMPTY_PAIR_PTR
  ∧ heap_ (pair_allocator_ctx_ (other_warp_removes 5 table5)) = 0 :: seqZ 1 63
  ∧ (Remove 100 [(other_warp_removes 5, id)] table5 one_lane_active
            (one_lane_buckets table5 5) (one_lane_keys 5)
     ≫= λ r, Some (mask r.1 !! 0%nat, lane_active r.1 !! 0%nat,
                   heap_ (pair_allocator_ctx_ r.2)))
    = Some (Some true, Some false, 0 :: 0 :: seqZ 1 63).
Proof. split_and!; vm_compute; reflexivity. Qed.

(** C6, on the code: a Remove of a present key can leave the key in the
    table.  (a) In the no-match branch of Remove every lane clears its
    active flag, not the source lane alone: in the batch [7; 5] on [table5]
    lane 0 asks for the absent key 7, the warp leaves the loop after one
    iteration, lane 1 is never served, the memory is unchanged and key 5 is
    still found; in the order [5; 7] key 5 is removed.  (b) After the
    duplicate insertion of C1, Remove clears the first of the two slots that
    hold key 131 and a Search still finds the key, with its first value. *)
Theorem remove_leaves_key_in_table :
  SlabHash_Search 100 table5 0 [5] [0] [0] 1 = Some ([99], [1])
  ∧ (SlabHash_Remove 100 table5 [7; 5] 2
     ≫= λ m, SlabHash_Search 100 m 0 [5] [0] [0] 1) = Some ([99], [1])
  ∧ (Remove 100 [] table5 (kernel_active 2 0) (kernel_buckets table5 [7; 5] 2 0)
            (kernel_keys [7; 5] 2 0)
     ≫= λ r, Some (take 2 (lane_active r.1), take 2 (mask r.1),
                   rd (bucket_list_head_ r.2) 0, heap_ (pair_allocator_ctx_ r.2)))
    = Some ([false; false], [false; false], 0, seqZ 1 63)
  ∧ (SlabHash_Remove 100 table5 [5; 7] 2
     ≫= λ m, SlabHash_Search 100 m 0 [5] [0] [0] 1) = Some ([0], [0])
  ∧ (SlabHash_Insert 100 table_hole [131] [7] 1
     ≫= λ r, SlabHash_Remove 100 r.1 [131] 1
     ≫= λ m, SlabHash_Search 100 m 0 [131] [0] [0] 1) = Some ([1031], [1]).
Proof. split_and!; vm_compute; reflexivity. Qed.

(** C7, on the code: an iteration of the loop of Remove can take lanes out
    of the work queue that it did not serve.  The warp of the bulk Remove
    of [7; 5] on [table5] enters the loop with lanes 0 and 1 in the queue.
    The first iteration serves lane 0, the lowest set bit of the ballot,
    and broadcasts its key 7; the head slab, which holds key 5, has no match
    for key 7 and no next slab.  In this branch every lane clears its flag:
    after the one iteration lane 1 has left the queue too, with [false], the
    ballot is zero, and the memory is as it was.  The same iteration of
    Search, where the branch is under [lane_id == src_lane], retires lane 0
    alone. *)
Theorem work_queue_drops_unserved_lane :
  let wq := __ballot_sync ACTIVE_LANES_MASK (lane_active remove_regs75) in
  let s := warp_scan table5 wq remove_regs75 in
  let r := Remove_iter id id table5 wq remove_regs75 in
  wq = 3
  ∧ s_src_lane s = 0 ∧ s_src_bucket s = 0 ∧ s_src_key s = 7
  ∧ take 2 (key remove_regs75) = [7; 5]
  ∧ slab_lookup table5 7 (s_unit_data s) = None
  ∧ slab_lookup table5 5 (s_unit_data s) = Some 0
  ∧ s_unit_data s !! 31%nat = Some EMPTY_SLAB_PTR
  ∧ take 2 (lane_active r.1) = [false; false]
  ∧ take 2 (mask r.1) = [false; false]
  ∧ __ballot_sync ACTIVE_LANES_MASK (lane_active r.1) = 0
  ∧ rd (bucket_list_head_ r.2) 0 = 0
  ∧ heap_ (pair_allocator_ctx_ r.2) = heap_ (pair_allocator_ctx_ table5)
  ∧ take 2 (lane_active (Search_iter table5 wq remove_regs75)) = [false; true]
  ∧ __ballot_sync ACTIVE_LANES_MASK (lane_active (Search_iter table5 wq remove_regs75)) = 2.
Proof. cbv zeta. split_and!; vm_compute; reflexivity. Qed.

(** ** Further properties on the scenarios *)

(** X1 on [table5]: lane 0 removes key 5, found in pair slot 0 of the head
    slab with pair index 0, no other warp at work. *)
Lemma remove_cas_on_observed_index_witness :
  s_unit_data (warp_scan table5 1 (remove_regs5 5)) !! 0%nat = Some 0
  ∧ lane_active (Remove_iter id id table5 1 (remove_regs5 5)).1
    = upd (lane_active (remove_regs5 5)) (s_src_lane (warp_scan table5 1 (remove_regs5 5)))
          false
  ∧ (deref (id (id table5))
           (unit_ptr_of (s_curr_slab_ptr (warp_scan table5 1 (remove_regs5 5)))
                        (s_src_bucket (warp_scan table5 1 (remove_regs5 5)))
                        (Z.of_nat 0)) = 0 →
       (Remove_iter id id table5 1 (remove_regs5 5)).2
       = set_pair_alloc
           (store (id (id table5))
                  (unit_ptr_of (s_curr_slab_ptr (warp_scan table5 1 (remove_regs5 5)))
                               (s_src_bucket (warp_scan table5 1 (remove_regs5 5)))
                               (Z.of_nat 0))
                  EMPTY_PAIR_PTR)
           (Free 0 (pair_allocator_ctx_ (id (id table5))))
       ∧ mask (Remove_iter id id table5 1 (remove_regs5 5)).1
         = upd (mask (remove_regs5 5))
               (s_src_lane (warp_scan table5 1 (remove_regs5 5))) true)
  ∧ (deref (id (id table5))
           (unit_ptr_of (s_curr_slab_ptr (warp_scan table5 1 (remove_regs5 5)))
                        (s_src_bucket (warp_scan table5 1 (remove_regs5 5)))
                        (Z.of_nat 0)) ≠ 0 →
       (Remove_iter id id table5 1 (remove_regs5 5)).2 = id (id table5)
       ∧ mask (Remove_iter id id table5 1 (remove_regs5 5)).1 = mask (remove_regs5 5)).
Proof.
  apply (remove_cas_on_observed_index id id table5 1 (remove_regs5 5) 0 0).
  - vm_compute. reflexivity.
  - vm_compute. reflexivity.
Defined.

(** X2 on [table5]: lane 0 removes the absent key 7. *)
Lemma remove_no_match_retires_warp_witness :
  Remove_iter id id table5 1 (remove_regs5 7)
  = (next_regs (remove_regs5 7) ((λ _, false) <$> lane_active (remove_regs5 7))
               (iterator (remove_regs5 7)) (mask (remove_regs5 7)) 1
               (s_curr_slab_ptr (warp_scan table5 1 (remove_regs5 7))),
     id (id table5))
  ∧ __ballot_sync ACTIVE_LANES_MASK ((λ _, false) <$> lane_active (remove_regs5 7)) = 0.
Proof.
  apply (remove_no_match_retires_warp id id table5 1 (remove_regs5 7)).
  - vm_compute. reflexivity.
  - vm_compute. reflexivity.
Defined.

(** X3 on [table5]: lane 0 inserts (5, 7) while key 5 is in the head slab. *)
Lemma insert_duplicate_in_slab_witness :
  Insert_iter id mem5 1 regs5
  = Some (next_regs regs5 (upd (lane_active regs5) (s_src_lane (warp_scan mem5 1 regs5)) false)
                    (iterator regs5) (mask regs5) 1
                    (s_curr_slab_ptr (warp_scan mem5 1 regs5)),
          set_pair_alloc (id mem5)
            (Free (own_reg (prealloc_pair_internal_ptr regs5)
                           (s_src_lane (warp_scan mem5 1 regs5)))
                  (pair_allocator_ctx_ (id mem5))))
  ∧ (∀ p, deref (set_pair_alloc (id mem5)
                   (Free (own_reg (prealloc_pair_internal_ptr regs5)
                                  (s_src_lane (warp_scan mem5 1 regs5)))
                         (pair_allocator_ctx_ (id mem5)))) p
          = deref (id mem5) p)
  ∧ heap_ (pair_allocator_ctx_
             (set_pair_alloc (id mem5)
                (Free (own_reg (prealloc_pair_internal_ptr regs5)
                               (s_src_lane (warp_scan mem5 1 regs5)))
                      (pair_allocator_ctx_ (id mem5)))))
    = own_reg (prealloc_pair_internal_ptr regs5) (s_src_lane (warp_scan mem5 1 regs5))
      :: heap_ (pair_allocator_ctx_ (id mem5)).
Proof.
  apply (insert_duplicate_in_slab id mem5 1 regs5 0).
  vm_compute. reflexivity.
Defined.

(** X4 on [table32]: the next-slab word of the head slab of bucket 0 holds
    slab index 0. *)
Lemma set_next_slab_word_is_final_witness :
  (∀ envs act buckets (keys : list Z) (values : list Z) w' m',
     Forall (@keeps_next_words Z Z) envs →
     Insert 100 envs table32 act buckets keys values = Some (w', m') →
     deref m' (HeadUnit 31) = deref table32 (HeadUnit 31))
  ∧ (∀ envs act buckets (keys : list Z) w' m',
       Forall (λ e : @Interference Z Z, keeps_next_words e.1 ∧ keeps_next_words e.2) envs →
       Remove 100 envs table32 act buckets keys = Some (w', m') →
       deref m' (HeadUnit 31) = deref table32 (HeadUnit 31))
  ∧ (∀ (keys : list Z) (values : list Z) n r,
       SlabHash_Insert 100 table32 keys values n = Some r →
       deref r.1 (HeadUnit 31) = deref table32 (HeadUnit 31))
  ∧ (∀ (keys : list Z) n m',
       SlabHash_Remove 100 table32 keys n = Some m' →
       deref m' (HeadUnit 31) = deref table32 (HeadUnit 31)).
Proof.
  apply (set_next_slab_word_is_final 100 table32 (HeadUnit 31)).
  - split; [lia | reflexivity].
  - vm_compute. intros [=].
Defined.

(** * Whole operations on a table at rest *)

Section Coverage.
Context {Key Value : Type} {Key_eq : EqDecision Key} {Key_inh : Inhabited Key}
        {Value_inh : Inhabited Value}.
Implicit Types (m : @SlabHashContext Key Value) (w : @Warp Key Value).

Arguments read_slab : simpl never.
Arguments warp_scan : simpl never.
Arguments __shfl_sync : simpl never.
Arguments __ballot_sync : simpl never.
Arguments __ffs : simpl never.
Arguments __popc : simpl never.
Arguments unit_ptr_of : simpl never.
Arguments pending : simpl never.
Arguments requests : simpl never.

(** ** Addresses *)

Lemma wrap32_bucket (b : Z) : wrap32 (b * BASE_UNIT_SIZE) = b mod 2 ^ 27 * 32.
Proof.
  unfold wrap32, BASE_UNIT_SIZE. change (2 ^ 32) with (2 ^ 27 * 32).
  by rewrite Z.mul_mod_distr_r by lia.
Qed.

(** Two lanes that address the same word are the same lane. *)
Lemma unit_ptr_of_lane (c b i c' b' j : Z) :
  0 ≤ i < 32 → 0 ≤ j < 32 → unit_ptr_of c b i = unit_ptr_of c' b' j → i = j.
Proof.
  intros Hi Hj. unfold unit_ptr_of, get_unit_ptr_from_list_head, get_unit_ptr_from_list_nodes.
  rewrite !wrap32_bucket.
  destruct (c =? HEAD_SLAB_PTR), (c' =? HEAD_SLAB_PTR); intros [= Heq]; lia.
Qed.

(** Two node slabs that share a word are the same slab. *)
Lemma unit_ptr_of_node (c i c' j b b' : Z) :
  c ≠ HEAD_SLAB_PTR → c' ≠ HEAD_SLAB_PTR → 0 ≤ i < 32 → 0 ≤ j < 32 →
  unit_ptr_of c b i = unit_ptr_of c' b' j → c = c'.
Proof.
  intros Hc Hc' Hi Hj. unfold unit_ptr_of, get_unit_ptr_from_list_nodes.
  apply Z.eqb_neq in Hc, Hc'. rewrite Hc, Hc'. intros [= Heq]. lia.
Qed.

Lemma unit_ptr_of_head (b lane : Z) :
  0 ≤ b < 2 ^ 27 → unit_ptr_of HEAD_SLAB_PTR b lane = HeadUnit (b * 32 + lane).
Proof.
  intros Hb. unfold unit_ptr_of, get_unit_ptr_from_list_head.
  rewrite Z.eqb_refl, wrap32_bucket, Z.mod_small by lia. done.
Qed.

Lemma unit_ptr_of_nodes (c b lane : Z) :
  c ≠ HEAD_SLAB_PTR → unit_ptr_of c b lane = NodeUnit (c * 32 + lane).
Proof. intros Hc%Z.eqb_neq. unfold unit_ptr_of. by rewrite Hc. Qed.

(** Lane 31 of the head slab or of a slab with an index that is not
    negative addresses a next-slab word. *)
Lemma next_lane_is_next_word (c b : Z) :
  c = HEAD_SLAB_PTR ∨ 0 ≤ c → is_next_word (unit_ptr_of c b NEXT_SLAB_PTR_LANE).
Proof.
  intros Hc. unfold unit_ptr_of, get_unit_ptr_from_list_head, get_unit_ptr_from_list_nodes,
    NEXT_SLAB_PTR_LANE.
  rewrite wrap32_bucket.
  destruct (c =? HEAD_SLAB_PTR) eqn:E; cbn.
  - pose proof (Z.mod_pos_bound b (2 ^ 27) ltac:(lia)).
    split; [lia |]. rewrite Z.add_comm, Z.mod_add by lia. done.
  - apply Z.eqb_neq in E. destruct Hc as [? | Hc]; [done |].
    split; [lia |]. rewrite Z.add_comm, Z.mod_add by lia. done.
Qed.

Lemma read_slab_total m c b (i : nat) :
  (i < 32)%nat → read_slab m c b !!! i = deref m (unit_ptr_of c b (Z.of_nat i)).
Proof. intros Hi. apply list_lookup_total_correct. by apply read_slab_lookup. Qed.

(** ** Allocated slabs *)

Lemma slab_allocated_range (a : SlabAllocContext) (s : Z) :
  Z.of_nat (length (bitmaps_ a)) * 32 ≤ HEAD_SLAB_PTR →
  slab_allocated a s → 0 ≤ s < HEAD_SLAB_PTR.
Proof.
  intros Hlen (Hs & x & Hx & _). apply lookup_lt_Some in Hx.
  split; [done |].
  pose proof (Z.div_mod s 32 ltac:(lia)). pose proof (Z.mod_pos_bound s 32 ltac:(lia)).
  assert (s / 32 < Z.of_nat (length (bitmaps_ a))) by lia. lia.
Qed.

Lemma slab_allocated_not_free (a : SlabAllocContext) (s : Z) :
  slab_allocated a s → ¬ slab_free a s.
Proof. intros (_ & x & Hx & Hb) (_ & y & Hy & Hb'). congruence. Qed.

(** The slabs of a chain are the head slab and allocated slabs. *)
Lemma chain_slabs_allocated m b c l :
  table_wf m → chain m b c l →
  c = HEAD_SLAB_PTR ∨ slab_allocated (slab_list_allocator_ctx_ m) c →
  ∀ c', c' ∈ l → c' = HEAD_SLAB_PTR ∨ slab_allocated (slab_list_allocator_ctx_ m) c'.
Proof.
  intros Hwf Hch. induction Hch as [c Hend | c l Hnext Hl IH]; intros Hc c' Hin.
  - apply list_elem_of_singleton in Hin as ->. done.
  - apply elem_of_cons in Hin as [-> | Hin]; [done |].
    apply IH; [| done]. right.
    rewrite read_slab_total in * by lia.
    apply (wf_next m Hwf); [| done].
    apply next_lane_is_next_word. destruct Hc as [-> | [? _]]; [by left | by right].
Qed.

(** ** Words and records under a store *)

Lemma deref_store_cases m (q u : unit_ptr) (v : Z) :
  deref (store m q v) u = deref m u ∨ (u = q ∧ deref (store m q v) u = v).
Proof.
  destruct (decide (u = q)) as [-> | Hne]; [| left; by apply deref_store_ne].
  destruct q as [i | i]; cbn.
  - unfold rd, wr. destruct (i <? 0) eqn:Ei; [by left |].
    destruct (decide (Z.to_nat i < length (bucket_list_head_ m))%nat) as [Hlt | Hge].
    + right. by rewrite list_lookup_insert_eq.
    + left. by rewrite list_insert_ge by lia.
  - right. unfold rd_unit, wr_unit. by rewrite lookup_insert_eq.
Qed.

Lemma valid_unit_head m (b lane : Z) :
  table_wf m → 0 ≤ b < num_buckets_ m → 0 ≤ lane < 32 →
  valid_unit m (unit_ptr_of HEAD_SLAB_PTR b lane).
Proof.
  intros Hwf Hb Hlane. pose proof (wf_no_wrap m Hwf). pose proof (wf_heads m Hwf).
  rewrite unit_ptr_of_head by lia. cbn. lia.
Qed.

Lemma valid_unit_ptr m (c b lane : Z) :
  table_wf m → 0 ≤ b < num_buckets_ m → 0 ≤ lane < 32 →
  valid_unit m (unit_ptr_of c b lane).
Proof.
  intros Hwf Hb Hlane. destruct (decide (c = HEAD_SLAB_PTR)) as [-> | Hc].
  - by apply valid_unit_head.
  - by rewrite unit_ptr_of_nodes.
Qed.

Lemma live_match_data m m' (k : Key) (x : Z) :
  data_ (pair_allocator_ctx_ m') = data_ (pair_allocator_ctx_ m) →
  live_match m' k x ↔ live_match m k x.
Proof. intros Hd. unfold live_match, key_matches, extract. by rewrite Hd. Qed.

Lemma live_match_empty m (k : Key) : ¬ live_match m k EMPTY_PAIR_PTR.
Proof. by intros [? _]. Qed.

(** Two lists that agree wherever one of them satisfies the predicate have
    the same first element that satisfies it. *)
Lemma list_find_pointwise {A} (P Q : A → Prop) `{!∀ x, Decision (P x)}
    `{!∀ x, Decision (Q x)} (l l' : list A) :
  length l = length l' →
  (∀ i x y, l !! i = Some x → l' !! i = Some y →
     (x = y ∧ (P x ↔ Q y)) ∨ (¬ P x ∧ ¬ Q y)) →
  list_find Q l' = list_find P l.
Proof.
  revert l'. induction l as [|x l IH]; intros [|y l'] Hlen Hpt; try done.
  cbn [list_find].
  destruct (Hpt 0%nat x y eq_refl eq_refl) as [[-> Hiff] | [HnP HnQ]].
  - destruct (decide (P y)) as [HP | HP].
    + by rewrite decide_True by (by apply Hiff).
    + rewrite decide_False by (by rewrite <- Hiff).
      rewrite (IH l'); [done | by injection Hlen |].
      intros i x' y' Hx Hy. by apply (Hpt (S i)).
  - rewrite !decide_False by done.
    rewrite (IH l'); [done | by injection Hlen |].
    intros i x' y' Hx Hy. by apply (Hpt (S i)).
Qed.

(** What a slab lookup says, lane by lane. *)
Lemma slab_lookup_None m (k : Key) (ud : list Z) :
  slab_lookup m k ud = None ↔ ∀ (i : nat) x, (i < 31)%nat → ud !! i = Some x → ¬ live_match m k x.
Proof.
  unfold slab_lookup. split.
  - destruct (list_find _ _) as [[j y]|] eqn:Hf; [done |]. intros _ i x Hi Hx.
    apply list_find_None in Hf. eapply Forall_lookup_1 in Hf; [exact Hf |].
    apply lookup_take_Some. by split.
  - intros Hall. destruct (list_find _ _) as [[j y]|] eqn:Hf; [| done].
    apply list_find_Some in Hf as (Hj%lookup_take_Some & Hy & _).
    destruct Hj as [Hj Hlt]. by destruct (Hall j y Hlt Hj).
Qed.

Lemma slab_lookup_Some m (k : Key) (ud : list Z) (x : Z) :
  slab_lookup m k ud = Some x →
  ∃ i : nat, (i < 31)%nat ∧ ud !! i = Some x ∧ live_match m k x.
Proof.
  unfold slab_lookup. destruct (list_find _ _) as [[j y]|] eqn:Hf; [| done].
  intros [= <-]. apply list_find_Some in Hf as (Hj%lookup_take_Some & Hy & _).
  exists j. by destruct Hj.
Qed.

Lemma find_empty_None (ud : list Z) :
  list_find (λ ptr, ptr = EMPTY_PAIR_PTR) (take 31 ud) = None
  ↔ ∀ (i : nat) x, (i < 31)%nat → ud !! i = Some x → x ≠ EMPTY_PAIR_PTR.
Proof.
  split.
  - intros Hf i x Hi Hx. apply list_find_None in Hf.
    eapply Forall_lookup_1 in Hf; [exact Hf |]. apply lookup_take_Some. by split.
  - intros Hall. apply list_find_None, Forall_forall. intros x Hin.
    apply list_elem_of_lookup in Hin as [i Hi]. apply lookup_take_Some in Hi as [Hi Hlt].
    by apply (Hall i).
Qed.

Lemma find_empty_Some (ud : list Z) (lane : nat) (x : Z) :
  list_find (λ ptr, ptr = EMPTY_PAIR_PTR) (take 31 ud) = Some (lane, x) →
  (lane < 31)%nat ∧ x = EMPTY_PAIR_PTR ∧ ud !! lane = Some EMPTY_PAIR_PTR.
Proof.
  intros Hf. apply list_find_Some in Hf as (Hj%lookup_take_Some & -> & _).
  by destruct Hj.
Qed.

(** A store into a word that reads empty, of an index that does not answer
    [k], changes no slab lookup for [k]. *)
Lemma slab_lookup_fill m (q : unit_ptr) (p : Z) (k : Key) (c b : Z) :
  deref m q = EMPTY_PAIR_PTR → ¬ live_match m k p →
  slab_lookup (store m q p) k (read_slab (store m q p) c b)
  = slab_lookup m k (read_slab m c b).
Proof.
  intros Hq Hp. unfold slab_lookup. f_equal.
  apply list_find_pointwise.
  - by rewrite !length_take, !read_slab_length.
  - intros i x y Hx%lookup_take_Some Hy%lookup_take_Some.
    destruct Hx as [Hx Hi], Hy as [Hy _].
    rewrite read_slab_lookup in Hx, Hy by lia. injection Hx as <-. injection Hy as <-.
    assert (Hlm : ∀ z, live_match (store m q p) k z ↔ live_match m k z).
    { intros z. apply live_match_data. by rewrite pair_alloc_store. }
    destruct (deref_store_cases m q (unit_ptr_of c b (Z.of_nat i)) p) as [-> | [-> ->]].
    + left. split; [done |]. symmetry. apply Hlm.
    + right. rewrite Hq. split; [apply live_match_empty | by rewrite Hlm].
Qed.

(** A store into a pair slot writes no next-slab word. *)
Lemma read_slab_next_fill m (c0 b0 : Z) (lane : nat) (p c b : Z) :
  (lane < 31)%nat →
  read_slab (store m (unit_ptr_of c0 b0 (Z.of_nat lane)) p) c b !!! 31%nat
  = read_slab m c b !!! 31%nat.
Proof.
  intros Hlane. rewrite !read_slab_total by lia. apply deref_store_ne.
  intros Heq. apply unit_ptr_of_lane in Heq; lia.
Qed.

Lemma chain_fill m (c0 b0 : Z) (lane : nat) (p b c : Z) (l : list Z) :
  (lane < 31)%nat → chain m b c l →
  chain (store m (unit_ptr_of c0 b0 (Z.of_nat lane)) p) b c l.
Proof.
  intros Hlane. induction 1 as [c Hend | c l Hnext Hl IH].
  - apply chain_end. by rewrite read_slab_next_fill.
  - apply chain_next; rewrite read_slab_next_fill by done; done.
Qed.

Lemma chain_lookup_fill m (q : unit_ptr) (p : Z) (k : Key) (b : Z) (l : list Z) :
  deref m q = EMPTY_PAIR_PTR → ¬ live_match m k p →
  chain_lookup (store m q p) b k l = chain_lookup m b k l.
Proof.
  intros Hq Hp. induction l as [|c l IH]; [done |]. cbn [chain_lookup].
  by rewrite slab_lookup_fill, IH.
Qed.

(** A slab without an empty pair slot reads the same after a store into a
    word that read empty. *)
Lemma find_empty_fill m (q : unit_ptr) (p c b : Z) :
  deref m q = EMPTY_PAIR_PTR →
  list_find (λ ptr, ptr = EMPTY_PAIR_PTR) (take 31 (read_slab m c b)) = None →
  take 31 (read_slab (store m q p) c b) = take 31 (read_slab m c b).
Proof.
  intros Hq Hfull. apply list_eq. intros i.
  destruct (decide (i < 31)%nat) as [Hi | Hi].
  - rewrite !lookup_take_lt, !read_slab_lookup by lia. f_equal.
    destruct (deref_store_cases m q (unit_ptr_of c b (Z.of_nat i)) p) as [-> | [Hu _]];
      [done |].
    exfalso. pose proof (proj1 (find_empty_None _) Hfull i EMPTY_PAIR_PTR Hi) as Hne.
    apply Hne; [| done]. rewrite read_slab_lookup by lia. by rewrite Hu, Hq.
  - rewrite !lookup_take_ge by lia. done.
Qed.

Lemma chain_probe_fill_found m (q : unit_ptr) (p : Z) (k : Key) (b : Z) (l : list Z) (x : Z) :
  deref m q = EMPTY_PAIR_PTR → ¬ live_match m k p →
  chain_probe m b k l = Some (Found x) →
  chain_probe (store m q p) b k l = Some (Found x).
Proof.
  intros Hq Hp. induction l as [|c l IH]; [done |]. cbn [chain_probe].
  rewrite slab_lookup_fill by done.
  destruct (slab_lookup m k (read_slab m c b)) as [y|]; [done |].
  destruct (list_find _ (take 31 (read_slab m c b))) as [[lane y]|] eqn:Hfull; [done |].
  rewrite (find_empty_fill m q p c b Hq Hfull), Hfull.
  destruct l as [|c' l]; [done |]. exact IH.
Qed.

Lemma store_fields m (q : unit_ptr) (v : Z) :
  num_buckets_ (store m q v) = num_buckets_ m
  ∧ hash_fn_ (store m q v) = hash_fn_ m
  ∧ length (bucket_list_head_ (store m q v)) = length (bucket_list_head_ m)
  ∧ bitmaps_ (slab_list_allocator_ctx_ (store m q v)) = bitmaps_ (slab_list_allocator_ctx_ m).
Proof.
  destruct q as [i | i]; cbn; split_and!; try done.
  unfold wr. destruct (i <? 0); [done | by rewrite length_insert].
Qed.

Lemma ComputeBucket_store m (q : unit_ptr) (v : Z) (k : Key) :
  ComputeBucket (store m q v) k = ComputeBucket m k.
Proof.
  unfold ComputeBucket. destruct (store_fields m q v) as (-> & -> & _). done.
Qed.

Lemma slab_lookup_fill_self m (k : Key) (p c b : Z) (lane : nat) :
  (lane < 31)%nat → valid_unit m (unit_ptr_of c b (Z.of_nat lane)) → live_match m k p →
  slab_lookup m k (read_slab m c b) = None →
  slab_lookup (store m (unit_ptr_of c b (Z.of_nat lane)) p) k
              (read_slab (store m (unit_ptr_of c b (Z.of_nat lane)) p) c b) = Some p.
Proof.
  intros Hlane Hv Hp Hnone. set (q := unit_ptr_of c b (Z.of_nat lane)) in *.
  assert (Hlm : ∀ z, live_match (store m q p) k z ↔ live_match m k z).
  { intros z. apply live_match_data. by rewrite pair_alloc_store. }
  destruct (slab_lookup (store m q p) k _) as [y|] eqn:Hy.
  - apply slab_lookup_Some in Hy as (i & Hi & Hry & Hmy).
    rewrite read_slab_lookup in Hry by lia. injection Hry as <-.
    destruct (deref_store_cases m q (unit_ptr_of c b (Z.of_nat i)) p) as [Heq | [_ ->]];
      [| done].
    exfalso. rewrite Heq in Hmy. apply Hlm in Hmy.
    eapply (proj1 (slab_lookup_None _ _ _) Hnone i); [exact Hi | | exact Hmy].
    by rewrite read_slab_lookup by lia.
  - exfalso. apply (proj1 (slab_lookup_None _ _ _) Hy lane p Hlane).
    + rewrite read_slab_lookup by lia. fold q. by rewrite deref_store_eq.
    + by apply Hlm.
Qed.

(** The walk that met the empty pair slot [lane] of slab [c] meets, once
    the slot holds an index that answers the key, that index; and so does a
    search. *)
Lemma chain_probe_fill_self m (k : Key) (p b c : Z) (lane : nat) (l : list Z) :
  chain_probe m b k l = Some (Vacant c lane) →
  valid_unit m (unit_ptr_of c b (Z.of_nat lane)) → live_match m k p →
  chain_probe (store m (unit_ptr_of c b (Z.of_nat lane)) p) b k l = Some (Found p)
  ∧ chain_lookup (store m (unit_ptr_of c b (Z.of_nat lane)) p) b k l = Some p
  ∧ (lane < 31)%nat ∧ c ∈ l
  ∧ deref m (unit_ptr_of c b (Z.of_nat lane)) = EMPTY_PAIR_PTR.
Proof.
  intros Hprobe Hv Hp. set (q := unit_ptr_of c b (Z.of_nat lane)) in *.
  induction l as [|c1 l IH]; [done |]. cbn [chain_probe chain_lookup] in *.
  destruct (slab_lookup m k (read_slab m c1 b)) as [y|] eqn:Hlook; [done |].
  destruct (list_find _ (take 31 (read_slab m c1 b))) as [[lane1 y]|] eqn:Hfind.
  - injection Hprobe as -> ->.
    apply find_empty_Some in Hfind as (Hlane & -> & Hread).
    rewrite read_slab_lookup in Hread by lia. injection Hread as Hread. fold q in Hread.
    subst q. rewrite (slab_lookup_fill_self m k p c b lane) by done.
    split_and!; [done | done | done | by left | done].
  - assert (Hq : deref m q = EMPTY_PAIR_PTR ∧ (lane < 31)%nat ∧ c ∈ l).
    { destruct l as [|c2 l]; [done |].
      destruct (IH Hprobe) as (_ & _ & ? & ? & ?). done. }
    destruct Hq as (Hq & Hlane & Hin).
    assert (Hsame : slab_lookup (store m q p) k (read_slab (store m q p) c1 b) = None).
    { unfold slab_lookup. rewrite (find_empty_fill m q p c1 b Hq Hfind).
      assert (list_find (live_match (store m q p) k) (take 31 (read_slab m c1 b))
              = list_find (live_match m k) (take 31 (read_slab m c1 b))) as ->.
      { apply list_find_pointwise; [done |]. intros i x y Hx Hy.
        left. split; [congruence |]. assert (x = y) as -> by congruence.
        symmetry. apply live_match_data. by rewrite pair_alloc_store. }
      unfold slab_lookup in Hlook. exact Hlook. }
    rewrite Hsame, (find_empty_fill m q p c1 b Hq Hfind), Hfind.
    destruct l as [|c2 l]; [done |].
    destruct (IH Hprobe) as (Hpr & Hlk & _). split_and!; [done | done | done | | done].
    by right.
Qed.

(** *** A pair slot is filled *)

Lemma table_wf_fill m (c b : Z) (lane : nat) (p : Z) :
  table_wf m → (lane < 31)%nat →
  c = HEAD_SLAB_PTR ∨ slab_allocated (slab_list_allocator_ctx_ m) c →
  table_wf (store m (unit_ptr_of c b (Z.of_nat lane)) p).
Proof.
  intros Hwf Hlane Hc. set (q := unit_ptr_of c b (Z.of_nat lane)).
  destruct (store_fields m q p) as (Hnb & Hh & Hlen & Hbm).
  assert (Hnext : ∀ u, is_next_word u → deref (store m q p) u = deref m u).
  { intros u Hu. apply deref_store_ne. intros ->.
    eapply pair_lane_not_next; [| exact Hu]. lia. }
  split.
  - rewrite Hnb. apply Hwf.
  - rewrite Hnb. apply Hwf.
  - rewrite Hnb, Hlen. apply Hwf.
  - rewrite Hbm. apply Hwf.
  - rewrite Hbm. apply Hwf.
  - intros s lane' Hfree Hlane'.
    assert (Hfree' : slab_free (slab_list_allocator_ctx_ m) s).
    { destruct Hfree as (Hs & x & Hx & Hb). rewrite Hbm in Hx. split; [done |]. eauto. }
    change (deref (store m q p) (NodeUnit (s * 32 + lane')) = EMPTY_PAIR_PTR).
    rewrite deref_store_ne; [by apply (wf_fresh m Hwf) |].
    intros Heq. destruct Hc as [-> | Hc].
    + unfold q, unit_ptr_of in Heq. by rewrite Z.eqb_refl in Heq.
    + pose proof (slab_allocated_range _ _ (wf_slab_range m Hwf) Hc) as Hr.
      unfold q in Heq. rewrite unit_ptr_of_nodes in Heq by lia.
      injection Heq as Heq. assert (s = c) as -> by lia.
      by apply (slab_allocated_not_free _ _ Hc).
  - intros u Hu. rewrite Hnext by done. intros Hset.
    destruct (wf_next m Hwf u Hu Hset) as (Hs & x & Hx & Hb).
    split; [done |]. exists x. by rewrite Hbm.
  - intros b' Hb'. rewrite Hnb in Hb'. destruct (wf_chains m Hwf b' Hb') as [l Hl].
    exists l. by apply chain_fill.
Qed.

(** The keys that the new index does not answer are found, or not found, as
    before. *)
Lemma lacks_fill m (c b : Z) (lane : nat) (p : Z) (k : Key) :
  (lane < 31)%nat → deref m (unit_ptr_of c b (Z.of_nat lane)) = EMPTY_PAIR_PTR →
  ¬ live_match m k p →
  lacks m k → lacks (store m (unit_ptr_of c b (Z.of_nat lane)) p) k.
Proof.
  intros Hlane Hq Hp (l & Hl & Hlook). exists l. rewrite ComputeBucket_store.
  split; [by apply chain_fill |]. by rewrite chain_lookup_fill.
Qed.

Lemma holds_fill m (c b : Z) (lane : nat) (p : Z) (k : Key) (v : Value) :
  (lane < 31)%nat → deref m (unit_ptr_of c b (Z.of_nat lane)) = EMPTY_PAIR_PTR →
  ¬ live_match m k p →
  holds m k v → holds (store m (unit_ptr_of c b (Z.of_nat lane)) p) k v.
Proof.
  intros Hlane Hq Hp (l & x & Hl & Hlook & Hrec). exists l, x. rewrite ComputeBucket_store.
  split_and!; [by apply chain_fill | by rewrite chain_lookup_fill |].
  by rewrite pair_alloc_store.
Qed.

Lemma settled_fill m (c b : Z) (lane : nat) (p : Z) (k : Key) :
  (lane < 31)%nat → deref m (unit_ptr_of c b (Z.of_nat lane)) = EMPTY_PAIR_PTR →
  ¬ live_match m k p →
  settled m k → settled (store m (unit_ptr_of c b (Z.of_nat lane)) p) k.
Proof.
  intros Hlane Hq Hp (l & x & Hl & Hpr). exists l, x. rewrite ComputeBucket_store.
  split; [by apply chain_fill | by apply chain_probe_fill_found].
Qed.

(** A chain without a match, slot by slot. *)
Lemma chain_lookup_None m (b : Z) (k : Key) (l : list Z) :
  chain_lookup m b k l = None ↔
  ∀ (c : Z) (i : nat), c ∈ l → (i < 31)%nat →
    ¬ live_match m k (deref m (unit_ptr_of c b (Z.of_nat i))).
Proof.
  induction l as [|c l IH]; cbn [chain_lookup].
  - split; [intros _ c i Hin | done]. by apply elem_of_nil in Hin.
  - destruct (slab_lookup m k (read_slab m c b)) as [x|] eqn:Hs.
    + split; [done |]. intros Hall. exfalso.
      apply slab_lookup_Some in Hs as (i & Hi & Hx & Hlm).
      rewrite read_slab_lookup in Hx by lia.
      assert (x = deref m (unit_ptr_of c b (Z.of_nat i))) as -> by congruence.
      by apply (Hall c i ltac:(left) Hi).
    + rewrite IH. split.
      * intros Hall c' i [-> | Hin]%elem_of_cons Hi; [| by apply Hall].
        apply (proj1 (slab_lookup_None _ _ _) Hs i); [done |].
        apply read_slab_lookup. lia.
      * intros Hall c' i Hin. apply Hall. by right.
Qed.

Lemma lacks_single m (k : Key) : lacks m k → single m k.
Proof.
  intros (l & Hl & Hlook). exists l, (HeadUnit 0). split; [done |].
  apply Forall_forall. intros c Hin i Hi Hlm.
  by destruct (proj1 (chain_lookup_None _ _ _ _) Hlook c i Hin Hi).
Qed.

(** A key whose only slot is emptied is lacking. *)
Lemma confined_lacks m (b : Z) (k : Key) (u : unit_ptr) (l : list Z) :
  confined_in m b k u l → ¬ live_match m k (deref m u) → chain_lookup m b k l = None.
Proof.
  intros Hconf Hu. apply chain_lookup_None. intros c i Hin Hi Hlm.
  unfold confined_in in Hconf. rewrite Forall_forall in Hconf. rewrite (Hconf c Hin i Hi Hlm) in Hlm. done.
Qed.

(** A store into an empty pair slot of a record with another key leaves a
    key in its one slot; a key that was lacking sits in the slot filled. *)
Lemma single_fill_other m (c b : Z) (lane : nat) (p : Z) (k : Key) :
  (lane < 31)%nat → deref m (unit_ptr_of c b (Z.of_nat lane)) = EMPTY_PAIR_PTR →
  ¬ live_match m k p →
  single m k → single (store m (unit_ptr_of c b (Z.of_nat lane)) p) k.
Proof.
  intros Hlane Hq Hp (l & u & Hl & Hconf). exists l, u. rewrite ComputeBucket_store.
  split; [by apply chain_fill |]. unfold confined_in in *.
  eapply Forall_impl; [exact Hconf |]. cbn. intros c' Hc' i Hi Hlm. apply Hc'; [done |].
  apply (live_match_data m (store m (unit_ptr_of c b (Z.of_nat lane)) p)) in Hlm;
    [| by rewrite pair_alloc_store].
  destruct (deref_store_cases m (unit_ptr_of c b (Z.of_nat lane))
              (unit_ptr_of c' (ComputeBucket m k) (Z.of_nat i)) p) as [Heq | [_ Heq]];
    rewrite Heq in Hlm; done.
Qed.

Lemma single_fill_self m (c b : Z) (lane : nat) (p : Z) (k : Key) :
  (lane < 31)%nat → lacks m k →
  single (store m (unit_ptr_of c b (Z.of_nat lane)) p) k.
Proof.
  intros Hlane (l & Hl & Hlook). exists l, (unit_ptr_of c b (Z.of_nat lane)).
  rewrite ComputeBucket_store. split; [by apply chain_fill |].
  apply Forall_forall. intros c' Hin i Hi Hlm.
  apply (live_match_data m (store m (unit_ptr_of c b (Z.of_nat lane)) p)) in Hlm;
    [| by rewrite pair_alloc_store].
  destruct (deref_store_cases m (unit_ptr_of c b (Z.of_nat lane))
              (unit_ptr_of c' (ComputeBucket m k) (Z.of_nat i)) p) as [Heq | [Heq _]];
    [| done].
  rewrite Heq in Hlm. by destruct (proj1 (chain_lookup_None _ _ _ _) Hlook c' i Hin Hi).
Qed.

(** The first match of a settled key is what a search returns. *)
Lemma chain_probe_found_lookup m (b : Z) (k : Key) (l : list Z) (p : Z) :
  chain_probe m b k l = Some (Found p) → chain_lookup m b k l = Some p.
Proof.
  induction l as [|c l IH]; [done |]. cbn [chain_probe chain_lookup].
  destruct (slab_lookup m k (read_slab m c b)) as [y|]; [by intros [= ->] |].
  destruct (list_find _ _) as [[lane y]|]; [done |].
  destruct l as [|c' l]; [done |]. exact IH.
Qed.

(** ** The slab allocator on a table at rest *)

Lemma Zsum_insert (f : Z → Z) (l : list Z) (i : nat) (x y : Z) :
  l !! i = Some x → Zsum (f <$> <[i := y]> l) = Zsum (f <$> l) - f x + f y.
Proof.
  revert i. induction l as [|z l IH]; intros [|i] Hi; try done.
  - injection Hi as ->.
    change (f y + Zsum (f <$> l) = f x + Zsum (f <$> l) - f x + f y). lia.
  - change (f z + Zsum (f <$> <[i := y]> l) = f z + Zsum (f <$> l) - f x + f y).
    rewrite (IH i Hi). lia.
Qed.

Lemma popc_from_set_bit (n : nat) (i b j : Z) :
  0 ≤ i → 0 ≤ j → Z.testbit b j = false →
  popc_from n i (Z.lor b (Z.shiftl 1 j))
  = popc_from n i b + (if decide (i ≤ j < i + Z.of_nat n) then 1 else 0).
Proof.
  intros Hi Hj Hbit. revert i Hi. induction n as [|n IH]; intros i Hi.
  - cbn. rewrite decide_False by lia. lia.
  - cbn [popc_from]. rewrite IH by lia.
    rewrite Z.lor_spec, Z.shiftl_1_l, Z.pow2_bits_eqb by lia.
    destruct (decide (j = i)) as [-> | Hne].
    + rewrite Hbit, Z.eqb_refl. cbn.
      rewrite decide_False by lia. rewrite decide_True by lia. lia.
    + assert ((j =? i) = false) as -> by (by apply Z.eqb_neq). rewrite orb_false_r.
      destruct (decide (i + 1 ≤ j < i + 1 + Z.of_nat n)).
      * rewrite decide_True by lia. lia.
      * rewrite decide_False by lia. lia.
Qed.

Lemma lor_bit_bound (b j : Z) : 0 ≤ b < 2 ^ 32 → 0 ≤ j < 32 → 0 ≤ Z.lor b (Z.shiftl 1 j) < 2 ^ 32.
Proof.
  intros Hb Hj. rewrite Z.shiftl_1_l.
  assert (0 < 2 ^ j) by (apply Z.pow_pos_nonneg; lia).
  assert (0 ≤ Z.lor b (2 ^ j)) by (apply Z.lor_nonneg; lia).
  split; [done |].
  destruct (decide (Z.lor b (2 ^ j) = 0)) as [-> | Hne]; [lia |].
  apply Z.log2_lt_pow2; [lia |].
  rewrite Z.log2_lor by lia. rewrite Z.log2_pow2 by lia.
  destruct (decide (b = 0)) as [-> | Hb0]; [cbn; lia |].
  assert (Z.log2 b < 32) by (apply Z.log2_lt_pow2; lia). lia.
Qed.

(** What an allocation does: it picks a free slab and marks it, and nothing
    else changes. *)
Lemma WarpAllocate_spec (a a' : SlabAllocContext) (new : Z) :
  Forall (λ x, 0 ≤ x < 2 ^ 32) (bitmaps_ a) →
  WarpAllocate a = Some (new, a') →
  slab_free a new ∧ slab_allocated a' new
  ∧ (∀ s, slab_allocated a s → slab_allocated a' s)
  ∧ (∀ s, slab_free a' s → slab_free a s ∧ s ≠ new)
  ∧ Forall (λ x, 0 ≤ x < 2 ^ 32) (bitmaps_ a')
  ∧ length (bitmaps_ a') = length (bitmaps_ a)
  ∧ units_ a' = units_ a
  ∧ free_slab_count a' = free_slab_count a - 1.
Proof.
  intros Hwf. unfold WarpAllocate.
  destruct (find_bitmap 0 (bitmaps_ a)) as [[g b]|] eqn:Hfind; [| done].
  apply find_bitmap_Some in Hfind as (Hg & Hl & Hne). rewrite Z.sub_0_r in Hl.
  pose proof (Forall_lookup_1 _ _ _ _ Hwf Hl) as Hb. cbn beta in Hb.
  destruct (free_bit_of_word b Hb Hne) as [Hbit Hclear].
  set (bit := __ffs (Z.lxor b 0xFFFFFFFF) - 1) in *.
  intros [= <- <-].
  assert (Hdiv : (g * 32 + bit) / 32 = g).
  { rewrite Z.add_comm, Z.div_add by lia. rewrite Z.div_small by lia. done. }
  assert (Hmod : (g * 32 + bit) mod 32 = bit).
  { rewrite Z.add_comm, Z.mod_add by lia. by apply Z.mod_small. }
  assert (Hwr : wr (bitmaps_ a) g (Z.lor b (Z.shiftl 1 bit))
                = <[Z.to_nat g := Z.lor b (Z.shiftl 1 bit)]> (bitmaps_ a)).
  { unfold wr. destruct (g <? 0) eqn:E; [apply Z.ltb_lt in E; lia | done]. }
  assert (Hset : Z.testbit (Z.lor b (Z.shiftl 1 bit)) bit = true).
  { rewrite Z.lor_spec, Z.shiftl_1_l, Z.pow2_bits_eqb, Z.eqb_refl by lia.
    apply orb_true_r. }
  split_and!; unfold slab_allocated, slab_free, free_slab_count;
    cbn [bitmaps_ units_]; rewrite ?Hwr.
  - split; [lia |]. exists b. by rewrite Hdiv, Hmod.
  - split; [lia |]. exists (Z.lor b (Z.shiftl 1 bit)). rewrite Hdiv, Hmod.
    split; [| done]. apply list_lookup_insert_eq. by eapply lookup_lt_Some.
  - intros s (Hs & x & Hx & Hxb). split; [done |].
    destruct (decide (Z.to_nat (s / 32) = Z.to_nat g)) as [Heq | Hneq].
    + rewrite Heq in *. assert (x = b) as -> by congruence.
      exists (Z.lor b (Z.shiftl 1 bit)). split.
      * apply list_lookup_insert_eq. by eapply lookup_lt_Some.
      * rewrite Z.lor_spec, Hxb. done.
    + exists x. by rewrite list_lookup_insert_ne.
  - intros s (Hs & x & Hx & Hxb).
    destruct (decide (Z.to_nat (s / 32) = Z.to_nat g)) as [Heq | Hneq].
    + rewrite Heq in Hx.
      rewrite list_lookup_insert_eq in Hx by (by eapply lookup_lt_Some).
      injection Hx as <-. rewrite Z.lor_spec in Hxb. apply orb_false_iff in Hxb as [Hb1 Hb2].
      split.
      * split; [done |]. exists b. by rewrite Heq.
      * intros ->. rewrite Hmod in Hb2.
        rewrite Z.shiftl_1_l, Z.pow2_bits_eqb, Z.eqb_refl in Hb2 by lia. done.
    + rewrite list_lookup_insert_ne in Hx by done. split.
      * split; [done |]. eauto.
      * intros ->. rewrite Hdiv in Hneq. done.
  - apply Forall_insert; [done |]. by apply lor_bit_bound.
  - by rewrite length_insert.
  - done.
  - rewrite (Zsum_insert (λ x, 32 - __popc x) _ _ b) by done.
    unfold __popc. rewrite popc_from_set_bit by (lia || done).
    rewrite decide_True by lia. lia.
Qed.

Lemma find_bitmap_None (g : Z) (bs : list Z) :
  find_bitmap g bs = None → Forall (λ x, x = 0xFFFFFFFF) bs.
Proof.
  revert g. induction bs as [|b bs IH]; intros g; cbn [find_bitmap]; [done |].
  destruct (b =? 0xFFFFFFFF) eqn:E; [| done].
  apply Z.eqb_eq in E. intros Hf. constructor; [done | by eapply IH].
Qed.

(** An allocator with a free slab hands one out. *)
Lemma WarpAllocate_Some (a : SlabAllocContext) :
  0 < free_slab_count a → ∃ new a', WarpAllocate a = Some (new, a').
Proof.
  intros Hfree. unfold WarpAllocate.
  destruct (find_bitmap 0 (bitmaps_ a)) as [[g b]|] eqn:Hfind; [by eauto |].
  exfalso. apply find_bitmap_None in Hfind. unfold free_slab_count in Hfree.
  induction Hfind as [|x l -> Hl IH]; cbn in Hfree; [done |].
  apply IH. change (32 - __popc 4294967295) with 0 in Hfree. unfold Zsum in *. lia.
Qed.

(** *** A chain is extended *)

Lemma chain_nonempty m b c l : chain m b c l → ∃ l0, l = c :: l0.
Proof. destruct 1; eauto. Qed.

Lemma chain_probe_full_last m (b : Z) (k : Key) (l : list Z) (c : Z) :
  chain_probe m b k l = Some (Full c) → last l = Some c.
Proof.
  induction l as [|c1 l IH]; [done |]. cbn [chain_probe].
  destruct (slab_lookup m k (read_slab m c1 b)); [done |].
  destruct (list_find _ _) as [[lane y]|]; [done |].
  destruct l as [|c2 l]; [by intros [= ->] |]. intros Hp. by apply IH.
Qed.

Lemma chain_last_end m b c l c' :
  chain m b c l → last l = Some c' → read_slab m c' b !!! 31%nat = EMPTY_SLAB_PTR.
Proof.
  induction 1 as [c Hend | c l Hnext Hl IH]; [by intros [= <-] |].
  destruct (chain_nonempty _ _ _ _ Hl) as [l0 ->]. exact IH.
Qed.

(** A memory [m'] that differs from [m] in that next-slab words that were
    empty may name the slab [new], whose words all read empty. *)
Section Link.
Variables (m m' : @SlabHashContext Key Value) (new : Z).
Hypothesis Hrec : data_ (pair_allocator_ctx_ m') = data_ (pair_allocator_ctx_ m).
Hypothesis Hpairs : ∀ c b, take 31 (read_slab m' c b) = take 31 (read_slab m c b).
Hypothesis Hnext : ∀ c b,
  read_slab m' c b !!! 31%nat = read_slab m c b !!! 31%nat
  ∨ (read_slab m c b !!! 31%nat = EMPTY_SLAB_PTR ∧ read_slab m' c b !!! 31%nat = new).
Hypothesis Hnew : ∀ b (i : nat), (i < 32)%nat → read_slab m' new b !! i = Some EMPTY_PAIR_PTR.
Hypothesis Hnew_live : new ≠ EMPTY_SLAB_PTR.

Lemma slab_lookup_link (k : Key) (c b : Z) :
  slab_lookup m' k (read_slab m' c b) = slab_lookup m k (read_slab m c b).
Proof.
  unfold slab_lookup. rewrite Hpairs. f_equal.
  apply list_find_pointwise; [done |]. intros i x y Hx Hy.
  assert (x = y) as -> by congruence. left. split; [done |].
  symmetry. by apply live_match_data.
Qed.

Lemma new_slab_lookup (k : Key) (b : Z) : slab_lookup m' k (read_slab m' new b) = None.
Proof.
  apply slab_lookup_None. intros i x Hi Hx. rewrite Hnew in Hx by lia.
  injection Hx as <-. apply live_match_empty.
Qed.

Lemma new_slab_vacant (b : Z) :
  list_find (λ ptr, ptr = EMPTY_PAIR_PTR) (take 31 (read_slab m' new b))
  = Some (0%nat, EMPTY_PAIR_PTR).
Proof.
  apply list_find_Some. split_and!; [| done | intros j y _ Hj; lia].
  apply lookup_take_Some. split; [apply Hnew; lia | lia].
Qed.

Lemma new_slab_end (b : Z) : read_slab m' new b !!! 31%nat = EMPTY_SLAB_PTR.
Proof. apply list_lookup_total_correct. apply Hnew. lia. Qed.

Lemma chain_link (b c : Z) (l : list Z) :
  chain m b c l →
  ∃ l', chain m' b c l'
        ∧ (∀ k, chain_lookup m' b k l' = chain_lookup m b k l)
        ∧ (∀ k x, chain_probe m b k l = Some (Found x) →
                  chain_probe m' b k l' = Some (Found x)).
Proof.
  induction 1 as [c Hend | c l Hnxt Hl IH].
  - destruct (Hnext c b) as [Hsame | [_ Hlinked]].
    + exists [c]. split_and!.
      * apply chain_end. by rewrite Hsame.
      * intros k. cbn [chain_lookup]. by rewrite slab_lookup_link.
      * intros k x. cbn [chain_probe]. by rewrite slab_lookup_link, Hpairs.
    + exists [c; new]. split_and!.
      * apply chain_next; rewrite Hlinked; [done |]. apply chain_end, new_slab_end.
      * intros k. cbn [chain_lookup]. rewrite slab_lookup_link, new_slab_lookup.
        by destruct (slab_lookup m k (read_slab m c b)).
      * intros k x. cbn [chain_probe]. rewrite slab_lookup_link, Hpairs.
        destruct (slab_lookup m k (read_slab m c b)); [done |].
        by destruct (list_find _ _) as [[? ?]|].
  - destruct IH as (l' & Hl' & Hlook & Hprobe).
    destruct (Hnext c b) as [Hsame | [Hempty _]]; [| done].
    exists (c :: l'). split_and!.
    + apply chain_next; rewrite Hsame; done.
    + intros k. cbn [chain_lookup]. by rewrite slab_lookup_link, Hlook.
    + intros k x. cbn [chain_probe]. rewrite slab_lookup_link, Hpairs.
      destruct (slab_lookup m k (read_slab m c b)); [done |].
      destruct (list_find _ _) as [[? ?]|]; [done |].
      destruct (chain_nonempty _ _ _ _ Hl) as [l0 ->].
      destruct (chain_nonempty _ _ _ _ Hl') as [l0' ->]. apply Hprobe.
Qed.

(** The chain whose last next-slab word received [new] is one slab
    longer. *)
Lemma chain_link_last (b c0 c : Z) (l : list Z) :
  chain m b c0 l → last l = Some c → read_slab m' c b !!! 31%nat = new →
  chain m' b c0 (l ++ [new]).
Proof.
  intros Hch Hlast Hlinked. induction Hch as [c0 Hend | c0 l Hnxt Hl IH].
  - injection Hlast as ->. cbn. apply chain_next; rewrite Hlinked; [done |].
    apply chain_end, new_slab_end.
  - destruct (chain_nonempty _ _ _ _ Hl) as [l0 ->].
    destruct (Hnext c0 b) as [Hsame | [Hempty _]]; [| done].
    cbn. apply chain_next; rewrite Hsame; [done |]. by apply IH.
Qed.

(** The walk that found every slab full meets, on the longer chain, the
    first pair slot of the new slab. *)
Lemma chain_probe_link_full (b : Z) (k : Key) (l : list Z) (c : Z) :
  chain_probe m b k l = Some (Full c) →
  chain_probe m' b k (l ++ [new]) = Some (Vacant new 0).
Proof.
  induction l as [|c1 l IH]; [done |]. cbn [chain_probe app].
  rewrite slab_lookup_link, Hpairs.
  destruct (slab_lookup m k (read_slab m c1 b)); [done |].
  destruct (list_find _ _) as [[lane y]|]; [done |].
  destruct l as [|c2 l].
  - intros _. cbn [app chain_probe]. by rewrite new_slab_lookup, new_slab_vacant.
  - intros Hp. cbn [app]. by apply IH.
Qed.

Lemma confined_link (b c : Z) (l : list Z) (k : Key) (u : unit_ptr) :
  chain m b c l → confined_in m b k u l →
  ∃ l', chain m' b c l' ∧ confined_in m' b k u l'.
Proof.
  assert (Hslab : ∀ c0 (i : nat), (i < 31)%nat →
            deref m' (unit_ptr_of c0 b (Z.of_nat i)) = deref m (unit_ptr_of c0 b (Z.of_nat i))).
  { intros c0 i Hi.
    assert (Hl : take 31 (read_slab m' c0 b) !! i = take 31 (read_slab m c0 b) !! i)
      by (by rewrite Hpairs).
    rewrite !lookup_take_lt, !read_slab_lookup in Hl by lia. congruence. }
  assert (Hold : ∀ c0, (∀ i : nat, (i < 31)%nat →
                          live_match m k (deref m (unit_ptr_of c0 b (Z.of_nat i))) →
                          unit_ptr_of c0 b (Z.of_nat i) = u) →
                       ∀ i : nat, (i < 31)%nat →
                          live_match m' k (deref m' (unit_ptr_of c0 b (Z.of_nat i))) →
                          unit_ptr_of c0 b (Z.of_nat i) = u).
  { intros c0 Hc0 i Hi Hlm. apply Hc0; [done |]. rewrite Hslab in Hlm by done.
    by apply (live_match_data m m') in Hlm. }
  assert (Hfresh : ∀ i : nat, (i < 31)%nat →
                     live_match m' k (deref m' (unit_ptr_of new b (Z.of_nat i))) →
                     unit_ptr_of new b (Z.of_nat i) = u).
  { intros i Hi Hlm. exfalso. pose proof (Hnew b i ltac:(lia)) as Hn.
    rewrite read_slab_lookup in Hn by lia. injection Hn as Hn. rewrite Hn in Hlm.
    by apply live_match_empty in Hlm. }
  unfold confined_in.
  induction 1 as [c Hend | c l Hnxt Hl IH]; intros Hconf.
  - apply Forall_cons in Hconf as [Hc _].
    destruct (Hnext c b) as [Hsame | [_ Hlinked]].
    + exists [c]. split; [apply chain_end; by rewrite Hsame |].
      apply Forall_cons. split; [by apply Hold | done].
    + exists [c; new]. split.
      * apply chain_next; rewrite Hlinked; [done |]. apply chain_end, new_slab_end.
      * apply Forall_cons. split; [by apply Hold |]. apply Forall_cons. by split.
  - apply Forall_cons in Hconf as [Hc Hconf]. destruct (IH Hconf) as (l' & Hl' & Hconf').
    destruct (Hnext c b) as [Hsame | [Hempty _]]; [| done].
    exists (c :: l'). split; [apply chain_next; rewrite Hsame; done |].
    apply Forall_cons. split; [by apply Hold | done].
Qed.

End Link.

Lemma slab_allocated_bitmaps (a a' : SlabAllocContext) (s : Z) :
  bitmaps_ a' = bitmaps_ a → slab_allocated a' s ↔ slab_allocated a s.
Proof. intros Hb. unfold slab_allocated. by rewrite Hb. Qed.

Lemma slab_free_bitmaps (a a' : SlabAllocContext) (s : Z) :
  bitmaps_ a' = bitmaps_ a → slab_free a' s ↔ slab_free a s.
Proof. intros Hb. unfold slab_free. by rewrite Hb. Qed.

Lemma valid_unit_set_slab_alloc m (a : SlabAllocContext) (u : unit_ptr) :
  valid_unit (set_slab_alloc m a) u ↔ valid_unit m u.
Proof. by destruct u. Qed.

(** The last slab of a chain receives a fresh slab as its next slab. *)
Lemma link_facts m (b c new : Z) (a : SlabAllocContext) :
  table_wf m → 0 ≤ b < num_buckets_ m →
  c = HEAD_SLAB_PTR ∨ slab_allocated (slab_list_allocator_ctx_ m) c →
  deref m (unit_ptr_of c b NEXT_SLAB_PTR_LANE) = EMPTY_SLAB_PTR →
  WarpAllocate (slab_list_allocator_ctx_ m) = Some (new, a) →
  let m' := store (set_slab_alloc m a) (unit_ptr_of c b NEXT_SLAB_PTR_LANE) new in
  pair_allocator_ctx_ m' = pair_allocator_ctx_ m
  ∧ (∀ c0 b0, take 31 (read_slab m' c0 b0) = take 31 (read_slab m c0 b0))
  ∧ (∀ c0 b0,
       read_slab m' c0 b0 !!! 31%nat = read_slab m c0 b0 !!! 31%nat
       ∨ (read_slab m c0 b0 !!! 31%nat = EMPTY_SLAB_PTR
          ∧ read_slab m' c0 b0 !!! 31%nat = new))
  ∧ (∀ b0 (i : nat), (i < 32)%nat → read_slab m' new b0 !! i = Some EMPTY_PAIR_PTR)
  ∧ 0 ≤ new < HEAD_SLAB_PTR
  ∧ read_slab m' c b !!! 31%nat = new
  ∧ slab_allocated (slab_list_allocator_ctx_ m') new
  ∧ free_slab_count (slab_list_allocator_ctx_ m')
    = free_slab_count (slab_list_allocator_ctx_ m) - 1
  ∧ (∀ u, ¬ is_next_word u → deref m' u = deref m u)
  ∧ num_buckets_ m' = num_buckets_ m ∧ hash_fn_ m' = hash_fn_ m
  ∧ table_wf m'.
Proof.
  intros Hwf Hb Hc Hend Halloc m'.
  set (q := unit_ptr_of c b NEXT_SLAB_PTR_LANE) in *.
  destruct (WarpAllocate_spec _ _ _ (wf_bitmaps m Hwf) Halloc)
    as (Hfree & Hnew & Hmono & Hfree' & Hbounds & Hlen & Hunits & Hcount).
  destruct (store_fields (set_slab_alloc m a) q new) as (Hnb & Hh & Hhl & Hbm).
  cbn [set_slab_alloc num_buckets_ hash_fn_ bucket_list_head_ slab_list_allocator_ctx_]
    in Hnb, Hh, Hhl, Hbm. fold m' in Hnb, Hh, Hhl, Hbm.
  assert (Hrange : 0 ≤ new < HEAD_SLAB_PTR).
  { apply (slab_allocated_range a); [| done]. rewrite Hlen. apply Hwf. }
  assert (Hbase : ∀ u, deref (set_slab_alloc m a) u = deref m u).
  { intros u. by apply deref_set_slab_alloc. }
  assert (Hqnew : ∀ b0 i, 0 ≤ i < 32 → unit_ptr_of new b0 i ≠ q).
  { intros b0 i Hi Heq. rewrite unit_ptr_of_nodes in Heq by lia.
    destruct Hc as [-> | Hc].
    - unfold q, unit_ptr_of in Heq. by rewrite Z.eqb_refl in Heq.
    - pose proof (slab_allocated_range _ _ (wf_slab_range m Hwf) Hc) as Hr.
      unfold q in Heq. rewrite unit_ptr_of_nodes in Heq by lia.
      injection Heq as Heq. unfold NEXT_SLAB_PTR_LANE in Heq.
      assert (new = c) as -> by lia. by apply (slab_allocated_not_free _ _ Hc). }
  assert (Hvalid : valid_unit (set_slab_alloc m a) q).
  { apply valid_unit_set_slab_alloc, valid_unit_ptr; [done | done |].
    unfold NEXT_SLAB_PTR_LANE. lia. }
  assert (Hpair : ∀ u, ¬ is_next_word u → deref m' u = deref m u).
  { intros u Hu. unfold m'. rewrite deref_store_ne; [apply Hbase |].
    intros ->. apply Hu. apply next_lane_is_next_word.
    destruct Hc as [-> | [? _]]; [by left | by right]. }
  assert (Hnw : ∀ b0 (i : nat), (i < 32)%nat → read_slab m' new b0 !! i = Some EMPTY_PAIR_PTR).
  { intros b0 i Hi. rewrite read_slab_lookup by done. f_equal. unfold m'.
    rewrite deref_store_ne by (apply Hqnew; lia). rewrite Hbase.
    rewrite unit_ptr_of_nodes by lia. apply (wf_fresh m Hwf); [done | lia]. }
  assert (Hnx : ∀ c0 b0,
             read_slab m' c0 b0 !!! 31%nat = read_slab m c0 b0 !!! 31%nat
             ∨ (read_slab m c0 b0 !!! 31%nat = EMPTY_SLAB_PTR
                ∧ read_slab m' c0 b0 !!! 31%nat = new)).
  { intros c0 b0. rewrite !read_slab_total by lia. unfold m'.
    destruct (deref_store_cases (set_slab_alloc m a) q
                (unit_ptr_of c0 b0 (Z.of_nat 31)) new) as [-> | [Hu ->]].
    - left. apply Hbase.
    - right. split; [| done]. by rewrite Hu. }
  assert (Hpr : ∀ c0 b0, take 31 (read_slab m' c0 b0) = take 31 (read_slab m c0 b0)).
  { intros c0 b0. apply list_eq. intros i.
    destruct (decide (i < 31)%nat) as [Hi | Hi].
    - rewrite !lookup_take_lt, !read_slab_lookup by lia. f_equal. unfold m'.
      rewrite deref_store_ne; [apply Hbase |].
      intros Heq. apply unit_ptr_of_lane in Heq; unfold NEXT_SLAB_PTR_LANE in *; lia.
    - rewrite !lookup_take_ge by lia. done. }
  assert (Hpa : pair_allocator_ctx_ m' = pair_allocator_ctx_ m).
  { unfold m'. by rewrite pair_alloc_store. }
  split_and!; try done; try lia.
  - rewrite read_slab_total by lia. unfold m'. by rewrite deref_store_eq.
  - by apply (slab_allocated_bitmaps a).
  - unfold free_slab_count in *. by rewrite Hbm.
  - split.
    + rewrite Hnb. apply Hwf.
    + rewrite Hnb. apply Hwf.
    + rewrite Hnb, Hhl. apply Hwf.
    + by rewrite Hbm.
    + rewrite Hbm, Hlen. apply Hwf.
    + intros s lane Hs Hlane. apply (slab_free_bitmaps a) in Hs; [| done].
      destruct (Hfree' s Hs) as [Hs0 Hsn].
      change (deref m' (NodeUnit (s * 32 + lane)) = EMPTY_PAIR_PTR). unfold m'.
      rewrite deref_store_ne.
      * rewrite Hbase. by apply (wf_fresh m Hwf).
      * intros Heq. destruct Hc as [-> | Hc].
        -- unfold q, unit_ptr_of in Heq. by rewrite Z.eqb_refl in Heq.
        -- pose proof (slab_allocated_range _ _ (wf_slab_range m Hwf) Hc) as Hr.
           unfold q in Heq. rewrite unit_ptr_of_nodes in Heq by lia.
           injection Heq as Heq. unfold NEXT_SLAB_PTR_LANE in Heq.
           assert (s = c) as -> by lia. by apply (slab_allocated_not_free _ _ Hc).
    + intros u Hu Hset. apply (slab_allocated_bitmaps a); [done |].
      unfold m' in *.
      destruct (deref_store_cases (set_slab_alloc m a) q u new) as [Heq | [_ Heq]];
        rewrite Heq in *; [| done].
      rewrite Hbase in *. apply Hmono. by apply (wf_next m Hwf).
    + intros b' Hb'. rewrite Hnb in Hb'. destruct (wf_chains m Hwf b' Hb') as [l Hl].
      destruct (chain_link m m' new) with (b := b') (c := HEAD_SLAB_PTR) (l := l)
        as (l' & Hl' & _); try done.
      * by rewrite Hpa.
      * unfold EMPTY_SLAB_PTR, HEAD_SLAB_PTR in *. lia.
      * by exists l'.
Qed.

(** ** Memories that answer alike *)

(** [m1] has the words of [m], and the records of the indices that the pair
    slots of [m] hold. *)
Section Same.
Variables (m m1 : @SlabHashContext Key Value).
Hypothesis Hwords : ∀ u, deref m1 u = deref m u.
Hypothesis Hnb : num_buckets_ m1 = num_buckets_ m.
Hypothesis Hhash : hash_fn_ m1 = hash_fn_ m.
Hypothesis Hrecs : ∀ u, ¬ is_next_word u →
  data_ (pair_allocator_ctx_ m1) !! deref m u = data_ (pair_allocator_ctx_ m) !! deref m u.

Lemma read_slab_same (c b : Z) : read_slab m1 c b = read_slab m c b.
Proof. unfold read_slab. apply list_fmap_ext. intros i x _. apply Hwords. Qed.

Lemma ComputeBucket_same (k : Key) : ComputeBucket m1 k = ComputeBucket m k.
Proof. unfold ComputeBucket. by rewrite Hnb, Hhash. Qed.

Lemma slab_lookup_same (k : Key) (c b : Z) :
  slab_lookup m1 k (read_slab m1 c b) = slab_lookup m k (read_slab m c b).
Proof.
  rewrite read_slab_same. unfold slab_lookup. f_equal.
  apply list_find_pointwise; [done |]. intros i x y Hx Hy.
  assert (x = y) as <- by congruence. left. split; [done |].
  apply lookup_take_Some in Hx as [Hx Hi].
  rewrite read_slab_lookup in Hx by lia. injection Hx as <-.
  unfold live_match, key_matches, extract.
  rewrite Hrecs; [done |]. apply pair_lane_not_next. lia.
Qed.

Lemma chain_same (b c : Z) (l : list Z) : chain m b c l → chain m1 b c l.
Proof.
  induction 1 as [c Hend | c l Hnext Hl IH].
  - apply chain_end. by rewrite read_slab_same.
  - apply chain_next; rewrite read_slab_same; done.
Qed.

Lemma chain_lookup_same (b : Z) (k : Key) (l : list Z) :
  chain_lookup m1 b k l = chain_lookup m b k l.
Proof.
  induction l as [|c l IH]; [done |]. cbn [chain_lookup].
  by rewrite slab_lookup_same, IH.
Qed.

Lemma chain_probe_same (b : Z) (k : Key) (l : list Z) :
  chain_probe m1 b k l = chain_probe m b k l.
Proof.
  induction l as [|c l IH]; [done |]. cbn [chain_probe].
  by rewrite slab_lookup_same, read_slab_same, IH.
Qed.

Lemma lacks_same (k : Key) : lacks m k → lacks m1 k.
Proof.
  intros (l & Hl & Hlook). exists l. rewrite ComputeBucket_same.
  split; [by apply chain_same | by rewrite chain_lookup_same].
Qed.

Lemma settled_same (k : Key) : settled m k → settled m1 k.
Proof.
  intros (l & x & Hl & Hp). exists l, x. rewrite ComputeBucket_same.
  split; [by apply chain_same | by rewrite chain_probe_same].
Qed.

Lemma chain_lookup_word (b : Z) (k : Key) (l : list Z) (x : Z) :
  chain_lookup m b k l = Some x → ∃ u, ¬ is_next_word u ∧ deref m u = x.
Proof.
  induction l as [|c l IH]; [done |]. cbn [chain_lookup].
  destruct (slab_lookup m k (read_slab m c b)) as [y|] eqn:Hs; [| exact IH].
  intros [= ->]. apply slab_lookup_Some in Hs as (i & Hi & Hx & _).
  rewrite read_slab_lookup in Hx by lia. injection Hx as Hx.
  exists (unit_ptr_of c b (Z.of_nat i)). split; [| done]. apply pair_lane_not_next. lia.
Qed.

Lemma holds_same (k : Key) (v : Value) : holds m k v → holds m1 k v.
Proof.
  intros (l & x & Hl & Hlook & Hrec). exists l, x. rewrite ComputeBucket_same.
  split_and!; [by apply chain_same | by rewrite chain_lookup_same |].
  destruct (chain_lookup_word _ _ _ _ Hlook) as (u & Hu & <-).
  unfold extract in *. by rewrite Hrecs.
Qed.

Lemma single_same (k : Key) : single m k → single m1 k.
Proof.
  intros (l & u & Hl & Hconf). exists l, u. rewrite ComputeBucket_same.
  split; [by apply chain_same |]. unfold confined_in in *.
  eapply Forall_impl; [exact Hconf |]. cbn. intros c Hc i Hi Hlm. apply Hc; [done |].
  rewrite Hwords in Hlm. unfold live_match, key_matches, extract in *.
  rewrite Hrecs in Hlm; [done |]. apply pair_lane_not_next. lia.
Qed.

End Same.

(** A key is lacking, or found, never both; and a settled key is found. *)
Lemma lacks_not_holds m (k : Key) (v : Value) : lacks m k → holds m k v → False.
Proof.
  intros (l & Hl & Hnone) (l' & x & Hl' & Hsome & _).
  rewrite (chain_functional _ _ _ _ _ Hl' Hl) in Hsome. congruence.
Qed.

Lemma settled_holds m (k : Key) : settled m k → ∃ v, holds m k v.
Proof.
  intros (l & x & Hl & Hp). apply chain_probe_found_lookup in Hp.
  destruct (chain_lookup_match _ _ _ _ _ Hp) as [_ Hkm]. unfold key_matches in Hkm.
  destruct (extract (pair_allocator_ctx_ m) x) as [[k' v]|] eqn:Hx; [| done].
  apply bool_decide_eq_true in Hkm. cbn in Hkm. subst k'. exists v, l, x. done.
Qed.

Lemma lacks_not_settled m (k : Key) : lacks m k → settled m k → False.
Proof. intros Hl [v Hv]%settled_holds. by eapply lacks_not_holds. Qed.

(** What the walk meets when it meets an empty pair slot. *)
Lemma chain_probe_vacant m (b : Z) (k : Key) (l : list Z) (c : Z) (lane : nat) :
  chain_probe m b k l = Some (Vacant c lane) →
  (lane < 31)%nat ∧ c ∈ l ∧ deref m (unit_ptr_of c b (Z.of_nat lane)) = EMPTY_PAIR_PTR.
Proof.
  induction l as [|c1 l IH]; [done |]. cbn [chain_probe].
  destruct (slab_lookup m k (read_slab m c1 b)); [done |].
  destruct (list_find _ _) as [[lane1 y]|] eqn:Hfind.
  - intros [= -> ->]. apply find_empty_Some in Hfind as (Hlane & _ & Hread).
    rewrite read_slab_lookup in Hread by lia. injection Hread as Hread.
    split_and!; [done | by left | done].
  - destruct l as [|c2 l]; [done |]. intros Hp.
    destruct (IH Hp) as (? & ? & ?). split_and!; [done | by right | done].
Qed.

Lemma chain_probe_is_Some m (b : Z) (k : Key) (c : Z) (l : list Z) :
  is_Some (chain_probe m b k (c :: l)).
Proof.
  revert c. induction l as [|c' l IH]; intros c; cbn [chain_probe].
  - destruct (slab_lookup _ _ _); [by eexists |].
    destruct (list_find _ _) as [[? ?]|]; by eexists.
  - destruct (slab_lookup m k (read_slab m c b)); [by eexists |].
    destruct (list_find _ (take 31 (read_slab m c b))) as [[? ?]|]; [by eexists |].
    apply IH.
Qed.

(** ** One request served *)

Lemma table_wf_set_pair_alloc m (c : MemoryAllocContext) :
  table_wf m → table_wf (set_pair_alloc m c).
Proof.
  intros Hwf. split; try apply Hwf.
  intros b Hb. destruct (wf_chains m Hwf b Hb) as [l Hl]. exists l.
  apply (chain_same m); [| done]. intros u. apply deref_set_pair_alloc.
Qed.

(** The duplicate branch: the record goes back to the free list. *)
Lemma free_ok m (k : Key) (v : Value) (p : Z) (reqs : list (Key * Value * Z)) :
  pend_inv m ((k, v, p) :: reqs) → settled m k →
  let m1 := set_pair_alloc m (Free p (pair_allocator_ctx_ m)) in
  pend_inv m1 reqs ∧ inserted [(k, v)] m m1.
Proof.
  intros Hinv Hset m1.
  destruct (pi_reqs m _ Hinv k v p ltac:(left)) as (Hp & Hrec & Hheap & Hunref & _).
  pose proof (pi_nodup m _ Hinv) as Hnd. cbn in Hnd. apply NoDup_cons in Hnd as [Hpn Hnd].
  assert (Hw : ∀ u, deref m1 u = deref m u) by (intros u; apply deref_set_pair_alloc).
  assert (Hr : ∀ u, ¬ is_next_word u →
             data_ (pair_allocator_ctx_ m1) !! deref m u
             = data_ (pair_allocator_ctx_ m) !! deref m u) by done.
  split.
  - split.
    + apply table_wf_set_pair_alloc, Hinv.
    + split; cbn.
      * apply NoDup_cons. split; [done | apply Hinv].
      * intros [Heq | Hin]%elem_of_cons; [done |]. by apply (wf_heap_live m (pi_pairs m _ Hinv)).
      * intros u Hu [Heq | Hin]%elem_of_cons.
        -- by apply (Hunref u Hu).
        -- by apply (wf_heap_unused m (pi_pairs m _ Hinv) u Hu).
      * intros u1 u2 H1 H2. by apply (wf_slots m (pi_pairs m _ Hinv)).
    + pose proof (pi_slabs m _ Hinv) as Hs. cbn in *. lia.
    + done.
    + intros k' v' p' Hin.
      destruct (pi_reqs m _ Hinv k' v' p' ltac:(by right)) as (Hp' & Hrec' & Hheap' & Hunref' & Hk').
      split_and!; [done | done | | |].
      * cbn. intros [-> | Hh]%elem_of_cons; [| done].
        apply Hpn. apply list_elem_of_fmap. by exists (k', v', p).
      * intros u Hu. rewrite Hw. by apply Hunref'.
      * destruct Hk' as [Hl | Hs]; [left; by apply (lacks_same m) | right; by apply (settled_same m)].
  - split_and!.
    + intros k' Hl. cbn [list_find]. destruct (decide ((k, v).1 = k')) as [Heq | Hne].
      * cbn in Heq. subst k'. exfalso. by eapply lacks_not_settled.
      * cbn. by apply (lacks_same m).
    + intros k' v' Hh Hs. split; [by apply (holds_same m) | by apply (settled_same m)].
    + intros k' v' Hh _. by apply (holds_same m).
    + intros k' Hsg _. by apply (single_same m).
Qed.

Lemma ComputeBucket_range m (k : Key) :
  table_wf m → 0 ≤ ComputeBucket m k < num_buckets_ m.
Proof. intros Hwf. apply Z.mod_pos_bound, Hwf. Qed.

Lemma live_match_record m (k k' : Key) (v : Value) (p : Z) :
  extract (pair_allocator_ctx_ m) p = Some (k, v) →
  live_match m k' p ↔ p ≠ EMPTY_PAIR_PTR ∧ k = k'.
Proof.
  intros Hrec. unfold live_match, key_matches. rewrite Hrec. cbn.
  by rewrite bool_decide_eq_true.
Qed.

(** The empty-slot branch: the index goes into the slot. *)
Lemma fill_ok m (k : Key) (v : Value) (p : Z) (reqs : list (Key * Value * Z))
    (l : list Z) (c : Z) (lane : nat) :
  table_wf m → pairs_wf m →
  Z.of_nat (length reqs) ≤ free_slab_count (slab_list_allocator_ctx_ m) →
  NoDup (p :: reqs.*2) →
  (∀ k' v' p', (k', v', p') ∈ reqs → req_ok m k' v' p') →
  p ≠ EMPTY_PAIR_PTR → extract (pair_allocator_ctx_ m) p = Some (k, v) →
  p ∉ heap_ (pair_allocator_ctx_ m) →
  (∀ u, ¬ is_next_word u → deref m u ≠ p) →
  chain m (ComputeBucket m k) HEAD_SLAB_PTR l →
  chain_probe m (ComputeBucket m k) k l = Some (Vacant c lane) →
  let m1 := store m (unit_ptr_of c (ComputeBucket m k) (Z.of_nat lane)) p in
  pend_inv m1 reqs ∧ inserted [(k, v)] m m1.
Proof.
  intros Hwf Hpw Hcount Hnd Hreqs Hp Hrec Hheap Hunref Hch Hprobe m1.
  set (b := ComputeBucket m k) in *. set (q := unit_ptr_of c b (Z.of_nat lane)) in *.
  pose proof (ComputeBucket_range m k Hwf) as Hb. fold b in Hb.
  destruct (chain_probe_vacant _ _ _ _ _ _ Hprobe) as (Hlane & Hin & Hq). fold q in Hq.
  assert (Hc : c = HEAD_SLAB_PTR ∨ slab_allocated (slab_list_allocator_ctx_ m) c).
  { eapply chain_slabs_allocated; [done | exact Hch | by left | done]. }
  assert (Hv : valid_unit m q) by (apply valid_unit_ptr; [done | done | lia]).
  assert (Hlm : live_match m k p) by (by apply (live_match_record m k k v p)).
  assert (Hother : ∀ k', k' ≠ k → ¬ live_match m k' p).
  { intros k' Hne [_ Heq]%(live_match_record m k k' v p); done. }
  destruct (chain_probe_fill_self _ _ _ _ _ _ _ Hprobe Hv Hlm) as (Hpr1 & Hlk1 & _).
  fold q m1 in Hpr1, Hlk1.
  destruct (store_fields m q p) as (Hnb & Hh & Hlen & Hbm). fold m1 in Hnb, Hh, Hlen, Hbm.
  assert (Hpa : pair_allocator_ctx_ m1 = pair_allocator_ctx_ m) by apply pair_alloc_store.
  assert (Hcb : ∀ k', ComputeBucket m1 k' = ComputeBucket m k')
    by (intros k'; apply ComputeBucket_store).
  assert (Hch1 : chain m1 b HEAD_SLAB_PTR l) by (by apply chain_fill).
  assert (Hset1 : settled m1 k) by (exists l, p; rewrite Hcb; by fold b).
  assert (Hholds1 : holds m1 k v).
  { exists l, p. rewrite Hcb, Hpa. fold b. done. }
  apply NoDup_cons in Hnd as [Hpn Hnd].
  split.
  - split.
    + by apply table_wf_fill.
    + split; rewrite ?Hpa.
      * apply Hpw.
      * apply Hpw.
      * intros u Hu. unfold m1.
        destruct (deref_store_cases m q u p) as [-> | [_ ->]]; [by apply Hpw | done].
      * intros u1 u2 H1 H2. unfold m1.
        destruct (deref_store_cases m q u1 p) as [E1 | [E1 E1']];
          destruct (deref_store_cases m q u2 p) as [E2 | [E2 E2']].
        -- rewrite E1, E2. by apply Hpw.
        -- rewrite E1, E2'. intros Heq. by destruct (Hunref u1 H1).
        -- rewrite E1', E2. intros Heq. by destruct (Hunref u2 H2).
        -- intros _ _. congruence.
    + unfold free_slab_count in *. by rewrite Hbm.
    + done.
    + intros k' v' p' Hin'.
      destruct (Hreqs k' v' p' Hin') as (Hp' & Hrec' & Hheap' & Hunref' & Hk').
      split_and!; rewrite ?Hpa; [done | done | done | |].
      * intros u Hu. unfold m1.
        destruct (deref_store_cases m q u p) as [-> | [_ ->]]; [by apply Hunref' |].
        intros ->. apply Hpn. apply list_elem_of_fmap. by exists (k', v', p').
      * destruct (decide (k' = k)) as [-> | Hne]; [by right |].
        destruct Hk' as [Hl | Hs]; [left; apply lacks_fill | right; apply settled_fill];
          try done; by apply Hother.
  - split_and!.
    + intros k' Hl. cbn [list_find]. destruct (decide ((k, v).1 = k')) as [Heq | Hne].
      * cbn in Heq. subst k'. done.
      * cbn. apply lacks_fill; [done | done | | done]. apply Hother. by intros ->.
    + intros k' v' Hhd Hs. destruct (decide (k' = k)) as [-> | Hne].
      * exfalso. destruct Hs as (l' & x & Hl' & Hx).
        fold b in Hl', Hx. rewrite (chain_functional _ _ _ _ _ Hl' Hch) in Hx. congruence.
      * split; [apply holds_fill | apply settled_fill]; try done; by apply Hother.
    + intros k' v' Hhd Hnin. apply holds_fill; try done. apply Hother.
      intros ->. apply Hnin. cbn. by left.
    + intros k' Hsg Hk'. destruct (decide (k' = k)) as [-> | Hne].
      * destruct Hk' as [Hl | [Hs | Hnin]].
        -- by apply single_fill_self.
        -- exfalso. destruct Hs as (l' & x & Hl' & Hx).
           fold b in Hl', Hx. rewrite (chain_functional _ _ _ _ _ Hl' Hch) in Hx. congruence.
        -- exfalso. apply Hnin. cbn. by left.
      * apply single_fill_other; try done. by apply Hother.
Qed.

(** The end of a full chain: a slab is allocated and linked. *)
Lemma link_ok m (b c new : Z) (a : SlabAllocContext) :
  table_wf m → pairs_wf m → 0 ≤ b < num_buckets_ m →
  c = HEAD_SLAB_PTR ∨ slab_allocated (slab_list_allocator_ctx_ m) c →
  deref m (unit_ptr_of c b NEXT_SLAB_PTR_LANE) = EMPTY_SLAB_PTR →
  WarpAllocate (slab_list_allocator_ctx_ m) = Some (new, a) →
  let m' := store (set_slab_alloc m a) (unit_ptr_of c b NEXT_SLAB_PTR_LANE) new in
  table_wf m' ∧ pairs_wf m'
  ∧ free_slab_count (slab_list_allocator_ctx_ m')
    = free_slab_count (slab_list_allocator_ctx_ m) - 1
  ∧ pair_allocator_ctx_ m' = pair_allocator_ctx_ m
  ∧ (∀ k, ComputeBucket m' k = ComputeBucket m k)
  ∧ (∀ k v p, req_ok m k v p → req_ok m' k v p)
  ∧ (∀ k, lacks m k → lacks m' k)
  ∧ (∀ k v, holds m k v → holds m' k v)
  ∧ (∀ k, settled m k → settled m' k)
  ∧ (∀ k, single m k → single m' k).
Proof.
  intros Hwf Hpw Hb Hc Hend Halloc m'.
  destruct (link_facts m b c new a Hwf Hb Hc Hend Halloc)
    as (Hpa & Hpr & Hnx & Hnw & Hrange & Hlinked & Hnewa & Hcount & Hpair & Hnb & Hh & Hwf').
  fold m' in Hpa, Hpr, Hnx, Hnw, Hlinked, Hnewa, Hcount, Hpair, Hnb, Hh, Hwf'.
  assert (Hlive : new ≠ EMPTY_SLAB_PTR) by (unfold EMPTY_SLAB_PTR, HEAD_SLAB_PTR in *; lia).
  assert (Hrec : data_ (pair_allocator_ctx_ m') = data_ (pair_allocator_ctx_ m))
    by (by rewrite Hpa).
  assert (Hcb : ∀ k, ComputeBucket m' k = ComputeBucket m k).
  { intros k. unfold ComputeBucket. by rewrite Hnb, Hh. }
  assert (Hlacks : ∀ k, lacks m k → lacks m' k).
  { intros k (l & Hl & Hlook).
    destruct (chain_link m m' new Hrec Hpr Hnx Hnw Hlive _ _ _ Hl) as (l' & Hl' & Hlk & _).
    exists l'. rewrite Hcb. split; [done |]. by rewrite Hlk. }
  assert (Hsettled : ∀ k, settled m k → settled m' k).
  { intros k (l & x & Hl & Hp).
    destruct (chain_link m m' new Hrec Hpr Hnx Hnw Hlive _ _ _ Hl) as (l' & Hl' & _ & Hfd).
    exists l', x. rewrite Hcb. split; [done |]. by apply Hfd. }
  split_and!; try done.
  - split; rewrite ?Hpa.
    + apply Hpw.
    + apply Hpw.
    + intros u Hu. rewrite Hpair by done. by apply Hpw.
    + intros u1 u2 H1 H2. rewrite !Hpair by done. by apply Hpw.
  - intros k v p (Hp & Hr & Hheap & Hunref & Hk). split_and!; rewrite ?Hpa; try done.
    + intros u Hu. rewrite Hpair by done. by apply Hunref.
    + destruct Hk; [left | right]; eauto.
  - intros k v (l & x & Hl & Hlook & Hx).
    destruct (chain_link m m' new Hrec Hpr Hnx Hnw Hlive _ _ _ Hl) as (l' & Hl' & Hlk & _).
    exists l', x. rewrite Hcb, Hpa. split_and!; [done | | done]. by rewrite Hlk.
  - intros k (l & u & Hl & Hconf).
    destruct (confined_link m m' new Hrec Hpr Hnx Hnw Hlive _ _ _ k u Hl Hconf)
      as (l' & Hl' & Hconf').
    exists l', u. rewrite Hcb. done.
Qed.

(** Serving one request keeps what the remaining requests need, and the
    memory afterwards is the memory before with the pair inserted. *)
Lemma insert_one_ok m (k : Key) (v : Value) (p : Z) (reqs : list (Key * Value * Z))
    (l : list Z) :
  pend_inv m ((k, v, p) :: reqs) →
  chain m (ComputeBucket m k) HEAD_SLAB_PTR l →
  ∃ m1 won,
    insert_one m (ComputeBucket m k) k p l = Some (m1, won)
    ∧ pend_inv m1 reqs
    ∧ inserted [(k, v)] m m1
    ∧ (∀ k', ComputeBucket m1 k' = ComputeBucket m k')
    ∧ (if won : bool then lacks m k else settled m k)
    ∧ (length (heap_ (pair_allocator_ctx_ m)) ≤ length (heap_ (pair_allocator_ctx_ m1)))%nat
    ∧ free_slab_count (slab_list_allocator_ctx_ m) - 1
      ≤ free_slab_count (slab_list_allocator_ctx_ m1).
Proof.
  intros Hinv Hch. set (b := ComputeBucket m k) in *.
  pose proof (pi_table m _ Hinv) as Hwf. pose proof (pi_pairs m _ Hinv) as Hpw.
  pose proof (pi_slabs m _ Hinv) as Hcount. pose proof (pi_nodup m _ Hinv) as Hnd.
  destruct (pi_reqs m _ Hinv k v p ltac:(left)) as (Hp & Hrec & Hheap & Hunref & Hk).
  assert (Hreqs : ∀ k' v' p', (k', v', p') ∈ reqs → req_ok m k' v' p').
  { intros k' v' p' Hin. apply (pi_reqs m _ Hinv). by right. }
  pose proof (ComputeBucket_range m k Hwf) as Hb. fold b in Hb.
  cbn [length] in Hcount. cbn [fmap list_fmap snd] in Hnd.
  destruct (chain_nonempty _ _ _ _ Hch) as [l0 Hl0].
  destruct (chain_probe_is_Some m b k HEAD_SLAB_PTR l0) as [pr Hpr]. rewrite <- Hl0 in Hpr.
  unfold insert_one. rewrite Hpr. destruct pr as [x | c lane | c].
  - (* the key is met: the duplicate branch *)
    assert (Hset : settled m k) by (by exists l, x).
    destruct (free_ok m k v p reqs Hinv Hset) as [Hinv1 Hins1].
    eexists _, false. split_and!; [done | done | done | done | done | |].
    + cbn. lia.
    + cbn. lia.
  - (* an empty pair slot is met *)
    destruct (fill_ok m k v p reqs l c lane) as [Hinv1 Hins1]; try done; [lia |].
    eexists _, true. split_and!; [done | done | done | | | |].
    + intros k'. apply ComputeBucket_store.
    + destruct Hk as [Hl | Hs]; [done |]. exfalso.
      destruct Hs as (l' & x & Hl' & Hx).
      fold b in Hl', Hx. rewrite (chain_functional _ _ _ _ _ Hl' Hch) in Hx. congruence.
    + by rewrite pair_alloc_store.
    + unfold free_slab_count.
      destruct (store_fields m (unit_ptr_of c b (Z.of_nat lane)) p) as (_ & _ & _ & ->). lia.
  - (* every slab of the chain is full *)
    destruct (WarpAllocate_Some (slab_list_allocator_ctx_ m)) as (new & a & Halloc); [lia |].
    rewrite Halloc.
    pose proof (chain_probe_full_last _ _ _ _ _ Hpr) as Hlast.
    assert (Hc : c = HEAD_SLAB_PTR ∨ slab_allocated (slab_list_allocator_ctx_ m) c).
    { eapply chain_slabs_allocated; [done | exact Hch | by left |].
      rewrite last_Some in Hlast. destruct Hlast as [l1 ->]. apply elem_of_app. right. by left. }
    assert (Hend : deref m (unit_ptr_of c b NEXT_SLAB_PTR_LANE) = EMPTY_SLAB_PTR).
    { pose proof (chain_last_end _ _ _ _ _ Hch Hlast) as He.
      by rewrite read_slab_total in He by lia. }
    set (m' := store (set_slab_alloc m a) (unit_ptr_of c b NEXT_SLAB_PTR_LANE) new).
    destruct (link_facts m b c new a Hwf Hb Hc Hend Halloc)
      as (_ & Hpr' & Hnx & Hnw & Hrange & Hlinked & _). fold m' in Hpr', Hnx, Hnw, Hlinked.
    destruct (link_ok m b c new a Hwf Hpw Hb Hc Hend Halloc)
      as (Hwf' & Hpw' & Hcount' & Hpa & Hcb & Hreq' & Hlacks & Hholds & Hsettled & Hsingle).
    fold m' in Hwf', Hpw', Hcount', Hpa, Hcb, Hreq', Hlacks, Hholds, Hsettled, Hsingle.
    assert (Hlive : new ≠ EMPTY_SLAB_PTR) by (unfold EMPTY_SLAB_PTR, HEAD_SLAB_PTR in *; lia).
    assert (Hrec' : data_ (pair_allocator_ctx_ m') = data_ (pair_allocator_ctx_ m))
      by (by rewrite Hpa).
    assert (Hch' : chain m' b HEAD_SLAB_PTR (l ++ [new])).
    { by apply (chain_link_last m m' new Hnx Hnw Hlive b HEAD_SLAB_PTR c). }
    assert (Hprobe' : chain_probe m' b k (l ++ [new]) = Some (Vacant new 0)).
    { by apply (chain_probe_link_full m m' new Hrec' Hpr' Hnw b k l c). }
    assert (Hunref' : ∀ u, ¬ is_next_word u → deref m' u ≠ p).
    { destruct (Hreq' k v p) as (_ & _ & _ & Hun & _); [by split_and! | done]. }
    destruct (fill_ok m' k v p reqs (l ++ [new]) new 0) as [Hinv1 Hins1];
      rewrite ?Hcb, ?Hpa; try done; [lia | by eauto |].
    rewrite Hcb in Hinv1, Hins1. fold b in Hinv1, Hins1.
    eexists _, true. split_and!; [done | done | | | | |].
    + destruct Hins1 as (H1 & H2 & H3 & H4). split_and!.
      * intros k' Hl. by apply H1, Hlacks.
      * intros k' v' Hh Hs. apply (H2 k' v'); [by apply Hholds | by apply Hsettled].
      * intros k' v' Hh Hnin. apply (H3 k' v'); [by apply Hholds | done].
      * intros k' Hsg Hk'. apply H4; [by apply Hsingle |].
        destruct Hk' as [Hl | [Hs | Hnin]]; [left | right; left | right; right]; eauto.
    + intros k'. by rewrite ComputeBucket_store.
    + destruct Hk as [Hl | Hs]; [done |]. exfalso.
      destruct Hs as (l' & x & Hl' & Hx).
      fold b in Hl', Hx. rewrite (chain_functional _ _ _ _ _ Hl' Hch) in Hx. congruence.
    + by rewrite pair_alloc_store, Hpa.
    + unfold free_slab_count in *.
      destruct (store_fields m' (unit_ptr_of new b (Z.of_nat 0)) p) as (_ & _ & _ & ->). lia.
Qed.

(** ** The loop of Insert, undisturbed *)

Lemma Insert_loop_step fuel m w :
  __ballot_sync ACTIVE_LANES_MASK (lane_active w) ≠ 0 →
  Insert_loop (S fuel) [] m w
  = match Insert_iter id m (__ballot_sync ACTIVE_LANES_MASK (lane_active w)) w with
    | None => None
    | Some (w', m') => Insert_loop fuel [] m' w'
    end.
Proof. intros Hne%Z.eqb_neq. cbn [Insert_loop hd tl]. by rewrite Hne. Qed.

Lemma Insert_loop_done fuel m w :
  __ballot_sync ACTIVE_LANES_MASK (lane_active w) = 0 →
  Insert_loop fuel [] m w = Some (w, m).
Proof. intros Heq%Z.eqb_eq. destruct fuel; cbn [Insert_loop]; by rewrite Heq. Qed.

(** One iteration of the undisturbed Insert at slab [c] of the chain of
    bucket [b], for the key [k] of the source lane. *)
Lemma Insert_iter_at m (wq : Z) w (b c : Z) (k : Key) :
  s_src_bucket (warp_scan m wq w) = b →
  s_src_key (warp_scan m wq w) = k →
  s_curr_slab_ptr (warp_scan m wq w) = c →
  let p := own_reg (prealloc_pair_internal_ptr w) (__ffs wq - 1) in
  let stay := next_regs w (lane_active w) (iterator w) (mask w) wq c in
  Insert_iter id m wq w
  = match slab_lookup m k (read_slab m c b) with
    | Some _ =>
        Some (insert_done w wq c false p, set_pair_alloc m (Free p (pair_allocator_ctx_ m)))
    | None =>
        match list_find (λ ptr, ptr = EMPTY_PAIR_PTR) (take 31 (read_slab m c b)) with
        | Some (lane, _) =>
            Some (insert_done w wq c true p, store m (unit_ptr_of c b (Z.of_nat lane)) p)
        | None =>
            if decide (read_slab m c b !!! 31%nat = EMPTY_SLAB_PTR) then
              match WarpAllocate (slab_list_allocator_ctx_ m) with
              | None => None
              | Some (new, a) =>
                  Some (stay, store (set_slab_alloc m a)
                                    (unit_ptr_of c b NEXT_SLAB_PTR_LANE) new)
              end
            else
              Some (next_regs w (lane_active w) (iterator w) (mask w) wq
                              (read_slab m c b !!! 31%nat),
                    m)
        end
    end.
Proof.
  intros Hb Hk Hc p stay.
  pose proof (Insert_iter_cases id m wq w) as Hcases. cbv zeta in Hcases.
  rewrite scan_unit_data, Hk, Hc, Hb in Hcases. unfold id in Hcases at 2 3 4 5 6 7 8 9 10.
  rewrite Hcases. clear Hcases.
  change (s_src_lane (warp_scan m wq w)) with (__ffs wq - 1). fold p.
  destruct (slab_lookup m k (read_slab m c b)) as [x|]; [done |].
  destruct (list_find _ (take 31 (read_slab m c b))) as [[lane y]|] eqn:Hfind.
  - apply find_empty_Some in Hfind as (Hlane & _ & Hread).
    rewrite read_slab_lookup in Hread by lia. injection Hread as Hread.
    by rewrite decide_True.
  - case_decide as Hnext; [| done].
    destruct (WarpAllocate _) as [[new a]|]; [| done].
    rewrite read_slab_total in Hnext by lia. by rewrite decide_True.
Qed.

(** The source lane of Insert is served as [insert_one] says: after at
    most one iteration a slab, and two more when the chain is extended, it
    leaves the queue, the other registers untouched. *)
Lemma Insert_walk m (b : Z) (k : Key) (c : Z) (l : list Z) :
  table_wf m → 0 ≤ b < num_buckets_ m →
  chain m b c l →
  c = HEAD_SLAB_PTR ∨ slab_allocated (slab_list_allocator_ctx_ m) c →
  ∀ w, let wq := __ballot_sync ACTIVE_LANES_MASK (lane_active w) in
  wq ≠ 0 →
  s_src_bucket (warp_scan m wq w) = b →
  s_src_key (warp_scan m wq w) = k →
  s_curr_slab_ptr (warp_scan m wq w) = c →
  ∀ m1 won,
    insert_one m b k (own_reg (prealloc_pair_internal_ptr w) (__ffs wq - 1)) l
    = Some (m1, won) →
    ∃ (steps : nat) (c' : Z), ∀ fuel,
      Insert_loop (steps + fuel) [] m w
      = Insert_loop fuel [] m1
          (insert_done w wq c' won (own_reg (prealloc_pair_internal_ptr w) (__ffs wq - 1))).
Proof.
  intros Hwf Hb Hch.
  induction Hch as [c Hend | c l Hnext Hl IH]; intros Hc w wq Hwq Hsb Hsk Hsc m1 won Hone;
    pose proof (Insert_iter_at m wq w b c k Hsb Hsk Hsc) as Hit; cbv zeta in Hit;
    unfold insert_one in Hone; cbn [chain_probe] in Hone;
    (destruct (slab_lookup m k (read_slab m c b)) as [x|] eqn:Hlook;
     [injection Hone as <- <-; exists 1%nat, c; intros fuel; cbn [Nat.add];
      rewrite Insert_loop_step by done; fold wq; by rewrite Hit |]);
    (destruct (list_find _ (take 31 (read_slab m c b))) as [[lane y]|] eqn:Hfind;
     [injection Hone as <- <-; exists 1%nat, c; intros fuel; cbn [Nat.add];
      rewrite Insert_loop_step by done; fold wq; by rewrite Hit |]).
  - (* the last slab is full: allocate, link, move on, store *)
    destruct (WarpAllocate (slab_list_allocator_ctx_ m)) as [[new a]|] eqn:Halloc; [| done].
    injection Hone as <- <-.
    set (p := own_reg (prealloc_pair_internal_ptr w) (__ffs wq - 1)) in *.
    set (m' := store (set_slab_alloc m a) (unit_ptr_of c b NEXT_SLAB_PTR_LANE) new).
    assert (Hend' : deref m (unit_ptr_of c b NEXT_SLAB_PTR_LANE) = EMPTY_SLAB_PTR)
      by (by rewrite read_slab_total in Hend by lia).
    destruct (link_facts m b c new a Hwf Hb Hc Hend' Halloc)
      as (Hpa & Hpr & Hnx & Hnw & Hrange & Hlinked & _). fold m' in Hpa, Hpr, Hnx, Hnw, Hlinked.
    assert (Hrec : data_ (pair_allocator_ctx_ m') = data_ (pair_allocator_ctx_ m))
      by (by rewrite Hpa).
    set (w1 := next_regs w (lane_active w) (iterator w) (mask w) wq c).
    set (w2 := next_regs w1 (lane_active w1) (iterator w1) (mask w1) wq new).
    assert (Hit1 : Insert_iter id m wq w = Some (w1, m')).
    { rewrite Hit. rewrite decide_True by done. done. }
    assert (Hit2 : Insert_iter id m' wq w1 = Some (w2, m')).
    { rewrite (Insert_iter_at m' wq w1 b c k); [| done | done |].
      - rewrite (slab_lookup_link m m' Hrec Hpr), Hlook, Hpr, Hfind, Hlinked.
        rewrite decide_False; [done |]. unfold EMPTY_SLAB_PTR, HEAD_SLAB_PTR in *. lia.
      - unfold warp_scan. cbn. by rewrite Z.eqb_refl. }
    assert (Hit3 : Insert_iter id m' wq w2
                   = Some (insert_done w wq new true p,
                           store m' (unit_ptr_of new b (Z.of_nat 0)) p)).
    { rewrite (Insert_iter_at m' wq w2 b new k); [| done | done |].
      - rewrite (new_slab_lookup m' new Hnw), (new_slab_vacant m' new Hnw). done.
      - unfold warp_scan. cbn. by rewrite Z.eqb_refl. }
    exists 3%nat, new. intros fuel. cbn [Nat.add].
    rewrite Insert_loop_step by done. fold wq. rewrite Hit1.
    rewrite Insert_loop_step by done.
    change (__ballot_sync ACTIVE_LANES_MASK (lane_active w1)) with wq. rewrite Hit2.
    rewrite Insert_loop_step by done.
    change (__ballot_sync ACTIVE_LANES_MASK (lane_active w2)) with wq. rewrite Hit3.
    done.
  - (* a full slab with a next slab: move on *)
    destruct (chain_nonempty _ _ _ _ Hl) as [l0 Hl0]. rewrite Hl0 in Hone.
    set (w1 := next_regs w (lane_active w) (iterator w) (mask w) wq
                         (read_slab m c b !!! 31%nat)).
    destruct (IH) with (w := w1) (m1 := m1) (won := won) as (steps & c' & Hrun).
    + right. rewrite read_slab_total in * by lia. apply (wf_next m Hwf); [| done].
      apply next_lane_is_next_word. destruct Hc as [-> | [? _]]; [by left | by right].
    + done.
    + done.
    + done.
    + unfold warp_scan. cbn. by rewrite Z.eqb_refl.
    + rewrite Hl0. exact Hone.
    + exists (S steps), c'. intros fuel. cbn [Nat.add].
      rewrite Insert_loop_step by done. fold wq. rewrite Hit.
      rewrite decide_False by done. fold w1. apply Hrun.
Qed.

(** ** The requests of a warp *)

Lemma omap_all_None {A B} (f : A → option B) (l : list A) :
  (∀ x, x ∈ l → f x = None) → omap f l = [].
Proof.
  induction l as [|x l IH]; intros Hall; [done |]. cbn.
  rewrite (Hall x) by (by left). apply IH. intros y Hy. apply Hall. by right.
Qed.

Lemma pending_nil w :
  __ballot_sync ACTIVE_LANES_MASK (lane_active w) = 0 → pending w = [].
Proof.
  intros Hz. apply omap_all_None. intros i Hi%elem_of_seq.
  pose proof (proj1 (ballot_zero_iff _) Hz i ltac:(lia)) as Hna.
  by destruct (lane_active w !! i) as [[]|].
Qed.

(** The first request in the queue is that of the lowest active lane. *)
Lemma pending_cons w w1 (src : nat) :
  (src < 32)%nat → lane_active w !! src = Some true →
  (∀ j, (j < src)%nat → lane_active w !! j ≠ Some true) →
  lane_active w1 = <[src := false]> (lane_active w) →
  key w1 = key w → value w1 = value w →
  prealloc_pair_internal_ptr w1 = prealloc_pair_internal_ptr w →
  pending w
  = (key w !!! src, value w !!! src, prealloc_pair_internal_ptr w !!! src) :: pending w1.
Proof.
  intros Hsrc Hact Hmin Ha Hk Hv Hp. unfold pending.
  assert (Hseq : seq 0 32 = seq 0 src ++ [src] ++ seq (S src) (31 - src)).
  { transitivity (seq 0 (src + (1 + (31 - src)))); [f_equal; lia |].
    rewrite !seq_app, Nat.add_0_l, Nat.add_1_r. done. }
  rewrite Hseq.
  rewrite !omap_app. rewrite Ha, Hk, Hv, Hp.
  rewrite (omap_all_None _ (seq 0 src)).
  2:{ intros j Hj%elem_of_seq. specialize (Hmin j ltac:(lia)).
      by destruct (lane_active w !! j) as [[]|]. }
  rewrite (omap_all_None _ (seq 0 src)).
  2:{ intros j Hj%elem_of_seq. specialize (Hmin j ltac:(lia)).
      rewrite list_lookup_insert_ne by lia.
      by destruct (lane_active w !! j) as [[]|]. }
  cbn [app omap list_omap]. rewrite Hact.
  rewrite list_lookup_insert_eq by (by eapply lookup_lt_Some).
  cbn [app]. f_equal.
  apply list_omap_ext. apply Forall2_same_length_lookup_2; [done |].
  intros i x y Hx Hy. assert (x = y) as <- by congruence.
  apply lookup_seq in Hx as [-> _]. rewrite list_lookup_insert_ne by lia. done.
Qed.

(** ** Insertions one after the other *)

Lemma inserted_nil m : inserted [] m m.
Proof. split_and!; [by intros k Hl | done | done | done]. Qed.

Lemma inserted_app (kvs1 kvs2 : list (Key * Value)) m m1 m2 :
  inserted kvs1 m m1 → inserted kvs2 m1 m2 → inserted (kvs1 ++ kvs2) m m2.
Proof.
  intros (Ha1 & Hb1 & Hc1 & Hd1) (Ha2 & Hb2 & Hc2 & Hd2). split_and!.
  - intros k Hl. specialize (Ha1 k Hl).
    destruct (list_find (λ kv : Key * Value, kv.1 = k) kvs1) as [[i kv]|] eqn:Hf1.
    + rewrite (list_find_app_l _ _ _ _ _ Hf1). destruct Ha1 as [Hh Hs].
      by apply (Hb2 k kv.2).
    + rewrite (list_find_app_r _ _ _ Hf1). specialize (Ha2 k Ha1).
      by destruct (list_find _ kvs2) as [[j kv]|].
  - intros k v Hh Hs. destruct (Hb1 k v Hh Hs) as [Hh1 Hs1]. by apply Hb2.
  - intros k v Hh Hnin. rewrite fmap_app in Hnin. apply not_elem_of_app in Hnin as [Hn1 Hn2].
    apply Hc2; [| done]. by apply Hc1.
  - intros k Hsg Hk. apply Hd2.
    + apply Hd1; [done |]. destruct Hk as [Hl | [Hs | Hnin]]; [by left | by right; left |].
      right; right. rewrite fmap_app in Hnin. by apply not_elem_of_app in Hnin as [Hn1 _].
    + destruct Hk as [Hl | [Hs | Hnin]].
      * specialize (Ha1 k Hl).
        destruct (list_find (λ kv : Key * Value, kv.1 = k) kvs1) as [[i kv]|];
          [right; left; apply Ha1 | by left].
      * destruct (settled_holds m k Hs) as [v Hv]. right; left. by apply (Hb1 k v).
      * right; right. rewrite fmap_app in Hnin. by apply not_elem_of_app in Hnin as [_ Hn2].
Qed.

Lemma inserted_cons (kv : Key * Value) (kvs : list (Key * Value)) m m1 m2 :
  inserted [kv] m m1 → inserted kvs m1 m2 → inserted (kv :: kvs) m m2.
Proof. apply (inserted_app [kv] kvs). Qed.

Lemma insert_done_fields w (wq c' : Z) (won : bool) (p : Z) (src : nat) :
  __ffs wq - 1 = Z.of_nat src →
  lane_active (insert_done w wq c' won p) = <[src := false]> (lane_active w)
  ∧ bucket_id (insert_done w wq c' won p) = bucket_id w
  ∧ key (insert_done w wq c' won p) = key w
  ∧ value (insert_done w wq c' won p) = value w
  ∧ prealloc_pair_internal_ptr (insert_done w wq c' won p) = prealloc_pair_internal_ptr w
  ∧ prev_work_queue (insert_done w wq c' won p) = wq.
Proof.
  intros Hsrc. unfold insert_done, upd. rewrite Hsrc, Nat2Z.id. by destruct won.
Qed.

(** The loop of Insert, undisturbed, serves every request in its queue, the
    lowest lane first, and stops: the memory afterwards is the memory
    before with the pairs of the requests inserted in this order. *)
Lemma Insert_drain (d : nat) :
  ∀ m w,
    (∀ i, lane_active w !! i = Some true → (32 - d ≤ i)%nat) →
    (__ballot_sync ACTIVE_LANES_MASK (lane_active w) ≠ 0 →
     prev_work_queue w ≠ __ballot_sync ACTIVE_LANES_MASK (lane_active w)) →
    (∀ i, (i < 32)%nat → lane_active w !! i = Some true →
          bucket_id w !!! i = ComputeBucket m (key w !!! i)) →
    pend_inv m (pending w) →
    ∃ (steps : nat) w' m',
      (∀ fuel, Insert_loop (steps + fuel) [] m w = Some (w', m'))
      ∧ pend_inv m' []
      ∧ inserted (pending w).*1 m m'
      ∧ (∀ k, ComputeBucket m' k = ComputeBucket m k)
      ∧ (length (heap_ (pair_allocator_ctx_ m)) ≤ length (heap_ (pair_allocator_ctx_ m')))%nat
      ∧ free_slab_count (slab_list_allocator_ctx_ m) - Z.of_nat (length (pending w))
        ≤ free_slab_count (slab_list_allocator_ctx_ m').
Proof.
  induction d as [|d IH]; intros m w Hlow Hprev Hbk Hinv;
    destruct (decide (__ballot_sync ACTIVE_LANES_MASK (lane_active w) = 0)) as [Hz|Hnz].
  1,3: exists 0%nat, w, m; rewrite (pending_nil w Hz) in *;
       split_and!; [intros fuel; by apply Insert_loop_done | done | apply inserted_nil
                   | done | done | cbn; lia].
  - exfalso. apply Hnz, ballot_zero_iff. intros i Hi Hact. apply Hlow in Hact. lia.
  - set (wq := __ballot_sync ACTIVE_LANES_MASK (lane_active w)) in *.
    destruct (ballot_nonzero_src _ Hnz) as (src & Hsrc & Hffs & Hact & Hmin).
    fold wq in Hffs.
    set (k := key w !!! src). set (v := value w !!! src).
    set (p := prealloc_pair_internal_ptr w !!! src).
    assert (Hp : own_reg (prealloc_pair_internal_ptr w) (__ffs wq - 1) = p).
    { unfold own_reg. by rewrite Hffs, Nat2Z.id. }
    pose proof (pi_table m _ Hinv) as Hwf.
    pose proof (ComputeBucket_range m k Hwf) as Hb.
    destruct (wf_chains m Hwf _ Hb) as [l Hl].
    assert (Hpend : ∀ c' won,
              pending w = (k, v, p) :: pending (insert_done w wq c' won p)).
    { intros c' won.
      destruct (insert_done_fields w wq c' won p src Hffs) as (Ha1 & _ & Hk1 & Hv1 & Hp1 & _).
      by apply pending_cons. }
    destruct (insert_one_ok m k v p (pending (insert_done w wq 0 true p)) l)
      as (m1 & won & Hone & _); [by rewrite <- Hpend | done |].
    destruct (Insert_walk m (ComputeBucket m k) k HEAD_SLAB_PTR l Hwf Hb Hl ltac:(by left) w)
      with (m1 := m1) (won := won) as (steps & c' & Hrun).
    + done.
    + unfold warp_scan. cbn [s_src_bucket]. fold wq. rewrite Hffs, shfl_lane by done.
      by apply Hbk.
    + unfold warp_scan, WarpSyncKey. cbn [s_src_key]. fold wq. rewrite Hffs.
      by apply shfl_lane.
    + unfold warp_scan. cbn [s_curr_slab_ptr]. fold wq.
      specialize (Hprev Hnz). apply Z.eqb_neq in Hprev. by rewrite Hprev.
    + fold wq. by rewrite Hp.
    + fold wq in Hrun. rewrite Hp in Hrun.
      set (w1 := insert_done w wq c' won p) in *.
      destruct (insert_done_fields w wq c' won p src Hffs)
        as (Ha1 & Hb1 & Hk1 & Hv1 & Hp1 & Hq1). fold w1 in Ha1, Hb1, Hk1, Hv1, Hp1, Hq1.
      rewrite (Hpend c' won) in Hinv. fold w1 in Hinv.
      destruct (insert_one_ok m k v p (pending w1) l Hinv Hl)
        as (m1' & won' & Hone' & Hinv1 & Hins1 & Hcb1 & _ & Hheap1 & Hcount1).
      assert (m1' = m1) as -> by congruence.
      destruct (IH m1 w1) as (steps1 & w' & m' & Hrun1 & Hinv' & Hins' & Hcb' & Hheap' & Hcount').
      * intros i. rewrite Ha1. intros Hi.
        apply list_lookup_insert_Some in Hi as [(_ & ? & _) | (Hne & Hi)]; [done |].
        assert (¬ (i < src)%nat) by (intros ?; by eapply Hmin).
        pose proof (Hlow _ Hact). lia.
      * intros _. rewrite Hq1, Ha1. apply not_eq_sym. by apply ballot_retire.
      * intros i Hi. rewrite Ha1, Hb1, Hk1, Hcb1. intros Hai.
        apply list_lookup_insert_Some in Hai as [(_ & ? & _) | (Hne & Hai)]; [done |].
        by apply Hbk.
      * done.
      * exists (steps + steps1)%nat, w', m'. split_and!.
        -- intros fuel. rewrite <- Nat.add_assoc, Hrun. apply Hrun1.
        -- done.
        -- rewrite (Hpend c' won), fmap_cons.
           exact (inserted_cons (k, v) _ m m1 m' Hins1 Hins').
        -- intros k'. by rewrite Hcb', Hcb1.
        -- lia.
        -- rewrite (Hpend c' won), length_cons. fold w1.
           revert Hcount1 Hcount'. generalize (length (pending w1)).
           generalize (free_slab_count (slab_list_allocator_ctx_ m))
                      (free_slab_count (slab_list_allocator_ctx_ m1))
                      (free_slab_count (slab_list_allocator_ctx_ m')).
           clear. intros. lia.
Qed.

(** ** The pre-allocation *)

Lemma pending_requests w :
  (pending w).*1 = requests (lane_active w) (key w) (value w).
Proof.
  unfold pending, requests. induction (seq 0 32) as [|i l IH]; [done |].
  cbn [omap list_omap]. destruct (lane_active w !! i) as [[]|]; cbn; by rewrite ?IH.
Qed.

Lemma elem_of_pending w (k : Key) (v : Value) (p : Z) :
  (k, v, p) ∈ pending w ↔
  ∃ i : nat, (i < 32)%nat ∧ lane_active w !! i = Some true
             ∧ k = key w !!! i ∧ v = value w !!! i
             ∧ p = prealloc_pair_internal_ptr w !!! i.
Proof.
  unfold pending. rewrite list_elem_of_omap. split.
  - intros (i & Hi%elem_of_seq & Hf).
    destruct (lane_active w !! i) as [[]|] eqn:Ha; try done.
    injection Hf as <- <- <-. exists i. split_and!; [lia | done ..].
  - intros (i & Hi & Ha & -> & -> & ->). exists i. split; [apply elem_of_seq; lia |].
    by rewrite Ha.
Qed.

Lemma NoDup_omap_inj {A B} (f : A → option B) (l : list A) :
  NoDup l → (∀ x y z, x ∈ l → y ∈ l → f x = Some z → f y = Some z → x = y) →
  NoDup (omap f l).
Proof.
  induction 1 as [|x l Hx Hl IH]; intros Hinj; cbn; [constructor |].
  assert (Hrest : NoDup (omap f l)).
  { apply IH. intros a b z Ha Hb. apply Hinj; by right. }
  destruct (f x) as [z|] eqn:Hfx; [| done].
  apply NoDup_cons. split; [| done].
  intros (y & Hy & Hfy)%list_elem_of_omap.
  apply Hx. rewrite (Hinj x y z); [done | by left | by right | done | done].
Qed.

(** Two lanes that allocate receive two indices. *)
Lemma prealloc_lanes_inj (lanes : list (bool * (Key * Value))) :
  ∀ (c c' : @MemoryAllocContext Key Value) (ps : list Z),
    NoDup (heap_ c) →
    prealloc_lanes c lanes = Some (ps, c') →
    ∀ (i j : nat) kvi kvj p, i ≠ j →
      lanes !! i = Some (true, kvi) → lanes !! j = Some (true, kvj) →
      ps !! i = Some p → ps !! j = Some p → False.
Proof.
  induction lanes as [|[act kv] lanes IH]; intros c c' ps Hnd; cbn [prealloc_lanes];
    [by intros _ i j ? ? ? _ Hi |].
  destruct act.
  - unfold Allocate. destruct (heap_ c) as [|p0 h] eqn:Hheap; [done |].
    set (c1 := store_pair _ p0 kv).
    destruct (prealloc_lanes c1 lanes) as [[ps' c2]|] eqn:Hrec; [| done].
    intros [= <- <-]. apply NoDup_cons in Hnd as [Hp0 Hnd].
    destruct (prealloc_lanes_spec lanes c1 c2 ps' Hnd Hrec) as (used & Hused & _ & _ & Hl).
    cbn in Hused.
    assert (Htail : ∀ (j : nat) kvj p, lanes !! j = Some (true, kvj) → ps' !! j = Some p →
                      p ≠ p0).
    { intros j kvj p Hj Hp ->. specialize (Hl j true kvj Hj). cbn in Hl.
      destruct Hl as (p' & Hp' & Hin & _). assert (p' = p0) as -> by congruence.
      apply Hp0. rewrite Hused. apply elem_of_app. by left. }
    intros [|i] [|j] kvi kvj p Hne Hi Hj Hpi Hpj; cbn in *; try done.
    + injection Hpi as <-. by eapply Htail.
    + injection Hpj as <-. by eapply Htail.
    + eapply (IH c1 c2 ps' Hnd Hrec i j); eauto.
  - destruct (prealloc_lanes c lanes) as [[ps' c2]|] eqn:Hrec; [| done].
    intros [= <- <-].
    intros [|i] [|j] kvi kvj p Hne Hi Hj Hpi Hpj; cbn in *; try done.
    eapply (IH c c2 ps' Hnd Hrec i j); eauto.
Qed.

(** The pre-allocation takes as many indices off the free list as lanes are
    active, and succeeds when the free list has that many. *)
Lemma prealloc_lanes_Some (lanes : list (bool * (Key * Value))) :
  ∀ c : @MemoryAllocContext Key Value,
    (length (filter (λ x, x.1 = true) lanes) ≤ length (heap_ c))%nat →
    ∃ ps c', prealloc_lanes c lanes = Some (ps, c')
             ∧ (length (heap_ c') + length (filter (λ x, x.1 = true) lanes)
                = length (heap_ c))%nat.
Proof.
  induction lanes as [|[act kv] lanes IH]; intros c Hlen; cbn [prealloc_lanes].
  { exists [], c. split; [done |]. cbn. lia. }
  destruct act.
  - rewrite filter_cons_True in * by done. cbn [length] in *.
    unfold Allocate. destruct (heap_ c) as [|p0 h] eqn:Hheap; [cbn in Hlen; lia |].
    destruct (IH (store_pair {| heap_ := h; data_ := data_ c |} p0 kv)) as (ps & c' & -> & Hl).
    { cbn in *. lia. }
    exists (p0 :: ps), c'. split; [done |]. cbn in *. lia.
  - rewrite filter_cons_False in * by done.
    destruct (IH c Hlen) as (ps & c' & -> & Hl). exists (EMPTY_PAIR_PTR :: ps), c'. done.
Qed.

Lemma omap_fmap_list {A B C} (f : B → option C) (g : A → B) (l : list A) :
  omap f (g <$> l) = omap (f ∘ g) l.
Proof. induction l as [|x l IH]; [done |]. cbn. by rewrite IH. Qed.

Lemma requests_zip_gen (act : list bool) :
  ∀ (keys : list Key) (values : list Value) (n : nat),
    length act = n → length keys = n → length values = n →
    omap (λ i : nat, match act !! i with
                     | Some true => Some (keys !!! i, values !!! i)
                     | _ => None
                     end) (seq 0 n)
    = omap (λ x : bool * (Key * Value), if x.1 then Some x.2 else None)
           (zip act (zip keys values)).
Proof.
  induction act as [|a act IH]; intros keys values n Ha Hk Hv; cbn in Ha; subst n.
  { done. }
  destruct keys as [|k keys]; [done |]. destruct values as [|v values]; [done |].
  cbn [length seq]. rewrite <- fmap_S_seq. cbn [omap list_omap zip zip_with].
  rewrite omap_fmap_list.
  rewrite <- (IH keys values (length act)) by (cbn in *; lia).
  cbn. destruct a; by cbn.
Qed.

Lemma requests_zip act (keys : list Key) (values : list Value) :
  length act = 32%nat → length keys = 32%nat → length values = 32%nat →
  requests act keys values
  = omap (λ x : bool * (Key * Value), if x.1 then Some x.2 else None)
         (zip act (zip keys values)).
Proof. intros. by apply requests_zip_gen. Qed.

Lemma filter_omap_length {A B} (l : list (bool * A)) (g : A → B) :
  length (filter (λ x, x.1 = true) l)
  = length (omap (λ x : bool * A, if x.1 then Some (g x.2) else None) l).
Proof.
  induction l as [|[[] x] l IH]; [done | |].
  - rewrite filter_cons_True by done. cbn. by rewrite IH.
  - rewrite filter_cons_False by done. done.
Qed.

(** A table that answers like [m] is related to the same tables. *)
Lemma inserted_same (kvs : list (Key * Value)) m m0 m' :
  (∀ u, deref m0 u = deref m u) →
  num_buckets_ m0 = num_buckets_ m → hash_fn_ m0 = hash_fn_ m →
  (∀ u, ¬ is_next_word u →
     data_ (pair_allocator_ctx_ m0) !! deref m u
     = data_ (pair_allocator_ctx_ m) !! deref m u) →
  inserted kvs m0 m' → inserted kvs m m'.
Proof.
  intros Hw Hnb Hh Hr (H1 & H2 & H3 & H4). split_and!.
  - intros k Hl. apply H1. by apply (lacks_same m).
  - intros k v Hho Hs. apply (H2 k v); [by apply (holds_same m) | by apply (settled_same m)].
  - intros k v Hho Hk. apply (H3 k v); [by apply (holds_same m) | done].
  - intros k Hsg Hk. apply H4; [by apply (single_same m) |].
    destruct Hk as [Hl | [Hs | Hnin]];
      [left; by apply (lacks_same m) | right; left; by apply (settled_same m) | by right; right].
Qed.

(** A key that was ready for an insertion stays so. *)
Lemma inserted_ready (kvs : list (Key * Value)) m m' (k : Key) :
  inserted kvs m m' → lacks m k ∨ settled m k → lacks m' k ∨ settled m' k.
Proof.
  intros (H1 & H2 & _) [Hl | Hs].
  - specialize (H1 k Hl). destruct (list_find _ kvs) as [[i kv]|]; [right; apply H1 | by left].
  - destruct (settled_holds m k Hs) as [v Hv]. right. by apply (H2 k v).
Qed.

(** The state after the pre-allocation: a table that answers like [m], with
    every active lane's record off the free list and referenced nowhere. *)
Lemma prealloc_ok m act buckets (keys : list Key) (values : list Value) :
  table_wf m → pairs_wf m →
  length act = 32%nat → length keys = 32%nat → length values = 32%nat →
  (∀ i : nat, (i < 32)%nat → act !! i = Some true →
     lacks m (keys !!! i) ∨ settled m (keys !!! i)) →
  (length (requests act keys values) ≤ length (heap_ (pair_allocator_ctx_ m)))%nat →
  Z.of_nat (length (requests act keys values))
    ≤ free_slab_count (slab_list_allocator_ctx_ m) →
  ∃ ps c,
    prealloc_lanes (pair_allocator_ctx_ m) (zip act (zip keys values)) = Some (ps, c)
    ∧ pend_inv (set_pair_alloc m c) (pending (entry_regs act buckets keys values ps))
    ∧ (length (heap_ c) + length (requests act keys values)
       = length (heap_ (pair_allocator_ctx_ m)))%nat
    ∧ (∀ u, ¬ is_next_word u →
         data_ c !! deref m u = data_ (pair_allocator_ctx_ m) !! deref m u).
Proof.
  intros Hwf Hpw Hla Hlk Hlv Hready Hheap Hslabs.
  pose proof (requests_zip act keys values Hla Hlk Hlv) as Hreq.
  assert (Hcount : length (filter (λ x : bool * (Key * Value), x.1 = true)
                                  (zip act (zip keys values)))
                   = length (requests act keys values)).
  { rewrite Hreq. rewrite (filter_omap_length _ id). done. }
  destruct (prealloc_lanes_Some (zip act (zip keys values)) (pair_allocator_ctx_ m))
    as (ps & c & Hpre & Hlen); [by rewrite Hcount |].
  rewrite Hcount in Hlen.
  exists ps, c. split; [done |].
  destruct (prealloc_lanes_spec _ _ _ _ (wf_heap_nodup m Hpw) Hpre)
    as (used & Hused & Hlps & Hdata & Hlanes).
  pose proof (prealloc_lanes_inj _ _ _ _ (wf_heap_nodup m Hpw) Hpre) as Hinj.
  pose proof (wf_heap_nodup m Hpw) as Hnd. rewrite Hused in Hnd.
  apply NoDup_app in Hnd as (Hnd_used & Hdisj & Hnd_c).
  assert (Hw : ∀ u, deref (set_pair_alloc m c) u = deref m u)
    by (intros u; apply deref_set_pair_alloc).
  assert (Hr : ∀ u, ¬ is_next_word u →
             data_ c !! deref m u = data_ (pair_allocator_ctx_ m) !! deref m u).
  { intros u Hu. apply Hdata. intros Hin.
    apply (wf_heap_unused m Hpw u Hu). rewrite Hused. apply elem_of_app. by left. }
  assert (Hlane : ∀ i : nat, (i < 32)%nat → act !! i = Some true →
            ∃ p, ps !! i = Some p ∧ p ∈ used
                 ∧ extract c p = Some (keys !!! i, values !!! i)
                 ∧ zip act (zip keys values) !! i = Some (true, (keys !!! i, values !!! i))).
  { intros i Hi Ha.
    destruct (lookup_lt_is_Some_2 keys i ltac:(lia)) as [k Hk].
    destruct (lookup_lt_is_Some_2 values i ltac:(lia)) as [v Hv].
    assert (Hz : zip act (zip keys values) !! i = Some (true, (k, v))).
    { apply lookup_zip_Some. split; [done |]. by apply lookup_zip_Some. }
    rewrite (list_lookup_total_correct _ _ _ Hk), (list_lookup_total_correct _ _ _ Hv).
    destruct (Hlanes i true (k, v) Hz) as (p & Hp & Hin & Hex). by exists p. }
  split_and!; [| done | done].
  split.
  - by apply table_wf_set_pair_alloc.
  - split; cbn.
    + done.
    + intros Hin. apply (wf_heap_live m Hpw). rewrite Hused. apply elem_of_app. by right.
    + intros u Hu Hin. apply (wf_heap_unused m Hpw u Hu).
      rewrite Hused. apply elem_of_app. by right.
    + intros u1 u2 H1 H2. by apply (wf_slots m Hpw).
  - rewrite <- (length_fmap fst), pending_requests. cbn. lia.
  - unfold pending. rewrite list_fmap_omap. cbn [entry_regs lane_active
      prealloc_pair_internal_ptr key value].
    apply NoDup_omap_inj; [apply NoDup_seq |].
    intros i j z Hi%elem_of_seq Hj%elem_of_seq Hfi Hfj.
    destruct (act !! i) as [[]|] eqn:Hai; try done.
    destruct (act !! j) as [[]|] eqn:Haj; try done.
    cbn in Hfi, Hfj.
    destruct (Hlane i ltac:(lia) Hai) as (pi & Hpi & _ & _ & Hzi).
    destruct (Hlane j ltac:(lia) Haj) as (pj & Hpj & _ & _ & Hzj).
    rewrite (list_lookup_total_correct _ _ _ Hpi) in Hfi.
    rewrite (list_lookup_total_correct _ _ _ Hpj) in Hfj.
    destruct (decide (i = j)) as [| Hne]; [done |]. exfalso.
    eapply (Hinj i j _ _ z Hne Hzi Hzj); congruence.
  - intros k v p Hin. apply elem_of_pending in Hin as (i & Hi & Ha & -> & -> & ->).
    cbn [entry_regs lane_active prealloc_pair_internal_ptr key value] in *.
    destruct (Hlane i Hi Ha) as (p & Hp & Hin & Hex & _).
    rewrite (list_lookup_total_correct _ _ _ Hp).
    assert (Hheap_p : p ∈ heap_ (pair_allocator_ctx_ m)).
    { rewrite Hused. apply elem_of_app. by left. }
    split_and!.
    + intros ->. by apply (wf_heap_live m Hpw).
    + done.
    + cbn. intros Hin'. by apply (Hdisj p).
    + intros u Hu. rewrite Hw. intros Heq. apply (wf_heap_unused m Hpw u Hu). by rewrite Heq.
    + destruct (Hready i Hi Ha) as [Hl | Hs];
        [left; by apply (lacks_same m) | right; by apply (settled_same m)].
Qed.

(** The device [Insert] of one warp on a table at rest: the call returns,
    keeps the table well formed and inserts the pairs of the active lanes,
    lowest lane first. *)
Lemma Insert_warp_ok m act buckets (keys : list Key) (values : list Value) :
  table_wf m → pairs_wf m →
  length act = 32%nat → length keys = 32%nat → length values = 32%nat →
  (∀ i : nat, (i < 32)%nat → act !! i = Some true →
     buckets !!! i = ComputeBucket m (keys !!! i)) →
  (∀ i : nat, (i < 32)%nat → act !! i = Some true →
     lacks m (keys !!! i) ∨ settled m (keys !!! i)) →
  (length (requests act keys values) ≤ length (heap_ (pair_allocator_ctx_ m)))%nat →
  Z.of_nat (length (requests act keys values))
    ≤ free_slab_count (slab_list_allocator_ctx_ m) →
  ∃ (steps : nat) w' m',
    (∀ fuel, Insert (steps + fuel) [] m act buckets keys values = Some (w', m'))
    ∧ table_wf m' ∧ pairs_wf m'
    ∧ inserted (requests act keys values) m m'
    ∧ (∀ k, ComputeBucket m' k = ComputeBucket m k)
    ∧ (length (heap_ (pair_allocator_ctx_ m))
       ≤ length (heap_ (pair_allocator_ctx_ m')) + length (requests act keys values))%nat
    ∧ free_slab_count (slab_list_allocator_ctx_ m)
        - Z.of_nat (length (requests act keys values))
      ≤ free_slab_count (slab_list_allocator_ctx_ m').
Proof.
  intros Hwf Hpw Hla Hlk Hlv Hb Hready Hheap Hslabs.
  destruct (prealloc_ok m act buckets keys values Hwf Hpw Hla Hlk Hlv Hready Hheap Hslabs)
    as (ps & c & Hpre & Hinv & Hlen & Hr).
  set (w0 := entry_regs act buckets keys values ps) in *.
  assert (Hpr : (pending w0).*1 = requests act keys values) by apply pending_requests.
  destruct (Insert_drain 32 (set_pair_alloc m c) w0) as (steps & w' & m' & Hrun & Hinv' & Hins
    & Hcb & Hh & Hs).
  - intros i _. lia.
  - intros Hne Heq. apply Hne. by rewrite <- Heq.
  - intros i Hi Ha. subst w0. cbn [entry_regs lane_active bucket_id key] in *. by apply Hb.
  - exact Hinv.
  - exists steps, w', m'. split_and!.
    + intros fuel. unfold Insert. rewrite Hpre. apply Hrun.
    + apply Hinv'.
    + apply Hinv'.
    + rewrite <- Hpr. apply (inserted_same _ m (set_pair_alloc m c)); try done.
    + intros k. by rewrite Hcb.
    + cbn in Hh. lia.
    + rewrite <- (length_fmap fst (pending w0)), Hpr in Hs. exact Hs.
Qed.

(** ** The kernel and the host function *)

Lemma omap_all_Some {A B} (f : A → option B) (g : A → B) (l : list A) :
  (∀ x, x ∈ l → f x = Some (g x)) → omap f l = g <$> l.
Proof.
  induction l as [|x l IH]; intros Hall; [done |]. cbn.
  rewrite (Hall x) by (by left). cbn. f_equal. apply IH. intros y Hy. apply Hall. by right.
Qed.

Lemma kernel_active_lookup (n wid : Z) (i : nat) :
  (i < 32)%nat → kernel_active n wid !! i = Some (wid * 32 + Z.of_nat i <? n).
Proof.
  intros Hi. unfold kernel_active. by rewrite list_lookup_fmap, kernel_tids_lookup.
Qed.

Lemma kernel_keys_lookup (keys : list Key) (n wid : Z) (i : nat) :
  (i < 32)%nat → wid * 32 + Z.of_nat i < n →
  kernel_keys keys n wid !!! i = keys !!! Z.to_nat (wid * 32 + Z.of_nat i).
Proof.
  intros Hi Hn. apply list_lookup_total_correct. unfold kernel_keys.
  rewrite list_lookup_fmap, kernel_tids_lookup by done. cbn.
  by rewrite (proj2 (Z.ltb_lt _ _) Hn).
Qed.

Lemma kernel_values_lookup (values : list Value) (n wid : Z) (i : nat) :
  (i < 32)%nat → wid * 32 + Z.of_nat i < n →
  kernel_values values n wid !!! i = values !!! Z.to_nat (wid * 32 + Z.of_nat i).
Proof.
  intros Hi Hn. apply list_lookup_total_correct. unfold kernel_values.
  rewrite list_lookup_fmap, kernel_tids_lookup by done. cbn.
  by rewrite (proj2 (Z.ltb_lt _ _) Hn).
Qed.

Lemma kernel_buckets_lookup m (keys : list Key) (n wid : Z) (i : nat) :
  (i < 32)%nat → wid * 32 + Z.of_nat i < n →
  kernel_buckets m keys n wid !!! i
  = ComputeBucket m (keys !!! Z.to_nat (wid * 32 + Z.of_nat i)).
Proof.
  intros Hi Hn. apply list_lookup_total_correct. unfold kernel_buckets.
  rewrite list_lookup_fmap, kernel_tids_lookup by done. cbn.
  by rewrite (proj2 (Z.ltb_lt _ _) Hn).
Qed.

Lemma kernel_lengths (keys : list Key) (values : list Value) (n wid : Z) :
  length (kernel_active n wid) = 32%nat
  ∧ length (kernel_keys keys n wid) = 32%nat
  ∧ length (kernel_values values n wid) = 32%nat.
Proof.
  unfold kernel_active, kernel_keys, kernel_values, kernel_tids.
  rewrite !length_fmap, length_seqZ. done.
Qed.

(** The requests of warp [wid] of a bulk kernel are the pairs of its threads
    below [n]. *)
Lemma kernel_requests (keys : list Key) (values : list Value) (n wid : Z) :
  0 ≤ wid → wid * 32 < n →
  requests (kernel_active n wid) (kernel_keys keys n wid) (kernel_values values n wid)
  = batch keys values (Z.to_nat (wid * 32)) (Z.to_nat (Z.min 32 (n - wid * 32))).
Proof.
  intros Hwid Hn. unfold requests, batch.
  set (cnt := Z.to_nat (Z.min 32 (n - wid * 32))).
  assert (Hseq : seq 0 32 = seq 0 cnt ++ seq cnt (32 - cnt)).
  { transitivity (seq 0 (cnt + (32 - cnt))); [f_equal; lia |]. by rewrite seq_app. }
  rewrite Hseq, omap_app.
  rewrite (omap_all_None _ (seq cnt (32 - cnt))).
  - rewrite app_nil_r.
    rewrite (omap_all_Some _ (λ i : nat, (keys !!! (Z.to_nat (wid * 32) + i)%nat,
                                          values !!! (Z.to_nat (wid * 32) + i)%nat))).
    + pose proof (fmap_add_seq (Z.to_nat (wid * 32)) 0 cnt) as Hadd.
      rewrite Nat.add_0_r in Hadd. rewrite <- Hadd.
      by rewrite <- list_fmap_compose.
    + intros i Hi%elem_of_seq.
      rewrite kernel_active_lookup by lia.
      rewrite (proj2 (Z.ltb_lt _ _)) by lia.
      rewrite kernel_keys_lookup, kernel_values_lookup by lia.
      do 2 f_equal; f_equal; lia.
  - intros i Hi%elem_of_seq.
    rewrite kernel_active_lookup by lia.
    by rewrite (proj2 (Z.ltb_ge _ _)) by lia.
Qed.

Lemma batch_app (keys : list Key) (values : list Value) (a b c : nat) :
  batch keys values a b ++ batch keys values (a + b) c = batch keys values a (b + c).
Proof. unfold batch. by rewrite seq_app, fmap_app. Qed.

Lemma elem_of_batch (keys : list Key) (values : list Value) (a b : nat) (kv : Key * Value) :
  kv ∈ batch keys values a b ↔ ∃ t : nat, (a ≤ t < a + b)%nat ∧ kv = (keys !!! t, values !!! t).
Proof.
  unfold batch. rewrite list_elem_of_fmap. split.
  - intros (t & -> & Ht%elem_of_seq). by exists t.
  - intros (t & Ht & ->). exists t. split; [done |]. by apply elem_of_seq.
Qed.

(** One warp of [InsertKernel] on a table at rest. *)
Lemma InsertKernel_warp_ok m (keys : list Key) (values : list Value) (n : nat) (wid : nat) :
  table_wf m → pairs_wf m →
  let from := Nat.min (wid * 32) n in
  let upto := Nat.min (S wid * 32) n in
  (∀ t : nat, (from ≤ t < n)%nat → lacks m (keys !!! t) ∨ settled m (keys !!! t)) →
  (n ≤ from + length (heap_ (pair_allocator_ctx_ m)))%nat →
  Z.of_nat n ≤ Z.of_nat from + free_slab_count (slab_list_allocator_ctx_ m) →
  ∃ (steps : nat) m',
    (∀ fuel, InsertKernel_warp (steps + fuel) keys values (Z.of_nat n) m (Z.of_nat wid)
             = Some m')
    ∧ table_wf m' ∧ pairs_wf m'
    ∧ inserted (batch keys values from (upto - from)) m m'
    ∧ (∀ k, ComputeBucket m' k = ComputeBucket m k)
    ∧ (length (heap_ (pair_allocator_ctx_ m))
       ≤ (upto - from) + length (heap_ (pair_allocator_ctx_ m')))%nat
    ∧ free_slab_count (slab_list_allocator_ctx_ m)
      ≤ Z.of_nat (upto - from) + free_slab_count (slab_list_allocator_ctx_ m').
Proof.
  intros Hwf Hpw from upto.
  assert (Hfrom : from = Nat.min (wid * 32) n) by done.
  assert (Hupto : upto = Nat.min (S wid * 32) n) by done.
  clearbody from upto. intros Hready Hheap Hslabs. unfold InsertKernel_warp.
  destruct (Z.leb_spec (Z.of_nat n) (Z.of_nat wid * 32)) as [Hle | Hlt].
  - exists 0%nat, m. assert (from = n) as Hf by lia. assert (upto = n) as Hu by lia.
    rewrite Hu, Hf in *. rewrite Nat.sub_diag. split_and!; try done.
  - assert (Hf : from = (wid * 32)%nat) by lia.
    pose proof (kernel_requests keys values (Z.of_nat n) (Z.of_nat wid)
                  ltac:(lia) Hlt) as Hreq.
    replace (Z.to_nat (Z.of_nat wid * 32)) with from in Hreq by lia.
    replace (Z.to_nat (Z.min 32 (Z.of_nat n - Z.of_nat wid * 32)))
      with (upto - from)%nat in Hreq by lia.
    destruct (kernel_lengths keys values (Z.of_nat n) (Z.of_nat wid)) as (Hla & Hlk & Hlv).
    assert (Hlenb : length (batch keys values from (upto - from)) = (upto - from)%nat).
    { unfold batch. by rewrite length_fmap, length_seq. }
    destruct (Insert_warp_ok m (kernel_active (Z.of_nat n) (Z.of_nat wid))
                (kernel_buckets m keys (Z.of_nat n) (Z.of_nat wid))
                (kernel_keys keys (Z.of_nat n) (Z.of_nat wid))
                (kernel_values values (Z.of_nat n) (Z.of_nat wid)))
      as (steps & w' & m' & Hrun & Hwf' & Hpw' & Hins & Hcb & Hh & Hs); try done.
    + intros i Hi Ha. rewrite kernel_active_lookup in Ha by done.
      injection Ha as Ha. apply Z.ltb_lt in Ha.
      rewrite kernel_buckets_lookup, kernel_keys_lookup by done. done.
    + intros i Hi Ha. rewrite kernel_active_lookup in Ha by done.
      injection Ha as Ha. apply Z.ltb_lt in Ha.
      rewrite kernel_keys_lookup by done.
      replace (Z.to_nat (Z.of_nat wid * 32 + Z.of_nat i)) with (wid * 32 + i)%nat by lia.
      apply Hready. lia.
    + rewrite Hreq, Hlenb. lia.
    + rewrite Hreq, Hlenb. lia.
    + exists steps, m'. rewrite Hreq in Hins. rewrite Hreq, Hlenb in Hh, Hs.
      split_and!; try done.
      * intros fuel. by rewrite Hrun.
      * lia.
      * lia.
Qed.

(** The warps [j], [j + 1], ... of [InsertKernel], one after the other. *)
Lemma InsertKernel_warps_ok (keys : list Key) (values : list Value) (n : nat) (c : nat) :
  ∀ (j : nat) m,
    table_wf m → pairs_wf m →
    (∀ t : nat, (Nat.min (j * 32) n ≤ t < n)%nat →
       lacks m (keys !!! t) ∨ settled m (keys !!! t)) →
    (n ≤ Nat.min (j * 32) n + length (heap_ (pair_allocator_ctx_ m)))%nat →
    Z.of_nat n ≤ Z.of_nat (Nat.min (j * 32) n)
                 + free_slab_count (slab_list_allocator_ctx_ m) →
    ∃ (fuel0 : nat) m',
      (∀ fuel, (fuel0 ≤ fuel)%nat →
         run_warps (InsertKernel_warp fuel keys values (Z.of_nat n)) m
                   (seqZ (Z.of_nat j) (Z.of_nat c)) = Some m')
      ∧ table_wf m' ∧ pairs_wf m'
      ∧ inserted (batch keys values (Nat.min (j * 32) n)
                        (Nat.min ((j + c) * 32) n - Nat.min (j * 32) n)) m m'
      ∧ (∀ k, ComputeBucket m' k = ComputeBucket m k)
      ∧ (length (heap_ (pair_allocator_ctx_ m))
         ≤ (Nat.min ((j + c) * 32) n - Nat.min (j * 32) n)
           + length (heap_ (pair_allocator_ctx_ m')))%nat
      ∧ free_slab_count (slab_list_allocator_ctx_ m)
        ≤ Z.of_nat (Nat.min ((j + c) * 32) n - Nat.min (j * 32) n)
          + free_slab_count (slab_list_allocator_ctx_ m').
Proof.
  induction c as [|c IH]; intros j m Hwf Hpw Hready Hheap Hslabs.
  - exists 0%nat, m. rewrite Nat.add_0_r, Nat.sub_diag.
    split_and!; try done.
  - destruct (InsertKernel_warp_ok m keys values n j Hwf Hpw Hready Hheap Hslabs)
      as (steps & m1 & Hrun1 & Hwf1 & Hpw1 & Hins1 & Hcb1 & Hheap1 & Hslabs1).
    destruct (IH (S j) m1 Hwf1 Hpw1)
      as (fuel0 & m' & Hrun & Hwf' & Hpw' & Hins' & Hcb' & Hheap' & Hslabs'); [| lia | lia |].
    { intros t Ht. apply (inserted_ready _ m m1 _ Hins1). apply Hready. lia. }
    exists (steps + fuel0)%nat, m'.
    replace ((j + S c) * 32)%nat with ((S j + c) * 32)%nat by lia.
    split_and!; try done.
    + intros fuel Hfuel. rewrite seqZ_cons by lia. cbn [run_warps].
      replace fuel with (steps + (fuel - steps))%nat at 1 by lia. rewrite Hrun1.
      replace (Z.succ (Z.of_nat j)) with (Z.of_nat (S j)) by lia.
      replace (Z.pred (Z.of_nat (S c))) with (Z.of_nat c) by lia.
      apply Hrun. lia.
    + pose proof (inserted_app _ _ m m1 m' Hins1 Hins') as Hins.
      set (a := Nat.min (j * 32) n) in *. set (b := Nat.min (S j * 32) n) in *.
      set (d := Nat.min ((S j + c) * 32) n) in *.
      assert (Hab : (b = a + (b - a))%nat) by lia.
      rewrite Hab in Hins at 2. rewrite batch_app in Hins.
      replace (b - a + (d - b))%nat with (d - a)%nat in Hins by lia. exact Hins.
    + intros k. by rewrite Hcb', Hcb1.
    + lia.
    + lia.
Qed.

Lemma launched_warps_count (n : Z) :
  0 ≤ n → n + 127 < 2 ^ 32 →
  ∃ c : nat, launched_warps n = seqZ 0 (Z.of_nat c) ∧ n ≤ Z.of_nat c * 32.
Proof.
  intros Hn0 Hn. unfold launched_warps, wrap32, BLOCKSIZE_.
  rewrite Z.mod_small by lia. change (128 / 32) with 4.
  exists (Z.to_nat ((n + 128 - 1) / 128 * 4)).
  pose proof (Z.div_mod (n + 128 - 1) 128 ltac:(lia)).
  pose proof (Z.mod_pos_bound (n + 128 - 1) 128 ltac:(lia)).
  rewrite Z2Nat.id by lia. split; [done | lia].
Qed.

(** The bulk [Insert] on a table at rest: with enough fuel the launch
    returns, and the table is the old one with the first [n] pairs of the
    arrays inserted in thread order. *)
Lemma SlabHash_Insert_ok m (keys : list Key) (values : list Value) (n : nat) :
  table_wf m → pairs_wf m → Z.of_nat n + 127 < 2 ^ 32 →
  (∀ t : nat, (t < n)%nat → lacks m (keys !!! t) ∨ settled m (keys !!! t)) →
  (n ≤ length (heap_ (pair_allocator_ctx_ m)))%nat →
  Z.of_nat n ≤ free_slab_count (slab_list_allocator_ctx_ m) →
  ∃ (fuel0 : nat) m',
    (∀ fuel, (fuel0 ≤ fuel)%nat →
       SlabHash_Insert fuel m keys values (Z.of_nat n) = Some (m', (keys, values)))
    ∧ table_wf m' ∧ pairs_wf m'
    ∧ inserted (batch keys values 0 n) m m'
    ∧ (∀ k, ComputeBucket m' k = ComputeBucket m k)
    ∧ (length (heap_ (pair_allocator_ctx_ m))
       ≤ n + length (heap_ (pair_allocator_ctx_ m')))%nat
    ∧ free_slab_count (slab_list_allocator_ctx_ m)
      ≤ Z.of_nat n + free_slab_count (slab_list_allocator_ctx_ m').
Proof.
  intros Hwf Hpw Hn Hready Hheap Hslabs.
  destruct (launched_warps_count (Z.of_nat n) ltac:(lia) Hn) as (c & Hlw & Hc).
  destruct (InsertKernel_warps_ok keys values n c 0 m Hwf Hpw)
    as (fuel0 & m' & Hr & Hwf' & Hpw' & Hins & Hcb & Hheap' & Hslabs').
  - intros t Ht. apply Hready. lia.
  - cbn. lia.
  - cbn. lia.
  - exists fuel0, m'.
    cbn [Nat.mul Nat.min Nat.add] in Hins, Hheap', Hslabs'.
    replace (Nat.min (c * 32) n - 0)%nat with n in * by lia.
    split_and!; try done.
    intros fuel Hfuel. unfold SlabHash_Insert. rewrite Hlw.
    change (Z.of_nat 0) with 0 in Hr. by rewrite Hr.
Qed.

(** ** The table of the constructor *)

Lemma SlabHash_new_words (hash_fn : Key → Z) (B cap nsb nmb : Z) (u : unit_ptr) :
  deref (@SlabHash_new Key Value hash_fn B cap nsb nmb) u = 0xFFFFFFFF.
Proof.
  destruct u as [i | i]; cbn [deref SlabHash_new bucket_list_head_
    slab_list_allocator_ctx_ SlabAlloc units_].
  - unfold rd. destruct (i <? 0); [done |].
    destruct (replicate _ _ !! Z.to_nat i) as [x|] eqn:Hx; [| done].
    by apply lookup_replicate in Hx as [-> _].
  - unfold rd_unit. by rewrite lookup_empty.
Qed.

Lemma SlabHash_new_chain (hash_fn : Key → Z) (B cap nsb nmb : Z) (b : Z) :
  chain (@SlabHash_new Key Value hash_fn B cap nsb nmb) b HEAD_SLAB_PTR [HEAD_SLAB_PTR].
Proof. apply chain_end. rewrite read_slab_total by lia. apply SlabHash_new_words. Qed.

(** The constructor returns a well-formed table. *)
Lemma SlabHash_new_wf (hash_fn : Key → Z) (B cap nsb nmb : Z) :
  0 < B → B * 32 ≤ 2 ^ 32 → nsb * nmb * 32 * 32 ≤ HEAD_SLAB_PTR → cap ≤ 0xFFFFFFFF →
  table_wf (@SlabHash_new Key Value hash_fn B cap nsb nmb)
  ∧ pairs_wf (@SlabHash_new Key Value hash_fn B cap nsb nmb).
Proof.
  intros HB Hwrap Hslabs Hcap. split; split.
  - done.
  - done.
  - cbn. rewrite length_replicate. lia.
  - cbn. apply Forall_replicate. lia.
  - cbn. rewrite length_replicate. unfold HEAD_SLAB_PTR in *. lia.
  - intros s lane _ _. cbn. unfold rd_unit. by rewrite lookup_empty.
  - intros u _ Hu. by rewrite SlabHash_new_words in Hu.
  - intros b _. eexists. apply SlabHash_new_chain.
  - cbn. apply NoDup_seqZ.
  - cbn. intros Hin%elem_of_seqZ. unfold EMPTY_PAIR_PTR in Hin. lia.
  - intros u _. rewrite SlabHash_new_words. cbn. intros Hin%elem_of_seqZ. lia.
  - intros u1 u2 _ _ _. by rewrite SlabHash_new_words.
Qed.

(** The new table holds no key. *)
Lemma SlabHash_new_lacks (hash_fn : Key → Z) (B cap nsb nmb : Z) (k : Key) :
  lacks (@SlabHash_new Key Value hash_fn B cap nsb nmb) k.
Proof.
  exists [HEAD_SLAB_PTR]. split; [apply SlabHash_new_chain |].
  cbn [chain_lookup]. rewrite (proj2 (slab_lookup_None _ _ _)); [done |].
  intros i x Hi Hx. rewrite read_slab_lookup, SlabHash_new_words in Hx by lia.
  assert (x = EMPTY_PAIR_PTR) as -> by (unfold EMPTY_PAIR_PTR; congruence).
  apply live_match_empty.
Qed.

Lemma SlabHash_new_capacity (hash_fn : Key → Z) (B cap nsb nmb : Z) :
  length (heap_ (pair_allocator_ctx_ (@SlabHash_new Key Value hash_fn B cap nsb nmb))) = Z.to_nat cap
  ∧ free_slab_count (slab_list_allocator_ctx_ (@SlabHash_new Key Value hash_fn B cap nsb nmb))
    = Z.of_nat (Z.to_nat (nsb * nmb * 32)) * 32.
Proof.
  split.
  - cbn. by rewrite length_seqZ.
  - unfold free_slab_count.
    cbn [SlabHash_new slab_list_allocator_ctx_ SlabAlloc bitmaps_].
    induction (Z.to_nat (nsb * nmb * 32)) as [|c IH]; [done |].
    change (Zsum ((λ x, 32 - __popc x) <$> replicate (S c) 0))
      with (32 - __popc 0 + Zsum ((λ x, 32 - __popc x) <$> replicate c 0)).
    rewrite IH. change (__popc 0) with 0. lia.
Qed.

(** ** What a search answers *)

Lemma holds_answer m (zero : Value) (k : Key) (v : Value) (vo : option Value) (fo : option Z) :
  holds m k v → search_answer m zero k vo fo → fo = Some 1 ∧ vo = Some v.
Proof.
  intros (l & p & Hl & Hlook & Hrec) Hans. specialize (Hans l Hl). rewrite Hlook in Hans.
  destruct Hans as (-> & v0 & Hrec0 & ->). split; [done |]. congruence.
Qed.

Lemma lacks_answer m (zero : Value) (k : Key) (vo : option Value) (fo : option Z) :
  lacks m k → search_answer m zero k vo fo → fo = Some 0 ∧ vo = Some zero.
Proof. intros (l & Hl & Hlook) Hans. specialize (Hans l Hl). by rewrite Hlook in Hans. Qed.

Lemma batch_lookup (keys : list Key) (values : list Value) (n i : nat) :
  (i < n)%nat → batch keys values 0 n !! i = Some (keys !!! i, values !!! i).
Proof.
  intros Hi. unfold batch. rewrite list_lookup_fmap, lookup_seq_lt by done. done.
Qed.

Lemma batch_lookup_Some (keys : list Key) (values : list Value) (n i : nat) kv :
  batch keys values 0 n !! i = Some kv → (i < n)%nat ∧ kv = (keys !!! i, values !!! i).
Proof.
  intros Hl. assert (Hi : (i < n)%nat).
  { apply lookup_lt_Some in Hl. unfold batch in Hl.
    by rewrite length_fmap, length_seq in Hl. }
  rewrite batch_lookup in Hl by done. split; [done | congruence].
Qed.

(** The first pair of a batch with the key of thread [t]. *)
Lemma batch_find (keys : list Key) (values : list Value) (n t : nat) :
  (t < n)%nat →
  ∃ i : nat, (i ≤ t)%nat ∧ keys !!! i = keys !!! t
    ∧ (∀ j : nat, (j < i)%nat → keys !!! j ≠ keys !!! t)
    ∧ list_find (λ kv : Key * Value, kv.1 = keys !!! t) (batch keys values 0 n)
      = Some (i, (keys !!! i, values !!! i)).
Proof.
  intros Ht.
  destruct (list_find_elem_of (λ kv : Key * Value, kv.1 = keys !!! t)
              (batch keys values 0 n) (keys !!! t, values !!! t)) as [[i kv] Hf].
  { apply elem_of_batch. exists t. split; [lia | done]. }
  { done. }
  pose proof Hf as Hf'. apply list_find_Some in Hf' as (Hi & Hkv & Hmin).
  apply batch_lookup_Some in Hi as [Hi ->]. cbn in Hkv.
  exists i. split_and!; try done.
  - destruct (decide (i ≤ t)%nat) as [| Hgt]; [done |]. exfalso.
    apply (Hmin t (keys !!! t, values !!! t)); [by apply batch_lookup | lia | done].
  - intros j Hj. apply (Hmin j (keys !!! j, values !!! j)); [apply batch_lookup; lia | done].
Qed.

Lemma batch_find_None (keys : list Key) (values : list Value) (n : nat) (k : Key) :
  (∀ t : nat, (t < n)%nat → keys !!! t ≠ k) →
  list_find (λ kv : Key * Value, kv.1 = k) (batch keys values 0 n) = None.
Proof.
  intros Hno. apply list_find_None, Forall_forall. intros kv Hin.
  apply elem_of_batch in Hin as (t & Ht & ->). cbn. apply Hno. lia.
Qed.

Lemma batch_keys (keys : list Key) (values : list Value) (n : nat) (k : Key) :
  (∀ t : nat, (t < n)%nat → keys !!! t ≠ k) → k ∉ (batch keys values 0 n).*1.
Proof.
  intros Hno Hin. apply list_elem_of_fmap in Hin as (kv & -> & Hin).
  apply elem_of_batch in Hin as (t & Ht & ->). cbn in Hno. apply (Hno t); [lia | done].
Qed.

(** ** Fuel *)

(** A run that returns keeps its result with more fuel. *)
Lemma Insert_loop_mono (fuel : nat) :
  ∀ envs m w r (fuel' : nat),
    Insert_loop fuel envs m w = Some r → (fuel ≤ fuel')%nat →
    Insert_loop fuel' envs m w = Some r.
Proof.
  induction fuel as [|fuel IH]; intros envs m w r fuel' Hrun Hle.
  - cbn in Hrun. destruct fuel'; cbn;
      destruct (__ballot_sync ACTIVE_LANES_MASK (lane_active w) =? 0); done.
  - destruct fuel' as [|fuel']; [lia |]. cbn [Insert_loop] in *.
    destruct (__ballot_sync ACTIVE_LANES_MASK (lane_active w) =? 0); [done |].
    destruct (Insert_iter _ _ _ _) as [[w1 m1]|]; [| done].
    apply (IH _ _ _ _ fuel' Hrun). lia.
Qed.

Lemma run_warps_mono (step step' : SlabHashContext → Z → option (@SlabHashContext Key Value))
    (wids : list Z) :
  (∀ m wid r, step m wid = Some r → step' m wid = Some r) →
  ∀ m r, run_warps step m wids = Some r → run_warps step' m wids = Some r.
Proof.
  intros Hstep. induction wids as [|wid wids IH]; intros m r; cbn [run_warps]; [done |].
  destruct (step m wid) as [m1|] eqn:H1; [| done].
  rewrite (Hstep _ _ _ H1). apply IH.
Qed.

Lemma SlabHash_Insert_mono (fuel fuel' : nat) m (keys : list Key) (values : list Value)
    (n : Z) r :
  SlabHash_Insert fuel m keys values n = Some r → (fuel ≤ fuel')%nat →
  SlabHash_Insert fuel' m keys values n = Some r.
Proof.
  unfold SlabHash_Insert. intros Hrun Hle.
  destruct (run_warps (InsertKernel_warp fuel keys values n) m (launched_warps n))
    as [m1|] eqn:H1; [| done].
  assert (Hstep : ∀ m0 wid r0,
            InsertKernel_warp fuel keys values n m0 wid = Some r0 →
            InsertKernel_warp fuel' keys values n m0 wid = Some r0).
  { intros m0 wid r0. unfold InsertKernel_warp, Insert.
    destruct (n <=? wid * 32); [done |].
    destruct (prealloc_lanes _ _) as [[ps c]|]; [| done].
    destruct (Insert_loop fuel _ _ _) as [[w1 m2]|] eqn:Hl; [| done].
    by rewrite (Insert_loop_mono _ _ _ _ _ fuel' Hl Hle). }
  by rewrite (run_warps_mono _ _ _ Hstep m m1 H1).
Qed.

(** The bulk [Insert] on a table at rest, for a launch that is known to
    return. *)
Lemma SlabHash_Insert_run m (keys : list Key) (values : list Value) (n : nat)
    (fuel : nat) m1 r :
  table_wf m → pairs_wf m → Z.of_nat n + 127 < 2 ^ 32 →
  (∀ t : nat, (t < n)%nat → lacks m (keys !!! t) ∨ settled m (keys !!! t)) →
  (n ≤ length (heap_ (pair_allocator_ctx_ m)))%nat →
  Z.of_nat n ≤ free_slab_count (slab_list_allocator_ctx_ m) →
  SlabHash_Insert fuel m keys values (Z.of_nat n) = Some (m1, r) →
  table_wf m1 ∧ pairs_wf m1 ∧ inserted (batch keys values 0 n) m m1.
Proof.
  intros Hwf Hpw Hn Hready Hheap Hslabs Hrun.
  destruct (SlabHash_Insert_ok m keys values n Hwf Hpw Hn Hready Hheap Hslabs)
    as (fuel0 & m' & Hok & Hwf' & Hpw' & Hins & _).
  pose proof (SlabHash_Insert_mono fuel (fuel `max` fuel0) _ _ _ _ _ Hrun ltac:(lia)) as H1.
  rewrite (Hok (fuel `max` fuel0)%nat ltac:(lia)) in H1.
  injection H1 as <- _. done.
Qed.

(** ** Insert, then Search *)

Lemma Insert_then_Search m (zero : Value) (keys : list Key) (values : list Value) (n : nat)
    (qs : list Key) (out_v : list Value) (out_f : list Z) (nq : nat) :
  table_wf m → pairs_wf m → Z.of_nat n + 127 < 2 ^ 32 →
  (∀ t : nat, (t < n)%nat → lacks m (keys !!! t) ∨ settled m (keys !!! t)) →
  (n ≤ length (heap_ (pair_allocator_ctx_ m)))%nat →
  Z.of_nat n ≤ free_slab_count (slab_list_allocator_ctx_ m) →
  Z.of_nat nq + 127 < 2 ^ 32 → (nq ≤ length out_v)%nat → (nq ≤ length out_f)%nat →
  ∃ (fuel0 : nat) m',
    inserted (batch keys values 0 n) m m'
    ∧ ∀ fuel, (fuel0 ≤ fuel)%nat →
        SlabHash_Insert fuel m keys values (Z.of_nat n) = Some (m', (keys, values))
        ∧ ∃ vs fs,
            SlabHash_Search fuel m' zero qs out_v out_f (Z.of_nat nq) = Some (vs, fs)
            ∧ ∀ t : nat, (t < nq)%nat →
                search_answer m' zero (qs !!! t) (vs !! t) (fs !! t).
Proof.
  intros Hwf Hpw Hn Hready Hheap Hslabs Hnq Hlv Hlf.
  destruct (SlabHash_Insert_ok m keys values n Hwf Hpw Hn Hready Hheap Hslabs)
    as (fuel1 & m' & Hok & Hwf' & Hpw' & Hins & _).
  destruct (SlabHash_Search_ok m' zero qs out_v out_f (Z.of_nat nq)) as (fuel2 & Hs);
    [lia | done | lia | lia | apply Hwf' | apply Hwf' |].
  exists (fuel1 `max` fuel2)%nat, m'. split; [done |]. intros fuel Hfuel.
  split; [apply Hok; lia |].
  destruct (Hs fuel ltac:(lia)) as (vs & fs & Hrun & Hans).
  exists vs, fs. split; [done |]. intros t Ht. apply Hans. lia.
Qed.

(** X5: the bulk [Insert] of [n] keys that a table at rest lacks, followed by
    the bulk [Search] of the same keys: with room for [n] records and [n]
    slabs and enough fuel both launches return, [Insert] leaves its argument
    arrays as they are, and every query is found, with the value of the first
    thread of the batch that holds the key. *)
Theorem bulk_insert_then_search m (zero : Value) (keys : list Key) (values : list Value)
    (n : nat) (out_v : list Value) (out_f : list Z) :
  table_wf m → pairs_wf m → Z.of_nat n + 127 < 2 ^ 32 →
  (n ≤ length keys)%nat → (n ≤ length values)%nat →
  (n ≤ length out_v)%nat → (n ≤ length out_f)%nat →
  (∀ t : nat, (t < n)%nat → lacks m (keys !!! t)) →
  (n ≤ length (heap_ (pair_allocator_ctx_ m)))%nat →
  Z.of_nat n ≤ free_slab_count (slab_list_allocator_ctx_ m) →
  ∃ fuel0 : nat, ∀ fuel, (fuel0 ≤ fuel)%nat → ∃ m' vs fs,
    SlabHash_Insert fuel m keys values (Z.of_nat n) = Some (m', (keys, values))
    ∧ SlabHash_Search fuel m' zero keys out_v out_f (Z.of_nat n) = Some (vs, fs)
    ∧ ∀ t : nat, (t < n)%nat →
        fs !! t = Some 1
        ∧ ∃ i : nat, (i ≤ t)%nat ∧ keys !!! i = keys !!! t
            ∧ (∀ j : nat, (j < i)%nat → keys !!! j ≠ keys !!! t)
            ∧ vs !! t = Some (values !!! i).
Proof.
  intros Hwf Hpw Hn _ _ Hlv Hlf Hlacks Hheap Hslabs.
  destruct (Insert_then_Search m zero keys values n keys out_v out_f n Hwf Hpw Hn)
    as (fuel0 & m' & (Hnew & _ & _) & Hrun); try done.
  { intros t Ht. left. by apply Hlacks. }
  exists fuel0. intros fuel Hfuel.
  destruct (Hrun fuel Hfuel) as (Hi & vs & fs & Hs & Hans).
  exists m', vs, fs. split_and!; [done | done |]. intros t Ht.
  destruct (batch_find keys values n t Ht) as (i & Hit & Hki & Hfirst & Hfind).
  specialize (Hnew (keys !!! t) (Hlacks t Ht)). rewrite Hfind in Hnew. cbn in Hnew.
  destruct Hnew as [Hholds _].
  destruct (holds_answer m' zero _ _ _ _ Hholds (Hans t Ht)) as [Hf Hv].
  split; [done |]. exists i. done.
Qed.

(** X6: the bulk [Insert] does not overwrite.  A key that a table at rest
    holds with value [v], and holds before any empty pair slot of its chain,
    is found with [v] after the launch, whatever value the batch gives it. *)
Theorem bulk_insert_keeps_value m (zero : Value) (keys : list Key) (values : list Value)
    (n : nat) (k : Key) (v : Value) (qs : list Key) (out_v : list Value) (out_f : list Z)
    (nq : nat) :
  table_wf m → pairs_wf m → Z.of_nat n + 127 < 2 ^ 32 →
  (n ≤ length keys)%nat → (n ≤ length values)%nat →
  (∀ t : nat, (t < n)%nat → lacks m (keys !!! t) ∨ settled m (keys !!! t)) →
  (n ≤ length (heap_ (pair_allocator_ctx_ m)))%nat →
  Z.of_nat n ≤ free_slab_count (slab_list_allocator_ctx_ m) →
  Z.of_nat nq + 127 < 2 ^ 32 →
  (nq ≤ length qs)%nat → (nq ≤ length out_v)%nat → (nq ≤ length out_f)%nat →
  holds m k v → settled m k →
  ∃ fuel0 : nat, ∀ fuel, (fuel0 ≤ fuel)%nat → ∃ m' vs fs,
    SlabHash_Insert fuel m keys values (Z.of_nat n) = Some (m', (keys, values))
    ∧ SlabHash_Search fuel m' zero qs out_v out_f (Z.of_nat nq) = Some (vs, fs)
    ∧ ∀ t : nat, (t < nq)%nat → qs !!! t = k → fs !! t = Some 1 ∧ vs !! t = Some v.
Proof.
  intros Hwf Hpw Hn _ _ Hready Hheap Hslabs Hnq _ Hlv Hlf Hholds Hset.
  destruct (Insert_then_Search m zero keys values n qs out_v out_f nq Hwf Hpw Hn)
    as (fuel0 & m' & (_ & Hold & _) & Hrun); try done.
  exists fuel0. intros fuel Hfuel.
  destruct (Hrun fuel Hfuel) as (Hi & vs & fs & Hs & Hans).
  exists m', vs, fs. split_and!; [done | done |]. intros t Ht Hk.
  destruct (Hold k v Hholds Hset) as [Hholds' _].
  apply (holds_answer m' zero k v); [done |]. rewrite <- Hk. by apply Hans.
Qed.

(** X7: the bulk [Insert] leaves the keys outside the batch alone.  After
    the launch a key that none of the [n] threads holds is found with the
    value it had, or not found if the table lacked it. *)
Theorem bulk_insert_frame m (zero : Value) (keys : list Key) (values : list Value)
    (n : nat) (k : Key) (qs : list Key) (out_v : list Value) (out_f : list Z) (nq : nat) :
  table_wf m → pairs_wf m → Z.of_nat n + 127 < 2 ^ 32 →
  (n ≤ length keys)%nat → (n ≤ length values)%nat →
  (∀ t : nat, (t < n)%nat → lacks m (keys !!! t) ∨ settled m (keys !!! t)) →
  (n ≤ length (heap_ (pair_allocator_ctx_ m)))%nat →
  Z.of_nat n ≤ free_slab_count (slab_list_allocator_ctx_ m) →
  Z.of_nat nq + 127 < 2 ^ 32 →
  (nq ≤ length qs)%nat → (nq ≤ length out_v)%nat → (nq ≤ length out_f)%nat →
  (∀ t : nat, (t < n)%nat → keys !!! t ≠ k) →
  ∃ fuel0 : nat, ∀ fuel, (fuel0 ≤ fuel)%nat → ∃ m' vs fs,
    SlabHash_Insert fuel m keys values (Z.of_nat n) = Some (m', (keys, values))
    ∧ SlabHash_Search fuel m' zero qs out_v out_f (Z.of_nat nq) = Some (vs, fs)
    ∧ ∀ t : nat, (t < nq)%nat → qs !!! t = k →
        (∀ v, holds m k v → fs !! t = Some 1 ∧ vs !! t = Some v)
        ∧ (lacks m k → fs !! t = Some 0 ∧ vs !! t = Some zero).
Proof.
  intros Hwf Hpw Hn _ _ Hready Hheap Hslabs Hnq _ Hlv Hlf Hout.
  destruct (Insert_then_Search m zero keys values n qs out_v out_f nq Hwf Hpw Hn)
    as (fuel0 & m' & (Hnew & _ & Hother & _) & Hrun); try done.
  exists fuel0. intros fuel Hfuel.
  destruct (Hrun fuel Hfuel) as (Hi & vs & fs & Hs & Hans).
  exists m', vs, fs. split_and!; [done | done |]. intros t Ht Hk.
  specialize (Hans t Ht). rewrite Hk in Hans. split.
  - intros v Hholds. apply (holds_answer m' zero k v); [| done].
    apply (Hother k v Hholds). by apply batch_keys.
  - intros Hlacks. apply (lacks_answer m' zero k); [| done].
    specialize (Hnew k Hlacks). by rewrite (batch_find_None keys values n k Hout) in Hnew.
Qed.

(** X8: the bulk [Insert] keeps a table at rest well formed, with its hash
    function, takes at most [n] records off the free list and at most [n]
    slabs, and leaves every key ready for the next launch: a key is then
    either lacking or held before the empty slots of its chain. *)
Theorem bulk_insert_keeps_wf m (keys : list Key) (values : list Value) (n : nat) :
  table_wf m → pairs_wf m → Z.of_nat n + 127 < 2 ^ 32 →
  (n ≤ length keys)%nat → (n ≤ length values)%nat →
  (∀ t : nat, (t < n)%nat → lacks m (keys !!! t) ∨ settled m (keys !!! t)) →
  (n ≤ length (heap_ (pair_allocator_ctx_ m)))%nat →
  Z.of_nat n ≤ free_slab_count (slab_list_allocator_ctx_ m) →
  ∃ (fuel0 : nat) m',
    (∀ fuel, (fuel0 ≤ fuel)%nat →
       SlabHash_Insert fuel m keys values (Z.of_nat n) = Some (m', (keys, values)))
    ∧ table_wf m' ∧ pairs_wf m'
    ∧ (∀ k, ComputeBucket m' k = ComputeBucket m k)
    ∧ (length (heap_ (pair_allocator_ctx_ m))
       ≤ n + length (heap_ (pair_allocator_ctx_ m')))%nat
    ∧ free_slab_count (slab_list_allocator_ctx_ m)
      ≤ Z.of_nat n + free_slab_count (slab_list_allocator_ctx_ m')
    ∧ ∀ k, lacks m k ∨ settled m k → lacks m' k ∨ settled m' k.
Proof.
  intros Hwf Hpw Hn _ _ Hready Hheap Hslabs.
  destruct (SlabHash_Insert_ok m keys values n Hwf Hpw Hn Hready Hheap Hslabs)
    as (fuel0 & m' & Hok & Hwf' & Hpw' & Hins & Hcb & Hh & Hs).
  exists fuel0, m'. split_and!; try done.
  intros k. by apply inserted_ready with (kvs := batch keys values 0 n).
Qed.

(** X9: the device [Insert] of one warp, undisturbed, on a table at rest.
    Whatever lanes are active, with a record and a slab for each of them the
    call returns, and the table is the old one with the pairs of the active
    lanes inserted lowest lane first: a pair whose key the table lacks is
    stored, unless a lower lane brought the key; a key held before the empty
    slots of its chain keeps its value; the keys of no lane keep theirs. *)
Theorem warp_insert_in_lane_order m act buckets (keys : list Key) (values : list Value) :
  table_wf m → pairs_wf m →
  length act = 32%nat → length keys = 32%nat → length values = 32%nat →
  (∀ i : nat, (i < 32)%nat → act !! i = Some true →
     buckets !!! i = ComputeBucket m (keys !!! i)) →
  (∀ i : nat, (i < 32)%nat → act !! i = Some true →
     lacks m (keys !!! i) ∨ settled m (keys !!! i)) →
  (length (requests act keys values) ≤ length (heap_ (pair_allocator_ctx_ m)))%nat →
  Z.of_nat (length (requests act keys values))
    ≤ free_slab_count (slab_list_allocator_ctx_ m) →
  ∃ (steps : nat) w' m',
    (∀ fuel, Insert (steps + fuel) [] m act buckets keys values = Some (w', m'))
    ∧ table_wf m' ∧ pairs_wf m'
    ∧ inserted (requests act keys values) m m'.
Proof.
  intros Hwf Hpw Hla Hlk Hlv Hb Hready Hheap Hslabs.
  destruct (Insert_warp_ok m act buckets keys values Hwf Hpw Hla Hlk Hlv Hb Hready
              Hheap Hslabs) as (steps & w' & m' & Hrun & Hwf' & Hpw' & Hins & _).
  by exists steps, w', m'.
Qed.

(** * Remove on a table at rest *)

Arguments asked : simpl never.

(** ** The first slot of a key *)

Lemma chain_slot_lookup m (b : Z) (k : Key) (l : list Z) :
  chain_lookup m b k l = (λ x : Z * nat * Z, x.2) <$> chain_slot m b k l.
Proof.
  induction l as [|c l IH]; [done |]. cbn [chain_lookup chain_slot]. unfold slab_lookup.
  destruct (list_find _ _) as [[i x]|]; [done |]. exact IH.
Qed.

Lemma chain_slot_Some m (b : Z) (k : Key) (l : list Z) (c : Z) (i : nat) (p : Z) :
  chain_slot m b k l = Some (c, i, p) →
  c ∈ l ∧ (i < 31)%nat ∧ deref m (unit_ptr_of c b (Z.of_nat i)) = p ∧ live_match m k p.
Proof.
  induction l as [|c0 l IH]; [done |]. cbn [chain_slot].
  destruct (list_find _ _) as [[j x]|] eqn:Hf.
  - intros [= -> -> ->]. apply list_find_Some in Hf as (Hj%lookup_take_Some & Hlm & _).
    destruct Hj as [Hj Hlt]. rewrite read_slab_lookup in Hj by lia.
    split_and!; [by left | done | congruence | done].
  - intros Hs. destruct (IH Hs) as (Hin & ?). split; [by right | done].
Qed.

(** ** Words and lookups under a store into a pair slot *)

Lemma slab_lookup_store m (q : unit_ptr) (v : Z) (k : Key) (c b : Z) :
  ¬ live_match m k (deref m q) → ¬ live_match m k v →
  slab_lookup (store m q v) k (read_slab (store m q v) c b)
  = slab_lookup m k (read_slab m c b).
Proof.
  intros Hq Hv. unfold slab_lookup. f_equal.
  apply list_find_pointwise.
  - by rewrite !length_take, !read_slab_length.
  - intros i x y Hx%lookup_take_Some Hy%lookup_take_Some.
    destruct Hx as [Hx Hi], Hy as [Hy _].
    rewrite read_slab_lookup in Hx, Hy by lia. injection Hx as <-. injection Hy as <-.
    assert (Hlm : ∀ z, live_match (store m q v) k z ↔ live_match m k z).
    { intros z. apply live_match_data. by rewrite pair_alloc_store. }
    destruct (deref_store_cases m q (unit_ptr_of c b (Z.of_nat i)) v) as [-> | [-> ->]].
    + left. split; [done |]. symmetry. apply Hlm.
    + right. split; [done | by rewrite Hlm].
Qed.

Lemma chain_lookup_store m (q : unit_ptr) (v : Z) (k : Key) (b : Z) (l : list Z) :
  ¬ live_match m k (deref m q) → ¬ live_match m k v →
  chain_lookup (store m q v) b k l = chain_lookup m b k l.
Proof.
  intros Hq Hv. induction l as [|c l IH]; [done |]. cbn [chain_lookup].
  by rewrite slab_lookup_store, IH.
Qed.

(** The memory after the removal of the pair index [p] from the pair slot
    [lane] of slab [c]. *)
Section Clear.
Variables (m : @SlabHashContext Key Value) (c b : Z) (lane : nat) (p : Z).
Hypothesis Hlane : (lane < 31)%nat.
Hypothesis Hp : deref m (unit_ptr_of c b (Z.of_nat lane)) = p.

Local Abbreviation q := (unit_ptr_of c b (Z.of_nat lane)).
Local Abbreviation m0 := (store m q EMPTY_PAIR_PTR).
Local Abbreviation m1 := (set_pair_alloc m0 (Free p (pair_allocator_ctx_ m))).

Lemma clear_words (u : unit_ptr) :
  deref m1 u = deref m u ∨ (u = q ∧ deref m1 u = EMPTY_PAIR_PTR).
Proof.
  rewrite deref_set_pair_alloc. apply deref_store_cases.
Qed.

Lemma clear_data : data_ (pair_allocator_ctx_ m1) = data_ (pair_allocator_ctx_ m).
Proof. done. Qed.

Lemma clear_bucket (k : Key) : ComputeBucket m1 k = ComputeBucket m k.
Proof. unfold ComputeBucket. cbn. by destruct (store_fields m q EMPTY_PAIR_PTR) as (-> & -> & _). Qed.

Lemma clear_chain (b0 c0 : Z) (l : list Z) : chain m b0 c0 l → chain m1 b0 c0 l.
Proof.
  intros Hl. apply (chain_same m0); [intros u; apply deref_set_pair_alloc |].
  by apply chain_fill.
Qed.

Lemma clear_match (k : Key) (x : Z) : live_match m1 k x ↔ live_match m k x.
Proof. by apply live_match_data. Qed.

(** A key that the pair index [p] does not answer is where it was. *)
Lemma clear_lookup (k : Key) (b0 : Z) (l : list Z) :
  ¬ live_match m k p → chain_lookup m1 b0 k l = chain_lookup m b0 k l.
Proof.
  intros Hk.
  rewrite (chain_lookup_same m0);
    [| intros u; apply deref_set_pair_alloc
     | intros u _; cbn; by rewrite pair_alloc_store].
  apply chain_lookup_store; [by rewrite Hp | apply live_match_empty].
Qed.

Lemma clear_lacks (k : Key) : ¬ live_match m k p → lacks m k → lacks m1 k.
Proof.
  intros Hk (l & Hl & Hlook). exists l. rewrite clear_bucket.
  split; [by apply clear_chain | by rewrite clear_lookup].
Qed.

Lemma clear_holds (k : Key) (v : Value) : ¬ live_match m k p → holds m k v → holds m1 k v.
Proof.
  intros Hk (l & x & Hl & Hlook & Hrec). exists l, x. rewrite clear_bucket.
  split_and!; [by apply clear_chain | by rewrite clear_lookup | done].
Qed.

Lemma clear_confined (k : Key) (u : unit_ptr) (b0 : Z) (l : list Z) :
  confined_in m b0 k u l → confined_in m1 b0 k u l.
Proof.
  unfold confined_in. intros Hconf. eapply Forall_impl; [exact Hconf |]. cbn.
  intros c0 Hc0 i Hi Hlm. apply Hc0; [done |]. apply clear_match in Hlm.
  destruct (clear_words (unit_ptr_of c0 b0 (Z.of_nat i))) as [Heq | [_ Heq]];
    rewrite Heq in Hlm; [done |]. by apply live_match_empty in Hlm.
Qed.

Lemma clear_single (k : Key) : single m k → single m1 k.
Proof.
  intros (l & u & Hl & Hconf). exists l, u. rewrite clear_bucket.
  split; [by apply clear_chain | by apply clear_confined].
Qed.

(** The key that [p] answers, if it sat in this slot only, is lacking. *)
Lemma clear_self (k : Key) (l0 : list Z) :
  valid_unit m q → b = ComputeBucket m k → chain m b HEAD_SLAB_PTR l0 → c ∈ l0 →
  live_match m k p → single m k → lacks m1 k.
Proof.
  intros Hv Hb Hl0 Hc Hlm (l & u & Hl & Hconf). exists l. rewrite clear_bucket.
  split; [by apply clear_chain |].
  rewrite <- Hb in Hl. assert (l = l0) as -> by (by eapply chain_functional).
  unfold confined_in in Hconf. rewrite Forall_forall in Hconf.
  assert (Hqu : q = u).
  { rewrite Hb. apply (Hconf c Hc lane Hlane). rewrite <- Hb. by rewrite Hp. }
  assert (Hempty : deref m1 q = EMPTY_PAIR_PTR).
  { rewrite deref_set_pair_alloc. by apply deref_store_eq. }
  apply chain_lookup_None. intros c0 i Hin Hi Hlm1. apply clear_match in Hlm1.
  destruct (clear_words (unit_ptr_of c0 (ComputeBucket m k) (Z.of_nat i)))
    as [Heq | [_ Heq]]; rewrite Heq in Hlm1; [| by apply live_match_empty in Hlm1].
  pose proof (Hconf c0 Hin i Hi Hlm1) as Hu. rewrite <- Hqu in Hu.
  rewrite Hu, Hempty in Heq. rewrite Hu, <- Heq in Hlm1. by apply live_match_empty in Hlm1.
Qed.

End Clear.

(** The pair pool after a removal. *)
Lemma clear_pairs_wf m (c b : Z) (lane : nat) (p : Z) :
  (lane < 31)%nat → deref m (unit_ptr_of c b (Z.of_nat lane)) = p →
  p ≠ EMPTY_PAIR_PTR → valid_unit m (unit_ptr_of c b (Z.of_nat lane)) →
  pairs_wf m →
  pairs_wf (set_pair_alloc (store m (unit_ptr_of c b (Z.of_nat lane)) EMPTY_PAIR_PTR)
                           (Free p (pair_allocator_ctx_ m))).
Proof.
  intros Hlane Hp Hlive Hv Hpw. set (q := unit_ptr_of c b (Z.of_nat lane)) in *.
  assert (Hq : ¬ is_next_word q) by (apply pair_lane_not_next; lia).
  assert (Hw : ∀ u, deref (set_pair_alloc (store m q EMPTY_PAIR_PTR)
                              (Free p (pair_allocator_ctx_ m))) u
                    = deref (store m q EMPTY_PAIR_PTR) u)
    by (intros u; apply deref_set_pair_alloc).
  assert (Hqe : deref (store m q EMPTY_PAIR_PTR) q = EMPTY_PAIR_PTR)
    by (by apply deref_store_eq).
  assert (Hcases : ∀ u, (u ≠ q ∧ deref (store m q EMPTY_PAIR_PTR) u = deref m u)
                        ∨ (u = q ∧ deref (store m q EMPTY_PAIR_PTR) u = EMPTY_PAIR_PTR)).
  { intros u. destruct (decide (u = q)) as [-> | Hne]; [by right | left].
    split; [done | by apply deref_store_ne]. }
  assert (Hfree : p ∉ heap_ (pair_allocator_ctx_ m)).
  { rewrite <- Hp. by apply (wf_heap_unused m Hpw). }
  split; cbn [set_pair_alloc pair_allocator_ctx_ Free heap_].
  - apply NoDup_cons. split; [done | apply Hpw].
  - intros [Heq | Hin]%elem_of_cons; [done | by apply (wf_heap_live m Hpw)].
  - intros u Hu. rewrite Hw. intros [Heq | Hin]%elem_of_cons.
    + destruct (Hcases u) as [[Hne E] | [_ E]]; rewrite E in Heq; [| done].
      apply Hne. apply (wf_slots m Hpw u q Hu Hq); [by rewrite Hp | by rewrite Heq].
    + destruct (Hcases u) as [[_ E] | [_ E]]; rewrite E in Hin.
      * by apply (wf_heap_unused m Hpw u Hu).
      * by apply (wf_heap_live m Hpw).
  - intros u1 u2 H1 H2. rewrite !Hw.
    destruct (Hcases u1) as [[_ E1] | [_ E1]]; rewrite E1; [| done].
    destruct (Hcases u2) as [[_ E2] | [_ E2]]; rewrite E2.
    + by apply (wf_slots m Hpw).
    + intros -> Hne. done.
Qed.

(** ** One removal *)

Lemma live_match_key m (k k' : Key) (p : Z) :
  live_match m k p → live_match m k' p → k = k'.
Proof.
  unfold live_match, key_matches. intros [_ H1] [_ H2].
  destruct (extract _ p) as [kv|]; [| done].
  apply bool_decide_eq_true in H1, H2. congruence.
Qed.

Lemma holds_slot m (k : Key) (v : Value) (l : list Z) :
  holds m k v → chain m (ComputeBucket m k) HEAD_SLAB_PTR l →
  ∃ c i p, chain_slot m (ComputeBucket m k) k l = Some (c, i, p).
Proof.
  intros (l' & x & Hl' & Hlook & _) Hl. rewrite (chain_functional _ _ _ _ _ Hl' Hl) in Hlook.
  rewrite chain_slot_lookup in Hlook.
  destruct (chain_slot _ _ _ _) as [[[c i] p]|]; [by exists c, i, p | done].
Qed.

(** The removal of the first slot of [k]. *)
Lemma remove_ok m (k : Key) (l : list Z) (c : Z) (i : nat) (p : Z) :
  table_wf m → chain m (ComputeBucket m k) HEAD_SLAB_PTR l →
  chain_slot m (ComputeBucket m k) k l = Some (c, i, p) →
  let m1 := set_pair_alloc (store m (unit_ptr_of c (ComputeBucket m k) (Z.of_nat i))
                                  EMPTY_PAIR_PTR)
                           (Free p (pair_allocator_ctx_ m)) in
  table_wf m1 ∧ removed [k] m m1
  ∧ (∀ k', ComputeBucket m1 k' = ComputeBucket m k')
  ∧ length (heap_ (pair_allocator_ctx_ m1)) = S (length (heap_ (pair_allocator_ctx_ m))).
Proof.
  intros Hwf Hl Hslot m1.
  destruct (chain_slot_Some _ _ _ _ _ _ _ Hslot) as (Hin & Hi & Hp & Hlm).
  pose proof (ComputeBucket_range m k Hwf) as Hb.
  assert (Hc : c = HEAD_SLAB_PTR ∨ slab_allocated (slab_list_allocator_ctx_ m) c).
  { eapply chain_slabs_allocated; [done | exact Hl | by left | done]. }
  assert (Hv : valid_unit m (unit_ptr_of c (ComputeBucket m k) (Z.of_nat i)))
    by (apply valid_unit_ptr; [done | done | lia]).
  assert (Hother : ∀ k', k' ≠ k → ¬ live_match m k' p).
  { intros k' Hne Hlm'. apply Hne. by eapply live_match_key. }
  split_and!.
  - apply table_wf_set_pair_alloc. by apply table_wf_fill.
  - split_and!.
    + intros k' ->%list_elem_of_singleton Hsg.
      by apply (clear_self m c (ComputeBucket m k) i p Hi Hp k l).
    + intros k' v' Hk' Hh. apply clear_holds; [done | done | | done].
      apply Hother. intros ->. apply Hk'. by left.
    + intros k' Hlk. destruct (decide (k' = k)) as [-> | Hne].
      * exfalso. destruct Hlk as (l' & Hl' & Hlook).
        rewrite (chain_functional _ _ _ _ _ Hl' Hl), chain_slot_lookup, Hslot in Hlook. done.
      * apply clear_lacks; [done | done | by apply Hother | done].
    + intros k' Hsg. by apply clear_single.
    + intros Hpw. apply clear_pairs_wf; [done | done | apply Hlm | done | done].
    + unfold m1. cbn [set_pair_alloc slab_list_allocator_ctx_].
      by destruct (store_fields m (unit_ptr_of c (ComputeBucket m k) (Z.of_nat i))
                     EMPTY_PAIR_PTR) as (_ & _ & _ & ->).
  - intros k'. by apply clear_bucket.
  - done.
Qed.

(** ** The loop of Remove, undisturbed *)

Lemma Remove_loop_step fuel m w :
  __ballot_sync ACTIVE_LANES_MASK (lane_active w) ≠ 0 →
  Remove_loop (S fuel) [] m w
  = Remove_loop fuel []
      (Remove_iter id id m (__ballot_sync ACTIVE_LANES_MASK (lane_active w)) w).2
      (Remove_iter id id m (__ballot_sync ACTIVE_LANES_MASK (lane_active w)) w).1.
Proof.
  intros Hne%Z.eqb_neq. cbn [Remove_loop hd tl fst snd]. rewrite Hne.
  by destruct (Remove_iter id id m _ w).
Qed.

Lemma Remove_loop_done fuel m w :
  __ballot_sync ACTIVE_LANES_MASK (lane_active w) = 0 →
  Remove_loop fuel [] m w = Some (w, m).
Proof. intros Heq%Z.eqb_eq. destruct fuel; cbn [Remove_loop]; by rewrite Heq. Qed.

(** One iteration of the undisturbed Remove at slab [c] of the chain of
    bucket [b], for the key [k] of the source lane. *)
Lemma Remove_iter_at m (wq : Z) w (b c : Z) (k : Key) :
  s_src_bucket (warp_scan m wq w) = b →
  s_src_key (warp_scan m wq w) = k →
  s_curr_slab_ptr (warp_scan m wq w) = c →
  Remove_iter id id m wq w
  = match list_find (live_match m k) (take 31 (read_slab m c b)) with
    | Some (i, p) =>
        (remove_done w wq c true,
         set_pair_alloc (store m (unit_ptr_of c b (Z.of_nat i)) EMPTY_PAIR_PTR)
                        (Free p (pair_allocator_ctx_ m)))
    | None =>
        if decide (read_slab m c b !!! 31%nat = EMPTY_SLAB_PTR)
        then (remove_done w wq c false, m)
        else (next_regs w (lane_active w) (iterator w) (mask w) wq
                        (read_slab m c b !!! 31%nat),
              m)
    end.
Proof.
  intros Hb Hk Hc.
  pose proof (Remove_iter_cases id id m wq w) as Hcases. cbv zeta in Hcases.
  rewrite scan_unit_data, Hk, Hc, Hb in Hcases. unfold id in Hcases at 3 4 5 6 7 8 9 10 11.
  rewrite Hcases. clear Hcases.
  destruct (list_find _ _) as [[i p]|]; [by rewrite decide_True |]. done.
Qed.

(** The source lane of Remove is served as [remove_one] says, after at most
    one iteration a slab. *)
Lemma Remove_walk m (b : Z) (k : Key) (c : Z) (l : list Z) :
  chain m b c l →
  ∀ w, let wq := __ballot_sync ACTIVE_LANES_MASK (lane_active w) in
  wq ≠ 0 →
  s_src_bucket (warp_scan m wq w) = b →
  s_src_key (warp_scan m wq w) = k →
  s_curr_slab_ptr (warp_scan m wq w) = c →
  ∃ (steps : nat) (c' : Z), ∀ fuel,
    Remove_loop (steps + fuel) [] m w
    = Remove_loop fuel [] (remove_one m b k l).1
        (remove_done w wq c' (remove_one m b k l).2).
Proof.
  intros Hch.
  induction Hch as [c Hend | c l Hnext Hl IH]; intros w wq Hwq Hsb Hsk Hsc;
    pose proof (Remove_iter_at m wq w b c k Hsb Hsk Hsc) as Hit;
    unfold remove_one; cbn [chain_slot];
    (destruct (list_find _ (take 31 (read_slab m c b))) as [[i p]|] eqn:Hfind;
     [exists 1%nat, c; intros fuel; cbn [Nat.add fst snd];
      rewrite Remove_loop_step by done; fold wq; by rewrite Hit |]).
  - exists 1%nat, c. intros fuel. cbn [Nat.add fst snd].
    rewrite Remove_loop_step by done. fold wq. rewrite Hit. by rewrite decide_True.
  - set (w1 := next_regs w (lane_active w) (iterator w) (mask w) wq
                         (read_slab m c b !!! 31%nat)).
    destruct (IH w1) as (steps & c' & Hrun); [done | done | done | |].
    + unfold warp_scan. cbn. by rewrite Z.eqb_refl.
    + exists (S steps), c'. intros fuel. cbn [Nat.add].
      rewrite Remove_loop_step by done. fold wq. rewrite Hit.
      rewrite decide_False by done. cbn [fst snd]. fold w1. apply Hrun.
Qed.

(** ** The keys a warp asks for *)

Lemma asked_nil (act : list bool) (keys : list Key) :
  __ballot_sync ACTIVE_LANES_MASK act = 0 → asked act keys = [].
Proof.
  intros Hz. apply omap_all_None. intros i Hi%elem_of_seq.
  pose proof (proj1 (ballot_zero_iff _) Hz i ltac:(lia)) as Hna.
  by destruct (act !! i) as [[]|].
Qed.

Lemma asked_cons (act : list bool) (keys : list Key) (src : nat) :
  (src < 32)%nat → act !! src = Some true →
  (∀ j, (j < src)%nat → act !! j ≠ Some true) →
  asked act keys = keys !!! src :: asked (<[src := false]> act) keys.
Proof.
  intros Hsrc Hact Hmin. unfold asked.
  assert (Hseq : seq 0 32 = seq 0 src ++ [src] ++ seq (S src) (31 - src)).
  { transitivity (seq 0 (src + (1 + (31 - src)))); [f_equal; lia |].
    rewrite !seq_app, Nat.add_0_l, Nat.add_1_r. done. }
  rewrite Hseq, !omap_app.
  rewrite (omap_all_None _ (seq 0 src)).
  2:{ intros j Hj%elem_of_seq. specialize (Hmin j ltac:(lia)).
      by destruct (act !! j) as [[]|]. }
  rewrite (omap_all_None _ (seq 0 src)).
  2:{ intros j Hj%elem_of_seq. specialize (Hmin j ltac:(lia)).
      rewrite list_lookup_insert_ne by lia.
      by destruct (act !! j) as [[]|]. }
  cbn [app omap list_omap]. rewrite Hact.
  rewrite list_lookup_insert_eq by (by eapply lookup_lt_Some).
  cbn [app]. f_equal.
  apply list_omap_ext. apply Forall2_same_length_lookup_2; [done |].
  intros i x y Hx Hy. assert (x = y) as <- by congruence.
  apply lookup_seq in Hx as [-> _]. rewrite list_lookup_insert_ne by lia. done.
Qed.

Lemma elem_of_asked (act : list bool) (keys : list Key) (k : Key) :
  k ∈ asked act keys ↔ ∃ i : nat, (i < 32)%nat ∧ act !! i = Some true ∧ k = keys !!! i.
Proof.
  unfold asked. rewrite list_elem_of_omap. split.
  - intros (i & Hi%elem_of_seq & Hf).
    destruct (act !! i) as [[]|] eqn:Ha; try done.
    injection Hf as <-. exists i. split_and!; [lia | done ..].
  - intros (i & Hi & Ha & ->). exists i. split; [apply elem_of_seq; lia |].
    by rewrite Ha.
Qed.

(** ** Removals one after the other *)

Lemma removed_nil m : removed [] m m.
Proof.
  split_and!; try done. intros k Hin. by apply elem_of_nil in Hin.
Qed.

Lemma removed_app (ks1 ks2 : list Key) m m1 m2 :
  removed ks1 m m1 → removed ks2 m1 m2 → removed (ks1 ++ ks2) m m2.
Proof.
  intros (Ha1 & Hb1 & Hc1 & Hd1 & He1 & Hf1) (Ha2 & Hb2 & Hc2 & Hd2 & He2 & Hf2). split_and!;
    [| | | | by intros Hpw; apply He2, He1 | by rewrite Hf2, Hf1].
  - intros k Hin Hsg. destruct (decide (k ∈ ks1)) as [Hin1 | Hnin1].
    + apply Hc2. by apply Ha1.
    + apply elem_of_app in Hin as [? | Hin2]; [done |]. apply Ha2; [done |]. by apply Hd1.
  - intros k v Hnin Hh. apply not_elem_of_app in Hnin as [Hn1 Hn2].
    apply Hb2; [done |]. by apply Hb1.
  - intros k Hl. by apply Hc2, Hc1.
  - intros k Hsg. by apply Hd2, Hd1.
Qed.

Lemma removed_cons (k : Key) (ks : list Key) m m1 m2 :
  removed [k] m m1 → removed ks m1 m2 → removed (k :: ks) m m2.
Proof. apply (removed_app [k] ks). Qed.

Lemma remove_done_fields w (wq c' : Z) (src : nat) :
  __ffs wq - 1 = Z.of_nat src →
  lane_active (remove_done w wq c' true) = <[src := false]> (lane_active w)
  ∧ bucket_id (remove_done w wq c' true) = bucket_id w
  ∧ key (remove_done w wq c' true) = key w
  ∧ mask (remove_done w wq c' true) = <[src := true]> (mask w)
  ∧ prev_work_queue (remove_done w wq c' true) = wq.
Proof. intros Hsrc. unfold remove_done, upd. by rewrite Hsrc, Nat2Z.id. Qed.

(** The loop of Remove, undisturbed, on a queue of keys that are no two the
    same and all in the table: every request is served, the lowest lane
    first, every lane served returns [true], and the memory afterwards is
    the memory before with the keys removed. *)
Lemma Remove_drain (d : nat) :
  ∀ m w,
    (∀ i, lane_active w !! i = Some true → (32 - d ≤ i)%nat) →
    (__ballot_sync ACTIVE_LANES_MASK (lane_active w) ≠ 0 →
     prev_work_queue w ≠ __ballot_sync ACTIVE_LANES_MASK (lane_active w)) →
    (∀ i, (i < 32)%nat → lane_active w !! i = Some true →
          bucket_id w !!! i = ComputeBucket m (key w !!! i)) →
    length (mask w) = 32%nat →
    table_wf m →
    NoDup (asked (lane_active w) (key w)) →
    (∀ k, k ∈ asked (lane_active w) (key w) → ∃ v, holds m k v) →
    ∃ (steps : nat) w' m',
      (∀ fuel, Remove_loop (steps + fuel) [] m w = Some (w', m'))
      ∧ table_wf m'
      ∧ removed (asked (lane_active w) (key w)) m m'
      ∧ (∀ k, ComputeBucket m' k = ComputeBucket m k)
      ∧ length (heap_ (pair_allocator_ctx_ m'))
        = (length (heap_ (pair_allocator_ctx_ m)) + length (asked (lane_active w) (key w)))%nat
      ∧ (∀ i : nat, (i < 32)%nat →
           mask w' !! i = match lane_active w !! i with
                          | Some true => Some true
                          | _ => mask w !! i
                          end).
Proof.
  induction d as [|d IH]; intros m w Hlow Hprev Hbk Hmask Hwf Hnd Hheld;
    destruct (decide (__ballot_sync ACTIVE_LANES_MASK (lane_active w) = 0)) as [Hz|Hnz].
  1,3: exists 0%nat, w, m; rewrite (asked_nil _ (key w) Hz);
       split_and!; [intros fuel; by apply Remove_loop_done | done | apply removed_nil
                   | done | cbn; lia |];
       intros i Hi; pose proof (proj1 (ballot_zero_iff _) Hz i Hi);
       by destruct (lane_active w !! i) as [[]|].
  - exfalso. apply Hnz, ballot_zero_iff. intros i Hi Hact. apply Hlow in Hact. lia.
  - set (wq := __ballot_sync ACTIVE_LANES_MASK (lane_active w)) in *.
    destruct (ballot_nonzero_src _ Hnz) as (src & Hsrc & Hffs & Hact & Hmin).
    fold wq in Hffs.
    set (k := key w !!! src).
    pose proof (ComputeBucket_range m k Hwf) as Hb.
    destruct (wf_chains m Hwf _ Hb) as [l Hl].
    pose proof (asked_cons (lane_active w) (key w) src Hsrc Hact Hmin) as Hask. fold k in Hask.
    destruct (Hheld k) as [v Hv]; [rewrite Hask; by left |].
    destruct (holds_slot m k v l Hv Hl) as (c & i & p & Hslot).
    destruct (Remove_walk m (ComputeBucket m k) k HEAD_SLAB_PTR l Hl w)
      as (steps & c' & Hrun).
    + done.
    + unfold warp_scan. cbn [s_src_bucket]. fold wq. rewrite Hffs, shfl_lane by done.
      by apply Hbk.
    + unfold warp_scan, WarpSyncKey. cbn [s_src_key]. fold wq. rewrite Hffs.
      by apply shfl_lane.
    + unfold warp_scan. cbn [s_curr_slab_ptr]. fold wq.
      specialize (Hprev Hnz). apply Z.eqb_neq in Hprev. by rewrite Hprev.
    + fold wq in Hrun. unfold remove_one in Hrun. rewrite Hslot in Hrun.
      cbn [fst snd] in Hrun.
      destruct (remove_ok m k l c i p Hwf Hl Hslot) as (Hwf1 & Hrem1 & Hcb1 & Hheap1).
      set (m1 := set_pair_alloc _ _) in *.
      set (w1 := remove_done w wq c' true) in *.
      destruct (remove_done_fields w wq c' src Hffs) as (Ha1 & Hb1 & Hk1 & Hm1 & Hq1).
      fold w1 in Ha1, Hb1, Hk1, Hm1, Hq1.
      rewrite Hask in Hnd. apply NoDup_cons in Hnd as [Hkn Hnd].
      destruct (IH m1 w1) as (steps1 & w' & m' & Hrun1 & Hwf' & Hrem' & Hcb' & Hheap' & Hmask').
      * intros j. rewrite Ha1. intros Hj.
        apply list_lookup_insert_Some in Hj as [(_ & ? & _) | (Hne & Hj)]; [done |].
        assert (¬ (j < src)%nat) by (intros ?; by eapply Hmin).
        pose proof (Hlow _ Hact). lia.
      * intros _. rewrite Hq1, Ha1. apply not_eq_sym. by apply ballot_retire.
      * intros j Hj. rewrite Ha1, Hb1, Hk1, Hcb1. intros Haj.
        apply list_lookup_insert_Some in Haj as [(_ & ? & _) | (Hne & Haj)]; [done |].
        by apply Hbk.
      * rewrite Hm1, length_insert. done.
      * done.
      * by rewrite Ha1, Hk1.
      * rewrite Ha1, Hk1. intros k' Hin'.
        destruct (Hheld k') as [v' Hv']; [rewrite Hask; by right |].
        exists v'. destruct Hrem1 as (_ & Hframe & _). apply Hframe; [| done].
        intros ->%list_elem_of_singleton. done.
      * rewrite Ha1, Hk1 in Hrem', Hheap'.
        exists (steps + steps1)%nat, w', m'. split_and!.
        -- intros fuel. rewrite <- Nat.add_assoc, Hrun. apply Hrun1.
        -- done.
        -- rewrite Hask. exact (removed_cons k _ m m1 m' Hrem1 Hrem').
        -- intros k'. by rewrite Hcb', Hcb1.
        -- rewrite Hask, length_cons, Hheap', Hheap1. lia.
        -- intros j Hj. rewrite (Hmask' j Hj), Ha1, Hm1.
           destruct (decide (j = src)) as [-> | Hne].
           ++ rewrite Hact.
              rewrite (list_lookup_insert_eq (lane_active w)) by (by eapply lookup_lt_Some).
              by rewrite (list_lookup_insert_eq (mask w)) by lia.
           ++ rewrite !list_lookup_insert_ne by done. done.
Qed.

(** ** The device function, the kernel and the host function *)

Lemma ballot_all_false (act : list bool) :
  __ballot_sync ACTIVE_LANES_MASK ((λ _, false) <$> act) = 0.
Proof.
  apply ballot_zero_iff. intros i _. rewrite list_lookup_fmap.
  by destruct (act !! i).
Qed.

(** The device [Remove] of one warp on a table at rest, the keys of its
    active lanes no two the same and all in the table. *)
Lemma Remove_warp_ok m act buckets (keys : list Key) :
  table_wf m →
  (∀ i : nat, (i < 32)%nat → act !! i = Some true →
     buckets !!! i = ComputeBucket m (keys !!! i)) →
  NoDup (asked act keys) →
  (∀ k, k ∈ asked act keys → ∃ v, holds m k v) →
  ∃ (steps : nat) w' m',
    (∀ fuel, Remove (steps + fuel) [] m act buckets keys = Some (w', m'))
    ∧ table_wf m'
    ∧ removed (asked act keys) m m'
    ∧ (∀ k, ComputeBucket m' k = ComputeBucket m k)
    ∧ length (heap_ (pair_allocator_ctx_ m'))
      = (length (heap_ (pair_allocator_ctx_ m)) + length (asked act keys))%nat
    ∧ (∀ i : nat, (i < 32)%nat →
         mask w' !! i = Some (bool_decide (act !! i = Some true))).
Proof.
  intros Hwf Hb Hnd Hheld.
  set (w0 := entry_regs act buckets keys (replicate 32 (inhabitant : Value))
                        (replicate 32 EMPTY_PAIR_PTR)).
  destruct (Remove_drain 32 m w0)
    as (steps & w' & m' & Hrun & Hwf' & Hrem & Hcb & Hheap & Hmask).
  - intros i _. lia.
  - intros Hne Heq. apply Hne. by rewrite <- Heq.
  - exact Hb.
  - by cbn.
  - exact Hwf.
  - exact Hnd.
  - exact Hheld.
  - exists steps, w', m'. split_and!; try done.
    intros i Hi. rewrite (Hmask i Hi). cbn [w0 entry_regs lane_active mask].
    rewrite lookup_replicate_2 by done.
    destruct (act !! i) as [[]|]; [by rewrite bool_decide_eq_true_2 | |];
      by rewrite bool_decide_eq_false_2.
Qed.

(** The device [Remove] of a warp whose lowest active lane asks for a key
    that the table lacks. *)
Lemma Remove_warp_miss m act buckets (keys : list Key) (src : nat) :
  table_wf m → (src < 32)%nat → act !! src = Some true →
  (∀ j, (j < src)%nat → act !! j ≠ Some true) →
  buckets !!! src = ComputeBucket m (keys !!! src) →
  lacks m (keys !!! src) →
  ∃ (steps : nat) w',
    (∀ fuel, Remove (steps + fuel) [] m act buckets keys = Some (w', m))
    ∧ (∀ i : nat, (i < 32)%nat → mask w' !! i = Some false)
    ∧ (∀ i : nat, lane_active w' !! i ≠ Some true).
Proof.
  intros Hwf Hsrc Hact Hmin Hb (l & Hl & Hlook).
  set (w0 := entry_regs act buckets keys (replicate 32 (inhabitant : Value))
                        (replicate 32 EMPTY_PAIR_PTR)).
  set (wq := __ballot_sync ACTIVE_LANES_MASK act).
  assert (Hnz : wq ≠ 0).
  { intros Hz. by apply (proj1 (ballot_zero_iff _) Hz src Hsrc). }
  destruct (ballot_nonzero_src _ Hnz) as (src' & Hsrc' & Hffs & Hact' & Hmin').
  assert (src' = src) as ->.
  { destruct (Nat.lt_trichotomy src' src) as [Hlt | [-> | Hgt]]; [| done |].
    - by destruct (Hmin src' Hlt).
    - by destruct (Hmin' src Hgt). }
  fold wq in Hffs.
  destruct (Remove_walk m (ComputeBucket m (keys !!! src)) (keys !!! src) HEAD_SLAB_PTR l Hl w0)
    as (steps & c' & Hrun).
  - done.
  - unfold warp_scan. cbn [s_src_bucket w0 entry_regs lane_active bucket_id]. fold wq.
    by rewrite Hffs, shfl_lane.
  - unfold warp_scan, WarpSyncKey. cbn [s_src_key w0 entry_regs lane_active key]. fold wq.
    rewrite Hffs. by apply shfl_lane.
  - unfold warp_scan. cbn [s_curr_slab_ptr w0 entry_regs lane_active prev_work_queue].
    fold wq. apply not_eq_sym, Z.eqb_neq in Hnz. by rewrite Hnz.
  - cbn [w0 entry_regs lane_active] in Hrun. fold wq in Hrun.
    rewrite chain_slot_lookup in Hlook. unfold remove_one in Hrun.
    destruct (chain_slot _ _ _ _) as [[[c i] p]|]; [done |]. cbn [fst snd] in Hrun.
    exists steps, (remove_done w0 wq c' false). split_and!.
    + intros fuel. unfold Remove. fold w0. rewrite Hrun.
      apply Remove_loop_done. cbn. apply ballot_all_false.
    + intros i Hi. unfold remove_done, w0. cbn [next_regs mask entry_regs].
      by apply lookup_replicate_2.
    + intros i. unfold remove_done, w0. cbn [next_regs lane_active entry_regs].
      rewrite list_lookup_fmap. by destruct (act !! i).
Qed.

Lemma kernel_asked (keys : list Key) (n wid : Z) :
  0 ≤ wid → wid * 32 < n →
  asked (kernel_active n wid) (kernel_keys keys n wid)
  = key_batch keys (Z.to_nat (wid * 32)) (Z.to_nat (Z.min 32 (n - wid * 32))).
Proof.
  intros Hwid Hn. unfold asked, key_batch.
  set (cnt := Z.to_nat (Z.min 32 (n - wid * 32))).
  assert (Hseq : seq 0 32 = seq 0 cnt ++ seq cnt (32 - cnt)).
  { transitivity (seq 0 (cnt + (32 - cnt))); [f_equal; lia |]. by rewrite seq_app. }
  rewrite Hseq, omap_app.
  rewrite (omap_all_None _ (seq cnt (32 - cnt))).
  - rewrite app_nil_r.
    rewrite (omap_all_Some _ (λ i : nat, keys !!! (Z.to_nat (wid * 32) + i)%nat)).
    + pose proof (fmap_add_seq (Z.to_nat (wid * 32)) 0 cnt) as Hadd.
      rewrite Nat.add_0_r in Hadd. rewrite <- Hadd.
      by rewrite <- list_fmap_compose.
    + intros i Hi%elem_of_seq.
      rewrite kernel_active_lookup by lia.
      rewrite (proj2 (Z.ltb_lt _ _)) by lia.
      rewrite kernel_keys_lookup by lia.
      do 2 f_equal; lia.
  - intros i Hi%elem_of_seq.
    rewrite kernel_active_lookup by lia.
    by rewrite (proj2 (Z.ltb_ge _ _)) by lia.
Qed.

Lemma key_batch_app (keys : list Key) (a b c : nat) :
  key_batch keys a b ++ key_batch keys (a + b) c = key_batch keys a (b + c).
Proof. unfold key_batch. by rewrite seq_app, fmap_app. Qed.

Lemma elem_of_key_batch (keys : list Key) (a b : nat) (k : Key) :
  k ∈ key_batch keys a b ↔ ∃ t : nat, (a ≤ t < a + b)%nat ∧ k = keys !!! t.
Proof.
  unfold key_batch. rewrite list_elem_of_fmap. split.
  - intros (t & -> & Ht%elem_of_seq). by exists t.
  - intros (t & Ht & ->). exists t. split; [done |]. by apply elem_of_seq.
Qed.

Lemma key_batch_length (keys : list Key) (a b : nat) : length (key_batch keys a b) = b.
Proof. unfold key_batch. by rewrite length_fmap, length_seq. Qed.

(** Keys that no two threads share. *)
Lemma key_batch_NoDup (keys : list Key) (a b : nat) :
  (∀ i j : nat, (a ≤ i < a + b)%nat → (a ≤ j < a + b)%nat →
     keys !!! i = keys !!! j → i = j) →
  NoDup (key_batch keys a b).
Proof.
  intros Hinj. unfold key_batch. apply NoDup_fmap_2_strong; [| apply NoDup_seq].
  intros i j Hi%elem_of_seq Hj%elem_of_seq. by apply Hinj.
Qed.

(** One warp of [RemoveKernel] on a table at rest. *)
Lemma RemoveKernel_warp_ok m (keys : list Key) (n : nat) (wid : nat) :
  table_wf m →
  let from := Nat.min (wid * 32) n in
  let upto := Nat.min (S wid * 32) n in
  (∀ i j : nat, (from ≤ i < n)%nat → (from ≤ j < n)%nat → keys !!! i = keys !!! j → i = j) →
  (∀ t : nat, (from ≤ t < n)%nat → ∃ v, holds m (keys !!! t) v) →
  ∃ (steps : nat) m',
    (∀ fuel, RemoveKernel_warp (steps + fuel) keys (Z.of_nat n) m (Z.of_nat wid) = Some m')
    ∧ table_wf m'
    ∧ removed (key_batch keys from (upto - from)) m m'
    ∧ (∀ k, ComputeBucket m' k = ComputeBucket m k)
    ∧ length (heap_ (pair_allocator_ctx_ m'))
      = (length (heap_ (pair_allocator_ctx_ m)) + (upto - from))%nat.
Proof.
  intros Hwf from upto.
  assert (Hfrom : from = Nat.min (wid * 32) n) by done.
  assert (Hupto : upto = Nat.min (S wid * 32) n) by done.
  clearbody from upto. intros Hinj Hheld. unfold RemoveKernel_warp.
  destruct (Z.leb_spec (Z.of_nat n) (Z.of_nat wid * 32)) as [Hle | Hlt].
  - exists 0%nat, m. assert (from = n) as Hf by lia. assert (upto = n) as Hu by lia.
    rewrite Hu, Hf in *. rewrite Nat.sub_diag. split_and!; try done.
    apply removed_nil.
  - assert (Hf : from = (wid * 32)%nat) by lia.
    pose proof (kernel_asked keys (Z.of_nat n) (Z.of_nat wid) ltac:(lia) Hlt) as Hreq.
    replace (Z.to_nat (Z.of_nat wid * 32)) with from in Hreq by lia.
    replace (Z.to_nat (Z.min 32 (Z.of_nat n - Z.of_nat wid * 32)))
      with (upto - from)%nat in Hreq by lia.
    destruct (Remove_warp_ok m (kernel_active (Z.of_nat n) (Z.of_nat wid))
                (kernel_buckets m keys (Z.of_nat n) (Z.of_nat wid))
                (kernel_keys keys (Z.of_nat n) (Z.of_nat wid)))
      as (steps & w' & m' & Hrun & Hwf' & Hrem & Hcb & Hheap & _); try done.
    + intros i Hi Ha. rewrite kernel_active_lookup in Ha by done.
      injection Ha as Ha. apply Z.ltb_lt in Ha.
      rewrite kernel_buckets_lookup, kernel_keys_lookup by done. done.
    + rewrite Hreq. apply key_batch_NoDup. intros i j Hi Hj. apply Hinj; lia.
    + rewrite Hreq. intros k (t & Ht & ->)%elem_of_key_batch. apply Hheld. lia.
    + exists steps, m'. rewrite Hreq in Hrem. rewrite Hreq, key_batch_length in Hheap.
      split_and!; try done. intros fuel. by rewrite Hrun.
Qed.

(** The warps [j], [j + 1], ... of [RemoveKernel], one after the other. *)
Lemma RemoveKernel_warps_ok (keys : list Key) (n : nat) (c : nat) :
  ∀ (j : nat) m,
    table_wf m →
    (∀ a b : nat, (Nat.min (j * 32) n ≤ a < n)%nat → (Nat.min (j * 32) n ≤ b < n)%nat →
       keys !!! a = keys !!! b → a = b) →
    (∀ t : nat, (Nat.min (j * 32) n ≤ t < n)%nat → ∃ v, holds m (keys !!! t) v) →
    ∃ (fuel0 : nat) m',
      (∀ fuel, (fuel0 ≤ fuel)%nat →
         run_warps (RemoveKernel_warp fuel keys (Z.of_nat n)) m
                   (seqZ (Z.of_nat j) (Z.of_nat c)) = Some m')
      ∧ table_wf m'
      ∧ removed (key_batch keys (Nat.min (j * 32) n)
                           (Nat.min ((j + c) * 32) n - Nat.min (j * 32) n)) m m'
      ∧ (∀ k, ComputeBucket m' k = ComputeBucket m k)
      ∧ length (heap_ (pair_allocator_ctx_ m'))
        = (length (heap_ (pair_allocator_ctx_ m))
           + (Nat.min ((j + c) * 32) n - Nat.min (j * 32) n))%nat.
Proof.
  induction c as [|c IH]; intros j m Hwf Hinj Hheld.
  - exists 0%nat, m. rewrite Nat.add_0_r, Nat.sub_diag.
    split_and!; try done. apply removed_nil.
  - destruct (RemoveKernel_warp_ok m keys n j Hwf Hinj Hheld)
      as (steps & m1 & Hrun1 & Hwf1 & Hrem1 & Hcb1 & Hheap1).
    destruct (IH (S j) m1 Hwf1) as (fuel0 & m' & Hrun & Hwf' & Hrem' & Hcb' & Hheap').
    { intros a b Ha Hb. apply Hinj; lia. }
    { intros t Ht. destruct (Hheld t ltac:(lia)) as [v Hv]. exists v.
      destruct Hrem1 as (_ & Hframe & _). apply Hframe; [| done].
      intros (t' & Ht' & Heq)%elem_of_key_batch.
      assert (t = t') by (apply Hinj; [lia | lia | done]). lia. }
    exists (steps + fuel0)%nat, m'.
    replace ((j + S c) * 32)%nat with ((S j + c) * 32)%nat by lia.
    split_and!; try done.
    + intros fuel Hfuel. rewrite seqZ_cons by lia. cbn [run_warps].
      replace fuel with (steps + (fuel - steps))%nat at 1 by lia. rewrite Hrun1.
      replace (Z.succ (Z.of_nat j)) with (Z.of_nat (S j)) by lia.
      replace (Z.pred (Z.of_nat (S c))) with (Z.of_nat c) by lia.
      apply Hrun. lia.
    + pose proof (removed_app _ _ m m1 m' Hrem1 Hrem') as Hrem.
      set (a := Nat.min (j * 32) n) in *. set (b := Nat.min (S j * 32) n) in *.
      set (d := Nat.min ((S j + c) * 32) n) in *.
      assert (Hab : (b = a + (b - a))%nat) by lia.
      rewrite Hab in Hrem at 2. rewrite key_batch_app in Hrem.
      replace (b - a + (d - b))%nat with (d - a)%nat in Hrem by lia. exact Hrem.
    + intros k. by rewrite Hcb', Hcb1.
    + lia.
Qed.

(** The bulk [Remove] on a table at rest, the first [n] keys of the array
    no two the same and all in the table. *)
Lemma SlabHash_Remove_ok m (keys : list Key) (n : nat) :
  table_wf m → Z.of_nat n + 127 < 2 ^ 32 →
  (∀ a b : nat, (a < n)%nat → (b < n)%nat → keys !!! a = keys !!! b → a = b) →
  (∀ t : nat, (t < n)%nat → ∃ v, holds m (keys !!! t) v) →
  ∃ (fuel0 : nat) m',
    (∀ fuel, (fuel0 ≤ fuel)%nat → SlabHash_Remove fuel m keys (Z.of_nat n) = Some m')
    ∧ table_wf m'
    ∧ removed (key_batch keys 0 n) m m'
    ∧ (∀ k, ComputeBucket m' k = ComputeBucket m k)
    ∧ length (heap_ (pair_allocator_ctx_ m'))
      = (length (heap_ (pair_allocator_ctx_ m)) + n)%nat.
Proof.
  intros Hwf Hn Hinj Hheld.
  destruct (launched_warps_count (Z.of_nat n) ltac:(lia) Hn) as (c & Hlw & Hc).
  destruct (RemoveKernel_warps_ok keys n c 0 m Hwf)
    as (fuel0 & m' & Hr & Hwf' & Hrem & Hcb & Hheap).
  - intros a b Ha Hb. apply Hinj; lia.
  - intros t Ht. apply Hheld. lia.
  - exists fuel0, m'.
    cbn [Nat.mul Nat.min Nat.add] in Hrem, Hheap.
    replace (Nat.min (c * 32) n - 0)%nat with n in * by lia.
    split_and!; try done.
    intros fuel Hfuel. unfold SlabHash_Remove. rewrite Hlw.
    change (Z.of_nat 0) with 0 in Hr. by rewrite Hr.
Qed.

(** ** Remove, then Search *)

Lemma Remove_then_Search m (zero : Value) (keys : list Key) (n : nat)
    (qs : list Key) (out_v : list Value) (out_f : list Z) (nq : nat) :
  table_wf m → Z.of_nat n + 127 < 2 ^ 32 →
  (∀ a b : nat, (a < n)%nat → (b < n)%nat → keys !!! a = keys !!! b → a = b) →
  (∀ t : nat, (t < n)%nat → ∃ v, holds m (keys !!! t) v) →
  Z.of_nat nq + 127 < 2 ^ 32 → (nq ≤ length out_v)%nat → (nq ≤ length out_f)%nat →
  ∃ (fuel0 : nat) m',
    removed (key_batch keys 0 n) m m'
    ∧ table_wf m'
    ∧ length (heap_ (pair_allocator_ctx_ m'))
      = (length (heap_ (pair_allocator_ctx_ m)) + n)%nat
    ∧ ∀ fuel, (fuel0 ≤ fuel)%nat →
        SlabHash_Remove fuel m keys (Z.of_nat n) = Some m'
        ∧ ∃ vs fs,
            SlabHash_Search fuel m' zero qs out_v out_f (Z.of_nat nq) = Some (vs, fs)
            ∧ ∀ t : nat, (t < nq)%nat →
                search_answer m' zero (qs !!! t) (vs !! t) (fs !! t).
Proof.
  intros Hwf Hn Hinj Hheld Hnq Hlv Hlf.
  destruct (SlabHash_Remove_ok m keys n Hwf Hn Hinj Hheld)
    as (fuel1 & m' & Hok & Hwf' & Hrem & _ & Hheap).
  destruct (SlabHash_Search_ok m' zero qs out_v out_f (Z.of_nat nq)) as (fuel2 & Hs);
    [lia | done | lia | lia | apply Hwf' | apply Hwf' |].
  exists (fuel1 `max` fuel2)%nat, m'. split_and!; [done | done | done |]. intros fuel Hfuel.
  split; [apply Hok; lia |].
  destruct (Hs fuel ltac:(lia)) as (vs & fs & Hrun & Hans).
  exists vs, fs. split; [done |]. intros t Ht. apply Hans. lia.
Qed.

(** X10: the bulk [Remove] of [n] keys, no two the same, each of which a
    table at rest holds in exactly one pair slot, followed by the bulk
    [Search] of the same keys: with enough fuel both launches return and no
    query is found; every query gets the zero value. *)
Theorem bulk_remove_then_search m (zero : Value) (keys : list Key) (n : nat)
    (out_v : list Value) (out_f : list Z) :
  table_wf m → Z.of_nat n + 127 < 2 ^ 32 →
  (n ≤ length keys)%nat → (n ≤ length out_v)%nat → (n ≤ length out_f)%nat →
  (∀ a b : nat, (a < n)%nat → (b < n)%nat → keys !!! a = keys !!! b → a = b) →
  (∀ t : nat, (t < n)%nat → (∃ v, holds m (keys !!! t) v) ∧ single m (keys !!! t)) →
  ∃ fuel0 : nat, ∀ fuel, (fuel0 ≤ fuel)%nat → ∃ m' vs fs,
    SlabHash_Remove fuel m keys (Z.of_nat n) = Some m'
    ∧ SlabHash_Search fuel m' zero keys out_v out_f (Z.of_nat n) = Some (vs, fs)
    ∧ ∀ t : nat, (t < n)%nat → fs !! t = Some 0 ∧ vs !! t = Some zero.
Proof.
  intros Hwf Hn _ Hlv Hlf Hinj Hheld.
  destruct (Remove_then_Search m zero keys n keys out_v out_f n Hwf Hn Hinj)
    as (fuel0 & m' & (Hgone & _) & _ & _ & Hrun); try done.
  { intros t Ht. by apply Hheld. }
  exists fuel0. intros fuel Hfuel.
  destruct (Hrun fuel Hfuel) as (Hr & vs & fs & Hs & Hans).
  exists m', vs, fs. split_and!; [done | done |]. intros t Ht.
  apply (lacks_answer m' zero (keys !!! t)); [| by apply Hans].
  apply Hgone; [| by apply Hheld]. apply elem_of_key_batch. exists t. split; [lia | done].
Qed.

(** X11: the bulk [Remove] leaves the keys outside the batch alone.  After
    the launch a key that none of the [n] threads holds is found with the
    value it had, or not found if the table lacked it. *)
Theorem bulk_remove_frame m (zero : Value) (keys : list Key) (n : nat) (k : Key)
    (qs : list Key) (out_v : list Value) (out_f : list Z) (nq : nat) :
  table_wf m → Z.of_nat n + 127 < 2 ^ 32 → (n ≤ length keys)%nat →
  (∀ a b : nat, (a < n)%nat → (b < n)%nat → keys !!! a = keys !!! b → a = b) →
  (∀ t : nat, (t < n)%nat → ∃ v, holds m (keys !!! t) v) →
  Z.of_nat nq + 127 < 2 ^ 32 →
  (nq ≤ length qs)%nat → (nq ≤ length out_v)%nat → (nq ≤ length out_f)%nat →
  (∀ t : nat, (t < n)%nat → keys !!! t ≠ k) →
  ∃ fuel0 : nat, ∀ fuel, (fuel0 ≤ fuel)%nat → ∃ m' vs fs,
    SlabHash_Remove fuel m keys (Z.of_nat n) = Some m'
    ∧ SlabHash_Search fuel m' zero qs out_v out_f (Z.of_nat nq) = Some (vs, fs)
    ∧ ∀ t : nat, (t < nq)%nat → qs !!! t = k →
        (∀ v, holds m k v → fs !! t = Some 1 ∧ vs !! t = Some v)
        ∧ (lacks m k → fs !! t = Some 0 ∧ vs !! t = Some zero).
Proof.
  intros Hwf Hn _ Hinj Hheld Hnq _ Hlv Hlf Hout.
  destruct (Remove_then_Search m zero keys n qs out_v out_f nq Hwf Hn Hinj Hheld)
    as (fuel0 & m' & (_ & Hframe & Hnone & _) & _ & _ & Hrun); try done.
  exists fuel0. intros fuel Hfuel.
  destruct (Hrun fuel Hfuel) as (Hr & vs & fs & Hs & Hans).
  exists m', vs, fs. split_and!; [done | done |]. intros t Ht Hk.
  specialize (Hans t Ht). rewrite Hk in Hans. split.
  - intros v Hholds. apply (holds_answer m' zero k v); [| done].
    apply Hframe; [| done]. intros (t' & Ht' & Heq)%elem_of_key_batch.
    apply (Hout t'); [lia | done].
  - intros Hlacks. apply (lacks_answer m' zero k); [| done]. by apply Hnone.
Qed.

(** X12: the bulk [Remove] keeps a table at rest well formed, with the
    bucket of every key, and keeps a well-formed pair pool so; it returns
    one record to the free list for every key of the batch and frees no
    slab; no key appears; and a key that sat in at most one slot still
    does. *)
Theorem bulk_remove_keeps_wf m (keys : list Key) (n : nat) :
  table_wf m → Z.of_nat n + 127 < 2 ^ 32 → (n ≤ length keys)%nat →
  (∀ a b : nat, (a < n)%nat → (b < n)%nat → keys !!! a = keys !!! b → a = b) →
  (∀ t : nat, (t < n)%nat → ∃ v, holds m (keys !!! t) v) →
  ∃ (fuel0 : nat) m',
    (∀ fuel, (fuel0 ≤ fuel)%nat → SlabHash_Remove fuel m keys (Z.of_nat n) = Some m')
    ∧ table_wf m'
    ∧ (∀ k, ComputeBucket m' k = ComputeBucket m k)
    ∧ (pairs_wf m → pairs_wf m')
    ∧ length (heap_ (pair_allocator_ctx_ m'))
      = (length (heap_ (pair_allocator_ctx_ m)) + n)%nat
    ∧ free_slab_count (slab_list_allocator_ctx_ m')
      = free_slab_count (slab_list_allocator_ctx_ m)
    ∧ (∀ k, lacks m k → lacks m' k)
    ∧ (∀ k, single m k → single m' k).
Proof.
  intros Hwf Hn _ Hinj Hheld.
  destruct (SlabHash_Remove_ok m keys n Hwf Hn Hinj Hheld)
    as (fuel0 & m' & Hok & Hwf' & (_ & _ & Hnone & Hsingle & Hpw & Hbm) & Hcb & Hheap).
  exists fuel0, m'. split_and!; try done. unfold free_slab_count. by rewrite Hbm.
Qed.

(** X13: the round trip of the three bulk operations.  On a table at rest
    with room for [n] records and [n] slabs, the bulk [Insert] of [n] keys
    that the table lacks, no two the same, followed by the bulk [Remove] of
    the same keys and the bulk [Search] of the same keys: the three launches
    return, no query is found, and the free list of pair records is not
    shorter than at the start. *)
Theorem insert_remove_search m (zero : Value) (keys : list Key) (values : list Value)
    (n : nat) (out_v : list Value) (out_f : list Z) :
  table_wf m → pairs_wf m → Z.of_nat n + 127 < 2 ^ 32 →
  (n ≤ length keys)%nat → (n ≤ length values)%nat →
  (n ≤ length out_v)%nat → (n ≤ length out_f)%nat →
  (∀ a b : nat, (a < n)%nat → (b < n)%nat → keys !!! a = keys !!! b → a = b) →
  (∀ t : nat, (t < n)%nat → lacks m (keys !!! t)) →
  (n ≤ length (heap_ (pair_allocator_ctx_ m)))%nat →
  Z.of_nat n ≤ free_slab_count (slab_list_allocator_ctx_ m) →
  ∃ fuel0 : nat, ∀ fuel, (fuel0 ≤ fuel)%nat → ∃ m1 m2 vs fs,
    SlabHash_Insert fuel m keys values (Z.of_nat n) = Some (m1, (keys, values))
    ∧ SlabHash_Remove fuel m1 keys (Z.of_nat n) = Some m2
    ∧ SlabHash_Search fuel m2 zero keys out_v out_f (Z.of_nat n) = Some (vs, fs)
    ∧ (∀ t : nat, (t < n)%nat → fs !! t = Some 0 ∧ vs !! t = Some zero)
    ∧ (length (heap_ (pair_allocator_ctx_ m))
       ≤ length (heap_ (pair_allocator_ctx_ m2)))%nat.
Proof.
  intros Hwf Hpw Hn _ _ Hlv Hlf Hinj Hlacks Hheap Hslabs.
  destruct (SlabHash_Insert_ok m keys values n Hwf Hpw Hn) as
    (fuel1 & m1 & Hok1 & Hwf1 & _ & (Hnew & _ & _ & Hsingle) & _ & Hheap1 & _); try done.
  { intros t Ht. left. by apply Hlacks. }
  assert (Hheld : ∀ t : nat, (t < n)%nat →
            (∃ v, holds m1 (keys !!! t) v) ∧ single m1 (keys !!! t)).
  { intros t Ht. split.
    - destruct (batch_find keys values n t Ht) as (i & _ & _ & _ & Hfind).
      specialize (Hnew (keys !!! t) (Hlacks t Ht)). rewrite Hfind in Hnew.
      destruct Hnew as [Hh _]. eauto.
    - apply Hsingle; [by apply lacks_single, Hlacks | left; by apply Hlacks]. }
  destruct (Remove_then_Search m1 zero keys n keys out_v out_f n Hwf1 Hn Hinj)
    as (fuel2 & m2 & (Hgone & _) & _ & Hheap2 & Hrun); try done.
  { intros t Ht. by apply Hheld. }
  exists (fuel1 `max` fuel2)%nat. intros fuel Hfuel.
  destruct (Hrun fuel ltac:(lia)) as (Hr & vs & fs & Hs & Hans).
  exists m1, m2, vs, fs. split_and!; [apply Hok1; lia | done | done | | lia].
  intros t Ht. apply (lacks_answer m2 zero (keys !!! t)); [| by apply Hans].
  apply Hgone; [| by apply Hheld]. apply elem_of_key_batch. exists t. split; [lia | done].
Qed.

(** X14: the device [Remove] of one undisturbed warp on a table at rest,
    the keys of its active lanes no two the same and all in the table: the
    call returns, every active lane returns [true] and every other lane
    [false], the table stays well formed, one record a lane goes back to the
    free list, and the table is the old one with the keys of the active
    lanes removed. *)
Theorem warp_remove_all m act buckets (keys : list Key) :
  table_wf m →
  (∀ i : nat, (i < 32)%nat → act !! i = Some true →
     buckets !!! i = ComputeBucket m (keys !!! i)) →
  NoDup (asked act keys) →
  (∀ k, k ∈ asked act keys → ∃ v, holds m k v) →
  ∃ (steps : nat) w' m',
    (∀ fuel, Remove (steps + fuel) [] m act buckets keys = Some (w', m'))
    ∧ table_wf m'
    ∧ removed (asked act keys) m m'
    ∧ length (heap_ (pair_allocator_ctx_ m'))
      = (length (heap_ (pair_allocator_ctx_ m)) + length (asked act keys))%nat
    ∧ (∀ i : nat, (i < 32)%nat →
         mask w' !! i = Some (bool_decide (act !! i = Some true))).
Proof.
  intros Hwf Hb Hnd Hheld.
  destruct (Remove_warp_ok m act buckets keys Hwf Hb Hnd Hheld)
    as (steps & w' & m' & Hrun & Hwf' & Hrem & _ & Hheap & Hmask).
  by exists steps, w', m'.
Qed.

(** X15: the device [Remove] of one undisturbed warp whose lowest active
    lane asks for a key that the table lacks: the call returns with the
    memory as it was, every lane returns [false] and no lane is left in the
    queue, whatever the keys of the higher lanes. *)
Theorem warp_remove_miss m act buckets (keys : list Key) (src : nat) :
  table_wf m → (src < 32)%nat → act !! src = Some true →
  (∀ j, (j < src)%nat → act !! j ≠ Some true) →
  buckets !!! src = ComputeBucket m (keys !!! src) →
  lacks m (keys !!! src) →
  ∃ (steps : nat) w',
    (∀ fuel, Remove (steps + fuel) [] m act buckets keys = Some (w', m))
    ∧ (∀ i : nat, (i < 32)%nat → mask w' !! i = Some false)
    ∧ (∀ i : nat, lane_active w' !! i ≠ Some true).
Proof. apply Remove_warp_miss. Qed.

(** * What Insert and Remove never write *)

(** Insert writes a word only by a compare-and-swap from the empty
    pattern. *)
Lemma Insert_iter_word env m wq w w' m' (u : unit_ptr) :
  Insert_iter env m wq w = Some (w', m') →
  deref (env m) u ≠ EMPTY_PAIR_PTR → deref m' u = deref (env m) u.
Proof.
  rewrite Insert_iter_cases. cbv zeta. intros Hiter Hset.
  destruct (slab_lookup m _ _) as [?|].
  { injection Hiter as _ <-. apply deref_set_pair_alloc. }
  destruct (list_find _ _) as [[j y]|].
  { case_decide as Hq; injection Hiter as _ <-; [| done].
    apply deref_store_ne. by intros ->. }
  case_decide; [| by injection Hiter as _ <-].
  destruct (WarpAllocate _) as [[new_slab a]|] eqn:Halloc; [| done].
  apply WarpAllocate_units in Halloc.
  case_decide as Hold; injection Hiter as _ <-.
  - rewrite deref_store_ne by (by intros ->). by apply deref_set_slab_alloc.
  - by apply deref_set_slab_alloc.
Qed.

Lemma Insert_loop_word fuel (envs : list (SlabHashContext → SlabHashContext))
    m w w' m' (u : unit_ptr) :
  Forall (keeps_word u) envs →
  Insert_loop fuel envs m w = Some (w', m') →
  deref m u ≠ EMPTY_PAIR_PTR → deref m' u = deref m u.
Proof.
  intros Henvs Hloop. revert envs m w Henvs Hloop.
  induction fuel as [|fuel IH]; intros envs m w Henvs; cbn [Insert_loop].
  - destruct (_ =? 0); [by intros [= _ <-] | done].
  - destruct (_ =? 0); [by intros [= _ <-] |].
    destruct (Insert_iter (hd id envs) m _ w) as [[w1 m1]|] eqn:Hit; [| done].
    intros Hloop Hset.
    assert (Hhd : deref (hd id envs m) u = deref m u).
    { destruct Henvs as [|e envs' He _]; [done | apply He]. }
    assert (Htl : Forall (keeps_word u) (tl envs)) by (by destruct Henvs).
    assert (H1 : deref m1 u = deref m u).
    { rewrite (Insert_iter_word _ _ _ _ _ _ u Hit); [done | by rewrite Hhd]. }
    rewrite (IH _ _ _ Htl Hloop) by (by rewrite H1). done.
Qed.

Lemma Insert_word fuel (envs : list (SlabHashContext → SlabHashContext))
    m act buckets (keys : list Key) (values : list Value) w' m' (u : unit_ptr) :
  Forall (keeps_word u) envs →
  Insert fuel envs m act buckets keys values = Some (w', m') →
  deref m u ≠ EMPTY_PAIR_PTR → deref m' u = deref m u.
Proof.
  intros Henvs. unfold Insert.
  destruct (prealloc_lanes _ _) as [[ps c]|]; [| done]. intros Hloop Hset.
  rewrite (Insert_loop_word _ _ _ _ _ _ u Henvs Hloop)
    by (by rewrite deref_set_pair_alloc).
  apply deref_set_pair_alloc.
Qed.

(** X16: Insert overwrites no word.  A word of the table (a pair slot or a
    next-slab word) that holds something else than the empty pattern keeps
    its content through a whole device Insert of a warp, run against other
    warps that leave this word alone, and through a whole bulk Insert. *)
Theorem insert_overwrites_no_word (fuel : nat) m (u : unit_ptr) :
  deref m u ≠ EMPTY_PAIR_PTR →
  (∀ envs act buckets (keys : list Key) (values : list Value) w' m',
     Forall (keeps_word u) envs →
     Insert fuel envs m act buckets keys values = Some (w', m') →
     deref m' u = deref m u)
  ∧ (∀ (keys : list Key) (values : list Value) n r,
       SlabHash_Insert fuel m keys values n = Some r → deref r.1 u = deref m u).
Proof.
  intros Hset. split.
  - intros envs act buckets keys values w' m' Henvs Hins.
    exact (Insert_word _ _ _ _ _ _ _ _ _ u Henvs Hins Hset).
  - intros keys values n r. unfold SlabHash_Insert.
    destruct (run_warps _ m _) as [m1|] eqn:Hrun; [| done]. intros [= <-]. cbn [fst].
    refine (run_warps_write_once _ _ _ _ u _ Hrun Hset).
    intros m0 m2 wid. unfold InsertKernel_warp.
    destruct (n <=? wid * 32); [by intros [= <-] |].
    destruct (Insert fuel [] m0 _ _ _ _) as [[w2 m3]|] eqn:Hins; [| done].
    intros [= <-] Hset0.
    exact (Insert_word _ _ _ _ _ _ _ _ _ u (Forall_nil_2 _) Hins Hset0).
Qed.

(** Remove writes a word only to empty a pair slot. *)
Lemma Remove_iter_word env1 env2 m wq w (u : unit_ptr) :
  deref (Remove_iter env1 env2 m wq w).2 u = deref (env2 (env1 m)) u
  ∨ (¬ is_next_word u ∧ deref (Remove_iter env1 env2 m wq w).2 u = EMPTY_PAIR_PTR).
Proof.
  rewrite Remove_iter_cases. cbv zeta.
  destruct (list_find _ _) as [[i x]|] eqn:Hfind.
  - apply list_find_Some in Hfind as (Hi%lookup_take_Some & _).
    case_decide; cbn [snd]; [| by left].
    rewrite deref_set_pair_alloc.
    destruct (deref_store_cases (env2 (env1 m))
                (unit_ptr_of (s_curr_slab_ptr (warp_scan m wq w))
                             (s_src_bucket (warp_scan m wq w)) (Z.of_nat i))
                u EMPTY_PAIR_PTR) as [Heq | [-> Heq]]; [by left |].
    right. split; [| done]. apply pair_lane_not_next. lia.
  - case_decide; by left.
Qed.

Lemma Remove_loop_word fuel (envs : list Interference) m w w' m' (u : unit_ptr) :
  Forall (λ e : @Interference Key Value, keeps_word u e.1 ∧ keeps_word u e.2) envs →
  Remove_loop fuel envs m w = Some (w', m') →
  deref m' u = deref m u ∨ (¬ is_next_word u ∧ deref m' u = EMPTY_PAIR_PTR).
Proof.
  intros Henvs Hloop. revert envs m w Henvs Hloop.
  induction fuel as [|fuel IH]; intros envs m w Henvs; cbn [Remove_loop].
  - destruct (_ =? 0); [intros [= _ <-]; by left | done].
  - destruct (_ =? 0); [intros [= _ <-]; by left |].
    assert (keeps_word u (hd (id, id) envs).1 ∧ keeps_word u (hd (id, id) envs).2
            ∧ Forall (λ e : @Interference Key Value, keeps_word u e.1 ∧ keeps_word u e.2)
                     (tl envs)) as (H1 & H2 & Htl).
    { destruct Henvs as [|e envs' [? ?] ?]; cbn [hd tl fst snd]; [by split_and! | done]. }
    pose proof (Remove_iter_word (hd (id, id) envs).1 (hd (id, id) envs).2 m
                  (__ballot_sync ACTIVE_LANES_MASK (lane_active w)) w u) as Hit.
    destruct (Remove_iter _ _ m _ w) as [w1 m1]. cbn [snd] in Hit.
    rewrite H2, H1 in Hit. intros Hloop.
    destruct (IH _ _ _ Htl Hloop) as [Hsame | Hempty]; [| by right].
    rewrite Hsame. exact Hit.
Qed.

(** The undisturbed Remove changes neither the bitmaps of the slab pool nor
    the records of the pairs. *)
Lemma Remove_loop_pools fuel m w w' m' :
  Remove_loop fuel [] m w = Some (w', m') →
  bitmaps_ (slab_list_allocator_ctx_ m') = bitmaps_ (slab_list_allocator_ctx_ m)
  ∧ data_ (pair_allocator_ctx_ m') = data_ (pair_allocator_ctx_ m).
Proof.
  revert m w. induction fuel as [|fuel IH]; intros m w; cbn [Remove_loop].
  - destruct (_ =? 0); [by intros [= _ <-] | done].
  - destruct (_ =? 0); [by intros [= _ <-] |]. cbn [hd tl fst snd].
    assert (Hit : bitmaps_ (slab_list_allocator_ctx_
                    (Remove_iter id id m (__ballot_sync ACTIVE_LANES_MASK (lane_active w)) w).2)
                  = bitmaps_ (slab_list_allocator_ctx_ m)
                  ∧ data_ (pair_allocator_ctx_
                    (Remove_iter id id m (__ballot_sync ACTIVE_LANES_MASK (lane_active w)) w).2)
                    = data_ (pair_allocator_ctx_ m)).
    { rewrite Remove_iter_cases. cbv zeta. unfold id.
      destruct (list_find _ _) as [[i x]|].
      - case_decide; cbn [snd]; [| done]. split; [| done].
        cbn [set_pair_alloc slab_list_allocator_ctx_].
        match goal with
        | |- context [store m ?q EMPTY_PAIR_PTR] =>
            by destruct (store_fields m q EMPTY_PAIR_PTR) as (_ & _ & _ & ->)
        end.
      - by case_decide. }
    destruct (Remove_iter id id m _ w) as [w1 m1]. cbn [snd] in Hit.
    intros Hloop. destruct (IH _ _ Hloop) as [-> ->]. exact Hit.
Qed.

Lemma run_warps_rel (R : @SlabHashContext Key Value → @SlabHashContext Key Value → Prop)
    (step : SlabHashContext → Z → option SlabHashContext) (wids : list Z) :
  (∀ m, R m m) → (∀ m1 m2 m3, R m1 m2 → R m2 m3 → R m1 m3) →
  (∀ m0 m1 wid, step m0 wid = Some m1 → R m0 m1) →
  ∀ m m', run_warps step m wids = Some m' → R m m'.
Proof.
  intros Hrefl Htrans Hstep. induction wids as [|wid wids IH]; intros m m'; cbn [run_warps].
  - intros [= <-]. apply Hrefl.
  - destruct (step m wid) as [m1|] eqn:Hs; [| done]. intros Hrun.
    eapply Htrans; [by eapply Hstep | by apply IH].
Qed.

(** X17: Remove only empties pair slots.  Through a whole device Remove of
    a warp, run against other warps that leave the word alone, every word
    of the table keeps its content or is a pair slot that now reads empty;
    in particular no next-slab word changes.  A whole bulk Remove moreover
    leaves the bitmaps of the slab pool as they are, so that no slab is
    freed, and changes the record of no pair. *)
Theorem remove_only_empties (fuel : nat) m :
  (∀ envs act buckets (keys : list Key) w' m' (u : unit_ptr),
     Forall (λ e : @Interference Key Value, keeps_word u e.1 ∧ keeps_word u e.2) envs →
     Remove fuel envs m act buckets keys = Some (w', m') →
     deref m' u = deref m u ∨ (¬ is_next_word u ∧ deref m' u = EMPTY_PAIR_PTR))
  ∧ (∀ (keys : list Key) n m',
       SlabHash_Remove fuel m keys n = Some m' →
       (∀ u, deref m' u = deref m u ∨ (¬ is_next_word u ∧ deref m' u = EMPTY_PAIR_PTR))
       ∧ bitmaps_ (slab_list_allocator_ctx_ m') = bitmaps_ (slab_list_allocator_ctx_ m)
       ∧ data_ (pair_allocator_ctx_ m') = data_ (pair_allocator_ctx_ m)).
Proof.
  split.
  - intros envs act buckets keys w' m' u Henvs Hrem. unfold Remove in Hrem.
    exact (Remove_loop_word _ _ _ _ _ _ u Henvs Hrem).
  - intros keys n m' Hrun. unfold SlabHash_Remove in Hrun.
    assert (Hstep : ∀ m0 m1 wid, RemoveKernel_warp fuel keys n m0 wid = Some m1 →
              (∀ u, deref m1 u = deref m0 u
                    ∨ (¬ is_next_word u ∧ deref m1 u = EMPTY_PAIR_PTR))
              ∧ bitmaps_ (slab_list_allocator_ctx_ m1) = bitmaps_ (slab_list_allocator_ctx_ m0)
              ∧ data_ (pair_allocator_ctx_ m1) = data_ (pair_allocator_ctx_ m0)).
    { intros m0 m1 wid. unfold RemoveKernel_warp.
      destruct (n <=? wid * 32); [intros [= <-]; split_and!; [by left | done | done] |].
      destruct (Remove fuel [] m0 _ _ _) as [[w2 m3]|] eqn:Hrem; [| done].
      intros [= <-]. unfold Remove in Hrem. split.
      - intros u. exact (Remove_loop_word _ _ _ _ _ _ u (Forall_nil_2 _) Hrem).
      - exact (Remove_loop_pools _ _ _ _ _ Hrem). }
    refine (run_warps_rel
              (λ m0 m1, (∀ u, deref m1 u = deref m0 u
                              ∨ (¬ is_next_word u ∧ deref m1 u = EMPTY_PAIR_PTR))
                        ∧ bitmaps_ (slab_list_allocator_ctx_ m1)
                          = bitmaps_ (slab_list_allocator_ctx_ m0)
                        ∧ data_ (pair_allocator_ctx_ m1) = data_ (pair_allocator_ctx_ m0))
              _ _ _ _ Hstep m m' Hrun).
    + intros m0. split_and!; [by left | done | done].
    + intros m1 m2 m3 (Hw12 & Hb12 & Hd12) (Hw23 & Hb23 & Hd23).
      split_and!; [| congruence | congruence].
      intros u. destruct (Hw23 u) as [H23 | H23]; [| by right].
      rewrite H23. apply Hw12.
Qed.

(** * Search, the constructor and the two lane finders *)

(** X18: the bulk [Search] writes the first [num_queries] entries of its two
    result arrays and nothing else.  In a table whose chains end, with
    enough fuel the launch returns; both arrays keep their length and every
    entry from [num_queries] on; with no query nothing is written. *)
Theorem search_writes_queries_only m (zero : Value) (keys : list Key)
    (values : list Value) (founds : list Z) (n : nat) :
  Z.of_nat n + 127 < 2 ^ 32 →
  (n ≤ length values)%nat → (n ≤ length founds)%nat →
  0 < num_buckets_ m →
  (∀ b, 0 ≤ b < num_buckets_ m → ∃ l, chain m b HEAD_SLAB_PTR l) →
  ∃ fuel0 : nat, ∀ fuel, (fuel0 ≤ fuel)%nat → ∃ values' founds',
    SlabHash_Search fuel m zero keys values founds (Z.of_nat n) = Some (values', founds')
    ∧ length values' = length values ∧ length founds' = length founds
    ∧ (∀ t : nat, (n ≤ t)%nat → values' !! t = values !! t ∧ founds' !! t = founds !! t)
    ∧ (n = 0%nat → values' = values ∧ founds' = founds).
Proof.
  intros Hn Hlv Hlf Hnb Hch. unfold SlabHash_Search.
  destruct (SearchKernel_warps_ok m zero keys (Z.of_nat n) (launched_warps (Z.of_nat n)))
    as (steps & Hrun).
  - intros wid Hwid. unfold launched_warps in Hwid. apply elem_of_seqZ in Hwid. lia.
  - apply NoDup_seqZ.
  - intros k. apply Hch. unfold ComputeBucket. apply Z.mod_pos_bound. lia.
  - exists steps. intros fuel Hfuel.
    destruct (Hrun fuel Hfuel (values, founds)) as ([values' founds'] & Hk & Hl1 & Hl2 & Hout).
    cbn [fst snd] in *.
    assert (Hrest : ∀ t : nat, (n ≤ t)%nat →
              values' !! t = values !! t ∧ founds' !! t = founds !! t).
    { intros t Ht. destruct (Hout t) as [_ Hframe]. apply Hframe.
      intros wid _ [_ Hlt]. lia. }
    exists values', founds'. split_and!; [done | done | done | done |].
    intros ->. split; apply list_eq; intros t; apply Hrest; lia.
Qed.

(** X19: the table of the constructor.  For a bucket count that is positive
    and a geometry whose indices fit 32 bits the new table is well formed,
    holds no key, has [max_keyvalue_count] free pair records and 32 free
    slabs for every bitmap word, and a bulk [Search] in it finds no query:
    every flag is 0 and every value the zero value. *)
Theorem new_table_is_empty (hash_fn : Key → Z) (B cap nsb nmb : Z) (zero : Value)
    (keys : list Key) (values : list Value) (founds : list Z) (n : nat) :
  0 < B → B * 32 ≤ 2 ^ 32 → nsb * nmb * 32 * 32 ≤ HEAD_SLAB_PTR → cap ≤ 0xFFFFFFFF →
  Z.of_nat n + 127 < 2 ^ 32 → (n ≤ length values)%nat → (n ≤ length founds)%nat →
  table_wf (@SlabHash_new Key Value hash_fn B cap nsb nmb)
  ∧ pairs_wf (@SlabHash_new Key Value hash_fn B cap nsb nmb)
  ∧ (∀ k, lacks (@SlabHash_new Key Value hash_fn B cap nsb nmb) k)
  ∧ length (heap_ (pair_allocator_ctx_ (@SlabHash_new Key Value hash_fn B cap nsb nmb)))
    = Z.to_nat cap
  ∧ free_slab_count (slab_list_allocator_ctx_ (@SlabHash_new Key Value hash_fn B cap nsb nmb))
    = Z.of_nat (Z.to_nat (nsb * nmb * 32)) * 32
  ∧ ∃ fuel0 : nat, ∀ fuel, (fuel0 ≤ fuel)%nat → ∃ vs fs,
      SlabHash_Search fuel (@SlabHash_new Key Value hash_fn B cap nsb nmb) zero keys
                      values founds (Z.of_nat n) = Some (vs, fs)
      ∧ ∀ t : nat, (t < n)%nat → fs !! t = Some 0 ∧ vs !! t = Some zero.
Proof.
  intros HB Hwrap Hslabs Hcap Hn Hlv Hlf.
  destruct (SlabHash_new_wf hash_fn B cap nsb nmb HB Hwrap Hslabs Hcap) as [Hwf Hpw].
  destruct (SlabHash_new_capacity hash_fn B cap nsb nmb) as [Hheap Hfree].
  split_and!; [done | done | apply SlabHash_new_lacks | done | done |].
  destruct (SlabHash_Search_ok (@SlabHash_new Key Value hash_fn B cap nsb nmb) zero keys
              values founds (Z.of_nat n)) as (fuel0 & Hs);
    [lia | done | lia | lia | apply Hwf | apply Hwf |].
  exists fuel0. intros fuel Hfuel. destruct (Hs fuel Hfuel) as (vs & fs & Hrun & Hans).
  exists vs, fs. split; [done |]. intros t Ht.
  apply (lacks_answer (@SlabHash_new Key Value hash_fn B cap nsb nmb) zero (keys !!! t));
    [apply SlabHash_new_lacks |].
  apply Hans. lia.
Qed.

(** X20: [WarpFindKey] returns the lowest of the pair lanes 0..30 whose word
    is not the empty pattern and names a record with the key, and -1 when
    there is none.  Lane 31, the next-slab word, is never returned. *)
Theorem WarpFindKey_lowest_match m (k : Key) (unit_data : list Z) :
  (WarpFindKey m k unit_data = -1
   ∧ ∀ (i : nat) x, (i < 31)%nat → unit_data !! i = Some x →
       ¬ (x ≠ EMPTY_PAIR_PTR ∧ key_matches m x k = true))
  ∨ (∃ (i : nat) x,
       WarpFindKey m k unit_data = Z.of_nat i ∧ (i < 31)%nat
       ∧ unit_data !! i = Some x ∧ x ≠ EMPTY_PAIR_PTR ∧ key_matches m x k = true
       ∧ ∀ (j : nat) y, (j < i)%nat → unit_data !! j = Some y →
           ¬ (y ≠ EMPTY_PAIR_PTR ∧ key_matches m y k = true)).
Proof.
  rewrite WarpFindKey_spec.
  destruct (list_find (live_match m k) (take 31 unit_data)) as [[i x]|] eqn:Hf.
  - right. apply list_find_Some in Hf as (Hi%lookup_take_Some & [Hx Hkm] & Hmin).
    destruct Hi as [Hi Hlt]. exists i, x. split_and!; try done.
    intros j y Hj Hy. apply (Hmin j y); [| done]. apply lookup_take_Some. split; [done | lia].
  - left. split; [done |]. intros i x Hi Hx.
    apply list_find_None in Hf. eapply Forall_lookup_1 in Hf; [exact Hf |].
    apply lookup_take_Some. by split.
Qed.

(** X21: [WarpFindEmpty] returns the lowest of the pair lanes 0..30 whose
    word is the empty pattern, and -1 when the 31 pair slots are all taken,
    whatever lane 31 holds. *)
Theorem WarpFindEmpty_lowest_empty (unit_data : list Z) :
  (WarpFindEmpty unit_data = -1
   ∧ ∀ (i : nat) x, (i < 31)%nat → unit_data !! i = Some x → x ≠ EMPTY_PAIR_PTR)
  ∨ (∃ i : nat,
       WarpFindEmpty unit_data = Z.of_nat i ∧ (i < 31)%nat
       ∧ unit_data !! i = Some EMPTY_PAIR_PTR
       ∧ ∀ (j : nat) y, (j < i)%nat → unit_data !! j = Some y → y ≠ EMPTY_PAIR_PTR).
Proof.
  rewrite WarpFindEmpty_spec.
  destruct (list_find (λ ptr, ptr = EMPTY_PAIR_PTR) (take 31 unit_data)) as [[i x]|] eqn:Hf.
  - right. apply list_find_Some in Hf as (Hi%lookup_take_Some & -> & Hmin).
    destruct Hi as [Hi Hlt]. exists i. split_and!; try done.
    intros j y Hj Hy. apply (Hmin j y); [| done]. apply lookup_take_Some. split; [done | lia].
  - left. split; [done |]. intros i x Hi Hx.
    apply list_find_None in Hf. eapply Forall_lookup_1 in Hf; [exact Hf |].
    apply lookup_take_Some. by split.
Qed.

(** X22: a value is changed by removal and insertion.  On a table at rest
    with [n] free slabs, for [n] keys, no two the same, each of which the
    table holds in exactly one pair slot: the bulk [Remove] of the keys,
    then the bulk [Insert] of the keys with new values, then the bulk
    [Search] of the keys all return, and every query is found with the new
    value of its thread.  The records that the removal returned to the free
    list are those the insertion needs. *)
Theorem remove_insert_search m (zero : Value) (keys : list Key) (values : list Value)
    (n : nat) (out_v : list Value) (out_f : list Z) :
  table_wf m → pairs_wf m → Z.of_nat n + 127 < 2 ^ 32 →
  (n ≤ length keys)%nat → (n ≤ length values)%nat →
  (n ≤ length out_v)%nat → (n ≤ length out_f)%nat →
  (∀ a b : nat, (a < n)%nat → (b < n)%nat → keys !!! a = keys !!! b → a = b) →
  (∀ t : nat, (t < n)%nat → (∃ v, holds m (keys !!! t) v) ∧ single m (keys !!! t)) →
  Z.of_nat n ≤ free_slab_count (slab_list_allocator_ctx_ m) →
  ∃ fuel0 : nat, ∀ fuel, (fuel0 ≤ fuel)%nat → ∃ m1 m2 vs fs,
    SlabHash_Remove fuel m keys (Z.of_nat n) = Some m1
    ∧ SlabHash_Insert fuel m1 keys values (Z.of_nat n) = Some (m2, (keys, values))
    ∧ SlabHash_Search fuel m2 zero keys out_v out_f (Z.of_nat n) = Some (vs, fs)
    ∧ ∀ t : nat, (t < n)%nat → fs !! t = Some 1 ∧ vs !! t = Some (values !!! t).
Proof.
  intros Hwf Hpw Hn _ _ Hlv Hlf Hinj Hheld Hslabs.
  destruct (SlabHash_Remove_ok m keys n Hwf Hn Hinj) as
    (fuel1 & m1 & Hok1 & Hwf1 & (Hgone & _ & _ & _ & Hpw1 & Hbm) & _ & Hheap1).
  { intros t Ht. by apply Hheld. }
  assert (Hlacks : ∀ t : nat, (t < n)%nat → lacks m1 (keys !!! t)).
  { intros t Ht. apply Hgone; [| by apply Hheld].
    apply elem_of_key_batch. exists t. split; [lia | done]. }
  destruct (Insert_then_Search m1 zero keys values n keys out_v out_f n Hwf1 (Hpw1 Hpw) Hn)
    as (fuel2 & m2 & (Hnew & _) & Hrun); try done.
  { intros t Ht. left. by apply Hlacks. }
  { lia. }
  { unfold free_slab_count in *. by rewrite Hbm. }
  exists (fuel1 `max` fuel2)%nat. intros fuel Hfuel.
  destruct (Hrun fuel ltac:(lia)) as (Hi & vs & fs & Hs & Hans).
  exists m1, m2, vs, fs. split_and!; [apply Hok1; lia | done | done |].
  intros t Ht.
  destruct (batch_find keys values n t Ht) as (i & Hit & Hki & _ & Hfind).
  assert (i = t) as -> by (apply Hinj; [lia | done | done]).
  specialize (Hnew (keys !!! t) (Hlacks t Ht)). rewrite Hfind in Hnew. cbn in Hnew.
  destruct Hnew as [Hholds _].
  exact (holds_answer m2 zero _ _ _ _ Hholds (Hans t Ht)).
Qed.

(** ** Removals that miss *)

(** A warp of [RemoveKernel] whose first thread asks for a key that the
    table lacks. *)
Lemma RemoveKernel_warp_miss m (keys : list Key) (n : nat) (wid : nat) :
  table_wf m →
  ((wid * 32 < n)%nat → lacks m (keys !!! (wid * 32)%nat)) →
  ∃ steps : nat, ∀ fuel,
    RemoveKernel_warp (steps + fuel) keys (Z.of_nat n) m (Z.of_nat wid) = Some m.
Proof.
  intros Hwf Hlacks. unfold RemoveKernel_warp.
  destruct (Z.leb_spec (Z.of_nat n) (Z.of_nat wid * 32)) as [Hle | Hlt].
  { by exists 0%nat. }
  destruct (Remove_warp_miss m (kernel_active (Z.of_nat n) (Z.of_nat wid))
              (kernel_buckets m keys (Z.of_nat n) (Z.of_nat wid))
              (kernel_keys keys (Z.of_nat n) (Z.of_nat wid)) 0)
    as (steps & w' & Hrun & _).
  - done.
  - lia.
  - rewrite kernel_active_lookup by lia. f_equal. apply Z.ltb_lt. lia.
  - intros j Hj. lia.
  - rewrite kernel_buckets_lookup, kernel_keys_lookup by lia. done.
  - rewrite kernel_keys_lookup by lia.
    replace (Z.to_nat (Z.of_nat wid * 32 + Z.of_nat 0)) with (wid * 32)%nat by lia.
    apply Hlacks. lia.
  - exists steps. intros fuel. by rewrite Hrun.
Qed.

Lemma RemoveKernel_warps_miss m (keys : list Key) (n : nat) (c : nat) :
  table_wf m →
  ∀ j : nat,
    (∀ wid : nat, (wid * 32 < n)%nat → lacks m (keys !!! (wid * 32)%nat)) →
    ∃ fuel0 : nat, ∀ fuel, (fuel0 ≤ fuel)%nat →
      run_warps (RemoveKernel_warp fuel keys (Z.of_nat n)) m
                (seqZ (Z.of_nat j) (Z.of_nat c)) = Some m.
Proof.
  intros Hwf. induction c as [|c IH]; intros j Hlacks.
  - by exists 0%nat.
  - destruct (RemoveKernel_warp_miss m keys n j Hwf (Hlacks j)) as (steps & Hrun1).
    destruct (IH (S j) Hlacks) as (fuel0 & Hrun).
    exists (steps + fuel0)%nat. intros fuel Hfuel.
    rewrite seqZ_cons by lia. cbn [run_warps].
    replace fuel with (steps + (fuel - steps))%nat at 1 by lia. rewrite Hrun1.
    replace (Z.succ (Z.of_nat j)) with (Z.of_nat (S j)) by lia.
    replace (Z.pred (Z.of_nat (S c))) with (Z.of_nat c) by lia.
    apply Hrun. lia.
Qed.

(** X23: a bulk [Remove] in which the first thread of every warp (threads
    0, 32, 64, ...) asks for a key that the table lacks changes nothing:
    the launch returns the memory it was given, whatever keys the other
    threads ask for.  In particular the removal of keys that the table
    lacks is without effect. *)
Theorem bulk_remove_misses m (keys : list Key) (n : nat) :
  table_wf m → Z.of_nat n + 127 < 2 ^ 32 → (n ≤ length keys)%nat →
  (∀ wid : nat, (wid * 32 < n)%nat → lacks m (keys !!! (wid * 32)%nat)) →
  ∃ fuel0 : nat, ∀ fuel, (fuel0 ≤ fuel)%nat →
    SlabHash_Remove fuel m keys (Z.of_nat n) = Some m.
Proof.
  intros Hwf Hn _ Hlacks.
  destruct (launched_warps_count (Z.of_nat n) ltac:(lia) Hn) as (c & Hlw & _).
  destruct (RemoveKernel_warps_miss m keys n c Hwf 0 Hlacks) as (fuel0 & Hrun).
  exists fuel0. intros fuel Hfuel. unfold SlabHash_Remove. rewrite Hlw.
  by apply Hrun.
Qed.

(** X24: the bulk [Remove] is idempotent on keys stored once.  On a table at
    rest, for [n] keys, no two the same, each of which the table holds in
    exactly one pair slot, a second launch over the same keys returns the
    memory that the first launch left. *)
Theorem bulk_remove_twice m (keys : list Key) (n : nat) :
  table_wf m → Z.of_nat n + 127 < 2 ^ 32 → (n ≤ length keys)%nat →
  (∀ a b : nat, (a < n)%nat → (b < n)%nat → keys !!! a = keys !!! b → a = b) →
  (∀ t : nat, (t < n)%nat → (∃ v, holds m (keys !!! t) v) ∧ single m (keys !!! t)) →
  ∃ fuel0 : nat, ∀ fuel, (fuel0 ≤ fuel)%nat → ∃ m',
    SlabHash_Remove fuel m keys (Z.of_nat n) = Some m'
    ∧ SlabHash_Remove fuel m' keys (Z.of_nat n) = Some m'.
Proof.
  intros Hwf Hn _ Hinj Hheld.
  destruct (SlabHash_Remove_ok m keys n Hwf Hn Hinj) as
    (fuel1 & m1 & Hok1 & Hwf1 & (Hgone & _) & _).
  { intros t Ht. by apply Hheld. }
  destruct (launched_warps_count (Z.of_nat n) ltac:(lia) Hn) as (c & Hlw & _).
  destruct (RemoveKernel_warps_miss m1 keys n c Hwf1 0) as (fuel2 & Hrun2).
  { intros wid Hwid. apply Hgone; [| by apply Hheld].
    apply elem_of_key_batch. exists (wid * 32)%nat. split; [lia | done]. }
  exists (fuel1 `max` fuel2)%nat. intros fuel Hfuel. exists m1.
  split; [apply Hok1; lia |]. unfold SlabHash_Remove. rewrite Hlw. apply Hrun2. lia.
Qed.

End Coverage.

(** * The operations on small tables *)

Lemma table0_wf : table_wf table0 ∧ pairs_wf table0.
Proof. apply (SlabHash_new_wf id_hash 1 64 1 1); unfold HEAD_SLAB_PTR; lia. Qed.

Lemma table0_heap : length (heap_ (pair_allocator_ctx_ table0)) = 64%nat.
Proof. vm_compute. reflexivity. Qed.

Lemma table0_slabs : free_slab_count (slab_list_allocator_ctx_ table0) = 1024.
Proof. vm_compute. reflexivity. Qed.

Lemma table5_run : SlabHash_Insert 100 table0 [5] [99] (Z.of_nat 1) = Some (table5, ([5], [99])).
Proof. vm_compute. reflexivity. Qed.

Lemma table5_wf : table_wf table5 ∧ pairs_wf table5.
Proof.
  destruct table0_wf as [Hwf Hpw].
  destruct (SlabHash_Insert_run table0 [5] [99] 1 100 table5 ([5], [99]) Hwf Hpw)
    as (Hwf5 & Hpw5 & _); [lia | | | | exact table5_run | done].
  - intros t _. left. apply (SlabHash_new_lacks id_hash 1 64 1 1).
  - rewrite table0_heap. lia.
  - rewrite table0_slabs. lia.
Qed.

Lemma table5_heap : length (heap_ (pair_allocator_ctx_ table5)) = 63%nat.
Proof. vm_compute. reflexivity. Qed.

Lemma table5_slabs : free_slab_count (slab_list_allocator_ctx_ table5) = 1024.
Proof. vm_compute. reflexivity. Qed.

Lemma table5_chain : chain table5 (ComputeBucket table5 5) HEAD_SLAB_PTR [HEAD_SLAB_PTR].
Proof. apply chain_end. vm_compute. reflexivity. Qed.

Lemma table5_holds : holds table5 5 99.
Proof.
  exists [HEAD_SLAB_PTR], 0. split_and!; [apply table5_chain | |]; vm_compute; reflexivity.
Qed.

Lemma table5_settled : settled table5 5.
Proof.
  exists [HEAD_SLAB_PTR], 0. split; [apply table5_chain |]. vm_compute. reflexivity.
Qed.

Lemma table5_lacks : lacks table5 6.
Proof.
  exists [HEAD_SLAB_PTR]. split; [| vm_compute; reflexivity].
  apply chain_end. vm_compute. reflexivity.
Qed.

(** X5 on [table0]: the batch (1,10), (2,20), (1,30) and the search of its
    keys. *)
Lemma bulk_insert_then_search_witness :
  ∃ fuel0 : nat, ∀ fuel, (fuel0 ≤ fuel)%nat → ∃ m' vs fs,
    SlabHash_Insert fuel table0 keys121 values121 (Z.of_nat 3)
    = Some (m', (keys121, values121))
    ∧ SlabHash_Search fuel m' 0 keys121 out3 out3 (Z.of_nat 3) = Some (vs, fs)
    ∧ ∀ t : nat, (t < 3)%nat →
        fs !! t = Some 1
        ∧ ∃ i : nat, (i ≤ t)%nat ∧ keys121 !!! i = keys121 !!! t
            ∧ (∀ j : nat, (j < i)%nat → keys121 !!! j ≠ keys121 !!! t)
            ∧ vs !! t = Some (values121 !!! i).
Proof.
  apply (bulk_insert_then_search table0 0 keys121 values121 3 out3 out3).
  - apply table0_wf.
  - apply table0_wf.
  - lia.
  - vm_compute. lia.
  - vm_compute. lia.
  - vm_compute. lia.
  - vm_compute. lia.
  - intros t _. apply (SlabHash_new_lacks id_hash 1 64 1 1).
  - rewrite table0_heap. lia.
  - rewrite table0_slabs. lia.
Defined.

(** X6 on [table5]: the batch (5,7) does not change the value 99 of key 5. *)
Lemma bulk_insert_keeps_value_witness :
  ∃ fuel0 : nat, ∀ fuel, (fuel0 ≤ fuel)%nat → ∃ m' vs fs,
    SlabHash_Insert fuel table5 keys5 values7 (Z.of_nat 1) = Some (m', (keys5, values7))
    ∧ SlabHash_Search fuel m' 0 keys5 out1 out1 (Z.of_nat 1) = Some (vs, fs)
    ∧ ∀ t : nat, (t < 1)%nat → keys5 !!! t = 5 → fs !! t = Some 1 ∧ vs !! t = Some 99.
Proof.
  apply (bulk_insert_keeps_value table5 0 keys5 values7 1 5 99 keys5 out1 out1 1).
  - apply table5_wf.
  - apply table5_wf.
  - lia.
  - vm_compute. lia.
  - vm_compute. lia.
  - intros [|t] Ht; [| lia]. right. exact table5_settled.
  - rewrite table5_heap. lia.
  - rewrite table5_slabs. lia.
  - lia.
  - vm_compute. lia.
  - vm_compute. lia.
  - vm_compute. lia.
  - exact table5_holds.
  - exact table5_settled.
Defined.

(** X7 on [table5]: the batch (6,7) leaves key 5 with its value. *)
Lemma bulk_insert_frame_witness :
  ∃ fuel0 : nat, ∀ fuel, (fuel0 ≤ fuel)%nat → ∃ m' vs fs,
    SlabHash_Insert fuel table5 keys6 values7 (Z.of_nat 1) = Some (m', (keys6, values7))
    ∧ SlabHash_Search fuel m' 0 keys5 out1 out1 (Z.of_nat 1) = Some (vs, fs)
    ∧ ∀ t : nat, (t < 1)%nat → keys5 !!! t = 5 →
        (∀ v, holds table5 5 v → fs !! t = Some 1 ∧ vs !! t = Some v)
        ∧ (lacks table5 5 → fs !! t = Some 0 ∧ vs !! t = Some 0).
Proof.
  apply (bulk_insert_frame table5 0 keys6 values7 1 5 keys5 out1 out1 1).
  - apply table5_wf.
  - apply table5_wf.
  - lia.
  - vm_compute. lia.
  - vm_compute. lia.
  - intros [|t] Ht; [| lia]. left. exact table5_lacks.
  - rewrite table5_heap. lia.
  - rewrite table5_slabs. lia.
  - lia.
  - vm_compute. lia.
  - vm_compute. lia.
  - vm_compute. lia.
  - intros [|t] Ht; [| lia]. vm_compute. intros [=].
Defined.

(** X8 on [table0]: the batch (1,10), (2,20), (1,30). *)
Lemma bulk_insert_keeps_wf_witness :
  ∃ (fuel0 : nat) m',
    (∀ fuel, (fuel0 ≤ fuel)%nat →
       SlabHash_Insert fuel table0 keys121 values121 (Z.of_nat 3)
       = Some (m', (keys121, values121)))
    ∧ table_wf m' ∧ pairs_wf m'
    ∧ (∀ k, ComputeBucket m' k = ComputeBucket table0 k)
    ∧ (length (heap_ (pair_allocator_ctx_ table0))
       ≤ 3 + length (heap_ (pair_allocator_ctx_ m')))%nat
    ∧ free_slab_count (slab_list_allocator_ctx_ table0)
      ≤ Z.of_nat 3 + free_slab_count (slab_list_allocator_ctx_ m')
    ∧ ∀ k, lacks table0 k ∨ settled table0 k → lacks m' k ∨ settled m' k.
Proof.
  apply (bulk_insert_keeps_wf table0 keys121 values121 3).
  - apply table0_wf.
  - apply table0_wf.
  - lia.
  - vm_compute. lia.
  - vm_compute. lia.
  - intros t _. left. apply (SlabHash_new_lacks id_hash 1 64 1 1).
  - rewrite table0_heap. lia.
  - rewrite table0_slabs. lia.
Defined.

(** X9 on [table0]: warp 0 of a launch over the batch (1,10), (2,20),
    (1,30). *)
Lemma warp_insert_in_lane_order_witness :
  ∃ (steps : nat) w' m',
    (∀ fuel, Insert (steps + fuel) [] table0 (kernel_active 3 0)
               (kernel_buckets table0 keys121 3 0) (kernel_keys keys121 3 0)
               (kernel_values values121 3 0) = Some (w', m'))
    ∧ table_wf m' ∧ pairs_wf m'
    ∧ inserted (requests (kernel_active 3 0) (kernel_keys keys121 3 0)
                         (kernel_values values121 3 0)) table0 m'.
Proof.
  apply (warp_insert_in_lane_order table0 (kernel_active 3 0)
           (kernel_buckets table0 keys121 3 0) (kernel_keys keys121 3 0)
           (kernel_values values121 3 0)).
  - apply table0_wf.
  - apply table0_wf.
  - vm_compute. reflexivity.
  - vm_compute. reflexivity.
  - vm_compute. reflexivity.
  - intros i Hi Ha. rewrite kernel_active_lookup in Ha by done.
    injection Ha as Ha. apply Z.ltb_lt in Ha.
    rewrite kernel_buckets_lookup, kernel_keys_lookup by done. done.
  - intros i _ _. left. apply (SlabHash_new_lacks id_hash 1 64 1 1).
  - vm_compute. lia.
  - vm_compute. intros [=].
Defined.

Lemma table3_run :
  SlabHash_Insert 100 table0 keys123 values123 (Z.of_nat 3)
  = Some (table3, (keys123, values123)).
Proof. vm_compute. reflexivity. Qed.

Lemma table3_facts :
  table_wf table3 ∧ pairs_wf table3 ∧ inserted (batch keys123 values123 0 3) table0 table3.
Proof.
  destruct table0_wf as [Hwf Hpw].
  apply (SlabHash_Insert_run table0 keys123 values123 3 100 table3 (keys123, values123) Hwf Hpw);
    [lia | | | | exact table3_run].
  - intros t _. left. apply (SlabHash_new_lacks id_hash 1 64 1 1).
  - rewrite table0_heap. lia.
  - rewrite table0_slabs. lia.
Qed.

Lemma table3_held (t : nat) :
  (t < 3)%nat → (∃ v, holds table3 (keys123 !!! t) v) ∧ single table3 (keys123 !!! t).
Proof.
  intros Ht. destruct table3_facts as (_ & _ & Hnew & _ & _ & Hsingle).
  assert (Hl : lacks table0 (keys123 !!! t)) by apply (SlabHash_new_lacks id_hash 1 64 1 1).
  split.
  - destruct (batch_find keys123 values123 3 t Ht) as (i & _ & _ & _ & Hfind).
    specialize (Hnew (keys123 !!! t) Hl). rewrite Hfind in Hnew.
    destruct Hnew as [Hh _]. eauto.
  - apply Hsingle; [by apply lacks_single | by left].
Qed.

Lemma keys123_distinct (a b : nat) :
  (a < 3)%nat → (b < 3)%nat → keys123 !!! a = keys123 !!! b → a = b.
Proof.
  destruct a as [|[|[|a]]], b as [|[|[|b]]]; intros Ha Hb Heq; try lia; try done.
Qed.

Lemma keys12_prefix (t : nat) : (t < 2)%nat → keys12 !!! t = keys123 !!! t.
Proof. destruct t as [|[|t]]; [done | done | lia]. Qed.

(** X10 on [table3]: its three keys are removed and searched. *)
Lemma bulk_remove_then_search_witness :
  ∃ fuel0 : nat, ∀ fuel, (fuel0 ≤ fuel)%nat → ∃ m' vs fs,
    SlabHash_Remove fuel table3 keys123 (Z.of_nat 3) = Some m'
    ∧ SlabHash_Search fuel m' 0 keys123 out3 out3 (Z.of_nat 3) = Some (vs, fs)
    ∧ ∀ t : nat, (t < 3)%nat → fs !! t = Some 0 ∧ vs !! t = Some 0.
Proof.
  apply (bulk_remove_then_search table3 0 keys123 3 out3 out3).
  - apply table3_facts.
  - lia.
  - vm_compute. lia.
  - vm_compute. lia.
  - vm_compute. lia.
  - exact keys123_distinct.
  - exact table3_held.
Defined.

(** X11 on [table3]: keys 1 and 2 are removed, key 3 is searched. *)
Lemma bulk_remove_frame_witness :
  ∃ fuel0 : nat, ∀ fuel, (fuel0 ≤ fuel)%nat → ∃ m' vs fs,
    SlabHash_Remove fuel table3 keys12 (Z.of_nat 2) = Some m'
    ∧ SlabHash_Search fuel m' 0 keys3 out1 out1 (Z.of_nat 1) = Some (vs, fs)
    ∧ ∀ t : nat, (t < 1)%nat → keys3 !!! t = 3 →
        (∀ v, holds table3 3 v → fs !! t = Some 1 ∧ vs !! t = Some v)
        ∧ (lacks table3 3 → fs !! t = Some 0 ∧ vs !! t = Some 0).
Proof.
  apply (bulk_remove_frame table3 0 keys12 2 3 keys3 out1 out1 1).
  - apply table3_facts.
  - lia.
  - vm_compute. lia.
  - intros a b Ha Hb. rewrite !keys12_prefix by done. apply (keys123_distinct a b); lia.
  - intros t Ht. rewrite keys12_prefix by done. apply (table3_held t). lia.
  - lia.
  - vm_compute. lia.
  - vm_compute. lia.
  - vm_compute. lia.
  - intros [|[|t]] Ht; [vm_compute; intros [=] | vm_compute; intros [=] | lia].
Defined.

(** X12 on [table3]: its three keys are removed. *)
Lemma bulk_remove_keeps_wf_witness :
  ∃ (fuel0 : nat) m',
    (∀ fuel, (fuel0 ≤ fuel)%nat → SlabHash_Remove fuel table3 keys123 (Z.of_nat 3) = Some m')
    ∧ table_wf m'
    ∧ (∀ k, ComputeBucket m' k = ComputeBucket table3 k)
    ∧ (pairs_wf table3 → pairs_wf m')
    ∧ length (heap_ (pair_allocator_ctx_ m'))
      = (length (heap_ (pair_allocator_ctx_ table3)) + 3)%nat
    ∧ free_slab_count (slab_list_allocator_ctx_ m')
      = free_slab_count (slab_list_allocator_ctx_ table3)
    ∧ (∀ k, lacks table3 k → lacks m' k)
    ∧ (∀ k, single table3 k → single m' k).
Proof.
  apply (bulk_remove_keeps_wf table3 keys123 3).
  - apply table3_facts.
  - lia.
  - vm_compute. lia.
  - exact keys123_distinct.
  - intros t Ht. by apply table3_held.
Defined.

(** X13 on [table0]: the pairs (1,10), (2,20), (3,30) are inserted, removed
    and searched. *)
Lemma insert_remove_search_witness :
  ∃ fuel0 : nat, ∀ fuel, (fuel0 ≤ fuel)%nat → ∃ m1 m2 vs fs,
    SlabHash_Insert fuel table0 keys123 values123 (Z.of_nat 3)
    = Some (m1, (keys123, values123))
    ∧ SlabHash_Remove fuel m1 keys123 (Z.of_nat 3) = Some m2
    ∧ SlabHash_Search fuel m2 0 keys123 out3 out3 (Z.of_nat 3) = Some (vs, fs)
    ∧ (∀ t : nat, (t < 3)%nat → fs !! t = Some 0 ∧ vs !! t = Some 0)
    ∧ (length (heap_ (pair_allocator_ctx_ table0))
       ≤ length (heap_ (pair_allocator_ctx_ m2)))%nat.
Proof.
  apply (insert_remove_search table0 0 keys123 values123 3 out3 out3).
  - apply table0_wf.
  - apply table0_wf.
  - lia.
  - vm_compute. lia.
  - vm_compute. lia.
  - vm_compute. lia.
  - vm_compute. lia.
  - exact keys123_distinct.
  - intros t _. apply (SlabHash_new_lacks id_hash 1 64 1 1).
  - rewrite table0_heap. lia.
  - rewrite table0_slabs. lia.
Defined.

(** X14 on [table3]: warp 0 of a launch over its three keys. *)
Lemma warp_remove_all_witness :
  ∃ (steps : nat) w' m',
    (∀ fuel, Remove (steps + fuel) [] table3 (kernel_active 3 0)
               (kernel_buckets table3 keys123 3 0) (kernel_keys keys123 3 0)
             = Some (w', m'))
    ∧ table_wf m'
    ∧ removed (asked (kernel_active 3 0) (kernel_keys keys123 3 0)) table3 m'
    ∧ length (heap_ (pair_allocator_ctx_ m'))
      = (length (heap_ (pair_allocator_ctx_ table3))
         + length (asked (kernel_active 3 0) (kernel_keys keys123 3 0)))%nat
    ∧ (∀ i : nat, (i < 32)%nat →
         mask w' !! i = Some (bool_decide (kernel_active 3 0 !! i = Some true))).
Proof.
  apply (warp_remove_all table3 (kernel_active 3 0) (kernel_buckets table3 keys123 3 0)
           (kernel_keys keys123 3 0)).
  - apply table3_facts.
  - intros i Hi Ha. rewrite kernel_active_lookup in Ha by done.
    injection Ha as Ha. apply Z.ltb_lt in Ha.
    rewrite kernel_buckets_lookup, kernel_keys_lookup by done. done.
  - rewrite kernel_asked by lia. apply key_batch_NoDup.
    intros a b Ha Hb. apply keys123_distinct; lia.
  - rewrite kernel_asked by lia. intros k (t & Ht & ->)%elem_of_key_batch.
    apply table3_held. lia.
Defined.

(** X15 on [table5]: lane 0 asks for key 6, which the table lacks, and lane
    1 for key 5, which it holds. *)
Lemma warp_remove_miss_witness :
  ∃ (steps : nat) w',
    (∀ fuel, Remove (steps + fuel) [] table5 (kernel_active 2 0)
               (kernel_buckets table5 keys65 2 0) (kernel_keys keys65 2 0)
             = Some (w', table5))
    ∧ (∀ i : nat, (i < 32)%nat → mask w' !! i = Some false)
    ∧ (∀ i : nat, lane_active w' !! i ≠ Some true).
Proof.
  apply (warp_remove_miss table5 (kernel_active 2 0) (kernel_buckets table5 keys65 2 0)
           (kernel_keys keys65 2 0) 0).
  - apply table5_wf.
  - lia.
  - vm_compute. reflexivity.
  - intros j Hj. lia.
  - vm_compute. reflexivity.
  - rewrite kernel_keys_lookup by lia. exact table5_lacks.
Defined.

(** X16 on [table5]: the first pair slot of the head slab holds the pair
    index of key 5. *)
Lemma insert_overwrites_no_word_witness :
  (∀ envs act buckets (keys : list Z) (values : list Z) w' m',
     Forall (@keeps_word Z Z (HeadUnit 0)) envs →
     Insert 100 envs table5 act buckets keys values = Some (w', m') →
     deref m' (HeadUnit 0) = deref table5 (HeadUnit 0))
  ∧ (∀ (keys : list Z) (values : list Z) n r,
       SlabHash_Insert 100 table5 keys values n = Some r →
       deref r.1 (HeadUnit 0) = deref table5 (HeadUnit 0)).
Proof.
  apply (insert_overwrites_no_word 100 table5 (HeadUnit 0)).
  vm_compute. intros [=].
Defined.

(** X18 on [table5]: one query, result arrays of three entries. *)
Lemma search_writes_queries_only_witness :
  ∃ fuel0 : nat, ∀ fuel, (fuel0 ≤ fuel)%nat → ∃ values' founds',
    SlabHash_Search fuel table5 0 keys5 out3 out3 (Z.of_nat 1) = Some (values', founds')
    ∧ length values' = length out3 ∧ length founds' = length out3
    ∧ (∀ t : nat, (1 ≤ t)%nat → values' !! t = out3 !! t ∧ founds' !! t = out3 !! t)
    ∧ (1%nat = 0%nat → values' = out3 ∧ founds' = out3).
Proof.
  apply (search_writes_queries_only table5 0 keys5 out3 out3 1).
  - lia.
  - vm_compute. lia.
  - vm_compute. lia.
  - vm_compute. reflexivity.
  - apply (wf_chains table5), table5_wf.
Defined.

(** X19 for the geometry of [table0] and three queries. *)
Lemma new_table_is_empty_witness :
  table_wf (@SlabHash_new Z Z id_hash 1 64 1 1)
  ∧ pairs_wf (@SlabHash_new Z Z id_hash 1 64 1 1)
  ∧ (∀ k, lacks (@SlabHash_new Z Z id_hash 1 64 1 1) k)
  ∧ length (heap_ (pair_allocator_ctx_ (@SlabHash_new Z Z id_hash 1 64 1 1)))
    = Z.to_nat 64
  ∧ free_slab_count (slab_list_allocator_ctx_ (@SlabHash_new Z Z id_hash 1 64 1 1))
    = Z.of_nat (Z.to_nat (1 * 1 * 32)) * 32
  ∧ ∃ fuel0 : nat, ∀ fuel, (fuel0 ≤ fuel)%nat → ∃ vs fs,
      SlabHash_Search fuel (@SlabHash_new Z Z id_hash 1 64 1 1) 0 keys121
                      out3 out3 (Z.of_nat 3) = Some (vs, fs)
      ∧ ∀ t : nat, (t < 3)%nat → fs !! t = Some 0 ∧ vs !! t = Some 0.
Proof.
  apply (new_table_is_empty id_hash 1 64 1 1 0 keys121 out3 out3 3).
  - lia.
  - lia.
  - unfold HEAD_SLAB_PTR. lia.
  - lia.
  - lia.
  - vm_compute. lia.
  - vm_compute. lia.
Defined.

(** X22 on [table3]: its three keys get the values 40, 50, 60. *)
Lemma remove_insert_search_witness :
  ∃ fuel0 : nat, ∀ fuel, (fuel0 ≤ fuel)%nat → ∃ m1 m2 vs fs,
    SlabHash_Remove fuel table3 keys123 (Z.of_nat 3) = Some m1
    ∧ SlabHash_Insert fuel m1 keys123 values456 (Z.of_nat 3)
      = Some (m2, (keys123, values456))
    ∧ SlabHash_Search fuel m2 0 keys123 out3 out3 (Z.of_nat 3) = Some (vs, fs)
    ∧ ∀ t : nat, (t < 3)%nat → fs !! t = Some 1 ∧ vs !! t = Some (values456 !!! t).
Proof.
  apply (remove_insert_search table3 0 keys123 values456 3 out3 out3).
  - apply table3_facts.
  - apply table3_facts.
  - lia.
  - vm_compute. lia.
  - vm_compute. lia.
  - vm_compute. lia.
  - vm_compute. lia.
  - exact keys123_distinct.
  - exact table3_held.
  - vm_compute. intros [=].
Defined.

(** X23 on [table5]: thread 0 asks for key 6, which the table lacks, thread
    1 for key 5, which stays. *)
Lemma bulk_remove_misses_witness :
  ∃ fuel0 : nat, ∀ fuel, (fuel0 ≤ fuel)%nat →
    SlabHash_Remove fuel table5 keys65 (Z.of_nat 2) = Some table5.
Proof.
  apply (bulk_remove_misses table5 keys65 2).
  - apply table5_wf.
  - lia.
  - vm_compute. lia.
  - intros [|wid] Hwid; [exact table5_lacks | lia].
Defined.

(** X24 on [table3]: its three keys are removed twice. *)
Lemma bulk_remove_twice_witness :
  ∃ fuel0 : nat, ∀ fuel, (fuel0 ≤ fuel)%nat → ∃ m',
    SlabHash_Remove fuel table3 keys123 (Z.of_nat 3) = Some m'
    ∧ SlabHash_Remove fuel m' keys123 (Z.of_nat 3) = Some m'.
Proof.
  apply (bulk_remove_twice table3 keys123 3).
  - apply table3_facts.
  - lia.
  - vm_compute. lia.
  - exact keys123_distinct.
  - exact table3_held.
Defined.

(** ** The load factor of a table with 2^27 slabs *)





